(** * Tandem: device protocol and scan orchestration

    A shallow embedding of [src/instruments.py] (the instrument classes) and
    of the scan loop of [src/tandem.py] ([Ui.runScan], [Ui.check], [Ui.next],
    [Ui.plotIt], [Ui.endScan]).

    Numbers.  Python floats are idealised.  Where the code uses logarithms
    and non-integer powers (the sweep table, the mass-mobility range law)
    they are real numbers [R]; where it uses only field operations and
    comparisons (tolerance check, running averages, the scan loop) they are
    exact rationals [Q], which keeps those definitions executable.  Rounding
    is not modelled; a float division by zero raises, as in Python. *)

From Stdlib Require Import ZArith QArith Qabs String Ascii List Bool Lia.
From Stdlib Require Import Reals Lqa Lra.
Import ListNotations.

Set Implicit Arguments.


(* ===================================================================== *)
(** ** The sweep axis ([Classifier.__init__], [Classifier.getPoint])     *)
(* ===================================================================== *)

Module Sweep.
Local Open Scope R_scope.

(** [math.log10], for a positive argument.  On an argument that is not
    positive [math.log10] raises [ValueError]: that is [table] below. *)
Definition log10 (x : R) : R := ln x / ln 10.

(** [math.floor], an integer *)
Definition floor (x : R) : Z := Zfloor x.

(** The literal [0.00001] added before flooring. *)
Definition epsilon : R := 1 / 100000.

(** [self.points = math.floor(((perdec)*(math.log10(end)-math.log10(start)))+0.00001)+1] *)
Definition points (start end_ perdec : R) : Z :=
  (floor (perdec * (log10 end_ - log10 start) + epsilon) + 1)%Z.

(** [getPoint(p) = self.start*((10.0**(1.0/self.perdec))**p)], for a
    [perdec] other than 0.  With [perdec = 0] the division raises
    [ZeroDivisionError]: that is [table] below. *)
Definition ratio (perdec : R) : R := Rpower 10 (1 / perdec).

Definition getPoint (start perdec : R) (p : nat) : R :=
  start * (ratio perdec) ^ p.

(** The exceptions of the table computation. *)
Inductive Error := ValueError | ZeroDivisionError.

(** The table computation of [Classifier.__init__]:
    [math.log10(end)] and [math.log10(start)] raise [ValueError] on an
    argument that is not positive; [np.zeros(self.points)] raises
    [ValueError] on a negative length; and
    [for i in range(self.points): self.X[i] = self.getPoint(i)] raises
    [ZeroDivisionError] in its first round when [perdec] is 0. *)
Definition table (start end_ perdec : R) : Error + list R :=
  if Rle_dec end_ 0 then inl ValueError
  else if Rle_dec start 0 then inl ValueError
  else
    let n := points start end_ perdec in
    if (n <? 0)%Z then inl ValueError
    else if (n =? 0)%Z then inr []
    else if Req_dec_T perdec 0 then inl ZeroDivisionError
    else inr (map (getPoint start perdec) (seq 0 (Z.to_nat n))).

(** [self.X], when the constructor gets as far as having one. *)
Definition X (start end_ perdec : R) : option (list R) :=
  match table start end_ perdec with
  | inr xs => Some xs
  | inl _ => None
  end.

(** What the specification writes for the count: the logarithm of the quotient. *)
Definition spec_points (start end_ perdec : R) : Z :=
  (floor (perdec * log10 (end_ / start) + epsilon) + 1)%Z.

End Sweep.


(* ===================================================================== *)
(** ** Dynamic range ([AAC.__init__], [AAC.VarDiameter])                 *)
(* ===================================================================== *)

Module Range.
Local Open Scope R_scope.


Record Law := {
  PreFactor : R;
  Exponent : R;
  f_lower : R;
  f_upper : R
}.



(** Python's [pow(x, y)] on floats; [Rpower] agrees with it on a positive
    base, which is where the theorems use it.  On a base that is not
    positive Python gives 0.0, a complex number or [ZeroDivisionError];
    [VarDiameter] is called with a table entry, which is positive. *)
Definition pow (x y : R) : R := Rpower x y.

(** [dmStar = pow((mStar * (10 ** -18)) / K, 1 / Dm) * (10 ** 9)] *)
Definition dmStar (K Dm mStar : R) : R :=
  pow ((mStar * / 10 ^ 18) / K) (1 / Dm) * 10 ^ 9.

(** [VarDiameter]: the new [(self.start, self.end)]. *)
Definition VarDiameter (law : Law) (mStar : R) : R * R :=
  let d := dmStar (PreFactor law) (Exponent law) mStar in
  (pow d (f_lower law), pow d (f_upper law)).

End Range.

(* ===================================================================== *)
(** ** The device link ([Instrument], [CambustionClass.getRsp])          *)
(* ===================================================================== *)

Module Link.
Local Open Scope string_scope.

(** [s[0:len(v)] == v] *)
Definition match_ (s v : string) : bool :=
  String.eqb (substring 0 (String.length v) s) v.

(** [str.find]: the lowest index at which [sub] occurs, or -1. *)
Fixpoint find_from (sub s : string) (i : nat) : option nat :=
  if prefix sub s then Some i
  else match s with
       | EmptyString => None
       | String _ rest => find_from sub rest (S i)
       end.

Definition find (s sub : string) : Z :=
  match find_from sub s 0 with
  | Some i => Z.of_nat i
  | None => (-1)%Z
  end.

(** [s[0:k]]: a negative bound counts from the end. *)
Definition slice_to (s : string) (k : Z) : string :=
  if (0 <=? k)%Z then substring 0 (Z.to_nat k) s
  else substring 0 (Z.to_nat (Z.of_nat (String.length s) + k)) s.

(** [s.replace(c, "")] for a one-character [c] *)
Fixpoint remove_char (c : ascii) (s : string) : string :=
  match s with
  | EmptyString => EmptyString
  | String a rest =>
      if Ascii.eqb a c then remove_char c rest
      else String a (remove_char c rest)
  end.

(** The prompt that ends a Cambustion reply: ["\r\n>"]. *)
Definition cr : ascii := ascii_of_nat 13.
Definition lf : ascii := ascii_of_nat 10.
Definition gt : ascii := ">"%char.
Definition terminator : string := String cr (String lf (String gt EmptyString)).

(** One read on the transport: a decoded chunk, or an exception. *)
Inductive Read := Chunk (s : string) | IOError.

(** One turn of the receive loop as the environment decides it: whether
    [time.time()-start < self.timeout] still holds when the loop tests it,
    and what the read then gives. *)
Record Turn := { in_time : bool; read : Read }.

Record Instrument := {
  connected : bool;
  lastResponse : string;
  sent : list string
}.

Definition disconnect_ (i : Instrument) : Instrument :=
  {| connected := false; lastResponse := lastResponse i; sent := sent i |}.

(** [Instrument.getRspEth] / [getRspSerial]: one read, no framing. *)
Definition getRspBase (i : Instrument) (r : Read) : Instrument * string :=
  match r with
  | Chunk s => (i, s)
  | IOError => (disconnect_ i, "")
  end.

(** The tail of [CambustionClass.getRsp]:
    [chunks[0:chunks.find("\r\n>")].replace(">", "")] *)
Definition payload (chunks : string) : string :=
  remove_char gt (slice_to chunks (find chunks terminator)).

(** The loop of [CambustionClass.getRsp].  The turns are consumed one per
    iteration; when they run out the clock has passed the timeout. *)
Fixpoint getRspLoop (i : Instrument) (chunks : string) (turns : list Turn)
  : Instrument * string :=
  if (find chunks terminator <? 0)%Z then
    match turns with
    | [] => (i, payload chunks)
    | t :: rest =>
        if in_time t then
          match read t with
          | IOError => (disconnect_ i, "")
          | Chunk c => getRspLoop i (chunks ++ c) rest
          end
        else (i, payload chunks)
    end
  else (i, payload chunks).

Definition getRsp (i : Instrument) (turns : list Turn) : Instrument * string :=
  getRspLoop i "" turns.

(** [sendCmd]: the write either goes out or raises, which is swallowed. *)
Definition sendCmd (i : Instrument) (cmd : string) (write_ok : bool) : Instrument :=
  if write_ok then
    {| connected := connected i; lastResponse := lastResponse i;
       sent := sent i ++ [cmd ++ String cr (String lf EmptyString)] |}
  else disconnect_ i.

Definition set_lastResponse (i : Instrument) (r : string) : Instrument :=
  {| connected := connected i; lastResponse := r; sent := sent i |}.

(** [CambustionClass.sendAndCheck] *)
Definition sendAndCheckCambustion (i : Instrument) (cmd : string)
    (write_ok : bool) (turns : list Turn) : Instrument * bool :=
  let (i1, r) := getRsp (sendCmd i cmd write_ok) turns in
  (set_lastResponse i1 r, match_ r "OK").

(** [TSIDma.sendAndCheck] *)
Definition sendAndCheckTSI (i : Instrument) (cmd : string)
    (write_ok : bool) (r : Read) : Instrument * bool :=
  let (i1, r) := getRspBase (sendCmd i cmd write_ok) r in
  (set_lastResponse i1 r, negb (match_ r "ERROR")).

(** How the claims word the two checks. *)
Definition begins_with (r v : string) : Prop := exists rest, r = v ++ rest.

End Link.

(* ===================================================================== *)
(** ** Tolerance readiness ([TSI3082.isReady])                           *)
(* ===================================================================== *)

Module Tolerance.
Local Open Scope Q_scope.

(** [tolerance = 0.05] *)
Definition tolerance : Q := 5 # 100.

Definition Qltb (a b : Q) : bool := negb (Qle_bool b a).

(** Float division: Python raises [ZeroDivisionError] on a zero divisor. *)
Definition fdiv (a b : Q) : option Q :=
  if Qeq_bool b 0 then None else Some (a / b).

(** [abs((s-m)/s) < self.tolerance] *)
Definition within (s m : Q) : option bool :=
  match fdiv (s - m) s with
  | Some q => Some (Qltb (Qabs q) tolerance)
  | None => None
  end.

(** [isReady], on the four readings [float(r[...])]; [None] is the
    [ZeroDivisionError].  [and] evaluates its right operand only when the
    left one holds. *)
Definition isReady (isScanner : bool) (ss sm vs vm : Q) : option bool :=
  if isScanner then Some true
  else match within ss sm with
       | None => None
       | Some false => Some false
       | Some true => within vs vm
       end.

(** The condition as the specification words it, per channel:
    [|s - f| / s < tolerance]. *)
Definition spec_within (s f : Q) : Prop := Qabs (s - f) / s < tolerance.

Definition spec_ready (ss sm vs vm : Q) : Prop :=
  spec_within ss sm /\ spec_within vs vm.

End Tolerance.

(* ===================================================================== *)
(** ** Python values: exceptions, dictionaries, numpy indexing           *)
(* ===================================================================== *)

Module Py.

Inductive Exn :=
  AttributeError | IndexError | ZeroDivisionError | ValueError | TypeError.

(** A computation over a state [S]: it returns a value or raises, and in
    both cases leaves the state as mutated so far. *)
Inductive Res (S A : Type) :=
| Val (a : A) (s : S)
| Raise (e : Exn) (s : S).
Arguments Val {S A} a s.
Arguments Raise {S A} e s.

Definition M (S A : Type) := S -> Res S A.

Definition ret {S A} (a : A) : M S A := fun s => Val a s.
Definition raise {S A} (e : Exn) : M S A := fun s => Raise e s.
Definition bind {S A B} (m : M S A) (k : A -> M S B) : M S B :=
  fun s => match m s with
           | Val a s1 => k a s1
           | Raise e s1 => Raise e s1
           end.
Definition gets {S A} (f : S -> A) : M S A := fun s => Val (f s) s.
Definition modify {S} (f : S -> S) : M S unit := fun s => Val tt (f s).

Definition state_of {S A} (r : Res S A) : S :=
  match r with Val _ s => s | Raise _ s => s end.

(** A cell of a log row: a float or a text. *)
Inductive Cell := Num (q : Q) | Txt (s : string).

(** A [dict] with string keys, in insertion order. *)
Definition dict := list (string * Cell).

Fixpoint dict_get (k : string) (d : dict) : option Cell :=
  match d with
  | [] => None
  | (k1, v) :: rest => if String.eqb k k1 then Some v else dict_get k rest
  end.

(** [d[k] = v]: an existing key keeps its place. *)
Fixpoint dict_set (k : string) (v : Cell) (d : dict) : dict :=
  match d with
  | [] => [(k, v)]
  | (k1, v1) :: rest =>
      if String.eqb k k1 then (k1, v) :: rest
      else (k1, v1) :: dict_set k v rest
  end.

(** [{**a, **b}] *)
Definition dict_merge (a b : dict) : dict :=
  fold_left (fun d kv => dict_set (fst kv) (snd kv) d) b a.

(** numpy indexing along one axis of length [n]: a negative index counts
    from the end, anything else out of range raises [IndexError]. *)
Definition np_index (n : nat) (i : Z) : option nat :=
  if ((0 <=? i) && (i <? Z.of_nat n))%Z then Some (Z.to_nat i)
  else if ((- Z.of_nat n <=? i) && (i <? 0))%Z then Some (Z.to_nat (Z.of_nat n + i))
  else None.

Definition np_get {A} (l : list A) (i : Z) : option A :=
  match np_index (List.length l) i with
  | Some k => nth_error l k
  | None => None
  end.

Fixpoint list_set {A} (l : list A) (k : nat) (v : A) : list A :=
  match l, k with
  | [], _ => []
  | _ :: rest, O => v :: rest
  | a :: rest, S k' => a :: list_set rest k' v
  end.

Definition np_set {A} (l : list A) (i : Z) (v : A) : option (list A) :=
  match np_index (List.length l) i with
  | Some k => Some (list_set l k v)
  | None => None
  end.

(** [M[i, j] = v] on a two-dimensional array *)
Definition np_set2 {A} (m : list (list A)) (i j : Z) (v : A) : option (list (list A)) :=
  match np_index (List.length m) i with
  | Some k =>
      match nth_error m k with
      | Some row =>
          match np_set row j v with
          | Some row' => Some (list_set m k row')
          | None => None
          end
      | None => None
      end
  | None => None
  end.

(** [np.zeros(n)], [np.zeros((n, m))] *)
Definition zeros (n : nat) : list Q := repeat 0%Q n.
Definition zeros2 (n m : nat) : list (list Q) := repeat (zeros m) n.

End Py.

Declare Scope py_scope.
Delimit Scope py_scope with py.
Notation "x <- c ;; k" := (Py.bind c (fun x => k))
  (at level 61, c at next level, right associativity) : py_scope.
Notation "c ;;; k" := (Py.bind c (fun _ => k))
  (at level 61, right associativity) : py_scope.

(* ===================================================================== *)
(** ** The classifier families                                           *)
(* ===================================================================== *)

Module Classes.
Local Open Scope string_scope.

Inductive Kind := CPMA | AAC | TSI3080 | TSI3082.

Definition isCambustion (k : Kind) : bool :=
  match k with CPMA | AAC => true | TSI3080 | TSI3082 => false end.

(** [quantity] *)
Definition quantity (k : Kind) : string :=
  match k with
  | CPMA => "Mp (fg)"
  | AAC => "Da (nm)"
  | TSI3080 | TSI3082 => "Dm (nm)"
  end.

(** [valueFields] *)
Definition valueFields (k : Kind) : list string :=
  match k with
  | CPMA => ["Speed (rad/s)"; "Voltage (V)"; "Pressure (Pa)"; "Temperature (C)"]
  | AAC => ["Speed (rad/s)"; "Sheath flow (lpm)"; "Pressure (Pa)"; "Temperature (C)"]
  | TSI3080 => ["Sheath flow (lpm)"; "Voltage (V)"; "Temperature (C)"; "Pressure (mbar)"]
  | TSI3082 => ["Temperature (C)"; "Pressure (kPa)"]
  end.

(** [fileFields = [self.quantity]+self.valueFields] *)
Definition fileFields (k : Kind) : list string := quantity k :: valueFields k.

(** The command of [set]: [SetMass], [SetSize], [sizeCommand]. *)
Definition sizeCommand (k : Kind) : string :=
  match k with
  | CPMA => "SetMass"
  | AAC => "SetSize"
  | TSI3080 => "SPD"
  | TSI3082 => "WSPARTICLEDIAM "
  end.

(** The command of [setRorQsh]: [SetRm], [SetSheath], [sheathCommand]. *)
Definition sheathCommand (k : Kind) : string :=
  match k with
  | CPMA => "SetRm"
  | AAC => "SetSheath"
  | TSI3080 => "SQS"
  | TSI3082 => "WSSHFLOW "
  end.

(** The queries of [doMonitorCmd]: the one [monitorCmd], or the values of
    [TSI3082.monitorCmds] in order. *)
Definition monitorCmds (k : Kind) : list string :=
  match k with
  | CPMA | AAC => ["monitor"]
  | TSI3080 => ["RMV"]
  | TSI3082 => ["RSSHFLOW"; "RMSHFLOW"; "RSHV"; "RMHV"; "RMSHTEMP"; "RMSHAP"; "RMERRORS"]
  end.

Inductive CpcKind := DummyCPC | CambustionCPC | TSICpc | MagicCpc.

(** [{self.valueFields[i]: 0.0 for i in range(len(self.valueFields))}] *)
Definition zeroValues (k : Kind) : list (string * Q) :=
  map (fun f => (f, 0%Q)) (valueFields k).

Fixpoint lookup (f : string) (vals : list (string * Q)) : option Q :=
  match vals with
  | [] => None
  | (g, v) :: rest => if String.eqb f g then Some v else lookup f rest
  end.

Fixpoint traverse {A B} (f : A -> option B) (l : list A) : option (list B) :=
  match l with
  | [] => Some []
  | a :: rest =>
      match f a, traverse f rest with
      | Some b, Some bs => Some (b :: bs)
      | _, _ => None
      end
  end.

(** The new [self.values] of [monitor]:
    [{f: self.values[f] + float(r[f]) for f in valueFields}], where [r f]
    is [float(r[f])] and [None] where that raises. *)
Definition accumulate (fields : list string) (vals : list (string * Q))
    (r : string -> option Q) : option (list (string * Q)) :=
  traverse (fun f => match lookup f vals, r f with
                     | Some a, Some b => Some (f, (a + b)%Q)
                     | _, _ => None
                     end) fields.

(** The comprehension of [getFileData]:
    [{f: self.values[f]/float(self.tally) for f in valueFields}];
    the division raises on a zero tally. *)
Definition averages (fields : list string) (vals : list (string * Q)) (tally : Z)
  : option (list (string * Q)) :=
  traverse (fun f => match lookup f vals with
                     | Some a =>
                         match Tolerance.fdiv a (inject_Z tally) with
                         | Some q => Some (f, q)
                         | None => None
                         end
                     | None => None
                     end) fields.

End Classes.

(* ===================================================================== *)
(** ** The scan: devices, the window's state, and the timer loop         *)
(* ===================================================================== *)

Module Scan.
Import Py Classes.
Local Open Scope string_scope.
Local Open Scope py_scope.

(** The two classifier attributes of the window. *)
Inductive Slot := First | Second.

Inductive Dev := Class (s : Slot) | Counter | Relay.

(** A command as written to a device: a fixed text, or a name followed by a
    formatted float (["%0.4E"] or ["%0.1F"]; the formatting is not modelled). *)
Inductive Cmd := Text (s : string) | Float (name : string) (v : Q).

(** Where [app.processEvents()] is called. *)
Inductive Site :=
| Status              (* [updateStatus], [endScan] *)
| Delay1              (* the settle delay after the first classifier *)
| Delay2              (* the settle delay after the second classifier *)
| AfterFirstMonitor   (* averaging loop, after [firstClass.monitor()] *)
| AfterSecondMonitor  (* averaging loop, after [secondClass.monitor()] *)
| Wait.               (* averaging loop, the wait for the next second *)

(** What the program does to the outside, newest first in [trace]. *)
Inductive Event :=
| Sent (d : Dev) (c : Cmd)          (* a command written to a device *)
| Sampled (v : Q)                   (* [cpc.conc()] returned [v] *)
| Pumped (s : Site) (stop : bool)   (* [processEvents]; [stop]: the stop button was pressed *)
| Row (data : dict)                 (* [writer.writerow(self.fileData)] *)
| Closed                            (* [self.file.close()] *)
| Released (d : Dev)                (* [del]: the object's [__del__] disconnects *)
| Warned (msg : string)             (* [QMessageBox.warning] *)
| FinalPlot                         (* the "plot final step" of a scan that ran to its end *)
| Raised (e : Py.Exn).              (* an exception left the slot *)

(** The environment: what the devices, the clock and the user do.  Device
    answers are indexed by the number of exchanges made so far. *)
Record Env := {
  (** [connect()] *)
  connects : Dev -> bool;
  (** the decoded response to a query; [None]: the transport raised, which
      the link swallows, giving [""] and [connected = False] *)
  reply : nat -> Dev -> Cmd -> option string;
  (** [float(r[field])] for the monitor exchange begun at this step;
      [None]: the field is missing or is not a number *)
  reading : nat -> Dev -> string -> option Q;
  (** the counter's concentration, [float(...)] of its answer; [None]: not a number *)
  concentration : nat -> option Q;
  (** how many times the wait loop of the averaging turns *)
  waits : nat -> nat;
  (** whether the stop button is pressed during the n-th [processEvents] *)
  stop : nat -> bool
}.

Record Classifier := {
  kind : Kind;
  start : Q;
  flow : Q;
  RorQsh : Q;
  sampleFlow : option Q;
  points : Z;
  point : Z;
  X : list Q;
  x : Q;
  values : option (list (string * Q));
  tally : option Z;
  connected : bool;
  lastResponse : string
}.

Definition set_kind (v : Kind) (r : Classifier) : Classifier :=
  {| kind := v; start := start r; flow := flow r; RorQsh := RorQsh r; sampleFlow := sampleFlow r; points := points r; point := point r; X := X r; x := x r; values := values r; tally := tally r; connected := connected r; lastResponse := lastResponse r |}.

Definition set_start (v : Q) (r : Classifier) : Classifier :=
  {| kind := kind r; start := v; flow := flow r; RorQsh := RorQsh r; sampleFlow := sampleFlow r; points := points r; point := point r; X := X r; x := x r; values := values r; tally := tally r; connected := connected r; lastResponse := lastResponse r |}.

Definition set_flow (v : Q) (r : Classifier) : Classifier :=
  {| kind := kind r; start := start r; flow := v; RorQsh := RorQsh r; sampleFlow := sampleFlow r; points := points r; point := point r; X := X r; x := x r; values := values r; tally := tally r; connected := connected r; lastResponse := lastResponse r |}.

Definition set_RorQsh (v : Q) (r : Classifier) : Classifier :=
  {| kind := kind r; start := start r; flow := flow r; RorQsh := v; sampleFlow := sampleFlow r; points := points r; point := point r; X := X r; x := x r; values := values r; tally := tally r; connected := connected r; lastResponse := lastResponse r |}.

Definition set_sampleFlow (v : option Q) (r : Classifier) : Classifier :=
  {| kind := kind r; start := start r; flow := flow r; RorQsh := RorQsh r; sampleFlow := v; points := points r; point := point r; X := X r; x := x r; values := values r; tally := tally r; connected := connected r; lastResponse := lastResponse r |}.

Definition set_points (v : Z) (r : Classifier) : Classifier :=
  {| kind := kind r; start := start r; flow := flow r; RorQsh := RorQsh r; sampleFlow := sampleFlow r; points := v; point := point r; X := X r; x := x r; values := values r; tally := tally r; connected := connected r; lastResponse := lastResponse r |}.

Definition set_point (v : Z) (r : Classifier) : Classifier :=
  {| kind := kind r; start := start r; flow := flow r; RorQsh := RorQsh r; sampleFlow := sampleFlow r; points := points r; point := v; X := X r; x := x r; values := values r; tally := tally r; connected := connected r; lastResponse := lastResponse r |}.

Definition set_X (v : list Q) (r : Classifier) : Classifier :=
  {| kind := kind r; start := start r; flow := flow r; RorQsh := RorQsh r; sampleFlow := sampleFlow r; points := points r; point := point r; X := v; x := x r; values := values r; tally := tally r; connected := connected r; lastResponse := lastResponse r |}.

Definition set_x (v : Q) (r : Classifier) : Classifier :=
  {| kind := kind r; start := start r; flow := flow r; RorQsh := RorQsh r; sampleFlow := sampleFlow r; points := points r; point := point r; X := X r; x := v; values := values r; tally := tally r; connected := connected r; lastResponse := lastResponse r |}.

Definition set_values (v : option (list (string * Q))) (r : Classifier) : Classifier :=
  {| kind := kind r; start := start r; flow := flow r; RorQsh := RorQsh r; sampleFlow := sampleFlow r; points := points r; point := point r; X := X r; x := x r; values := v; tally := tally r; connected := connected r; lastResponse := lastResponse r |}.

Definition set_tally (v : option Z) (r : Classifier) : Classifier :=
  {| kind := kind r; start := start r; flow := flow r; RorQsh := RorQsh r; sampleFlow := sampleFlow r; points := points r; point := point r; X := X r; x := x r; values := values r; tally := v; connected := connected r; lastResponse := lastResponse r |}.

Definition set_connected (v : bool) (r : Classifier) : Classifier :=
  {| kind := kind r; start := start r; flow := flow r; RorQsh := RorQsh r; sampleFlow := sampleFlow r; points := points r; point := point r; X := X r; x := x r; values := values r; tally := tally r; connected := v; lastResponse := lastResponse r |}.

Definition set_lastResponse (v : string) (r : Classifier) : Classifier :=
  {| kind := kind r; start := start r; flow := flow r; RorQsh := RorQsh r; sampleFlow := sampleFlow r; points := points r; point := point r; X := X r; x := x r; values := values r; tally := tally r; connected := connected r; lastResponse := v |}.


Record Cpc := {
  ckind : CpcKind;
  cisSerial : bool;
  cconnected : bool
}.

Record World := {
  clock : nat;
  pumps : nat;
  trace : list Event;
  firstClass : option Classifier;
  secondClass : option Classifier;
  cpc : option Cpc;
  arduino : option bool;
  isScanning : bool;
  timer : bool;
  doBypass : bool;
  finalBypass : bool;
  firstBypass : bool;
  disBypass : bool;
  startRow : bool;
  Scatterplot : bool;
  fileData : dict;
  Zm : list (list Q);
  G : list Q
}.

Definition set_clock (v : nat) (r : World) : World :=
  {| clock := v; pumps := pumps r; trace := trace r; firstClass := firstClass r; secondClass := secondClass r; cpc := cpc r; arduino := arduino r; isScanning := isScanning r; timer := timer r; doBypass := doBypass r; finalBypass := finalBypass r; firstBypass := firstBypass r; disBypass := disBypass r; startRow := startRow r; Scatterplot := Scatterplot r; fileData := fileData r; Zm := Zm r; G := G r |}.

Definition set_pumps (v : nat) (r : World) : World :=
  {| clock := clock r; pumps := v; trace := trace r; firstClass := firstClass r; secondClass := secondClass r; cpc := cpc r; arduino := arduino r; isScanning := isScanning r; timer := timer r; doBypass := doBypass r; finalBypass := finalBypass r; firstBypass := firstBypass r; disBypass := disBypass r; startRow := startRow r; Scatterplot := Scatterplot r; fileData := fileData r; Zm := Zm r; G := G r |}.

Definition set_trace (v : list Event) (r : World) : World :=
  {| clock := clock r; pumps := pumps r; trace := v; firstClass := firstClass r; secondClass := secondClass r; cpc := cpc r; arduino := arduino r; isScanning := isScanning r; timer := timer r; doBypass := doBypass r; finalBypass := finalBypass r; firstBypass := firstBypass r; disBypass := disBypass r; startRow := startRow r; Scatterplot := Scatterplot r; fileData := fileData r; Zm := Zm r; G := G r |}.

Definition set_firstClass (v : option Classifier) (r : World) : World :=
  {| clock := clock r; pumps := pumps r; trace := trace r; firstClass := v; secondClass := secondClass r; cpc := cpc r; arduino := arduino r; isScanning := isScanning r; timer := timer r; doBypass := doBypass r; finalBypass := finalBypass r; firstBypass := firstBypass r; disBypass := disBypass r; startRow := startRow r; Scatterplot := Scatterplot r; fileData := fileData r; Zm := Zm r; G := G r |}.

Definition set_secondClass (v : option Classifier) (r : World) : World :=
  {| clock := clock r; pumps := pumps r; trace := trace r; firstClass := firstClass r; secondClass := v; cpc := cpc r; arduino := arduino r; isScanning := isScanning r; timer := timer r; doBypass := doBypass r; finalBypass := finalBypass r; firstBypass := firstBypass r; disBypass := disBypass r; startRow := startRow r; Scatterplot := Scatterplot r; fileData := fileData r; Zm := Zm r; G := G r |}.

Definition set_cpc (v : option Cpc) (r : World) : World :=
  {| clock := clock r; pumps := pumps r; trace := trace r; firstClass := firstClass r; secondClass := secondClass r; cpc := v; arduino := arduino r; isScanning := isScanning r; timer := timer r; doBypass := doBypass r; finalBypass := finalBypass r; firstBypass := firstBypass r; disBypass := disBypass r; startRow := startRow r; Scatterplot := Scatterplot r; fileData := fileData r; Zm := Zm r; G := G r |}.

Definition set_arduino (v : option bool) (r : World) : World :=
  {| clock := clock r; pumps := pumps r; trace := trace r; firstClass := firstClass r; secondClass := secondClass r; cpc := cpc r; arduino := v; isScanning := isScanning r; timer := timer r; doBypass := doBypass r; finalBypass := finalBypass r; firstBypass := firstBypass r; disBypass := disBypass r; startRow := startRow r; Scatterplot := Scatterplot r; fileData := fileData r; Zm := Zm r; G := G r |}.

Definition set_isScanning (v : bool) (r : World) : World :=
  {| clock := clock r; pumps := pumps r; trace := trace r; firstClass := firstClass r; secondClass := secondClass r; cpc := cpc r; arduino := arduino r; isScanning := v; timer := timer r; doBypass := doBypass r; finalBypass := finalBypass r; firstBypass := firstBypass r; disBypass := disBypass r; startRow := startRow r; Scatterplot := Scatterplot r; fileData := fileData r; Zm := Zm r; G := G r |}.

Definition set_timer (v : bool) (r : World) : World :=
  {| clock := clock r; pumps := pumps r; trace := trace r; firstClass := firstClass r; secondClass := secondClass r; cpc := cpc r; arduino := arduino r; isScanning := isScanning r; timer := v; doBypass := doBypass r; finalBypass := finalBypass r; firstBypass := firstBypass r; disBypass := disBypass r; startRow := startRow r; Scatterplot := Scatterplot r; fileData := fileData r; Zm := Zm r; G := G r |}.

Definition set_doBypass (v : bool) (r : World) : World :=
  {| clock := clock r; pumps := pumps r; trace := trace r; firstClass := firstClass r; secondClass := secondClass r; cpc := cpc r; arduino := arduino r; isScanning := isScanning r; timer := timer r; doBypass := v; finalBypass := finalBypass r; firstBypass := firstBypass r; disBypass := disBypass r; startRow := startRow r; Scatterplot := Scatterplot r; fileData := fileData r; Zm := Zm r; G := G r |}.

Definition set_finalBypass (v : bool) (r : World) : World :=
  {| clock := clock r; pumps := pumps r; trace := trace r; firstClass := firstClass r; secondClass := secondClass r; cpc := cpc r; arduino := arduino r; isScanning := isScanning r; timer := timer r; doBypass := doBypass r; finalBypass := v; firstBypass := firstBypass r; disBypass := disBypass r; startRow := startRow r; Scatterplot := Scatterplot r; fileData := fileData r; Zm := Zm r; G := G r |}.

Definition set_firstBypass (v : bool) (r : World) : World :=
  {| clock := clock r; pumps := pumps r; trace := trace r; firstClass := firstClass r; secondClass := secondClass r; cpc := cpc r; arduino := arduino r; isScanning := isScanning r; timer := timer r; doBypass := doBypass r; finalBypass := finalBypass r; firstBypass := v; disBypass := disBypass r; startRow := startRow r; Scatterplot := Scatterplot r; fileData := fileData r; Zm := Zm r; G := G r |}.

Definition set_disBypass (v : bool) (r : World) : World :=
  {| clock := clock r; pumps := pumps r; trace := trace r; firstClass := firstClass r; secondClass := secondClass r; cpc := cpc r; arduino := arduino r; isScanning := isScanning r; timer := timer r; doBypass := doBypass r; finalBypass := finalBypass r; firstBypass := firstBypass r; disBypass := v; startRow := startRow r; Scatterplot := Scatterplot r; fileData := fileData r; Zm := Zm r; G := G r |}.

Definition set_startRow (v : bool) (r : World) : World :=
  {| clock := clock r; pumps := pumps r; trace := trace r; firstClass := firstClass r; secondClass := secondClass r; cpc := cpc r; arduino := arduino r; isScanning := isScanning r; timer := timer r; doBypass := doBypass r; finalBypass := finalBypass r; firstBypass := firstBypass r; disBypass := disBypass r; startRow := v; Scatterplot := Scatterplot r; fileData := fileData r; Zm := Zm r; G := G r |}.

Definition set_Scatterplot (v : bool) (r : World) : World :=
  {| clock := clock r; pumps := pumps r; trace := trace r; firstClass := firstClass r; secondClass := secondClass r; cpc := cpc r; arduino := arduino r; isScanning := isScanning r; timer := timer r; doBypass := doBypass r; finalBypass := finalBypass r; firstBypass := firstBypass r; disBypass := disBypass r; startRow := startRow r; Scatterplot := v; fileData := fileData r; Zm := Zm r; G := G r |}.

Definition set_fileData (v : dict) (r : World) : World :=
  {| clock := clock r; pumps := pumps r; trace := trace r; firstClass := firstClass r; secondClass := secondClass r; cpc := cpc r; arduino := arduino r; isScanning := isScanning r; timer := timer r; doBypass := doBypass r; finalBypass := finalBypass r; firstBypass := firstBypass r; disBypass := disBypass r; startRow := startRow r; Scatterplot := Scatterplot r; fileData := v; Zm := Zm r; G := G r |}.

Definition set_Zm (v : list (list Q)) (r : World) : World :=
  {| clock := clock r; pumps := pumps r; trace := trace r; firstClass := firstClass r; secondClass := secondClass r; cpc := cpc r; arduino := arduino r; isScanning := isScanning r; timer := timer r; doBypass := doBypass r; finalBypass := finalBypass r; firstBypass := firstBypass r; disBypass := disBypass r; startRow := startRow r; Scatterplot := Scatterplot r; fileData := fileData r; Zm := v; G := G r |}.

Definition set_G (v : list Q) (r : World) : World :=
  {| clock := clock r; pumps := pumps r; trace := trace r; firstClass := firstClass r; secondClass := secondClass r; cpc := cpc r; arduino := arduino r; isScanning := isScanning r; timer := timer r; doBypass := doBypass r; finalBypass := finalBypass r; firstBypass := firstBypass r; disBypass := disBypass r; startRow := startRow r; Scatterplot := Scatterplot r; fileData := fileData r; Zm := Zm r; G := v |}.


(** What the user entered in the window. *)
Record Config := {
  firstKind : Kind;
  firstStart : Q;
  (** the first sweep table, [Sweep.X] as floats *)
  firstX : list Q;
  firstQa : Q;
  firstRorQsh : Q;
  firstPolarity : bool;
  secondKind : Kind;
  secondStart : Q;
  secondX : list Q;
  secondQa : Q;
  secondRorQsh : Q;
  secondPolarity : bool;
  cpcKind : CpcKind;
  cpcIsSerial : bool;
  (** [self.Bypass.isChecked()] *)
  Bypass : bool;
  (** [int(float(self.firstDelay.toPlainText())*10.0)] *)
  firstDelay : nat;
  (** [int(float(self.secondDelay.toPlainText())*10.0)] *)
  secondDelay : nat;
  (** [int(self.average.toPlainText())] *)
  average : Z
}.

Definition W := Py.M World.

Definition slot (s : Slot) (w : World) : option Classifier :=
  match s with First => firstClass w | Second => secondClass w end.

Definition set_slot (s : Slot) (c : option Classifier) (w : World) : World :=
  match s with First => set_firstClass c w | Second => set_secondClass c w end.

(** [self.firstClass] / [self.secondClass]: a deleted attribute raises. *)
Definition getC (s : Slot) : W Classifier :=
  fun w => match slot s w with
           | Some c => Val c w
           | None => Raise AttributeError w
           end.

Definition putC (s : Slot) (c : Classifier) : W unit :=
  modify (set_slot s (Some c)).

Definition getCpc : W Cpc :=
  fun w => match cpc w with
           | Some c => Val c w
           | None => Raise AttributeError w
           end.

Definition log (e : Event) : W unit :=
  modify (fun w => set_trace (e :: trace w) w).

(** The next exchange number. *)
Definition step : W nat :=
  fun w => Val (clock w) (set_clock (S (clock w)) w).

Definition when (b : bool) (m : W unit) : W unit := if b then m else ret tt.

Section WithEnv.
Variable E : Env.
Variable cfg : Config.

(** *** [Instrument]: queries *)

(** [sendQuery]: write, wait, read. *)
Definition sendQuery (s : Slot) (cmd : Cmd) : W string :=
  n <- step ;;
  log (Sent (Class s) cmd) ;;;
  match reply E n (Class s) cmd with
  | Some r => ret r
  | None =>
      c <- getC s ;;
      putC s (set_connected false c) ;;;
      ret ""
  end.

(** [CambustionClass.sendAndCheck], [TSIDma.sendAndCheck] *)
Definition sendAndCheck (s : Slot) (cmd : Cmd) : W bool :=
  r <- sendQuery s cmd ;;
  c <- getC s ;;
  putC s (set_lastResponse r c) ;;;
  ret (if isCambustion (kind c) then Link.match_ r "OK"
       else negb (Link.match_ r "ERROR")).

(** [sendFloat] *)
Definition sendFloat (s : Slot) (name : string) (v : Q) : W bool :=
  sendAndCheck s (Float name v).

(** [set]: the set-setpoint command *)
Definition set (s : Slot) (v : Q) : W bool :=
  c <- getC s ;;
  sendFloat s (sizeCommand (kind c)) v.

(** *** [Classifier] *)

(** [Classifier.next] *)
Definition next (s : Slot) : W bool :=
  c <- getC s ;;
  let c1 := set_point (point c + 1)
              (set_tally (Some 0%Z)
                 (set_values (Some (zeroValues (kind c))) c)) in
  putC s c1 ;;;
  match np_get (X c1) (point c1) with
  | None => raise IndexError
  | Some v =>
      putC s (set_x v c1) ;;;
      set s v
  end.

(** [Classifier.moreToCome] *)
Definition moreToCome (s : Slot) : W bool :=
  c <- getC s ;;
  ret (point c + 1 <? points c)%Z.

(** [Classifier.reset] *)
Definition reset (s : Slot) : W unit :=
  c <- getC s ;;
  putC s (set_point (-1)%Z c).

Fixpoint sendQueries (s : Slot) (cmds : list string) : W unit :=
  match cmds with
  | [] => ret tt
  | c :: rest => sendQuery s (Text c) ;;; sendQueries s rest
  end.

(** [doMonitorCmd]: the queries go out; the result is the table of the
    returned fields, read here through [float()].  A field that is missing
    from the reply or is no number reads as [None] (in [monitor] the one is
    a [KeyError], the other a [ValueError]); a reply of a CPMA, an AAC or a
    3080 with more fields than [monitorFields], on which the dict
    comprehension raises [IndexError], is not part of the model. *)
Definition doMonitorCmd (s : Slot) : W (string -> option Q) :=
  c <- getC s ;;
  n <- gets clock ;;
  sendQueries s (monitorCmds (kind c)) ;;;
  ret (reading E n (Class s)).

(** [Classifier.monitor] *)
Definition monitor (s : Slot) : W unit :=
  r <- doMonitorCmd s ;;
  c <- getC s ;;
  match values c with
  | None => raise AttributeError
  | Some vals =>
      match accumulate (valueFields (kind c)) vals r with
      | None => raise ValueError
      | Some vals' =>
          putC s (set_values (Some vals') c) ;;;
          match tally c with
          | None => raise AttributeError
          | Some t => putC s (set_tally (Some (t + 1)%Z) (set_values (Some vals') c))
          end
      end
  end.

(** [Classifier.getFileData] *)
Definition getFileData (s : Slot) : W dict :=
  c <- getC s ;;
  match values c with
  | None => raise AttributeError
  | Some vals =>
      match tally c with
      | None => raise AttributeError
      | Some t =>
          match averages (valueFields (kind c)) vals t with
          | None => raise ZeroDivisionError
          | Some avs =>
              ret (dict_merge [(quantity (kind c), Num (x c))]
                     (map (fun fv => (fst fv, Num (snd fv))) avs))
          end
      end
  end.

(** [isReady], stepped mode: a status text for the Cambustion classifiers
    and the 3080, the tolerance check for the 3082. *)
Definition isReady (s : Slot) : W bool :=
  c <- getC s ;;
  match kind c with
  | CPMA | AAC =>
      r <- sendQuery s (Text "Status") ;;
      ret (Link.match_ r "Running")
  | TSI3080 =>
      r <- sendQuery s (Text "RFL") ;;
      ret (Link.match_ r "1,1,1" || Link.match_ r "1,0,1")
  | TSI3082 =>
      r <- doMonitorCmd s ;;
      match r "Sheath flow SP (lpm)", r "Sheath flow (lpm)",
            r "Voltage SP (V)", r "Voltage (V)" with
      | Some ss, Some sm, Some vs, Some vm =>
          match Tolerance.isReady false ss sm vs vm with
          | Some b => ret b
          | None => raise ZeroDivisionError
          end
      | _, _, _, _ => raise ValueError
      end
  end.

(** [run] *)
Definition run (s : Slot) : W bool :=
  c <- getC s ;;
  if isCambustion (kind c) then sendAndCheck s (Text "start") else ret true.

(** [stop] *)
Definition stop_ (s : Slot) : W bool :=
  c <- getC s ;;
  if isCambustion (kind c) then sendAndCheck s (Text "stop") else ret true.

(** [StopScan], on a stepped classifier: the AAC writes ctrl-C, the 3082
    sends [DOABORTSCAN]; the other classes have no such method. *)
Definition StopScan (s : Slot) : W unit :=
  c <- getC s ;;
  match kind c with
  | AAC => log (Sent (Class s) (Text "^C"))
  | TSI3082 => sendAndCheck s (Text "DOABORTSCAN") ;;; ret tt
  | CPMA | TSI3080 => raise AttributeError
  end.

(** [StartScan], on a stepped classifier: the 3082 sends [DOSCAN]; a
    stepped AAC has no [ScanUpTime] to format, the others no such method. *)
Definition StartScan (s : Slot) : W unit :=
  c <- getC s ;;
  match kind c with
  | TSI3082 => sendAndCheck s (Text "DOSCAN") ;;; ret tt
  | AAC | CPMA | TSI3080 => raise AttributeError
  end.

(** [getHeader]: the Cambustion classifiers ask for the serial number; the
    3080 reads [self.sampleFlow], which it never set. *)
Definition getHeader (s : Slot) : W unit :=
  c <- getC s ;;
  match kind c with
  | CPMA | AAC => sendQuery s (Text "serial") ;;; ret tt
  | TSI3080 =>
      match sampleFlow c with
      | Some _ => ret tt
      | None => raise AttributeError
      end
  | TSI3082 => ret tt
  end.

(** [del self.firstClass]: [__del__] stops a Cambustion classifier, then
    disconnects. *)
Definition release (s : Slot) : W unit :=
  c <- getC s ;;
  (if isCambustion (kind c) then stop_ s else ret true) ;;;
  log (Released (Class s)) ;;;
  modify (set_slot s None).

(** The constructors, from the computed table on: [Classifier.__init__]
    after its table computation, and what the subclasses add up to their
    last write to the device.  [table] is [self.X] as the constructor
    computed it; the computation itself, with its [ValueError] and
    [ZeroDivisionError], is [Sweep.table], and it runs before any device
    is touched.  The [float()] of the factor texts, which an AAC and a
    3082 do after these writes, is not part of the model. *)
Definition construct (s : Slot) (k : Kind) (start_ : Q) (table : list Q)
    (flow_ RorQsh_ : Q) (polarity : bool) : W unit :=
  modify (set_slot s (Some
    {| kind := k; start := start_; flow := flow_; RorQsh := RorQsh_;
       sampleFlow := None;
       points := Z.of_nat (List.length table); point := (-1)%Z;
       X := table; x := 0%Q;
       values := None; tally := None;
       connected := connects E (Class s); lastResponse := "" |})) ;;;
  sendFloat s (sheathCommand k) RorQsh_ ;;;
  match k with
  | CPMA | AAC =>
      c <- getC s ;;
      putC s (set_sampleFlow (Some flow_) c) ;;;
      sendFloat s "SetSampleFlow" flow_ ;;;
      set s start_ ;;;
      ret tt
  | TSI3080 => ret tt
  | TSI3082 =>
      c <- getC s ;;
      putC s (set_sampleFlow (Some flow_) c) ;;;
      sendAndCheck s (Text (if polarity then "WSHVPOL 0" else "WSHVPOL 1")) ;;;
      ret tt
  end.

(** *** The counter and the bypass relay *)

(** [cpc.startpoll()] / [cpc.endpoll()]: [MagicCpc] calls [self.SendCmd],
    which does not exist. *)
Definition poll : W unit :=
  k <- getCpc ;;
  match ckind k with
  | MagicCpc => raise AttributeError
  | _ => ret tt
  end.

(** [cpc.conc()] *)
Definition conc : W Q :=
  k <- getCpc ;;
  n <- step ;;
  match ckind k with
  | CambustionCPC => log (Sent Counter (Text "GCS"))
  | TSICpc => when (cisSerial k) (log (Sent Counter (Text "RD")))
  | DummyCPC | MagicCpc => ret tt
  end ;;;
  match ckind k, cisSerial k with
  | TSICpc, false => raise TypeError
  | _, _ =>
      match concentration E n with
      | Some v => log (Sampled v) ;;; ret v
      | None => raise ValueError
      end
  end.

Definition releaseCpc : W unit :=
  getCpc ;;;
  log (Released Counter) ;;;
  modify (set_cpc None).

(** [self.arduino.enableBypass()]; without the bypass option [self.arduino]
    is the class itself. *)
Definition enableBypass : W unit :=
  a <- gets arduino ;;
  match a with
  | Some true => log (Sent Relay (Text "on"))
  | Some false => ret tt
  | None => raise TypeError
  end.

(** *** The window *)

(** One [app.processEvents()] without what a click does. *)
Definition pump (site : Site) : W bool :=
  n <- gets pumps ;;
  modify (set_pumps (S n)) ;;;
  log (Pumped site (stop E n)) ;;;
  ret (stop E n).

(** [Ui.endScan] *)
Definition endScan : W unit :=
  sc <- gets isScanning ;;
  if negb sc then ret tt
  else
    log Closed ;;;
    modify (set_isScanning false) ;;;
    modify (set_timer false) ;;;
    pump Status ;;;
    release First ;;;
    release Second ;;;
    releaseCpc.

(** [app.processEvents()]: a pressed stop button runs [endScan]. *)
Definition processEvents (site : Site) : W unit :=
  clicked <- pump site ;;
  when clicked endScan.

(** [Ui.updateStatus] *)
Definition updateStatus : W unit := processEvents Status.

(** [Ui.barf] *)
Definition barf (msg : string) : W unit :=
  endScan ;;;
  log (Warned msg).

(** A settle delay: [for i in range(n): sleep; processEvents;
    if not isScanning: return].  [false]: the function returned. *)
Fixpoint delay (site : Site) (n : nat) : W bool :=
  match n with
  | O => ret true
  | S n' =>
      processEvents site ;;;
      sc <- gets isScanning ;;
      if negb sc then ret false else delay site n'
  end.

(** The wait for the next second in the averaging loop. *)
Fixpoint waitLoop (n : nat) : W bool :=
  match n with
  | O => ret true
  | S n' =>
      processEvents Wait ;;;
      sc <- gets isScanning ;;
      if negb sc then ret false else waitLoop n'
  end.

(** The averaging loop of [plotIt], [n] turns left; [None]: the function
    returned. *)
Fixpoint averaging (n : nat) (acc : Q) : W (option Q) :=
  match n with
  | O => ret (Some acc)
  | S n' =>
      sc <- gets isScanning ;;
      if negb sc then ret None
      else
        db <- gets doBypass ;;
        when (negb db) (monitor First) ;;;
        processEvents AfterFirstMonitor ;;;
        sc <- gets isScanning ;;
        if negb sc then ret None
        else
          monitor Second ;;;
          processEvents AfterSecondMonitor ;;;
          v <- conc ;;
          k <- gets clock ;;
          ok <- waitLoop (waits E k) ;;
          if ok then averaging n' (acc + v)%Q else ret None
  end.

(** [self.fileData[item + str(2)] = data for item, data in secData.items()] *)
Definition addSecond (secData : dict) (d : dict) : dict :=
  fold_left (fun d kv => dict_set (fst kv ++ "2") (snd kv) d) secData d.

(** [{self.firstClass.fileFields[i]: "Bypassed" ...}] *)
Definition bypassDummy (k : Kind) : dict :=
  map (fun f => (f, Txt "Bypassed")) (fileFields k).

(** [Ui.plotIt], stepped mode *)
Definition plotIt : W unit :=
  updateStatus ;;;
  c1 <- getC First ;;
  (if (points c1 =? 0)%Z then raise ZeroDivisionError else ret tt) ;;;
  db <- gets doBypass ;;
  fb <- gets firstBypass ;;
  when (db && fb)
    (StopScan Second ;;;
     enableBypass ;;;
     StartScan Second ;;;
     modify (set_firstBypass false)) ;;;
  poll ;;;
  r <- averaging (Z.to_nat (average cfg)) 0%Q ;;
  match r with
  | None => ret tt
  | Some total =>
      poll ;;;
      match Tolerance.fdiv total (inject_Z (average cfg)) with
      | None => raise ZeroDivisionError
      | Some cn =>
          secData <- getFileData Second ;;
          modify (fun w => set_fileData (addSecond secData (fileData w)) w) ;;;
          modify (fun w => set_fileData (dict_set "Conc " (Num cn) (fileData w)) w) ;;;
          db <- gets doBypass ;;
          c2 <- getC Second ;;
          (if db then
             c1 <- getC First ;;
             modify (fun w => set_fileData
                                (dict_merge (fileData w) (bypassDummy (kind c1))) w) ;;;
             g <- gets G ;;
             match np_set g (point c2) cn with
             | None => raise IndexError
             | Some g' => modify (set_G g')
             end
           else
             d1 <- getFileData First ;;
             modify (fun w => set_fileData (dict_merge (fileData w) d1) w) ;;;
             c1 <- getC First ;;
             z <- gets Zm ;;
             match np_set2 z (point c1) (point c2) cn with
             | None => raise IndexError
             | Some z' => modify (set_Zm z')
             end ;;;
             sp <- gets Scatterplot ;;
             when sp
               (modify (set_Scatterplot false) ;;;
                modify (set_G (zeros (Z.to_nat (points c2))))) ;;;
             g <- gets G ;;
             match np_set g (point c2) cn with
             | None => raise IndexError
             | Some g' => modify (set_G g')
             end) ;;;
          d <- gets fileData ;;
          log (Row d) ;;;
          updateStatus
      end
  end.

(** The plain [time.sleep] loop before the final bypass: no events are
    pumped, nothing can change. *)
Definition sleepOnly (n : nat) : W unit := ret tt.

(** [Ui.next], stepped mode *)
Definition Ui_next : W unit :=
  plotIt ;;;
  sc <- gets isScanning ;;
  if negb sc then ret tt
  else
    more2 <- moreToCome Second ;;
    go <-
      (if negb more2 then
         modify (set_Scatterplot true) ;;;
         db <- gets doBypass ;;
         when db (modify (set_doBypass false)) ;;;
         more1 <- moreToCome First ;;
         fin <-
           (if negb more1 then
              fb <- gets finalBypass ;;
              if fb || negb (Bypass cfg) then
                log FinalPlot ;;;
                endScan ;;;
                ret true
              else
                modify (set_doBypass true) ;;;
                modify (set_finalBypass true) ;;;
                modify (set_disBypass true) ;;;
                enableBypass ;;;
                sleepOnly (firstDelay cfg) ;;;
                run Second ;;;
                ret false
            else ret false) ;;
         if fin then ret false
         else
           reset Second ;;;
           modify (set_fileData []) ;;;
           modify (set_startRow true) ;;;
           db <- gets doBypass ;;
           if negb db then
             ok <- next First ;;
             if negb ok then
               barf "Failed to set first classifier." ;;;
               ret false
             else ret true
           else ret true
       else ret true) ;;
    if negb go then ret tt
    else
      ok <- next Second ;;
      when (negb ok) (barf "Failed to set second classifier.")
  .

(** [Ui.check], stepped mode: the slot of the timer *)
Definition check : W unit :=
  modify (set_timer false) ;;;
  sr <- gets startRow ;;
  go <-
    (if sr then
       db <- gets doBypass ;;
       rdy <- (if db then ret true else isReady First) ;;
       if rdy then
         modify (set_startRow false) ;;;
         updateStatus ;;;
         delay Delay1 (firstDelay cfg)
       else
         updateStatus ;;;
         modify (set_timer true) ;;;
         ret false
     else ret true) ;;
  if negb go then ret tt
  else
    sr <- gets startRow ;;
    go <-
      (if negb sr then
         rdy <- isReady Second ;;
         if rdy then
           modify (set_timer false) ;;;
           updateStatus ;;;
           ok <- delay Delay2 (secondDelay cfg) ;;
           if negb ok then ret false
           else
             Ui_next ;;;
             gets isScanning
         else
           updateStatus ;;;
           ret true
       else ret true) ;;
    when go (modify (set_timer true)).

(** [Ui.startRawLog]: the headers are asked of the classifiers. *)
Definition startRawLog : W unit :=
  getHeader First ;;;
  getHeader Second ;;;
  modify (set_fileData []).

(** [Ui.runScan], stepped mode *)
Definition runScan : W unit :=
  construct First (firstKind cfg) (firstStart cfg) (firstX cfg)
    (firstQa cfg) (firstRorQsh cfg) (firstPolarity cfg) ;;;
  c1 <- getC First ;;
  if negb (connected c1) then
    barf "Connection Error to First Classifier" ;;;
    release First
  else
    modify (set_doBypass (Bypass cfg)) ;;;
    construct Second (secondKind cfg) (secondStart cfg) (secondX cfg)
      (secondQa cfg) (secondRorQsh cfg) (secondPolarity cfg) ;;;
    c2 <- getC Second ;;
    if negb (connected c2) then
      barf "Connection Error to Second Classifier" ;;;
      release Second ;;;
      release First
    else
      when (Bypass cfg) (modify (set_arduino (Some (connects E Relay)))) ;;;
      modify (set_cpc (Some {| ckind := cpcKind cfg;
                               cisSerial := cpcIsSerial cfg;
                               cconnected :=
                                 match cpcKind cfg with
                                 | DummyCPC => true
                                 | _ => connects E Counter
                                 end |})) ;;;
      k <- getCpc ;;
      if negb (cconnected k) then
        barf "Connection Error to CPC" ;;;
        release Second ;;;
        release First ;;;
        releaseCpc
      else
        ok1 <- run First ;;
        if negb ok1 then
          barf "Can't start first classifier" ;;;
          release Second ;;;
          release First ;;;
          releaseCpc
        else
          ok2 <- run Second ;;
          if negb ok2 then
            barf "Can't start second classifier" ;;;
            release Second ;;;
            release First ;;;
            releaseCpc
          else
            c1 <- getC First ;;
            c2 <- getC Second ;;
            modify (set_Zm (zeros2 (Z.to_nat (points c1)) (Z.to_nat (points c2)))) ;;;
            modify (set_G (zeros (Z.to_nat (points c2)))) ;;;
            modify (set_isScanning true) ;;;
            db <- gets doBypass ;;
            ok <- (if negb db then next First else ret true) ;;
            if negb ok then barf "Failed to set first classifier."
            else
              ok <- next Second ;;
              if negb ok then barf "Failed to set second classifier."
              else
                when db enableBypass ;;;
                startRawLog ;;;
                modify (set_startRow true) ;;;
                modify (set_finalBypass false) ;;;
                modify (set_firstBypass true) ;;;
                modify (set_disBypass true) ;;;
                modify (set_timer true).

(** An exception that leaves a slot ends it there. *)
Definition settle (r : Res World unit) : World :=
  match r with
  | Val _ w => w
  | Raise e w => set_trace (Raised e :: trace w) w
  end.

(** One timeout of the timer. *)
Definition tick (w : World) : World := settle (check w).

(** The event loop: the timer fires while it is active. *)
Fixpoint loop (fuel : nat) (w : World) : World :=
  match fuel with
  | O => w
  | S fuel' => if timer w then loop fuel' (tick w) else w
  end.

End WithEnv.

(** The window before a scan. *)
Definition idle : World :=
  {| clock := 0; pumps := 0; trace := [];
     firstClass := None; secondClass := None; cpc := None; arduino := None;
     isScanning := false; timer := false;
     doBypass := false; finalBypass := false; firstBypass := false;
     disBypass := false; startRow := false; Scatterplot := false;
     fileData := []; Zm := []; G := [] |}.

(** Pressing start, then letting the timer run. *)
Definition scan (E : Env) (cfg : Config) (fuel : nat) : World :=
  loop E cfg fuel (settle (runScan E cfg idle)).

(** *** Reading a trace *)

(** The events in the order they happened. *)
Definition history (w : World) : list Event := rev (trace w).

Definition rowOf (e : Event) : option dict :=
  match e with Row d => Some d | _ => None end.

Fixpoint rowsOf (evs : list Event) : list dict :=
  match evs with
  | [] => []
  | Row d :: rest => d :: rowsOf rest
  | _ :: rest => rowsOf rest
  end.

(** The log rows written, oldest first. *)
Definition rows (w : World) : list dict := rowsOf (history w).

(** A row of a bypass sweep: the first classifier's quantity reads "Bypassed". *)
Definition bypassed (k1 : Kind) (d : dict) : bool :=
  match dict_get (quantity k1) d with
  | Some (Txt t) => String.eqb t "Bypassed"
  | _ => false
  end.

Definition isSetpoint (s : Slot) (k : Kind) (e : Event) : bool :=
  match e with
  | Sent (Class s') (Float name _) =>
      (match s, s' with First, First | Second, Second => true | _, _ => false end)
      && String.eqb name (sizeCommand k)
  | _ => false
  end.

Definition isSample (e : Event) : bool :=
  match e with Sampled _ => true | _ => false end.

Definition releasedDev (e : Event) : option Dev :=
  match e with Released d => Some d | _ => None end.

Fixpoint releasesOf (evs : list Event) : list Dev :=
  match evs with
  | [] => []
  | Released d :: rest => d :: releasesOf rest
  | _ :: rest => releasesOf rest
  end.

Definition isFinalPlot (e : Event) : bool :=
  match e with FinalPlot => true | _ => false end.

(** The scan ran to its end. *)
Definition completed (w : World) : bool := existsb isFinalPlot (trace w).

End Scan.

(* ===================================================================== *)
(** ** What a run shows: the control state and the visible events        *)
(* ===================================================================== *)

Module View.
Import Py Classes Scan.
Local Open Scope string_scope.

(** The events the properties speak about. *)
Inductive Vis :=
| VRow (d : dict)
| VFinal
| VSet (s : Slot) (name : string) (v : Q)
| VSample (v : Q)
| VRel (d : Dev)
| VClick (s : Site).

Definition vis (e : Event) : list Vis :=
  match e with
  | Row d => [VRow d]
  | FinalPlot => [VFinal]
  | Sent (Class s) (Float name v) => [VSet s name v]
  | Sampled v => [VSample v]
  | Released d => [VRel d]
  | Pumped s true => [VClick s]
  | _ => []
  end.

(** The visible events of a world, newest first. *)
Definition obs (w : World) : list Vis := flat_map vis (trace w).

(** The part of a classifier the scan loop branches on. *)
Record Core := {
  k_kind : Kind;
  k_points : Z;
  k_point : Z;
  k_X : list Q;
  k_x : Q
}.

Definition set_k_kind (v : Kind) (r : Core) : Core :=
  {| k_kind := v; k_points := k_points r; k_point := k_point r; k_X := k_X r; k_x := k_x r |}.

Definition set_k_points (v : Z) (r : Core) : Core :=
  {| k_kind := k_kind r; k_points := v; k_point := k_point r; k_X := k_X r; k_x := k_x r |}.

Definition set_k_point (v : Z) (r : Core) : Core :=
  {| k_kind := k_kind r; k_points := k_points r; k_point := v; k_X := k_X r; k_x := k_x r |}.

Definition set_k_X (v : list Q) (r : Core) : Core :=
  {| k_kind := k_kind r; k_points := k_points r; k_point := k_point r; k_X := v; k_x := k_x r |}.

Definition set_k_x (v : Q) (r : Core) : Core :=
  {| k_kind := k_kind r; k_points := k_points r; k_point := k_point r; k_X := k_X r; k_x := v |}.

Definition core (c : Classifier) : Core :=
  {| k_kind := kind c; k_points := points c; k_point := point c;
     k_X := X c; k_x := x c |}.

(** What a classifier holds besides its link. *)
Definition data (c : Classifier) :=
  (kind c, points c, point c, X c, x c, values c, tally c).



(** [c 0 + ... + c (n-1)], summed in the order the code adds them to 0.0 *)
Definition total (c : nat -> Q) (n : nat) : Q :=
  fold_left Qplus (map c (seq 0 n)) 0%Q.

(** The part of the window the scan loop branches on. *)
Record Ctl := {
  c_isScanning : bool;
  c_timer : bool;
  c_doBypass : bool;
  c_finalBypass : bool;
  c_startRow : bool;
  c_first : option Core;
  c_second : option Core;
  c_cpc : bool;
  c_Zm : list (list Q)
}.

Definition set_c_isScanning (v : bool) (r : Ctl) : Ctl :=
  {| c_isScanning := v; c_timer := c_timer r; c_doBypass := c_doBypass r; c_finalBypass := c_finalBypass r; c_startRow := c_startRow r; c_first := c_first r; c_second := c_second r; c_cpc := c_cpc r; c_Zm := c_Zm r |}.

Definition set_c_timer (v : bool) (r : Ctl) : Ctl :=
  {| c_isScanning := c_isScanning r; c_timer := v; c_doBypass := c_doBypass r; c_finalBypass := c_finalBypass r; c_startRow := c_startRow r; c_first := c_first r; c_second := c_second r; c_cpc := c_cpc r; c_Zm := c_Zm r |}.

Definition set_c_doBypass (v : bool) (r : Ctl) : Ctl :=
  {| c_isScanning := c_isScanning r; c_timer := c_timer r; c_doBypass := v; c_finalBypass := c_finalBypass r; c_startRow := c_startRow r; c_first := c_first r; c_second := c_second r; c_cpc := c_cpc r; c_Zm := c_Zm r |}.

Definition set_c_finalBypass (v : bool) (r : Ctl) : Ctl :=
  {| c_isScanning := c_isScanning r; c_timer := c_timer r; c_doBypass := c_doBypass r; c_finalBypass := v; c_startRow := c_startRow r; c_first := c_first r; c_second := c_second r; c_cpc := c_cpc r; c_Zm := c_Zm r |}.

Definition set_c_startRow (v : bool) (r : Ctl) : Ctl :=
  {| c_isScanning := c_isScanning r; c_timer := c_timer r; c_doBypass := c_doBypass r; c_finalBypass := c_finalBypass r; c_startRow := v; c_first := c_first r; c_second := c_second r; c_cpc := c_cpc r; c_Zm := c_Zm r |}.

Definition set_c_first (v : option Core) (r : Ctl) : Ctl :=
  {| c_isScanning := c_isScanning r; c_timer := c_timer r; c_doBypass := c_doBypass r; c_finalBypass := c_finalBypass r; c_startRow := c_startRow r; c_first := v; c_second := c_second r; c_cpc := c_cpc r; c_Zm := c_Zm r |}.

Definition set_c_second (v : option Core) (r : Ctl) : Ctl :=
  {| c_isScanning := c_isScanning r; c_timer := c_timer r; c_doBypass := c_doBypass r; c_finalBypass := c_finalBypass r; c_startRow := c_startRow r; c_first := c_first r; c_second := v; c_cpc := c_cpc r; c_Zm := c_Zm r |}.

Definition set_c_cpc (v : bool) (r : Ctl) : Ctl :=
  {| c_isScanning := c_isScanning r; c_timer := c_timer r; c_doBypass := c_doBypass r; c_finalBypass := c_finalBypass r; c_startRow := c_startRow r; c_first := c_first r; c_second := c_second r; c_cpc := v; c_Zm := c_Zm r |}.

Definition set_c_Zm (v : list (list Q)) (r : Ctl) : Ctl :=
  {| c_isScanning := c_isScanning r; c_timer := c_timer r; c_doBypass := c_doBypass r; c_finalBypass := c_finalBypass r; c_startRow := c_startRow r; c_first := c_first r; c_second := c_second r; c_cpc := c_cpc r; c_Zm := v |}.

Definition ctl (w : World) : Ctl :=
  {| c_isScanning := isScanning w; c_timer := timer w;
     c_doBypass := doBypass w; c_finalBypass := finalBypass w;
     c_startRow := startRow w;
     c_first := option_map core (firstClass w);
     c_second := option_map core (secondClass w);
     c_cpc := match cpc w with Some _ => true | None => false end;
     c_Zm := Zm w |}.

Definition c_slot (s : Slot) (C : Ctl) : option Core :=
  match s with First => c_first C | Second => c_second C end.

Definition set_c_slot (s : Slot) (k : option Core) (C : Ctl) : Ctl :=
  match s with First => set_c_first k C | Second => set_c_second k C end.

(** A world seen as control state [C] and visible events [O]. *)
Definition At (C : Ctl) (O : list Vis) (w : World) : Prop :=
  ctl w = C /\ obs w = O.

(** What [endScan] does to a running scan. *)
Definition kill (C : Ctl) : Ctl :=
  set_c_cpc false (set_c_second None (set_c_first None
    (set_c_timer false (set_c_isScanning false C)))).

(** The releases of [endScan], newest first. *)
Definition RELS : list Vis :=
  [VRel Counter; VRel (Class Second); VRel (Class First)].

(** All three devices are there and the scan is on. *)
Definition alive (C : Ctl) : Prop :=
  c_isScanning C = true /\ c_first C <> None /\ c_second C <> None
  /\ c_cpc C = true.

(** The scan is off and the devices are gone. *)
Definition dead (C : Ctl) : Prop :=
  c_isScanning C = false /\ c_first C = None /\ c_second C = None
  /\ c_cpc C = false.

(** A click seen inside [endScan] itself. *)
Definition statusClick (mc : list Vis) : Prop :=
  mc = [] \/ mc = [VClick Status].

(** The outcome of a computation: what holds of the result and of the
    state it leaves, whether it returns or raises. *)
Definition post {A} (m : W A) (w : World)
    (Q : A -> World -> Prop) (QE : World -> Prop) : Prop :=
  match m w with
  | Val a w' => Q a w'
  | Raise _ w' => QE w'
  end.

(** Nothing visible happened and the control state is as before. *)
Definition Same (w w' : World) : Prop := ctl w' = ctl w /\ obs w' = obs w.

(** [l] became visible, newest first, and the control state is as before. *)
Definition Emit (l : list Vis) (w w' : World) : Prop :=
  ctl w' = ctl w /\ obs w' = (l ++ obs w)%list.

(** A computation that leaves the view alone, whether it returns or raises. *)
Definition quiet {A} (m : W A) : Prop :=
  forall w, post m w (fun _ w' => Same w w') (fun w' => Same w w').

(** What a [processEvents] killed: the scan was on, it is now ended, and
    the devices were released in the order of [endScan]. *)
Definition Killed (site : Site) (w w' : World) : Prop :=
  alive (ctl w)
  /\ ctl w' = kill (ctl w)
  /\ exists mc, statusClick mc
       /\ obs w' = (RELS ++ mc ++ VClick site :: obs w)%list.

(** Reading the visible events, oldest first. *)
Fixpoint vrows (l : list Vis) : list dict :=
  match l with
  | [] => []
  | VRow d :: rest => d :: vrows rest
  | _ :: rest => vrows rest
  end.

Fixpoint vrels (l : list Vis) : list Dev :=
  match l with
  | [] => []
  | VRel d :: rest => d :: vrels rest
  | _ :: rest => vrels rest
  end.

Definition isVSample (v : Vis) : bool :=
  match v with VSample _ => true | _ => false end.

Definition isVFinal (v : Vis) : bool :=
  match v with VFinal => true | _ => false end.

Definition isVSet (s : Slot) (name : string) (v : Vis) : bool :=
  match v with
  | VSet s' n _ =>
      (match s, s' with First, First | Second, Second => true | _, _ => false end)
      && String.eqb n name
  | _ => false
  end.

(** A click during a settle delay or an averaging sub-interval. *)
Definition isDelayClick (v : Vis) : bool :=
  match v with
  | VClick Status => false
  | VClick _ => true
  | _ => false
  end.

Definition isClick (v : Vis) : bool :=
  match v with VClick _ => true | _ => false end.

End View.

(* ===================================================================== *)
(** ** Auxiliary notions for the link theorems                           *)
(* ===================================================================== *)

Module LinkAux.
Import Link.
Local Open Scope string_scope.

(** [c] does not occur in [s] *)
Fixpoint free_of (c : ascii) (s : string) : Prop :=
  match s with
  | EmptyString => True
  | String a rest => a <> c /\ free_of c rest
  end.

(** A turn that is in time and reads the chunk [c]. *)
Definition arrives (c : string) : Turn := {| in_time := true; read := Chunk c |}.

(** The loop keeps going through all of [cs]: the terminator is not yet
    seen when each of them is awaited. *)
Fixpoint pending (chunks : string) (cs : list string) : Prop :=
  match cs with
  | [] => True
  | c :: rest => (find chunks terminator < 0)%Z /\ pending (chunks ++ c) rest
  end.

(** The text accumulated once all of [cs] have arrived. *)
Fixpoint joined (chunks : string) (cs : list string) : string :=
  match cs with
  | [] => chunks
  | c :: rest => joined (chunks ++ c) rest
  end.

End LinkAux.

(* ===================================================================== *)
(** ** Sample environments and settings                                  *)
(* ===================================================================== *)

Module Demo.
Import Py Classes Scan.
Local Open Scope string_scope.

(** Devices that connect and acknowledge every command, classifiers that
    report ready at once, a counter that counts; nobody presses stop. *)
Definition ideal : Env := {|
  connects := fun _ => true;
  reply := fun _ _ c =>
    match c with
    | Text t => if String.eqb t "Status" then Some "Running"
                else if String.eqb t "RFL" then Some "1,1,1"
                else Some "OK"
    | Float _ _ => Some "OK"
    end;
  reading := fun _ _ f =>
    if String.eqb f "Voltage SP (V)" || String.eqb f "Voltage (V)"
    then Some 100%Q else Some 3%Q;
  concentration := fun n => Some (inject_Z (Z.of_nat n));
  waits := fun _ => 1%nat;
  stop := fun _ => false
|}.


Definition settings (k1 : Kind) (X1 : list Q) (k2 : Kind) (X2 : list Q)
    (bypass : bool) (ave : Z) : Config := {|
  firstKind := k1; firstStart := hd 0%Q X1; firstX := X1;
  firstQa := 1%Q; firstRorQsh := 3%Q; firstPolarity := true;
  secondKind := k2; secondStart := hd 0%Q X2; secondX := X2;
  secondQa := 1%Q; secondRorQsh := 3%Q; secondPolarity := true;
  cpcKind := DummyCPC; cpcIsSerial := false;
  Bypass := bypass; firstDelay := 1; secondDelay := 1; average := ave
|}.

(** Two outer points, three inner points, no bypass. *)
Definition twoByThree (k1 k2 : Kind) : Config :=
  settings k1 [1%Q; 2%Q] k2 [10%Q; 20%Q; 30%Q] false 1.

(** Three outer points with the bypass option. *)
Definition threeBypassed : Config :=
  settings CPMA [1%Q; 2%Q; 3%Q] TSI3082 [10%Q; 20%Q] true 1.

(** The window once start has been pressed. *)
Definition started (E : Env) (cfg : Config) : World :=
  settle (runScan E cfg idle).

(** A classifier standing on the last point of a two-point table, with
    three samples accumulated. *)
Definition atLastPoint : Classifier := {|
  kind := CPMA; start := 1%Q; flow := 1%Q; RorQsh := 3%Q;
  sampleFlow := Some 1%Q;
  points := 2; point := 1; X := [1%Q; 2%Q]; x := 2%Q;
  values := Some [("Speed (rad/s)", 6%Q); ("Voltage (V)", 9%Q);
                  ("Pressure (Pa)", 3%Q); ("Temperature (C)", 3%Q)];
  tally := Some 3%Z;
  connected := true; lastResponse := "OK"
|}.

(** The same classifier before its first point. *)
Definition atStart : Classifier := set_point (-1)%Z atLastPoint.



Definition holding (c : Classifier) : World := set_firstClass (Some c) idle.

End Demo.

(* ===================================================================== *)
(** ** How a timer slot can end, and what a scan is expected to log      *)
(* ===================================================================== *)

Module Plan.
Import Py Classes Scan View.
Local Open Scope string_scope.

(** The devices in the order [endScan] lets go of them, newest first. *)
Definition RELSd : list Dev := [Counter; Class Second; Class First].

(** Inside a slot of a running scan: the devices are there and the timer
    is stopped. *)
Definition live (C : Ctl) : Prop := alive C /\ c_timer C = false.

(** A slot that went wrong after the events [O]: it logged no final plot,
    every row it wrote satisfies [R], the timer is off, and if the stop
    button was pressed in a settle delay or in the averaging then no row
    was written and the devices were released in the order of [endScan]. *)
Definition Crash (R : dict -> Prop) (O : list Vis) (w' : World) : Prop :=
  c_timer (ctl w') = false
  /\ exists l,
       obs w' = (l ++ O)%list
       /\ existsb isVFinal l = false
       /\ Forall R (vrows l)
       /\ (existsb isDelayClick l = true ->
           vrows l = [] /\ dead (ctl w') /\ vrels l = RELSd).

(** The same, and the scan is over. *)
Definition Gone (R : dict -> Prop) (O : list Vis) (w' : World) : Prop :=
  dead (ctl w') /\ Crash R O w'.

(** Events of a scan that is going on: no final plot, no release, no
    stop during a delay or the averaging, and rows that satisfy [R]. *)
Definition Plain (R : dict -> Prop) (l : list Vis) : Prop :=
  existsb isVFinal l = false /\ vrels l = []
  /\ Forall R (vrows l) /\ existsb isDelayClick l = false.

(** The samples of one point, newest first. *)
Definition Samples (vs : list Q) : list Vis := map VSample (rev vs).

(** [conc /= float(ave)] over the samples added to 0.0 *)
Definition mean (ave : Z) (vs : list Q) : Q :=
  (fold_left Qplus vs 0 / inject_Z ave)%Q.

(** What [plotIt] writes for a point: the first classifier's quantity (or
    "Bypassed"), the second classifier's quantity, the mean concentration. *)
Definition RowFacts (ave : Z) (C : Ctl) (k1 k2 : Core) (vs : list Q) (d : dict)
  : Prop :=
  dict_get (quantity (k_kind k1)) d
  = Some (if c_doBypass C then Txt "Bypassed" else Num (k_x k1))
  /\ dict_get (quantity (k_kind k2) ++ "2") d = Some (Num (k_x k2))
  /\ dict_get "Conc " d = Some (Num (mean ave vs))
  /\ List.length vs = Z.to_nat ave
  /\ ave <> 0%Z
  /\ k_points k1 <> 0%Z.

(** The result matrix after such a point. *)
Definition ZmAfter (ave : Z) (C : Ctl) (k1 k2 : Core) (vs : list Q)
    (z' : list (list Q)) : Prop :=
  if c_doBypass C then z' = c_Zm C
  else np_set2 (c_Zm C) (k_point k1) (k_point k2) (mean ave vs) = Some z'.

(** [next] on the part of a classifier the loop branches on. *)
Definition bump (k : Core) (v : Q) : Core :=
  set_k_x v (set_k_point (k_point k + 1)%Z k).

(** [moreToCome] *)
Definition more (k : Core) : bool := (k_point k + 1 <? k_points k)%Z.

Definition cmdOf (k : Core) : string := sizeCommand (k_kind k).

(** After a row: what [Ui.next] does when the scan goes on.  [C1] and [O1]
    are the control state and the visible events once the row is written,
    [C'] and [O'] those when [Ui.next] returns. *)
Definition Moved (cfg : Config) (C1 : Ctl) (k1 k2 : Core) (O1 : list Vis)
    (C' : Ctl) (O' : list Vis) : Prop :=
  (* the next inner point *)
  (more k2 = true
   /\ exists v2,
        np_get (k_X k2) (k_point k2 + 1) = Some v2
        /\ C' = set_c_second (Some (bump k2 v2)) C1
        /\ O' = VSet Second (cmdOf k2) v2 :: O1)
  (* the next outer point, and the inner sweep from its start *)
  \/ (more k2 = false /\ more k1 = true
      /\ exists v1 v2,
           np_get (k_X k1) (k_point k1 + 1) = Some v1
           /\ np_get (k_X k2) 0 = Some v2
           /\ C' = set_c_second (Some (bump (set_k_point (-1)%Z k2) v2))
                      (set_c_first (Some (bump k1 v1))
                         (set_c_startRow true (set_c_doBypass false C1)))
           /\ O' = VSet Second (cmdOf k2) v2 :: VSet First (cmdOf k1) v1 :: O1)
  (* the final bypass sweep *)
  \/ (more k2 = false /\ more k1 = false
      /\ c_finalBypass C1 = false /\ Bypass cfg = true
      /\ exists v2,
           np_get (k_X k2) 0 = Some v2
           /\ C' = set_c_second (Some (bump (set_k_point (-1)%Z k2) v2))
                      (set_c_startRow true
                         (set_c_finalBypass true (set_c_doBypass true C1)))
           /\ O' = VSet Second (cmdOf k2) v2 :: O1).

(** After a row: the scan has run to its end. *)
Definition Finished (cfg : Config) (C1 : Ctl) (k1 k2 : Core) (O1 : list Vis)
    (C' : Ctl) (O' : list Vis) : Prop :=
  more k2 = false /\ more k1 = false
  /\ (c_finalBypass C1 || negb (Bypass cfg)) = true
  /\ C' = kill (set_c_doBypass false C1)
  /\ exists mc, statusClick mc /\ O' = (RELS ++ mc ++ VFinal :: O1)%list.

(** Two control states that differ at most in the timer and in the
    start-of-row flag. *)
Definition sameScan (C C' : Ctl) : Prop :=
  c_isScanning C' = c_isScanning C
  /\ c_doBypass C' = c_doBypass C
  /\ c_finalBypass C' = c_finalBypass C
  /\ c_first C' = c_first C
  /\ c_second C' = c_second C
  /\ c_cpc C' = c_cpc C
  /\ c_Zm C' = c_Zm C.

(** A timer slot that did not take the scan further: no final plot, rows
    that satisfy [R], the timer off or the scan over, and, if the stop
    button was pressed in a settle delay or in the averaging, no row
    written, the scan over, the timer off and the devices released in the
    order of [endScan]. *)
Definition TickBad (R : dict -> Prop) (O : list Vis) (w' : World) : Prop :=
  exists l,
    obs w' = (l ++ O)%list
    /\ existsb isVFinal l = false
    /\ Forall R (vrows l)
    /\ (c_timer (ctl w') = false \/ dead (ctl w'))
    /\ (existsb isDelayClick l = true ->
        vrows l = [] /\ dead (ctl w') /\ c_timer (ctl w') = false
        /\ vrels l = RELSd).

(** The scan is over and the timer off; since [O] no row and no final
    plot were seen, and the devices released are [rels]. *)
Definition Off (rels : list Dev) (O : list Vis) (w : World) : Prop :=
  dead (ctl w) /\ c_timer (ctl w) = false
  /\ exists l,
       obs w = (l ++ O)%list /\ vrows l = []
       /\ existsb isVFinal l = false /\ vrels l = rels.

(** What one timer slot does to a running scan whose control state is
    [C0], with the classifiers [k1] and [k2], after the events [O]. *)
Definition Ticked (cfg : Config) (R : dict -> Prop) (C0 : Ctl) (k1 k2 : Core)
    (O : list Vis) (w' : World) : Prop :=
  (* a classifier is not ready yet *)
  (obs w' = O /\ c_timer (ctl w') = true /\ sameScan C0 (ctl w'))
  (* a row is written *)
  \/ (exists d vs z' Cn,
        sameScan C0 Cn /\ c_startRow Cn = false
        /\ RowFacts (average cfg) Cn k1 k2 vs d
        /\ ZmAfter (average cfg) Cn k1 k2 vs z'
        /\ ((exists C',
               Moved cfg (set_c_Zm z' Cn) k1 k2 (VRow d :: Samples vs ++ O)
                 C' (obs w')
               /\ ctl w' = set_c_timer true C')
            \/ Finished cfg (set_c_Zm z' Cn) k1 k2 (VRow d :: Samples vs ++ O)
                 (ctl w') (obs w')))
  \/ TickBad R O w'.

(** *** What a scan is expected to log *)

(** The two cells that place a row: the first classifier's quantity (or
    "Bypassed") and the second classifier's quantity. *)
Definition tag : Type := (option Cell * option Cell)%type.

Definition tags (cfg : Config) (d : dict) : tag :=
  (dict_get (quantity (firstKind cfg)) d,
   dict_get (quantity (secondKind cfg) ++ "2") d).

(** One inner sweep: a row per inner setpoint, all with the same first cell. *)
Definition sweep (t : Cell) (X2 : list Q) : list tag :=
  map (fun x2 => (Some t, Some (Num x2))) X2.

Definition bypassSweep (X2 : list Q) : list tag := sweep (Txt "Bypassed") X2.

(** An inner sweep for each outer setpoint, in order. *)
Definition classified (X1 X2 : list Q) : list tag :=
  flat_map (fun x1 => sweep (Num x1) X2) X1.

(** The rows of a scan that runs to its end. *)
Definition planned (cfg : Config) : list tag :=
  if Bypass cfg
  then (bypassSweep (secondX cfg) ++ classified (firstX cfg) (secondX cfg)
          ++ bypassSweep (secondX cfg))%list
  else classified (firstX cfg) (secondX cfg).

(** Where a running scan stands: in the first bypass sweep, at outer point
    [i], or in the final bypass sweep. *)
Inductive Phase := Before | During (i : nat) | After.

(** The rows written when the scan stands at inner point [j] of [ph]. *)
Definition progress (cfg : Config) (ph : Phase) (j : nat) : list tag :=
  match ph with
  | Before => firstn j (bypassSweep (secondX cfg))
  | During i =>
      ((if Bypass cfg then bypassSweep (secondX cfg) else [])
         ++ classified (firstn i (firstX cfg)) (secondX cfg)
         ++ firstn j (sweep (Num (nth i (firstX cfg) 0%Q)) (secondX cfg)))%list
  | After =>
      (bypassSweep (secondX cfg) ++ classified (firstX cfg) (secondX cfg)
         ++ firstn j (bypassSweep (secondX cfg)))%list
  end.

(** The row written at inner point [j] of [ph]. *)
Definition rowtag (cfg : Config) (ph : Phase) (j : nat) : tag :=
  (Some (match ph with
         | During i => Num (nth i (firstX cfg) 0%Q)
         | Before | After => Txt "Bypassed"
         end),
   Some (Num (nth j (secondX cfg) 0%Q))).

(** How many rows were written before [ph]. *)
Definition rowsBefore (cfg : Config) (ph : Phase) : nat :=
  match ph with
  | Before => 0
  | During i =>
      (if Bypass cfg then List.length (secondX cfg) else 0)
      + i * List.length (secondX cfg)
  | After =>
      List.length (secondX cfg)
      + List.length (firstX cfg) * List.length (secondX cfg)
  end.

(** How often the first classifier has been stepped by then. *)
Definition firstSteps (cfg : Config) (ph : Phase) : nat :=
  match ph with
  | Before => 0
  | During i => S i
  | After => List.length (firstX cfg)
  end.

(** The set-setpoint command a Cambustion classifier sends when it is
    constructed. *)
Definition camb (k : Kind) : nat := if isCambustion k then 1 else 0.

Definition nset (s : Slot) (name : string) (O : list Vis) : nat :=
  List.length (filter (isVSet s name) O).

Definition nsample (O : list Vis) : nat := List.length (filter isVSample O).

(** The concentration cell of a row. *)
Definition concOf (d : dict) : Q :=
  match dict_get "Conc " d with Some (Num q) => q | _ => 0%Q end.

(** The rows of the classified sweeps among the rows written, oldest first. *)
Definition classifiedRows (cfg : Config) (rows : list dict) : list dict :=
  firstn (List.length (firstX cfg) * List.length (secondX cfg))
    (skipn (if Bypass cfg then List.length (secondX cfg) else 0) rows).

(** An [n] by [m] matrix filled row by row with [cs], zero where [cs] has
    run out. *)
Definition matrix (n m : nat) (cs : list Q) : list (list Q) :=
  map (fun i => map (fun j => nth (i * m + j) cs 0%Q) (seq 0 m)) (seq 0 n).

(** The samples taken for a row, newest first: those seen since the row
    before. *)
Fixpoint leadSamples (l : list Vis) : list Q :=
  match l with
  | [] => []
  | VRow _ :: _ => []
  | VSample v :: rest => v :: leadSamples rest
  | _ :: rest => leadSamples rest
  end.

(** Each row with its samples, newest first. *)
Fixpoint ledger (l : list Vis) : list (dict * list Q) :=
  match l with
  | [] => []
  | VRow d :: rest => (d, leadSamples rest) :: ledger rest
  | _ :: rest => ledger rest
  end.

(** A row holds a concentration that is the mean of its samples. *)
Definition averaged (ave : Z) (dv : dict * list Q) : Prop :=
  dict_get "Conc " (fst dv) = Some (Num (mean ave (rev (snd dv))))
  /\ List.length (snd dv) = Z.to_nat ave.

(** What has been logged and counted after the events [O], for the rows
    [tg], [steps1] steps of the first and [steps2] of the second
    classifier, and the result matrix [z]. *)
Definition Logged (cfg : Config) (tg : list tag) (steps1 steps2 : nat)
    (z : list (list Q)) (O : list Vis) : Prop :=
  map (tags cfg) (rev (vrows O)) = tg
  /\ nset First (sizeCommand (firstKind cfg)) O = (camb (firstKind cfg) + steps1)%nat
  /\ nset Second (sizeCommand (secondKind cfg)) O
     = (camb (secondKind cfg) + steps2)%nat
  /\ Forall (averaged (average cfg)) (ledger O)
  /\ leadSamples O = []
  /\ nsample O = (Z.to_nat (average cfg) * List.length (vrows O))%nat
  /\ z = matrix (List.length (firstX cfg)) (List.length (secondX cfg))
           (map concOf (classifiedRows cfg (rev (vrows O)))).

(** The classifiers [kc1] and [kc2] and the bypass flags of [C] are those
    of a scan that stands at inner point [j] of [ph]. *)
Definition Standing (cfg : Config) (C : Ctl) (ph : Phase) (j : nat)
    (kc1 kc2 : Core) : Prop :=
  k_kind kc1 = firstKind cfg /\ k_X kc1 = firstX cfg
  /\ k_points kc1 = Z.of_nat (List.length (firstX cfg))
  /\ k_kind kc2 = secondKind cfg /\ k_X kc2 = secondX cfg
  /\ k_points kc2 = Z.of_nat (List.length (secondX cfg))
  /\ k_point kc2 = Z.of_nat j /\ (j < List.length (secondX cfg))%nat
  /\ k_x kc2 = nth j (secondX cfg) 0%Q
  /\ match ph with
     | Before =>
         c_doBypass C = true /\ c_finalBypass C = false
         /\ k_point kc1 = (-1)%Z /\ Bypass cfg = true
     | During i =>
         c_doBypass C = false /\ c_finalBypass C = false
         /\ k_point kc1 = Z.of_nat i /\ (i < List.length (firstX cfg))%nat
         /\ k_x kc1 = nth i (firstX cfg) 0%Q
     | After =>
         c_doBypass C = true /\ c_finalBypass C = true
         /\ k_point kc1 = (Z.of_nat (List.length (firstX cfg)) - 1)%Z
         /\ Bypass cfg = true
     end.

(** A running scan between two timer slots. *)
Definition Shape (cfg : Config) (C : Ctl) (O : list Vis) : Prop :=
  exists (ph : Phase) (j : nat) (kc1 kc2 : Core),
    c_first C = Some kc1 /\ c_second C = Some kc2
    /\ Standing cfg C ph j kc1 kc2
    /\ existsb isVFinal O = false
    /\ Logged cfg (progress cfg ph j) (firstSteps cfg ph)
         (S (List.length (vrows O))) (c_Zm C) O.

(** A scan that has run to its end. *)
Definition Final (cfg : Config) (C : Ctl) (O : list Vis) : Prop :=
  dead C
  /\ existsb isVFinal O = true
  /\ Logged cfg (planned cfg) (List.length (firstX cfg))
       (List.length (vrows O)) (c_Zm C) O.

(** No row of a bypass sweep, if the bypass option is off. *)
Definition Unbypassed (cfg : Config) (d : dict) : Prop :=
  Bypass cfg = false -> bypassed (firstKind cfg) d = false.

(** The three states of the window between timer slots: a scan is running,
    a scan was given up, a scan has run to its end. *)
Definition Running (cfg : Config) (w : World) : Prop :=
  timer w = true /\ alive (ctl w) /\ Shape cfg (ctl w) (obs w).

Definition GivenUp (cfg : Config) (w : World) : Prop :=
  existsb isVFinal (obs w) = false
  /\ (timer w = false \/ dead (ctl w))
  /\ Forall (Unbypassed cfg) (vrows (obs w)).

Definition Ended (cfg : Config) (w : World) : Prop :=
  timer w = false /\ Final cfg (ctl w) (obs w).

Definition Inv (cfg : Config) (w : World) : Prop :=
  Running cfg w \/ GivenUp cfg w \/ Ended cfg w.

End Plan.

(* ===================================================================== *)
(** ** Setting a scan up                                                 *)
(* ===================================================================== *)

Module Start.
Import Py Classes Scan View Plan.
Local Open Scope string_scope.

(** The window while a scan is set up or after the set-up failed: the
    timer is off, no row is written, no final plot drawn. *)
Definition Prep (w : World) : Prop :=
  timer w = false /\ vrows (obs w) = [] /\ existsb isVFinal (obs w) = false.

(** A computation that keeps the window in that state, whether it returns
    or raises. *)
Definition harmless {A} (m : W A) : Prop :=
  forall w, Prep w -> post m w (fun _ w' => Prep w') Prep.

(** The part of a new classifier the scan loop branches on. *)
Definition fresh (k : Kind) (table : list Q) : Core :=
  {| k_kind := k; k_points := Z.of_nat (List.length table);
     k_point := (-1)%Z; k_X := table; k_x := 0%Q |}.

(** The float commands a constructor sends, newest first: the sheath
    setting, and for a Cambustion classifier the sample flow and the start
    setpoint. *)
Definition built (s : Slot) (k : Kind) (start_ flow_ RorQsh_ : Q) : list Vis :=
  ((if isCambustion k
    then [VSet s (sizeCommand k) start_; VSet s "SetSampleFlow" flow_]
    else []) ++ [VSet s (sheathCommand k) RorQsh_])%list.

(** The window when [runScan] has started the timer. *)
Definition primed (cfg : Config) (v1 v2 : Q) : list Vis :=
  (VSet Second (sizeCommand (secondKind cfg)) v2
   :: (if Bypass cfg then [] else [VSet First (sizeCommand (firstKind cfg)) v1])
   ++ built Second (secondKind cfg) (secondStart cfg) (secondQa cfg)
        (secondRorQsh cfg)
   ++ built First (firstKind cfg) (firstStart cfg) (firstQa cfg)
        (firstRorQsh cfg))%list.

End Start.

(* ===================================================================== *)
(** ** What a constructor writes to its device                           *)
(* ===================================================================== *)

Module Constructed.
Import Py Classes Scan.
Local Open Scope string_scope.

(** The commands of [__init__], newest first: [setRorQsh] from
    [Classifier.__init__]; then [setFlow] and [set(start)] in
    [CambustionClass.__init__], or [setPolarity] in [TSI3082.__init__]. *)
Definition written (s : Slot) (k : Kind) (start_ flow_ RorQsh_ : Q)
    (polarity : bool) : list Event :=
  (match k with
   | CPMA | AAC =>
       [Sent (Class s) (Float (sizeCommand k) start_);
        Sent (Class s) (Float "SetSampleFlow" flow_)]
   | TSI3080 => []
   | TSI3082 =>
       [Sent (Class s) (Text (if polarity then "WSHVPOL 0" else "WSHVPOL 1"))]
   end ++ [Sent (Class s) (Float (sheathCommand k) RorQsh_)])%list.

End Constructed.

(* ===================================================================== *)
(** ** Properties a computation keeps                                    *)
(* ===================================================================== *)

Module Frame.
Import Py Classes Scan View.

(** [m] keeps [P]: from a window where [P] holds it leaves one where [P]
    holds, whether it returns or raises. *)
Definition keeps {A} (P : World -> Prop) (m : W A) : Prop :=
  forall w, P w -> post m w (fun _ w' => P w') P.

(** [m] never returns from a window where [P] holds, and keeps [P]. *)
Definition stops {A} (P : World -> Prop) (m : W A) : Prop :=
  forall w, P w -> post m w (fun _ _ => False) P.

(** The classifier in slot [s], if there is one, satisfies [Q]. *)
Definition marked (Q : Classifier -> Prop) (s : Slot) (w : World) : Prop :=
  match slot s w with Some c => Q c | None => True end.

(** A 3080 whose [sampleFlow] attribute was never assigned. *)
Definition flowless (c : Classifier) : Prop :=
  kind c = TSI3080 /\ sampleFlow c = None.

(** A classifier whose link is down. *)
Definition unlinked (c : Classifier) : Prop := connected c = false.

End Frame.

(* ===================================================================== *)
(** ** A device that is not there                                        *)
(* ===================================================================== *)

Module Faults.
Import Py Classes Scan Demo.

(** The ideal devices, but the first classifier does not connect. *)
Definition unplugged : Env := {|
  connects := fun d => match d with Class First => false | _ => true end;
  reply := reply ideal;
  reading := reading ideal;
  concentration := concentration ideal;
  waits := waits ideal;
  stop := stop ideal
|}.

End Faults.

Module SweepFacts.
Import Sweep.
Local Open Scope R_scope.

Lemma ln10_pos : 0 < ln 10.
Proof. rewrite <- ln_1. apply ln_increasing; lra. Qed.

Lemma log10_increasing x y : 0 < x -> x < y -> log10 x < log10 y.
Proof.
  intros Hx Hxy. unfold log10.
  apply Rmult_lt_compat_r.
  - apply Rinv_0_lt_compat, ln10_pos.
  - now apply ln_increasing.
Qed.

Lemma log10_div x y : 0 < x -> 0 < y -> log10 (y / x) = log10 y - log10 x.
Proof.
  intros Hx Hy. unfold log10.
  assert (Hq : ln (y / x) = ln y - ln x).
  { unfold Rdiv. rewrite ln_mult by (try apply Rinv_0_lt_compat; assumption).
    rewrite ln_Rinv by assumption. ring. }
  rewrite Hq. field.
  pose proof ln10_pos; lra.
Qed.

Lemma ratio_gt_1 perdec : 0 < perdec -> 1 < ratio perdec.
Proof.
  intros Hp. unfold ratio.
  assert (H : Rpower 10 0 < Rpower 10 (1 / perdec)).
  { apply Rpower_lt; [lra | apply Rdiv_lt_0_compat; lra]. }
  rewrite Rpower_O in H by lra. exact H.
Qed.

Lemma pow_lt_mono q (i j : nat) : 1 < q -> (i < j)%nat -> q ^ i < q ^ j.
Proof. intros Hq Hij. apply Rlt_pow; assumption. Qed.

Lemma getPoint_increasing start perdec i j :
  0 < start -> 0 < perdec -> (i < j)%nat ->
  getPoint start perdec i < getPoint start perdec j.
Proof.
  intros Hs Hp Hij. unfold getPoint.
  apply Rmult_lt_compat_l; [assumption|].
  apply pow_lt_mono; [now apply ratio_gt_1 | assumption].
Qed.

Lemma floor_nonneg x : 0 <= x -> (0 <= floor x)%Z.
Proof.
  intros Hx. unfold floor.
  apply Zfloor_lub. simpl. lra.
Qed.

Lemma points_pos start end_ perdec :
  0 < perdec -> 0 < start -> start < end_ -> (1 <= points start end_ perdec)%Z.
Proof.
  intros Hp Hs Hse. unfold points.
  assert (0 <= floor (perdec * (log10 end_ - log10 start) + epsilon))%Z; [|lia].
  apply floor_nonneg.
  pose proof (log10_increasing Hs Hse).
  assert (0 < perdec * (log10 end_ - log10 start)) by (apply Rmult_lt_0_compat; lra).
  unfold epsilon; lra.
Qed.

Lemma table_regular start end_ perdec :
  0 < perdec -> 0 < start -> start < end_ ->
  table start end_ perdec
  = inr (map (getPoint start perdec)
           (seq 0 (Z.to_nat (points start end_ perdec)))).
Proof.
  intros Hp Hs Hse. pose proof (points_pos Hp Hs Hse) as Hn. unfold table.
  destruct (Rle_dec end_ 0) as [He|_]; [lra|].
  destruct (Rle_dec start 0) as [Hs0|_]; [lra|].
  cbv zeta.
  destruct (Z.ltb_spec (points start end_ perdec) 0) as [Hneg|_]; [lia|].
  destruct (Z.eqb_spec (points start end_ perdec) 0) as [Hz|_]; [lia|].
  destruct (Req_dec_T perdec 0) as [H0|_]; [lra|].
  reflexivity.
Qed.

Lemma X_regular start end_ perdec :
  0 < perdec -> 0 < start -> start < end_ ->
  X start end_ perdec
  = Some (map (getPoint start perdec)
            (seq 0 (Z.to_nat (points start end_ perdec)))).
Proof. intros Hp Hs Hse. unfold X. now rewrite table_regular. Qed.

(** C1. For [perdec > 0] and [end > start > 0]: the point count is
    [floor(perdec*(log10 end - log10 start) + epsilon) + 1] with
    [epsilon = 0.00001] (equally with [log10 (end/start)]); the table [X]
    holds exactly that many setpoints, the [i]-th being
    [start * (10^(1/perdec))^i]; the setpoints are strictly increasing and
    the first one is [start]. *)
Theorem sweep_axis_law (start end_ perdec : R) :
  0 < perdec -> 0 < start -> start < end_ ->
  points start end_ perdec
    = (floor (perdec * (log10 end_ - log10 start) + epsilon) + 1)%Z
  /\ points start end_ perdec = spec_points start end_ perdec
  /\ 0 < epsilon < 1 / 1000
  /\ exists xs,
       X start end_ perdec = Some xs
       /\ Z.of_nat (length xs) = points start end_ perdec
       /\ (forall i, (i < length xs)%nat ->
             nth i xs 0 = start * (Rpower 10 (1 / perdec)) ^ i)
       /\ (forall i j, (i < j)%nat -> (j < length xs)%nat ->
             nth i xs 0 < nth j xs 0)
       /\ nth 0 xs 0 = start.
Proof.
  intros Hp Hs Hse.
  pose proof (points_pos Hp Hs Hse) as Hn.
  split; [reflexivity|].
  split.
  { unfold spec_points, points. rewrite log10_div by lra. reflexivity. }
  split; [unfold epsilon; lra|].
  rewrite (X_regular Hp Hs Hse).
  eexists; split; [reflexivity|].
  assert (Hnth : forall i, (i < Z.to_nat (points start end_ perdec))%nat ->
            nth i (map (getPoint start perdec)
                     (seq 0 (Z.to_nat (points start end_ perdec)))) 0
            = getPoint start perdec i).
  { intros i Hi.
    rewrite nth_indep with (d' := getPoint start perdec 0%nat)
      by (rewrite length_map, length_seq; assumption).
    rewrite map_nth, seq_nth by assumption. reflexivity. }
  rewrite length_map, length_seq.
  repeat split.
  - lia.
  - intros i Hi. rewrite Hnth by assumption. reflexivity.
  - intros i j Hij Hj. rewrite !Hnth by lia.
    now apply getPoint_increasing.
  - rewrite Hnth by lia. unfold getPoint. simpl. lra.
Qed.

Lemma sweep_axis_law_witness :
  points 1 100 2 = (floor (2 * (log10 100 - log10 1) + epsilon) + 1)%Z
  /\ points 1 100 2 = spec_points 1 100 2
  /\ 0 < epsilon < 1 / 1000
  /\ exists xs,
       X 1 100 2 = Some xs
       /\ Z.of_nat (length xs) = points 1 100 2
       /\ (forall i, (i < length xs)%nat ->
             nth i xs 0 = 1 * (Rpower 10 (1 / 2)) ^ i)
       /\ (forall i j, (i < j)%nat -> (j < length xs)%nat ->
             nth i xs 0 < nth j xs 0)
       /\ nth 0 xs 0 = 1.
Proof. apply (@sweep_axis_law 1 100 2); lra. Defined.

End SweepFacts.

Module RangeFacts.
Import Range.
Local Open Scope R_scope.

Lemma cube_root_of_cube a : 0 < a -> Rpower (a ^ 3) (1 / 3) = a.
Proof.
  intros Ha. rewrite <- (Rpower_pow 3) by assumption.
  rewrite Rpower_mult.
  replace (INR 3 * (1 / 3)) with 1 by (simpl; lra).
  now apply Rpower_1.
Qed.




End RangeFacts.

Module LinkFacts.
Import Link LinkAux.
Local Open Scope string_scope.

(** *** Strings *)

Lemma substring_0_app v rest : substring 0 (String.length v) (v ++ rest) = v.
Proof. induction v as [|a v IH]; simpl; [now destruct rest | now rewrite IH]. Qed.

Lemma substring_0_split n s :
  exists rest, s = substring 0 n s ++ rest.
Proof.
  revert s. induction n as [|n IH]; intros s.
  - exists s. now destruct s.
  - destruct s as [|a s]; simpl.
    + now exists "".
    + destruct (IH s) as [rest Hr]. exists rest. now rewrite <- Hr.
Qed.

Lemma match_begins s v : match_ s v = true <-> begins_with s v.
Proof.
  unfold match_, begins_with. rewrite String.eqb_eq. split.
  - intros H. destruct (substring_0_split (String.length v) s) as [rest Hr].
    exists rest. now rewrite H in Hr.
  - intros [rest ->]. apply substring_0_app.
Qed.

Lemma match_empty v : v <> "" -> match_ "" v = false.
Proof.
  intros Hv. unfold match_. apply String.eqb_neq.
  destruct v; [congruence|]. simpl. discriminate.
Qed.

Lemma prefix_begins v s : prefix v s = true <-> begins_with s v.
Proof.
  unfold begins_with. split.
  - intros H. apply prefix_correct in H.
    destruct (substring_0_split (String.length v) s) as [rest Hr].
    exists rest. now rewrite H in Hr.
  - intros [rest ->]. apply prefix_correct, substring_0_app.
Qed.

Lemma remove_char_free c s : free_of c s -> remove_char c s = s.
Proof.
  induction s as [|a s IH]; simpl; [reflexivity|].
  intros [Ha Hs]. apply Ascii.eqb_neq in Ha. rewrite Ha. now rewrite IH.
Qed.

Lemma find_from_shift sub s i :
  find_from sub s i = option_map (fun k => (i + k)%nat) (find_from sub s 0).
Proof.
  revert i. induction s as [|a s IH]; intros i; cbn [find_from].
  - destruct (prefix sub ""); simpl; [f_equal; lia | reflexivity].
  - destruct (prefix sub (String a s)); simpl; [f_equal; lia|].
    rewrite (IH (S i)), (IH 1%nat).
    destruct (find_from sub s 0); simpl; [f_equal; lia | reflexivity].
Qed.

Lemma find_from_hit sub s i : prefix sub s = true -> find_from sub s i = Some i.
Proof. intros H. destruct s; cbn [find_from]; now rewrite H. Qed.

Lemma terminator_not_early a p rest :
  free_of gt (String a p) ->
  prefix terminator (String a (p ++ terminator ++ rest)) = false.
Proof.
  intros Hfree.
  destruct (prefix terminator (String a (p ++ terminator ++ rest))) eqn:E;
    [exfalso | reflexivity].
  apply prefix_begins in E. destruct E as [tl Htl].
  unfold terminator in Htl. simpl in Htl. simpl in Hfree.
  destruct Hfree as [_ Hp].
  destruct p as [|b [|c p]]; simpl in Htl, Hp.
  - unfold terminator in Htl; simpl in Htl. inversion Htl.
  - unfold terminator in Htl; simpl in Htl. inversion Htl.
  - inversion Htl; subst. destruct Hp as [_ [Hc _]]. now apply Hc.
Qed.

Lemma find_payload p rest :
  free_of gt p ->
  find (p ++ terminator ++ rest) terminator = Z.of_nat (String.length p).
Proof.
  unfold find. intros Hp.
  assert (H : find_from terminator (p ++ terminator ++ rest) 0
              = Some (String.length p)).
  { induction p as [|a p IH].
    - apply find_from_hit, prefix_begins. now exists rest.
    - change (String a p ++ terminator ++ rest)
        with (String a (p ++ terminator ++ rest)).
      cbn [find_from]. rewrite terminator_not_early by assumption.
      rewrite find_from_shift, IH by (apply Hp). reflexivity. }
  now rewrite H.
Qed.

Lemma payload_framed p rest :
  free_of gt p -> payload (p ++ terminator ++ rest) = p.
Proof.
  intros Hp. unfold payload. rewrite find_payload by assumption.
  unfold slice_to.
  destruct (Z.leb_spec 0 (Z.of_nat (String.length p))) as [_|]; [|lia].
  rewrite Nat2Z.id, substring_0_app. now apply remove_char_free.
Qed.

(** *** The receive loop *)

Lemma getRspLoop_pending i chunks cs post :
  pending chunks cs ->
  getRspLoop i chunks (map arrives cs ++ post)
  = getRspLoop i (joined chunks cs) post.
Proof.
  revert chunks. induction cs as [|c cs IH]; intros chunks Hp; [reflexivity|].
  destruct Hp as [Hlt Hp]. cbn [map app getRspLoop joined].
  apply Z.ltb_lt in Hlt. rewrite Hlt. simpl. now apply IH.
Qed.

Lemma getRspLoop_seen i chunks turns :
  (0 <= find chunks terminator)%Z ->
  getRspLoop i chunks turns = (i, payload chunks).
Proof.
  intros H. apply Z.ltb_ge in H. destruct turns; simpl; now rewrite H.
Qed.

Lemma getRspLoop_frame i chunks turns :
  fst (getRspLoop i chunks turns) = i
  \/ getRspLoop i chunks turns = (disconnect_ i, "").
Proof.
  revert chunks. induction turns as [|t turns IH]; intros chunks; simpl.
  - destruct (find chunks terminator <? 0)%Z; now left.
  - destruct (find chunks terminator <? 0)%Z; [|now left].
    destruct (in_time t); [|now left].
    destruct (read t); [apply IH | now right].
Qed.

Lemma find_missing s sub : (find s sub < 0)%Z -> find s sub = (-1)%Z.
Proof. unfold find. destruct (find_from sub s 0); [lia | reflexivity]. Qed.

Lemma payload_seen p rest :
  find (p ++ terminator ++ rest) terminator = Z.of_nat (String.length p) ->
  payload (p ++ terminator ++ rest) = remove_char gt p.
Proof.
  intros Hf. unfold payload. rewrite Hf. unfold slice_to.
  destruct (Z.leb_spec 0 (Z.of_nat (String.length p))) as [_|]; [|lia].
  now rewrite Nat2Z.id, substring_0_app.
Qed.

Lemma payload_missing chunks :
  (find chunks terminator < 0)%Z ->
  payload chunks
  = remove_char gt (substring 0 (Nat.pred (String.length chunks)) chunks).
Proof.
  intros Hf. unfold payload. rewrite (find_missing _ _ Hf). unfold slice_to.
  change (0 <=? -1)%Z with false. cbv iota.
  replace (Z.to_nat (Z.of_nat (String.length chunks) + -1))
    with (Nat.pred (String.length chunks)) by lia.
  reflexivity.
Qed.

(** C6, as the code has it.  [getRsp] accumulates chunks until the
    terminator ["\r\n>"] is seen or the time is up.  Once the terminator is
    seen it returns the text before its first occurrence with every ['>']
    removed (a payload without ['>'] exactly) and leaves the connection
    state alone; a read that raises gives the empty string and
    [connected = False].  When the time runs out before a terminator,
    [find] gives -1 and the slice [chunks[0:-1]] is returned: the text
    received so far without its last character (and without any ['>']),
    with the connection state left as it was, where the specification has
    the empty string and a disconnected link.  The one read of
    [getRspEth] returns the chunk, or the empty string with
    [connected = False] when the read raises, a timeout included. *)
Theorem receive_law :
  (forall i cs post p rest,
     pending "" cs ->
     joined "" cs = p ++ terminator ++ rest ->
     find (p ++ terminator ++ rest) terminator = Z.of_nat (String.length p) ->
     getRsp i (map arrives cs ++ post) = (i, remove_char gt p))
  /\ (forall i cs post p rest,
        pending "" cs ->
        joined "" cs = p ++ terminator ++ rest -> free_of gt p ->
        getRsp i (map arrives cs ++ post) = (i, p))
  /\ (forall i cs post,
        pending "" cs -> (find (joined "" cs) terminator < 0)%Z ->
        getRsp i (map arrives cs ++ {| in_time := true; read := IOError |} :: post)
        = (disconnect_ i, ""))
  /\ (forall i cs post t,
        pending "" cs -> (find (joined "" cs) terminator < 0)%Z ->
        in_time t = false ->
        let chunks := joined "" cs in
        let cut :=
          remove_char gt (substring 0 (Nat.pred (String.length chunks)) chunks)
        in
        getRsp i (map arrives cs ++ t :: post) = (i, cut)
        /\ getRsp i (map arrives cs) = (i, cut))
  /\ (forall i turns,
        fst (getRsp i turns) = i \/ getRsp i turns = (disconnect_ i, ""))
  /\ (forall i s, getRspBase i (Chunk s) = (i, s))
  /\ (forall i, getRspBase i IOError = (disconnect_ i, "")).
Proof.
  split; [|split; [|split; [|split; [|split; [|split]]]]].
  - intros i cs post p rest Hpend Hj Hf. unfold getRsp.
    rewrite getRspLoop_pending by assumption.
    rewrite getRspLoop_seen.
    + rewrite Hj. now rewrite payload_seen.
    + rewrite Hj, Hf. lia.
  - intros i cs post p rest Hpend Hj Hfree. unfold getRsp.
    rewrite getRspLoop_pending by assumption.
    rewrite getRspLoop_seen.
    + rewrite Hj. now rewrite payload_framed.
    + rewrite Hj, find_payload by assumption. lia.
  - intros i cs post Hpend Hlt. unfold getRsp.
    rewrite getRspLoop_pending by assumption.
    apply Z.ltb_lt in Hlt. simpl. now rewrite Hlt.
  - intros i cs post t Hpend Hlt Ht chunks cut. subst cut chunks.
    rewrite <- (payload_missing _ Hlt).
    apply Z.ltb_lt in Hlt. unfold getRsp. split.
    + rewrite getRspLoop_pending by assumption.
      simpl. now rewrite Hlt, Ht.
    + rewrite <- (app_nil_r (map arrives cs)).
      rewrite getRspLoop_pending by assumption.
      simpl. now rewrite Hlt.
  - intros i turns. apply getRspLoop_frame.
  - reflexivity.
  - reflexivity.
Qed.

(** A witness of the framed case: the reply ["OK"] arriving in two chunks. *)
Lemma receive_law_witness :
  getRsp {| connected := true; lastResponse := ""; sent := [] |}
    (map arrives ["O"; "K" ++ terminator]
       ++ [{| in_time := true; read := IOError |}])
  = ({| connected := true; lastResponse := ""; sent := [] |}, "OK").
Proof.
  apply (proj1 (proj2 receive_law) _ ["O"; "K" ++ terminator] _ "OK" "").
  - simpl. repeat split; vm_compute; reflexivity.
  - reflexivity.
  - simpl. repeat split; discriminate.
Defined.

(** C6 fails in the code on a timeout: with ["OK"] received and no
    terminator when the time runs out, [getRsp] returns ["O"] (the slice to
    index -1), not the empty string, and the link stays connected. *)
Lemma receive_timeout_counterexample :
  getRsp {| connected := true; lastResponse := ""; sent := [] |}
    [ {| in_time := true; read := Chunk "OK" |};
      {| in_time := false; read := Chunk "" |} ]
  = ({| connected := true; lastResponse := ""; sent := [] |}, "O").
Proof. reflexivity. Qed.

(** *** Command acknowledgement *)

Lemma sendAndCheckCambustion_eq i cmd ok turns :
  sendAndCheckCambustion i cmd ok turns
  = (set_lastResponse (fst (getRsp (sendCmd i cmd ok) turns))
       (snd (getRsp (sendCmd i cmd ok) turns)),
     match_ (snd (getRsp (sendCmd i cmd ok) turns)) "OK").
Proof.
  unfold sendAndCheckCambustion.
  now destruct (getRsp (sendCmd i cmd ok) turns).
Qed.

Lemma sendAndCheckTSI_eq i cmd ok r :
  sendAndCheckTSI i cmd ok r
  = (set_lastResponse (fst (getRspBase (sendCmd i cmd ok) r))
       (snd (getRspBase (sendCmd i cmd ok) r)),
     negb (match_ (snd (getRspBase (sendCmd i cmd ok) r)) "ERROR")).
Proof.
  unfold sendAndCheckTSI.
  now destruct (getRspBase (sendCmd i cmd ok) r).
Qed.

(** C10. A Cambustion classifier's [sendAndCheck] succeeds exactly when the
    response begins with ["OK"]; a TSI DMA's succeeds exactly when the
    response does not begin with ["ERROR"].  So on a TSI DMA the empty
    response, which is what a failed read leaves (with the link marked
    disconnected), counts as an acknowledgement, while on a Cambustion
    classifier it does not. *)
Theorem sendAndCheck_law :
  (forall i cmd ok turns,
     let r := snd (getRsp (sendCmd i cmd ok) turns) in
     lastResponse (fst (sendAndCheckCambustion i cmd ok turns)) = r
     /\ (snd (sendAndCheckCambustion i cmd ok turns) = true
         <-> begins_with r "OK"))
  /\ (forall i cmd ok rd,
        let r := snd (getRspBase (sendCmd i cmd ok) rd) in
        lastResponse (fst (sendAndCheckTSI i cmd ok rd)) = r
        /\ (snd (sendAndCheckTSI i cmd ok rd) = true
            <-> ~ begins_with r "ERROR"))
  /\ (forall i cmd ok,
        snd (sendAndCheckTSI i cmd ok IOError) = true
        /\ lastResponse (fst (sendAndCheckTSI i cmd ok IOError)) = ""
        /\ connected (fst (sendAndCheckTSI i cmd ok IOError)) = false)
  /\ (forall i cmd ok,
        snd (sendAndCheckTSI i cmd ok (Chunk "")) = true)
  /\ (forall i cmd ok turns,
        snd (getRsp (sendCmd i cmd ok) turns) = "" ->
        snd (sendAndCheckCambustion i cmd ok turns) = false).
Proof.
  split; [|split; [|split; [|split]]].
  - intros i cmd ok turns r. subst r.
    rewrite sendAndCheckCambustion_eq. simpl.
    split; [reflexivity | apply match_begins].
  - intros i cmd ok rd r. subst r.
    rewrite sendAndCheckTSI_eq. simpl. split; [reflexivity|].
    rewrite negb_true_iff, <- not_true_iff_false, match_begins. reflexivity.
  - intros i cmd ok. unfold sendAndCheckTSI, sendCmd.
    destruct ok; simpl; repeat split; reflexivity.
  - intros i cmd ok. unfold sendAndCheckTSI, sendCmd. now destruct ok.
  - intros i cmd ok turns Hr. rewrite sendAndCheckCambustion_eq. simpl.
    rewrite Hr. reflexivity.
Qed.

End LinkFacts.

Module ToleranceFacts.
Import Tolerance.
Local Open Scope Q_scope.

Lemma Qltb_lt a b : Qltb a b = true <-> a < b.
Proof.
  unfold Qltb. rewrite negb_true_iff, <- not_true_iff_false, Qle_bool_iff.
  split; [apply Qnot_le_lt | apply Qlt_not_le].
Qed.

Lemma fdiv_some a b : ~ b == 0 -> fdiv a b = Some (a / b).
Proof.
  intros H. unfold fdiv.
  destruct (Qeq_bool b 0) eqn:E; [|reflexivity].
  apply Qeq_bool_iff in E. contradiction.
Qed.

Lemma fdiv_none a b : b == 0 -> fdiv a b = None.
Proof.
  intros H. unfold fdiv. apply Qeq_bool_iff in H. now rewrite H.
Qed.

Lemma within_true s m :
  within s m = Some true <-> ~ s == 0 /\ Qabs ((s - m) / s) < tolerance.
Proof.
  unfold within, fdiv. destruct (Qeq_bool s 0) eqn:E.
  - apply Qeq_bool_iff in E. split; [discriminate | intros [H _]; contradiction].
  - apply Qeq_bool_neq in E. split.
    + intros H. injection H as H. apply Qltb_lt in H. now split.
    + intros [_ H]. apply Qltb_lt in H. now rewrite H.
Qed.

Lemma within_false s m :
  within s m = Some false <-> ~ s == 0 /\ tolerance <= Qabs ((s - m) / s).
Proof.
  unfold within, fdiv. destruct (Qeq_bool s 0) eqn:E.
  - apply Qeq_bool_iff in E. split; [discriminate | intros [H _]; contradiction].
  - apply Qeq_bool_neq in E. split.
    + intros H. split; [assumption|].
      apply Qnot_lt_le. intros Hlt. apply Qltb_lt in Hlt.
      rewrite Hlt in H. discriminate.
    + intros [_ H]. f_equal. apply not_true_iff_false. intros Hlt.
      apply Qltb_lt in Hlt. now apply Qlt_not_le in Hlt.
Qed.

Lemma Qabs_div_pos a s : 0 < s -> Qabs (a / s) == Qabs a / s.
Proof.
  intros Hs. unfold Qdiv. rewrite Qabs_Qmult.
  rewrite (Qabs_pos (/ s)); [reflexivity|].
  apply Qlt_le_weak, Qinv_lt_0_compat, Hs.
Qed.

Lemma within_spec_pos s m : 0 < s -> (within s m = Some true <-> spec_within s m).
Proof.
  intros Hs. rewrite within_true. unfold spec_within.
  rewrite (Qabs_div_pos _ Hs). split; [now intros [_ H]|].
  intros H. split; [|assumption]. intros E. rewrite E in Hs.
  now apply Qlt_irrefl in Hs.
Qed.

Lemma within_none s m : within s m = None <-> s == 0.
Proof.
  unfold within, fdiv. destruct (Qeq_bool s 0) eqn:E.
  - apply Qeq_bool_iff in E. tauto.
  - apply Qeq_bool_neq in E. split; [discriminate | contradiction].
Qed.

(** C2, as the code has it.  In stepped mode [isReady] returns true exactly
    when both setpoints are non-zero and [|(s - f)/s| < tolerance] on the
    sheath-flow and the voltage channel, with [tolerance = 0.05]; for
    positive setpoints that is the condition [|s - f|/s < tolerance]; a
    channel at exactly the tolerance makes the result false.  The division
    raises exactly when the sheath setpoint is zero, or the sheath flow is
    within tolerance and the voltage setpoint is zero. *)
Theorem isReady_law (ss sm vs vm : Q) :
  tolerance == 5 # 100
  /\ (isReady false ss sm vs vm = Some true
      <-> (~ ss == 0 /\ Qabs ((ss - sm) / ss) < tolerance)
          /\ (~ vs == 0 /\ Qabs ((vs - vm) / vs) < tolerance))
  /\ (0 < ss -> 0 < vs ->
      (isReady false ss sm vs vm = Some true <-> spec_ready ss sm vs vm)
      /\ (isReady false ss sm vs vm = Some false <-> ~ spec_ready ss sm vs vm))
  /\ (~ ss == 0 -> Qabs ((ss - sm) / ss) == tolerance ->
      isReady false ss sm vs vm = Some false)
  /\ (~ ss == 0 -> ~ vs == 0 -> Qabs ((vs - vm) / vs) == tolerance ->
      isReady false ss sm vs vm = Some false)
  /\ (isReady false ss sm vs vm = None
      <-> ss == 0
          \/ (~ ss == 0 /\ Qabs ((ss - sm) / ss) < tolerance /\ vs == 0)).
Proof.
  split; [reflexivity|].
  assert (Htrue : isReady false ss sm vs vm = Some true
      <-> (~ ss == 0 /\ Qabs ((ss - sm) / ss) < tolerance)
          /\ (~ vs == 0 /\ Qabs ((vs - vm) / vs) < tolerance)).
  { rewrite <- !within_true. unfold isReady.
    destruct (within ss sm) as [[|]|]; split;
      try tauto; try discriminate; intros [H _]; discriminate. }
  split; [exact Htrue|].
  split; [|split; [|split]].
  - intros Hss Hvs.
    assert (Hspec : isReady false ss sm vs vm = Some true <-> spec_ready ss sm vs vm).
    { unfold spec_ready. rewrite <- !within_spec_pos by assumption.
      rewrite Htrue, !within_true. tauto. }
    split; [exact Hspec|].
    assert (Hsome : isReady false ss sm vs vm <> None).
    { unfold isReady, within.
      rewrite !fdiv_some by (intros E; rewrite E in *; eapply Qlt_irrefl; eassumption).
      destruct (Qltb _ _); discriminate. }
    destruct (isReady false ss sm vs vm) as [[|]|]; [| |congruence].
    + split; [discriminate|]. intros H. exfalso. apply H, Hspec. reflexivity.
    + split; [|reflexivity]. intros _ H. apply Hspec in H. discriminate.
  - intros Hss Heq. unfold isReady.
    assert (H : within ss sm = Some false).
    { apply within_false. split; [assumption|]. rewrite Heq. apply Qle_refl. }
    now rewrite H.
  - intros Hss Hvs Heq. unfold isReady.
    assert (H : within vs vm = Some false).
    { apply within_false. split; [assumption|]. rewrite Heq. apply Qle_refl. }
    rewrite H. unfold within. rewrite fdiv_some by assumption.
    now destruct (Qltb _ _).
  - unfold isReady.
    pose proof (within_none ss sm) as Hn.
    pose proof (within_true ss sm) as Ht.
    destruct (within ss sm) as [[|]|].
    + rewrite within_none. split.
      * intros Hv. right. destruct (proj1 Ht eq_refl) as [H1 H2]. auto.
      * intros [H|(_ & _ & H)]; [|exact H].
        apply Hn in H. discriminate.
    + split; [discriminate|].
      intros [H|(_ & H & _)].
      * apply Hn in H. discriminate.
      * assert (Hc : Some false = Some true) by (apply Ht; split; [|exact H];
          intros E; apply Hn in E; discriminate).
        discriminate.
    + split; [intros _; left; now apply Hn | reflexivity].
Qed.

(** C2 as stated fails for a negative setpoint: with the voltage setpoint
    at -1000 V and the feedback at -500 V the quotient [|s - f|/s] is
    -1/2, below the tolerance, but [isReady] is false. *)
Lemma isReady_counterexample :
  spec_ready 3 3 (-1000) (-500)
  /\ isReady false 3 3 (-1000) (-500) = Some false.
Proof.
  split; [|reflexivity].
  split; unfold spec_within, tolerance; vm_compute; reflexivity.
Qed.

End ToleranceFacts.

Module ScanLib.
Import Py Classes Scan View.
Local Open Scope string_scope.
Local Open Scope py_scope.

(** *** The view of a world under the setters *)

Lemma ctl_set_clock v w : ctl (set_clock v w) = ctl w.
Proof. reflexivity. Qed.

Lemma obs_set_clock v w : obs (set_clock v w) = obs w.
Proof. reflexivity. Qed.

Lemma ctl_set_pumps v w : ctl (set_pumps v w) = ctl w.
Proof. reflexivity. Qed.

Lemma obs_set_pumps v w : obs (set_pumps v w) = obs w.
Proof. reflexivity. Qed.

Lemma ctl_set_trace v w : ctl (set_trace v w) = ctl w.
Proof. reflexivity. Qed.

Lemma ctl_set_arduino v w : ctl (set_arduino v w) = ctl w.
Proof. reflexivity. Qed.

Lemma obs_set_arduino v w : obs (set_arduino v w) = obs w.
Proof. reflexivity. Qed.

Lemma ctl_set_isScanning v w : ctl (set_isScanning v w) = set_c_isScanning v (ctl w).
Proof. reflexivity. Qed.

Lemma obs_set_isScanning v w : obs (set_isScanning v w) = obs w.
Proof. reflexivity. Qed.

Lemma ctl_set_timer v w : ctl (set_timer v w) = set_c_timer v (ctl w).
Proof. reflexivity. Qed.

Lemma obs_set_timer v w : obs (set_timer v w) = obs w.
Proof. reflexivity. Qed.

Lemma ctl_set_doBypass v w : ctl (set_doBypass v w) = set_c_doBypass v (ctl w).
Proof. reflexivity. Qed.

Lemma obs_set_doBypass v w : obs (set_doBypass v w) = obs w.
Proof. reflexivity. Qed.

Lemma ctl_set_finalBypass v w : ctl (set_finalBypass v w) = set_c_finalBypass v (ctl w).
Proof. reflexivity. Qed.

Lemma obs_set_finalBypass v w : obs (set_finalBypass v w) = obs w.
Proof. reflexivity. Qed.

Lemma ctl_set_firstBypass v w : ctl (set_firstBypass v w) = ctl w.
Proof. reflexivity. Qed.

Lemma obs_set_firstBypass v w : obs (set_firstBypass v w) = obs w.
Proof. reflexivity. Qed.

Lemma ctl_set_disBypass v w : ctl (set_disBypass v w) = ctl w.
Proof. reflexivity. Qed.

Lemma obs_set_disBypass v w : obs (set_disBypass v w) = obs w.
Proof. reflexivity. Qed.

Lemma ctl_set_startRow v w : ctl (set_startRow v w) = set_c_startRow v (ctl w).
Proof. reflexivity. Qed.

Lemma obs_set_startRow v w : obs (set_startRow v w) = obs w.
Proof. reflexivity. Qed.

Lemma ctl_set_Scatterplot v w : ctl (set_Scatterplot v w) = ctl w.
Proof. reflexivity. Qed.

Lemma obs_set_Scatterplot v w : obs (set_Scatterplot v w) = obs w.
Proof. reflexivity. Qed.

Lemma ctl_set_fileData v w : ctl (set_fileData v w) = ctl w.
Proof. reflexivity. Qed.

Lemma obs_set_fileData v w : obs (set_fileData v w) = obs w.
Proof. reflexivity. Qed.

Lemma ctl_set_Zm v w : ctl (set_Zm v w) = set_c_Zm v (ctl w).
Proof. reflexivity. Qed.

Lemma obs_set_Zm v w : obs (set_Zm v w) = obs w.
Proof. reflexivity. Qed.

Lemma ctl_set_G v w : ctl (set_G v w) = ctl w.
Proof. reflexivity. Qed.

Lemma obs_set_G v w : obs (set_G v w) = obs w.
Proof. reflexivity. Qed.

Lemma obs_set_firstClass v w : obs (set_firstClass v w) = obs w.
Proof. reflexivity. Qed.

Lemma obs_set_secondClass v w : obs (set_secondClass v w) = obs w.
Proof. reflexivity. Qed.

Lemma obs_set_cpc v w : obs (set_cpc v w) = obs w.
Proof. reflexivity. Qed.

Lemma ctl_set_firstClass v w : ctl (set_firstClass v w) = set_c_first (option_map core v) (ctl w).
Proof. reflexivity. Qed.

Lemma ctl_set_secondClass v w : ctl (set_secondClass v w) = set_c_second (option_map core v) (ctl w).
Proof. reflexivity. Qed.

Lemma ctl_set_cpc v w : ctl (set_cpc v w) = set_c_cpc (match v with Some _ => true | None => false end) (ctl w).
Proof. reflexivity. Qed.

Create HintDb scan.

#[export] Hint Rewrite
  ctl_set_clock ctl_set_pumps ctl_set_trace ctl_set_arduino ctl_set_isScanning
  ctl_set_timer ctl_set_doBypass ctl_set_finalBypass ctl_set_firstBypass
  ctl_set_disBypass ctl_set_startRow ctl_set_Scatterplot ctl_set_fileData
  ctl_set_Zm ctl_set_G ctl_set_firstClass ctl_set_secondClass ctl_set_cpc
  obs_set_clock obs_set_pumps obs_set_arduino obs_set_isScanning
  obs_set_timer obs_set_doBypass obs_set_finalBypass obs_set_firstBypass
  obs_set_disBypass obs_set_startRow obs_set_Scatterplot obs_set_fileData
  obs_set_Zm obs_set_G obs_set_firstClass obs_set_secondClass obs_set_cpc
  : view.

Lemma obs_log e w : obs (set_trace (e :: trace w) w) = (vis e ++ obs w)%list.
Proof. reflexivity. Qed.

Lemma ctl_set_slot s c w :
  ctl (set_slot s c w) = set_c_slot s (option_map core c) (ctl w).
Proof. destruct s; reflexivity. Qed.

Lemma obs_set_slot s c w : obs (set_slot s c w) = obs w.
Proof. destruct s; reflexivity. Qed.

Lemma c_slot_ctl s w : c_slot s (ctl w) = option_map core (slot s w).
Proof. destruct s; reflexivity. Qed.

#[export] Hint Rewrite obs_log ctl_set_slot obs_set_slot : view.

Lemma set_c_slot_same s w c :
  slot s w = Some c -> set_c_slot s (Some (core c)) (ctl w) = ctl w.
Proof.
  destruct s; unfold ctl; cbn; intros ->; reflexivity.
Qed.

(** *** Outcomes *)

Lemma post_weaken {A} (m : W A) w (P Q : A -> World -> Prop) (PE QE : World -> Prop) :
  post m w P PE ->
  (forall a w1, P a w1 -> Q a w1) ->
  (forall w1, PE w1 -> QE w1) ->
  post m w Q QE.
Proof. unfold post. destruct (m w); auto. Qed.

Lemma post_bind {A B} (m : W A) (k : A -> W B) w Q QE :
  post m w (fun a w1 => post (k a) w1 Q QE) QE ->
  post (bind m k) w Q QE.
Proof. unfold post, bind. destruct (m w); auto. Qed.

Lemma post_call {A B} (m : W A) (k : A -> W B) w P PE Q QE :
  post m w P PE ->
  (forall a w1, P a w1 -> post (k a) w1 Q QE) ->
  (forall w1, PE w1 -> QE w1) ->
  post (bind m k) w Q QE.
Proof. intros H HV HE. apply post_bind. eapply post_weaken; eauto. Qed.

Lemma post_assoc {A B D} (m : W A) (k : A -> W B) (k2 : B -> W D) w Q QE :
  post (bind m (fun a => bind (k a) k2)) w Q QE ->
  post (bind (bind m k) k2) w Q QE.
Proof. unfold post, bind. destruct (m w); auto. Qed.

Lemma post_ret {A} (a : A) w (Q : A -> World -> Prop) QE :
  Q a w -> post (ret a) w Q QE.
Proof. auto. Qed.

Lemma post_raise {A} e w (Q : A -> World -> Prop) (QE : World -> Prop) :
  QE w -> post (raise e) w Q QE.
Proof. auto. Qed.

Lemma post_val {A} (m : W A) w a w1 (Q : A -> World -> Prop) QE :
  m w = Val a w1 -> Q a w1 -> post m w Q QE.
Proof. unfold post. intros ->. auto. Qed.

Lemma post_exn {A} (m : W A) w e w1 (Q : A -> World -> Prop) (QE : World -> Prop) :
  m w = Raise e w1 -> QE w1 -> post m w Q QE.
Proof. unfold post. intros ->. auto. Qed.

Lemma post_inv {A} (m : W A) w (Q : A -> World -> Prop) QE :
  post m w Q QE ->
  (exists a w1, m w = Val a w1 /\ Q a w1) \/ (exists e w1, m w = Raise e w1 /\ QE w1).
Proof. unfold post. destruct (m w); eauto. Qed.


Lemma Same_refl w : Same w w.
Proof. split; reflexivity. Qed.

Lemma Same_trans w1 w2 w3 : Same w1 w2 -> Same w2 w3 -> Same w1 w3.
Proof. intros [H1 H2] [H3 H4]. split; congruence. Qed.

Lemma At_Same C O w w' : At C O w -> Same w w' -> At C O w'.
Proof. intros [H1 H2] [H3 H4]. split; congruence. Qed.

#[export] Hint Resolve Same_refl : scan.


Lemma quiet_ret {A} (a : A) : quiet (ret a).
Proof. intros w. apply Same_refl. Qed.

Lemma quiet_raise {A} e : quiet (@raise World A e).
Proof. intros w. apply Same_refl. Qed.

Lemma quiet_gets {A} (f : World -> A) : quiet (gets f).
Proof. intros w. apply Same_refl. Qed.

Lemma quiet_bind {A B} (m : W A) (k : A -> W B) :
  quiet m -> (forall a, quiet (k a)) -> quiet (bind m k).
Proof.
  intros Hm Hk w. eapply post_call; [apply Hm | | intros w1 H; exact H].
  intros a w1 H1. cbn beta in H1.
  eapply post_weaken; [apply Hk | |];
    cbn beta; intros; eapply Same_trans; eassumption.
Qed.

Lemma quiet_modify (f : World -> World) :
  (forall w, Same w (f w)) -> quiet (modify f).
Proof. intros H w. apply H. Qed.

Lemma quiet_if {A} (b : bool) (m1 m2 : W A) :
  quiet m1 -> quiet m2 -> quiet (if b then m1 else m2).
Proof. destruct b; auto. Qed.

Lemma quiet_when b m : quiet m -> quiet (when b m).
Proof. intros H. destruct b; [exact H | apply quiet_ret]. Qed.

Lemma quiet_step : quiet step.
Proof. intros w. split; reflexivity. Qed.

Lemma quiet_log e : vis e = [] -> quiet (log e).
Proof.
  intros H w. split; [reflexivity|].
  cbn. autorewrite with view. now rewrite H.
Qed.

Lemma quiet_getC s : quiet (getC s).
Proof. intros w. unfold post, getC. destruct (slot s w); apply Same_refl. Qed.

Lemma quiet_getCpc : quiet getCpc.
Proof. intros w. unfold post, getCpc. destruct (cpc w); apply Same_refl. Qed.

(** Writing back a classifier whose core is unchanged is quiet, given that
    the slot holds one with that core. *)
Lemma Same_putC s w c c' :
  slot s w = Some c -> core c' = core c -> Same w (set_slot s (Some c') w).
Proof.
  intros Hs Hc. split; autorewrite with view; [|reflexivity].
  cbn. rewrite Hc. now apply set_c_slot_same.
Qed.



Lemma Emit_nil w w' : Emit [] w w' <-> Same w w'.
Proof. reflexivity. Qed.

Lemma Emit_trans l1 l2 w1 w2 w3 :
  Emit l1 w1 w2 -> Emit l2 w2 w3 -> Emit (l2 ++ l1) w1 w3.
Proof.
  intros [H1 H2] [H3 H4]. split; [congruence|].
  rewrite H4, H2. apply app_assoc.
Qed.

Lemma Emit_Same l w1 w2 w3 : Emit l w1 w2 -> Same w2 w3 -> Emit l w1 w3.
Proof. intros H1 H2. apply (Emit_trans H1 (l2 := [])). exact H2. Qed.

Lemma Same_Emit l w1 w2 w3 : Same w1 w2 -> Emit l w2 w3 -> Emit l w1 w3.
Proof.
  intros H1 H2. pose proof (Emit_trans (l1 := []) H1 H2) as H.
  now rewrite app_nil_r in H.
Qed.

Lemma slot_of_ctl s w w' c :
  ctl w' = ctl w -> slot s w = Some c ->
  exists c', slot s w' = Some c' /\ core c' = core c.
Proof.
  intros H Hs. pose proof (f_equal (c_slot s) H) as Hc.
  rewrite !c_slot_ctl, Hs in Hc. destruct (slot s w') as [c'|]; [|discriminate].
  exists c'. split; [reflexivity|]. cbn in Hc. congruence.
Qed.

Ltac same_tac :=
  split; autorewrite with view; cbn [vis app option_map];
  first [ reflexivity
        | eapply set_c_slot_same; eassumption
        | idtac ].

Lemma set_c_slot_twice s a b C :
  set_c_slot s a (set_c_slot s b C) = set_c_slot s a C.
Proof. destruct s; reflexivity. Qed.

Lemma c_slot_set_c_slot s a C : c_slot s (set_c_slot s a C) = a.
Proof. destruct s; reflexivity. Qed.

#[export] Hint Rewrite set_c_slot_twice c_slot_set_c_slot : view.

Lemma slot_set_slot s c w : slot s (set_slot s c w) = c.
Proof. destruct s; reflexivity. Qed.

Section Specs.
Variable E : Env.
Variable cfg : Config.

(** *** Queries *)

Lemma sendQuery_spec' s cmd w :
  post (sendQuery E s cmd) w
    (fun _ w' => Emit (vis (Sent (Class s) cmd)) w w')
    (fun w' => Emit (vis (Sent (Class s) cmd)) w w' /\ slot s w = None).
Proof.
  unfold post, sendQuery, step, log, getC, putC, bind, ret, modify.
  destruct (reply E (clock w) (Class s) cmd); cbn.
  - split; reflexivity.
  - destruct (slot s _) as [c|] eqn:Hs; cbn.
    + split; autorewrite with view; [|reflexivity].
      assert (Hs' : slot s w = Some c) by (destruct s; exact Hs).
      cbn. apply (set_c_slot_same s w Hs').
    + split; [split; reflexivity | first [reflexivity | destruct s; exact Hs]].
Qed.

Lemma sendQuery_spec s cmd w :
  post (sendQuery E s cmd) w
    (fun _ w' => Emit (vis (Sent (Class s) cmd)) w w')
    (fun w' => Emit (vis (Sent (Class s) cmd)) w w').
Proof.
  eapply post_weaken; [apply sendQuery_spec' | auto | now intros w1 [H _]].
Qed.

Lemma sendQuery_noraise s cmd w c :
  slot s w = Some c ->
  post (sendQuery E s cmd) w
    (fun _ w' => Emit (vis (Sent (Class s) cmd)) w w')
    (fun _ => False).
Proof.
  intros Hs.
  eapply post_weaken; [apply sendQuery_spec' | auto |].
  intros w1 [_ H]. congruence.
Qed.

Lemma sendAndCheck_spec s cmd w :
  post (sendAndCheck E s cmd) w
    (fun _ w' => Emit (vis (Sent (Class s) cmd)) w w')
    (fun w' => Emit (vis (Sent (Class s) cmd)) w w').
Proof.
  unfold sendAndCheck.
  eapply post_call; [apply sendQuery_spec | | auto].
  intros r w1 H1. cbn beta in H1.
  unfold post, getC, putC, bind, ret, modify.
  destruct (slot s w1) as [c|] eqn:Hs; [|exact H1].
  eapply Emit_Same; [exact H1|].
  apply (Same_putC s w1 Hs). reflexivity.
Qed.

Lemma sendAndCheck_noraise s cmd w c :
  slot s w = Some c ->
  post (sendAndCheck E s cmd) w
    (fun _ w' => Emit (vis (Sent (Class s) cmd)) w w')
    (fun _ => False).
Proof.
  intros Hs. unfold sendAndCheck.
  eapply post_call; [apply (sendQuery_noraise s cmd w Hs) | | auto].
  intros r w1 H1. cbn beta in H1.
  destruct (slot_of_ctl s (proj1 H1) Hs) as (c' & Hs' & _).
  unfold post, getC, putC, bind, ret, modify. rewrite Hs'.
  eapply Emit_Same; [exact H1|].
  apply (Same_putC s w1 Hs'). reflexivity.
Qed.

Lemma sendQuery_quiet s t : quiet (sendQuery E s (Text t)).
Proof. intros w. apply (sendQuery_spec s (Text t) w). Qed.

Lemma sendAndCheck_quiet s t : quiet (sendAndCheck E s (Text t)).
Proof. intros w. apply (sendAndCheck_spec s (Text t) w). Qed.

Lemma sendQueries_quiet s cmds : quiet (sendQueries E s cmds).
Proof.
  induction cmds as [|c cmds IH]; cbn [sendQueries].
  - apply quiet_ret.
  - apply quiet_bind; [apply sendQuery_quiet | intros _; exact IH].
Qed.

Lemma doMonitorCmd_quiet s : quiet (doMonitorCmd E s).
Proof.
  unfold doMonitorCmd.
  apply quiet_bind; [apply quiet_getC | intros c].
  apply quiet_bind; [apply quiet_gets | intros n].
  apply quiet_bind; [apply sendQueries_quiet | intros _].
  apply quiet_ret.
Qed.

(** [set] on an existing classifier: one set-setpoint command, no exception. *)
Lemma set_spec s v w c :
  slot s w = Some c ->
  post (set E s v) w
    (fun _ w' => Emit [VSet s (sizeCommand (kind c)) v] w w')
    (fun _ => False).
Proof.
  intros Hs. unfold set, sendFloat.
  unfold post at 1, bind at 1, getC at 1. rewrite Hs.
  apply (sendAndCheck_noraise s (Float (sizeCommand (kind c)) v) w Hs).
Qed.


Ltac quiet_tac :=
  repeat first
    [ apply quiet_ret | apply quiet_raise | apply quiet_gets
    | apply quiet_getC | apply quiet_getCpc | apply quiet_step
    | apply sendQuery_quiet | apply sendAndCheck_quiet
    | apply sendQueries_quiet | apply doMonitorCmd_quiet
    | apply quiet_log; reflexivity
    | apply quiet_when
    | apply quiet_bind; [|intros ?]
    | match goal with
      | |- quiet (match ?x with _ => _ end) => destruct x
      | |- quiet (if ?b then _ else _) => destruct b
      end ].

(** *** The classifier operations *)

Lemma next_spec s w c :
  slot s w = Some c ->
  post (next E s) w
    (fun _ w' => exists v,
       np_get (X c) (point c + 1) = Some v
       /\ ctl w' = set_c_slot s
                     (Some (set_k_x v (set_k_point (point c + 1)%Z (core c)))) (ctl w)
       /\ obs w' = VSet s (sizeCommand (kind c)) v :: obs w)
    (fun w' =>
       np_get (X c) (point c + 1) = None
       /\ ctl w' = set_c_slot s (Some (set_k_point (point c + 1)%Z (core c))) (ctl w)
       /\ obs w' = obs w).
Proof.
  intros Hs. unfold next.
  unfold post at 1, bind at 1, getC at 1. rewrite Hs.
  unfold bind at 1, putC at 1, modify at 1.
  cbn [X point set_point set_tally set_values].
  destruct (np_get (X c) (point c + 1)) as [v|] eqn:Hv.
  - unfold bind at 1, putC at 1, modify at 1.
    eapply post_weaken;
      [eapply set_spec; apply slot_set_slot | | intros ? []].
    cbn beta. intros _ w1 [H1 H2]. exists v. split; [reflexivity|].
    rewrite H1, H2. autorewrite with view. split; reflexivity.
  - unfold raise. autorewrite with view. repeat split.
Qed.

Lemma moreToCome_spec s w :
  post (moreToCome s) w
    (fun b w' => w' = w /\ exists c, slot s w = Some c
                           /\ b = (point c + 1 <? points c)%Z)
    (fun w' => w' = w /\ slot s w = None).
Proof.
  unfold post, moreToCome, bind, getC, ret.
  destruct (slot s w) as [c|]; [|auto]. split; eauto.
Qed.

Lemma reset_spec s w :
  post (reset s) w
    (fun _ w' => exists c, slot s w = Some c
       /\ ctl w' = set_c_slot s (Some (set_k_point (-1)%Z (core c))) (ctl w)
       /\ obs w' = obs w)
    (fun w' => w' = w /\ slot s w = None).
Proof.
  unfold post, reset, bind, getC, putC, modify.
  destruct (slot s w) as [c|]; [|auto].
  exists c. autorewrite with view. repeat split.
Qed.

Lemma monitor_quiet s : quiet (monitor E s).
Proof.
  intros w. unfold monitor.
  eapply post_call; [apply doMonitorCmd_quiet | | auto].
  cbn beta. intros r w1 H1.
  unfold post, bind, getC, putC, modify, raise.
  destruct (slot s w1) as [c|] eqn:Hs; [|exact H1].
  destruct (values c) as [vals|]; [|exact H1].
  destruct (accumulate _ _ _) as [vals'|]; [|exact H1].
  destruct (tally c) as [t|].
  - eapply Same_trans; [exact H1|].
    split; autorewrite with view; [|reflexivity].
    cbn. apply (set_c_slot_same s w1 Hs).
  - eapply Same_trans; [exact H1|].
    apply (Same_putC s w1 Hs). reflexivity.
Qed.

Lemma isReady_quiet s : quiet (isReady E s).
Proof. unfold isReady. quiet_tac. Qed.

Lemma run_quiet s : quiet (run E s).
Proof. unfold run. quiet_tac. Qed.

Lemma stop_quiet s : quiet (stop_ E s).
Proof. unfold stop_. quiet_tac. Qed.

Lemma StopScan_quiet s : quiet (StopScan E s).
Proof. unfold StopScan. quiet_tac. Qed.

Lemma StartScan_quiet s : quiet (StartScan E s).
Proof. unfold StartScan. quiet_tac. Qed.

Lemma getHeader_quiet s : quiet (getHeader E s).
Proof. unfold getHeader. quiet_tac. Qed.

Lemma poll_quiet : quiet poll.
Proof. unfold poll. quiet_tac. Qed.

Lemma enableBypass_quiet : quiet enableBypass.
Proof. unfold enableBypass. quiet_tac. Qed.

Lemma stop_noraise s w c :
  slot s w = Some c ->
  post (stop_ E s) w (fun _ w' => Same w w') (fun _ => False).
Proof.
  intros Hs. unfold stop_.
  unfold post at 1, bind at 1, getC at 1. rewrite Hs.
  destruct (isCambustion (kind c)).
  - apply (sendAndCheck_noraise s (Text "stop") w Hs).
  - apply Same_refl.
Qed.

Lemma conc_spec w :
  post (conc E) w
    (fun v w' => Emit [VSample v] w w')
    (fun w' => Same w w').
Proof.
  unfold post, conc, bind, getCpc, step, log, when, ret, raise, modify.
  destruct (cpc w) as [k|] eqn:Hk; [|apply Same_refl].
  destruct (ckind k), (cisSerial k); cbn;
    try (split; reflexivity);
    destruct (concentration E (clock w)); cbn; split; reflexivity.
Qed.

Lemma release_spec s w c :
  slot s w = Some c ->
  post (release E s) w
    (fun _ w' => ctl w' = set_c_slot s None (ctl w)
                 /\ obs w' = VRel (Class s) :: obs w)
    (fun _ => False).
Proof.
  intros Hs. unfold release.
  unfold post at 1, bind at 1, getC at 1. rewrite Hs.
  eapply post_call with (P := fun _ w' => Same w w') (PE := fun _ => False);
    [ | | auto].
  - destruct (isCambustion (kind c)) eqn:Hk.
    + pose proof (stop_noraise s w Hs) as H.
      unfold stop_ in H. unfold post at 1, bind at 1, getC at 1 in H.
      rewrite Hs, Hk in H. unfold stop_.
      unfold post at 1, bind at 1, getC at 1. rewrite Hs, Hk. exact H.
    + apply Same_refl.
  - cbn beta. intros _ w1 [H1 H2].
    unfold post, bind, log, modify. autorewrite with view.
    rewrite H1, H2. split; reflexivity.
Qed.

Lemma releaseCpc_spec w k :
  cpc w = Some k ->
  post releaseCpc w
    (fun _ w' => ctl w' = set_c_cpc false (ctl w)
                 /\ obs w' = VRel Counter :: obs w)
    (fun _ => False).
Proof.
  intros Hk. unfold post, releaseCpc, bind, getCpc, log, modify.
  rewrite Hk. split; reflexivity.
Qed.

(** *** Events and the stop button *)

Lemma pump_spec site w :
  post (pump E site) w
    (fun b w' => b = stop E (pumps w)
                 /\ Emit (if b then [VClick site] else []) w w')
    (fun _ => False).
Proof.
  unfold post, pump, bind, gets, modify, log, ret. cbn.
  split; [reflexivity|]. destruct (stop E (pumps w)); split; reflexivity.
Qed.

Lemma alive_slots w :
  alive (ctl w) ->
  isScanning w = true
  /\ (exists c1, firstClass w = Some c1)
  /\ (exists c2, secondClass w = Some c2)
  /\ (exists k, cpc w = Some k).
Proof.
  intros (H1 & H2 & H3 & H4). unfold ctl in *. cbn in *.
  split; [assumption|].
  destruct (firstClass w); [|cbn in *; congruence].
  destruct (secondClass w); [|cbn in *; congruence].
  destruct (cpc w); [|discriminate].
  split; [eexists; reflexivity|]. split; eexists; reflexivity.
Qed.

Lemma endScan_off w :
  c_isScanning (ctl w) = false -> endScan E w = Val tt w.
Proof.
  intros H. unfold endScan, bind, gets. cbn in H. now rewrite H.
Qed.

Lemma slot_some s w : c_slot s (ctl w) <> None -> exists c, slot s w = Some c.
Proof.
  rewrite c_slot_ctl. destruct (slot s w); [eauto | intros H; now elim H].
Qed.

Lemma cpc_some w : c_cpc (ctl w) = true -> exists k, cpc w = Some k.
Proof. cbn. destruct (cpc w); [eauto | discriminate]. Qed.

Lemma endScan_alive w :
  alive (ctl w) ->
  post (endScan E) w
    (fun _ w' => ctl w' = kill (ctl w)
                 /\ exists mc, statusClick mc /\ obs w' = (RELS ++ mc ++ obs w)%list)
    (fun _ => False).
Proof.
  intros (Hsc & Hf & Hs & Hc).
  unfold endScan. unfold post at 1, bind at 1, gets at 1.
  change (isScanning w) with (c_isScanning (ctl w)). rewrite Hsc. cbn [negb].
  unfold bind at 1, log at 1, modify at 1.
  unfold bind at 1, modify at 1. unfold bind at 1, modify at 1.
  set (w1 := set_timer false _).
  assert (A1 : ctl w1 = set_c_timer false (set_c_isScanning false (ctl w)))
    by reflexivity.
  assert (O1 : obs w1 = obs w) by reflexivity.
  clearbody w1.
  eapply post_call; [apply pump_spec | | auto].
  cbn beta. intros b w2 [_ [A2 O2]].
  destruct (slot_some First w2) as [c1 T1]; [rewrite A2, A1; exact Hf|].
  eapply post_call; [apply (release_spec First w2 T1) | | auto].
  cbn beta. intros _ w3 [A3 O3].
  destruct (slot_some Second w3) as [c2 T2]; [rewrite A3, A2, A1; exact Hs|].
  eapply post_call; [apply (release_spec Second w3 T2) | | auto].
  cbn beta. intros _ w4 [A4 O4].
  destruct (cpc_some w4) as [k T3]; [rewrite A4, A3, A2, A1; exact Hc|].
  eapply post_weaken; [apply (releaseCpc_spec w4 T3) | | auto].
  cbn beta. intros _ w5 [A5 O5]. split.
  - rewrite A5, A4, A3, A2, A1. reflexivity.
  - exists (if b then [VClick Status] else []). split.
    + destruct b; [right | left]; reflexivity.
    + rewrite O5, O4, O3, O2, O1. destruct b; reflexivity.
Qed.


Lemma alive_Emit l w w' : alive (ctl w) -> Emit l w w' -> alive (ctl w').
Proof. intros H [H1 _]. now rewrite H1. Qed.

Lemma processEvents_alive site w :
  alive (ctl w) ->
  post (processEvents E site) w
    (fun _ w' => Same w w' \/ Killed site w w')
    (fun _ => False).
Proof.
  intros Ha. unfold processEvents.
  eapply post_call; [apply pump_spec | | auto].
  cbn beta. intros b w1 [_ H1]. destruct b; cbn [when].
  - eapply post_weaken; [apply endScan_alive; eapply alive_Emit; eauto | | auto].
    cbn beta. intros _ w2 [A2 (mc & Hmc & O2)]. right.
    destruct H1 as [A1 O1]. split; [exact Ha|].
    split; [rewrite A2, A1; reflexivity|].
    exists mc. split; [exact Hmc|]. rewrite O2, O1. reflexivity.
  - left. exact H1.
Qed.

Lemma processEvents_off site w :
  c_isScanning (ctl w) = false ->
  post (processEvents E site) w
    (fun _ w' => exists l, (l = [] \/ l = [VClick site]) /\ Emit l w w')
    (fun _ => False).
Proof.
  intros Hoff. unfold processEvents.
  eapply post_call; [apply pump_spec | | auto].
  cbn beta. intros b w1 [_ H1]. destruct b; cbn [when].
  - eapply post_val; [apply endScan_off; rewrite (proj1 H1); exact Hoff|].
    exists [VClick site]. auto.
  - apply post_ret. exists []. auto.
Qed.

Lemma Killed_off site w w' : Killed site w w' -> c_isScanning (ctl w') = false.
Proof. intros (_ & H & _). rewrite H. reflexivity. Qed.

Lemma delay_alive site n w :
  alive (ctl w) ->
  post (delay E site n) w
    (fun ok w' => (ok = true /\ Same w w') \/ (ok = false /\ Killed site w w'))
    (fun _ => False).
Proof.
  revert w. induction n as [|n IH]; intros w Ha; cbn [delay].
  - apply post_ret. left. split; [reflexivity | apply Same_refl].
  - eapply post_call; [apply (processEvents_alive site Ha) | | auto].
    cbn beta. intros _ w1 [H1|H1].
    + unfold post at 1, bind at 1, gets at 1.
      assert (Ha1 : alive (ctl w1)) by (rewrite (proj1 H1); exact Ha).
      change (isScanning w1) with (c_isScanning (ctl w1)).
      rewrite (proj1 Ha1). cbn [negb].
      eapply post_weaken; [apply (IH w1 Ha1) | | auto].
      cbn beta. intros ok w2 [[-> H2]|[-> H2]].
      * left. split; [reflexivity | eapply Same_trans; eauto].
      * right. split; [reflexivity|].
        destruct H1 as [A1 O1]. destruct H2 as (_ & A2 & mc & Hmc & O2).
        split; [exact Ha|]. split; [rewrite A2, A1; reflexivity|].
        exists mc. split; [exact Hmc|]. now rewrite O2, O1.
    + unfold post, bind, gets.
      change (isScanning w1) with (c_isScanning (ctl w1)).
      rewrite (Killed_off H1). cbn. right. auto.
Qed.

Lemma delay_off site n w :
  c_isScanning (ctl w) = false ->
  post (delay E site n) w
    (fun ok w' => ok = (n =? 0)%nat
                  /\ exists l, (l = [] \/ l = [VClick site]) /\ Emit l w w')
    (fun _ => False).
Proof.
  intros Hoff. destruct n as [|n]; cbn [delay].
  - apply post_ret. split; [reflexivity|]. exists []. split; [auto | apply Same_refl].
  - eapply post_call; [apply (processEvents_off site w Hoff) | | auto].
    cbn beta. intros _ w1 (l & Hl & H1).
    unfold post, bind, gets.
    change (isScanning w1) with (c_isScanning (ctl w1)).
    rewrite (proj1 H1), Hoff. cbn. split; [reflexivity|]. eauto.
Qed.

Lemma waitLoop_alive n w :
  alive (ctl w) ->
  post (waitLoop E n) w
    (fun ok w' => (ok = true /\ Same w w') \/ (ok = false /\ Killed Wait w w'))
    (fun _ => False).
Proof.
  revert w. induction n as [|n IH]; intros w Ha; cbn [waitLoop].
  - apply post_ret. left. split; [reflexivity | apply Same_refl].
  - eapply post_call; [apply (processEvents_alive Wait Ha) | | auto].
    cbn beta. intros _ w1 [H1|H1].
    + unfold post at 1, bind at 1, gets at 1.
      assert (Ha1 : alive (ctl w1)) by (rewrite (proj1 H1); exact Ha).
      change (isScanning w1) with (c_isScanning (ctl w1)).
      rewrite (proj1 Ha1). cbn [negb].
      eapply post_weaken; [apply (IH w1 Ha1) | | auto].
      cbn beta. intros ok w2 [[-> H2]|[-> H2]].
      * left. split; [reflexivity | eapply Same_trans; eauto].
      * right. split; [reflexivity|].
        destruct H1 as [A1 O1]. destruct H2 as (_ & A2 & mc & Hmc & O2).
        split; [exact Ha|]. split; [rewrite A2, A1; reflexivity|].
        exists mc. split; [exact Hmc|]. now rewrite O2, O1.
    + unfold post, bind, gets.
      change (isScanning w1) with (c_isScanning (ctl w1)).
      rewrite (Killed_off H1). cbn. right. auto.
Qed.

End Specs.

End ScanLib.

Module DictFacts.
Import Py.
Local Open Scope string_scope.

Lemma dict_get_set k k' v d :
  dict_get k (dict_set k' v d)
  = if String.eqb k k' then Some v else dict_get k d.
Proof.
  induction d as [|[k1 v1] d IH]; cbn.
  - reflexivity.
  - destruct (String.eqb k' k1) eqn:E1; cbn.
    + apply String.eqb_eq in E1. subst k1.
      destruct (String.eqb k k'); reflexivity.
    + rewrite IH. destruct (String.eqb k k1) eqn:E2; [|reflexivity].
      apply String.eqb_eq in E2. subst k1.
      destruct (String.eqb k k') eqn:E3; [|reflexivity].
      apply String.eqb_eq in E3. subst k'. rewrite String.eqb_refl in E1.
      discriminate.
Qed.

Lemma dict_merge_cons a kv b :
  dict_merge a (kv :: b) = dict_merge (dict_set (fst kv) (snd kv) a) b.
Proof. reflexivity. Qed.

Lemma dict_get_merge_out k a b :
  ~ In k (map fst b) -> dict_get k (dict_merge a b) = dict_get k a.
Proof.
  revert a. induction b as [|[k1 v1] b IH]; intros a H; [reflexivity|].
  rewrite dict_merge_cons, IH by (cbn in H; tauto).
  cbn [fst snd]. rewrite dict_get_set.
  destruct (String.eqb k k1) eqn:E; [|reflexivity].
  apply String.eqb_eq in E. subst. cbn in H. tauto.
Qed.

(** Merging a table whose values are a function of the key. *)
Lemma dict_get_merge_in {A} k a (l : list A) (key : A -> string) (h : string -> Cell) :
  In k (map key l) ->
  dict_get k (dict_merge a (map (fun f => (key f, h (key f))) l)) = Some (h k).
Proof.
  revert a. induction l as [|f l IH]; intros a H; [destruct H|].
  cbn [map]. rewrite dict_merge_cons. cbn [fst snd].
  destruct (in_dec string_dec k (map key l)) as [Hin|Hout].
  - now apply IH.
  - rewrite dict_get_merge_out by (rewrite map_map; exact Hout).
    destruct H as [->|H]; [|tauto].
    now rewrite dict_get_set, String.eqb_refl.
Qed.

Lemma existsb_eqb_In k l : existsb (String.eqb k) l = false -> ~ In k l.
Proof.
  intros H Hin. assert (existsb (String.eqb k) l = true); [|congruence].
  apply existsb_exists. exists k. split; [assumption | apply String.eqb_refl].
Qed.

Lemma dict_set_fresh k v d :
  ~ In k (map fst d) -> dict_set k v d = (d ++ [(k, v)])%list.
Proof.
  induction d as [|[k1 v1] d IH]; cbn; intros H; [reflexivity|].
  destruct (String.eqb k k1) eqn:E.
  - apply String.eqb_eq in E. subst. tauto.
  - rewrite IH by tauto. reflexivity.
Qed.

Lemma dict_merge_fresh a b :
  NoDup (map fst (a ++ b)) -> dict_merge a b = (a ++ b)%list.
Proof.
  revert a. induction b as [|[k v] b IH]; intros a H.
  - now rewrite app_nil_r.
  - rewrite dict_merge_cons. cbn [fst snd].
    assert (Hk : ~ In k (map fst a)).
    { rewrite map_app in H. cbn in H. apply NoDup_remove_2 in H.
      intros Hin. apply H. apply in_or_app. now left. }
    rewrite dict_set_fresh by assumption.
    rewrite IH; rewrite <- app_assoc; [reflexivity | exact H].
Qed.


End DictFacts.

Module ClassifierFacts.
Import Py Classes Scan View Demo DictFacts.
Local Open Scope string_scope.
Local Open Scope Z_scope.

(** *** Indexing *)

Lemma np_get_past {A} (l : list A) i :
  Z.of_nat (List.length l) <= i -> np_get l i = None.
Proof.
  intros H. unfold np_get, np_index.
  destruct (Z.leb_spec 0 i); [|lia].
  destruct (Z.ltb_spec i (Z.of_nat (List.length l))); [lia|]. cbn.
  destruct (Z.ltb_spec i 0); [lia|].
  now rewrite andb_false_r.
Qed.

Lemma np_get_within {A} (l : list A) i :
  0 <= i < Z.of_nat (List.length l) ->
  exists v, np_get l i = Some v /\ nth_error l (Z.to_nat i) = Some v.
Proof.
  intros H. unfold np_get, np_index.
  destruct (Z.leb_spec 0 i); [|lia].
  destruct (Z.ltb_spec i (Z.of_nat (List.length l))); [|lia]. cbn.
  destruct (nth_error l (Z.to_nat i)) as [v|] eqn:Hv; [eauto|].
  apply nth_error_None in Hv. lia.
Qed.

Lemma slot_put s c w : slot s (set_slot s (Some c) w) = Some c.
Proof. destruct s; reflexivity. Qed.

Lemma trace_put s c w : trace (set_slot s c w) = trace w.
Proof. destruct s; reflexivity. Qed.

Lemma zero_lookup k f :
  In f (valueFields k) -> lookup f (zeroValues k) = Some 0%Q.
Proof.
  unfold zeroValues. induction (valueFields k) as [|g l IH]; cbn; [tauto|].
  intros [->|H].
  - now rewrite String.eqb_refl.
  - destruct (String.eqb f g); [reflexivity | auto].
Qed.

Lemma sendQuery_val E s cmd w c :
  slot s w = Some c ->
  exists r w' c',
    sendQuery E s cmd w = Val r w'
    /\ trace w' = Sent (Class s) cmd :: trace w
    /\ clock w' = S (clock w)
    /\ slot s w' = Some c' /\ data c' = data c.
Proof.
  intros Hs. unfold sendQuery, bind, step, log, modify, getC, putC, ret.
  destruct (reply E (clock w) (Class s) cmd) as [r|].
  - exists r. do 2 eexists. split; [reflexivity|].
    repeat split. destruct s; exact Hs.
  - destruct s; cbn in Hs |- *; rewrite Hs; cbn;
      do 3 eexists; (split; [reflexivity|]); repeat split.
Qed.

Lemma sendAndCheck_val E s cmd w c :
  slot s w = Some c ->
  exists b w' c',
    sendAndCheck E s cmd w = Val b w'
    /\ trace w' = Sent (Class s) cmd :: trace w
    /\ clock w' = S (clock w)
    /\ slot s w' = Some c' /\ data c' = data c.
Proof.
  intros Hs. unfold sendAndCheck, bind at 1.
  destruct (sendQuery_val E s cmd w Hs) as (r & w1 & c1 & -> & Ht & Hc & Hs1 & Hd).
  unfold bind, getC, putC, modify, ret. rewrite Hs1.
  do 3 eexists. split; [reflexivity|].
  split; [rewrite trace_put; exact Ht|].
  split; [destruct s; exact Hc|].
  split; [apply slot_put|]. exact Hd.
Qed.

Lemma set_val E s v w c :
  slot s w = Some c ->
  exists b w' c',
    set E s v w = Val b w'
    /\ trace w' = Sent (Class s) (Float (sizeCommand (kind c)) v) :: trace w
    /\ clock w' = S (clock w)
    /\ slot s w' = Some c' /\ data c' = data c.
Proof.
  intros Hs. unfold set, sendFloat, bind at 1, getC at 1. rewrite Hs.
  now apply sendAndCheck_val.
Qed.

(** The classifier [next] leaves behind once the index is bumped. *)
Lemma next_unfold E s w c :
  slot s w = Some c ->
  next E s w
  = let c1 := set_point (point c + 1)
                (set_tally (Some 0)
                   (set_values (Some (zeroValues (kind c))) c)) in
    match np_get (X c) (point c + 1) with
    | None => Raise IndexError (set_slot s (Some c1) w)
    | Some v => set E s v (set_slot s (Some (set_x v c1))
                            (set_slot s (Some c1) w))
    end.
Proof.
  intros Hs. unfold next, bind at 1, getC at 1. rewrite Hs.
  unfold bind at 1, putC at 1, modify at 1. cbn [X point set_point set_tally set_values].
  cbv zeta. destruct (np_get (X c) (point c + 1)); reflexivity.
Qed.

(** C3 (as the code has it).  For a classifier in slot [s] whose table
    has [points] entries: when the index is at the last point,
    [next] raises [IndexError]; by then it has already bumped the index
    and zeroed the accumulators, while the setpoint [x] is unchanged and no
    command has been sent; [moreToCome] is what tells the callers not to
    call it there.  When the index is not at the last point, [next] bumps
    the index, makes the new table entry the setpoint, sends exactly the
    set-setpoint command for that value, and leaves the accumulators at
    zero. *)
Theorem next_law E s w c :
  slot s w = Some c ->
  points c = Z.of_nat (List.length (X c)) ->
  -1 <= point c ->
  (points c <= point c + 1 ->
     moreToCome s w = Val false w
     /\ exists w',
         next E s w = Raise IndexError w'
         /\ trace w' = trace w
         /\ exists c',
              slot s w' = Some c'
              /\ point c' = point c + 1
              /\ x c' = x c
              /\ values c' = Some (zeroValues (kind c))
              /\ tally c' = Some 0)
  /\ (point c + 1 < points c ->
     moreToCome s w = Val true w
     /\ exists v b w',
         nth_error (X c) (Z.to_nat (point c + 1)) = Some v
         /\ next E s w = Val b w'
         /\ trace w' = Sent (Class s) (Float (sizeCommand (kind c)) v) :: trace w
         /\ exists c',
              slot s w' = Some c'
              /\ point c' = point c + 1
              /\ x c' = v
              /\ values c' = Some (zeroValues (kind c))
              /\ tally c' = Some 0
              /\ forall f, In f (valueFields (kind c)) ->
                           lookup f (zeroValues (kind c)) = Some 0%Q).
Proof.
  intros Hs Hp Hlo. split; intros Hi.
  - split.
    + unfold moreToCome, bind, getC, ret. rewrite Hs.
      destruct (Z.ltb_spec (point c + 1) (points c)); [lia | reflexivity].
    + rewrite (next_unfold E s w Hs). cbv zeta.
      rewrite np_get_past by lia.
      eexists. split; [reflexivity|]. split; [apply trace_put|].
      eexists. split; [apply slot_put|]. repeat split.
  - split.
    + unfold moreToCome, bind, getC, ret. rewrite Hs.
      destruct (Z.ltb_spec (point c + 1) (points c)); [reflexivity | lia].
    + rewrite (next_unfold E s w Hs). cbv zeta.
      destruct (@np_get_within _ (X c) (point c + 1)) as (v & Hv & Hn); [lia|].
      rewrite Hv. exists v.
      edestruct (set_val E s v) as (b & w' & c' & Hr & Ht & _ & Hs' & Hd);
        [apply slot_put|].
      exists b, w'. split; [exact Hn|]. split; [exact Hr|].
      split; [rewrite Ht, !trace_put; reflexivity|].
      exists c'. split; [exact Hs'|].
      unfold data in Hd. cbn in Hd. inversion Hd; subst.
      repeat split; try assumption. apply zero_lookup.
Qed.

Lemma next_law_witness :
  moreToCome First (holding atStart) = Val true (holding atStart)
  /\ exists v b w',
       nth_error (X atStart) (Z.to_nat (point atStart + 1)) = Some v
       /\ next ideal First (holding atStart) = Val b w'
       /\ trace w'
          = Sent (Class First) (Float (sizeCommand (kind atStart)) v)
              :: trace (holding atStart)
       /\ exists c',
            slot First w' = Some c'
            /\ point c' = point atStart + 1
            /\ x c' = v
            /\ values c' = Some (zeroValues (kind atStart))
            /\ tally c' = Some 0
            /\ forall f, In f (valueFields (kind atStart)) ->
                         lookup f (zeroValues (kind atStart)) = Some 0%Q.
Proof.
  refine (proj2 (@next_law ideal First (holding atStart) atStart _ _ _) _).
  - reflexivity.
  - reflexivity.
  - vm_compute. discriminate.
  - vm_compute. reflexivity.
Defined.

(** C3, the case the claim gets wrong: called on the last point, [next]
    does not return [false] with the state untouched; it raises, and the
    index has moved past the table and the accumulators are zeroed. *)
Lemma next_at_last_point_counterexample :
  exists w',
    next ideal First (holding atLastPoint) = Raise IndexError w'
    /\ option_map point (firstClass w') = Some 2
    /\ option_map point (firstClass (holding atLastPoint)) = Some 1
    /\ option_map tally (firstClass w') = Some (Some 0)
    /\ option_map tally (firstClass (holding atLastPoint)) = Some (Some 3).
Proof. eexists. vm_compute. repeat split. Qed.

(** *** Accumulating and averaging *)




Lemma Qeq_bool_inject z : Qeq_bool (inject_Z z) 0 = (z =? 0).
Proof. unfold Qeq_bool. cbn. now rewrite Z.mul_1_r. Qed.






Lemma quantity_fresh k : ~ In (quantity k) (valueFields k).
Proof. apply existsb_eqb_In. now destruct k. Qed.


Lemma fileFields_NoDup k : NoDup (fileFields k).
Proof.
  destruct k; unfold fileFields; cbn;
    repeat (constructor; [cbn; intuition discriminate|]); constructor.
Qed.








End ClassifierFacts.

Module TickFacts.
Import Py Classes Scan View Plan Demo ScanLib DictFacts ClassifierFacts.
Local Open Scope string_scope.
Local Open Scope py_scope.

(** *** Reading a list of visible events *)

Lemma vrows_app l1 l2 : vrows (l1 ++ l2) = (vrows l1 ++ vrows l2)%list.
Proof.
  induction l1 as [|v l1 IH]; [reflexivity|].
  destruct v; cbn; rewrite ?IH; reflexivity.
Qed.

Lemma vrels_app l1 l2 : vrels (l1 ++ l2) = (vrels l1 ++ vrels l2)%list.
Proof.
  induction l1 as [|v l1 IH]; [reflexivity|].
  destruct v; cbn; rewrite ?IH; reflexivity.
Qed.

Lemma Samples_snoc vs v : Samples (vs ++ [v]) = VSample v :: Samples vs.
Proof. unfold Samples. now rewrite rev_app_distr. Qed.

Lemma Samples_vrows vs : vrows (Samples vs) = [].
Proof. unfold Samples. induction (rev vs); [reflexivity | assumption]. Qed.

Lemma Samples_vrels vs : vrels (Samples vs) = [].
Proof. unfold Samples. induction (rev vs); [reflexivity | assumption]. Qed.

Lemma Samples_existsb f vs :
  (forall v, f (VSample v) = false) -> existsb f (Samples vs) = false.
Proof.
  intros H. unfold Samples. induction (rev vs) as [|a l IH]; [reflexivity|].
  cbn. now rewrite H, IH.
Qed.

Lemma statusClick_facts mc :
  statusClick mc ->
  vrows mc = [] /\ vrels mc = [] /\ existsb isVFinal mc = false
  /\ existsb isDelayClick mc = false.
Proof. intros [->| ->]; repeat split. Qed.

#[export] Hint Rewrite vrows_app vrels_app existsb_app Samples_vrows Samples_vrels
  app_nil_r : flat.

Ltac flat :=
  repeat (progress (cbn [vrows vrels existsb isVFinal isDelayClick isClick app orb];
                    autorewrite with flat;
                    rewrite ?Samples_existsb by reflexivity));
  try reflexivity; try discriminate; auto.

(** *** Ways a slot ends *)

Lemma dead_kill C : dead (kill C).
Proof. repeat split. Qed.

Lemma Gone_Crash R O w : Gone R O w -> Crash R O w.
Proof. now intros [_ H]. Qed.

(** A slot that stops where nothing but [l] has been seen since [O]. *)
Lemma Crash_at R O l w C :
  ctl w = C -> c_timer C = false -> obs w = (l ++ O)%list ->
  existsb isVFinal l = false -> Forall R (vrows l) ->
  existsb isDelayClick l = false ->
  Crash R O w.
Proof.
  intros HC Ht HO Hf HR Hd. split; [now rewrite HC|].
  exists l. repeat split; try assumption; congruence.
Qed.

Lemma Gone_killed R O l site w w' :
  Killed site w w' -> obs w = (l ++ O)%list ->
  existsb isVFinal l = false -> vrels l = [] -> Forall R (vrows l) ->
  existsb isDelayClick l = false ->
  (isDelayClick (VClick site) = true -> vrows l = []) ->
  Gone R O w'.
Proof.
  intros (_ & HC & mc & Hmc & HO') HO Hf Hr HR Hd Hs.
  destruct (statusClick_facts Hmc) as (M1 & M2 & M3 & M4).
  assert (Hdead : dead (ctl w')) by (rewrite HC; apply dead_kill).
  split; [exact Hdead|]. split; [now rewrite HC|].
  exists (RELS ++ mc ++ VClick site :: l)%list.
  split; [rewrite HO', HO, <- !app_assoc; reflexivity|].
  split; [flat; now rewrite M3, Hf|].
  split; [flat; now rewrite M1|].
  intros Hc. split; [|split; [exact Hdead|]].
  - flat. rewrite M1. cbn. apply Hs.
    revert Hc. flat. rewrite M4, Hd. cbn. now rewrite orb_false_r.
  - flat. now rewrite M2, Hr.
Qed.

Lemma Gone_ended R O l mc w C :
  ctl w = kill C -> statusClick mc -> obs w = (RELS ++ mc ++ l ++ O)%list ->
  existsb isVFinal l = false -> vrels l = [] -> Forall R (vrows l) ->
  existsb isDelayClick l = false ->
  Gone R O w.
Proof.
  intros HC Hmc HO Hf Hr HR Hd.
  destruct (statusClick_facts Hmc) as (M1 & M2 & M3 & M4).
  assert (Hdead : dead (ctl w)) by (rewrite HC; apply dead_kill).
  split; [exact Hdead|]. split; [now rewrite HC|].
  exists (RELS ++ mc ++ l)%list.
  split; [rewrite HO, <- !app_assoc; reflexivity|].
  split; [flat; now rewrite M3, Hf|].
  split; [flat; now rewrite M1|].
  flat. rewrite M4, Hd. discriminate.
Qed.

Lemma Gone_same R O w w' : Gone R O w -> Same w w' -> Gone R O w'.
Proof.
  intros (Hd & Ht & l & HO & H) [HC HO']. split; [now rewrite HC|].
  split; [now rewrite HC|]. exists l. rewrite HC, HO'. now split.
Qed.

Lemma live_same C w w' : ctl w = C -> Same w w' -> ctl w' = C.
Proof. intros H [H1 _]. congruence. Qed.

Lemma quiet_at {A} (m : W A) C O w :
  quiet m -> ctl w = C -> obs w = O ->
  post m w (fun _ w' => ctl w' = C /\ obs w' = O)
           (fun w' => ctl w' = C /\ obs w' = O).
Proof.
  intros Hq HC HO. eapply post_weaken; [apply Hq | |];
    cbn beta; intros; match goal with H : Same _ _ |- _ => destruct H end;
    split; congruence.
Qed.

Lemma post_gets {A B} (f : World -> A) (k : A -> W B) w Q QE :
  post (k (f w)) w Q QE -> post (bind (gets f) k) w Q QE.
Proof. auto. Qed.

Lemma post_modify {B} (f : World -> World) (k : unit -> W B) w Q QE :
  post (k tt) (f w) Q QE -> post (bind (modify f) k) w Q QE.
Proof. auto. Qed.

Lemma post_log {B} e (k : unit -> W B) w Q QE :
  post (k tt) (set_trace (e :: trace w) w) Q QE -> post (bind (log e) k) w Q QE.
Proof. auto. Qed.

(** *** The row of a point *)

Lemma averages_keys l vals t avs :
  averages l vals t = Some avs -> map fst avs = l.
Proof.
  unfold averages. revert avs. induction l as [|a l IH]; cbn [traverse]; intros avs H.
  - now inversion H.
  - destruct (lookup a vals) as [q|]; [|discriminate].
    destruct (Tolerance.fdiv q (inject_Z t)); [|discriminate].
    destruct (traverse _ l) as [bs|]; [|discriminate].
    inversion H. cbn. now rewrite (IH bs).
Qed.

Lemma getFileData_shape s w :
  post (getFileData s) w
    (fun d w' =>
       w' = w
       /\ exists c avs,
            slot s w = Some c /\ map fst avs = valueFields (kind c)
            /\ d = (quantity (kind c), Num (x c))
                     :: map (fun fv => (fst fv, Num (snd fv))) avs)
    (fun w' => w' = w).
Proof.
  unfold post, getFileData, bind, getC, ret, raise.
  destruct (slot s w) as [c|]; [|reflexivity].
  destruct (values c) as [vals|]; [|reflexivity].
  destruct (tally c) as [t|]; [|reflexivity].
  destruct (averages _ vals t) as [avs|] eqn:Ha; [|reflexivity].
  split; [reflexivity|]. exists c, avs. split; [reflexivity|].
  pose proof (averages_keys _ _ _ Ha) as Hk. split; [exact Hk|].
  apply dict_merge_fresh. cbn [app map fst].
  rewrite map_map. cbn [fst].
  change (fun x : string * Q => fst x) with (@fst string Q).
  rewrite Hk. apply (fileFields_NoDup (kind c)).
Qed.

Lemma addSecond_merge sec d :
  addSecond sec d = dict_merge d (map (fun kv => (fst kv ++ "2", snd kv)) sec).
Proof.
  unfold addSecond, dict_merge. revert d.
  induction sec as [|kv sec IH]; intros d; [reflexivity|]. cbn. apply IH.
Qed.

(** Looking up the key that heads the merged table. *)
Lemma dict_get_merge_head k v a b :
  ~ In k (map fst b) -> dict_get k (dict_merge a ((k, v) :: b)) = Some v.
Proof.
  intros H. rewrite dict_merge_cons, dict_get_merge_out by assumption.
  cbn [fst snd]. now rewrite dict_get_set, String.eqb_refl.
Qed.

Lemma second_keys_fresh k : ~ In (quantity k ++ "2") (map (fun f => f ++ "2") (valueFields k)).
Proof. apply existsb_eqb_In. now destruct k. Qed.

Lemma second_key_not_first k1 k2 : ~ In (quantity k2 ++ "2") (fileFields k1).
Proof. apply existsb_eqb_In. now destruct k1, k2. Qed.

Lemma second_key_not_conc k2 : String.eqb (quantity k2 ++ "2") "Conc " = false.
Proof. now destruct k2. Qed.

Lemma conc_not_first k1 : ~ In "Conc " (fileFields k1).
Proof. apply existsb_eqb_In. now destruct k1. Qed.

(** The three cells of a row, whatever the row held before. *)
Lemma row_cells fd0 k1 k2 x2 avs2 cn (b : dict) v1 :
  map fst avs2 = valueFields k2 ->
  (exists rest, b = (quantity k1, v1) :: rest
                /\ map fst rest = valueFields k1) ->
  let sec := (quantity k2, Num x2) :: map (fun fv => (fst fv, Num (snd fv))) avs2 in
  let d := dict_merge (dict_set "Conc " (Num cn) (addSecond sec fd0)) b in
  dict_get (quantity k1) d = Some v1
  /\ dict_get (quantity k2 ++ "2") d = Some (Num x2)
  /\ dict_get "Conc " d = Some (Num cn).
Proof.
  intros Hk2 (rest & -> & Hk1). cbv zeta.
  assert (Hkeys : map fst ((quantity k1, v1) :: rest) = fileFields k1).
  { cbn. now rewrite Hk1. }
  split; [|split].
  - apply dict_get_merge_head. rewrite Hk1. apply quantity_fresh.
  - rewrite dict_get_merge_out
      by (rewrite Hkeys; apply second_key_not_first).
    rewrite dict_get_set, second_key_not_conc.
    rewrite addSecond_merge. cbn [map fst snd].
    apply dict_get_merge_head.
    rewrite !map_map. cbn [fst].
    rewrite <- (map_map fst (fun f => f ++ "2")).
    change (fun x : string * Q => fst x) with (@fst string Q).
    rewrite Hk2. apply second_keys_fresh.
  - rewrite dict_get_merge_out by (rewrite Hkeys; apply conc_not_first).
    now rewrite dict_get_set, String.eqb_refl.
Qed.

Lemma bypassDummy_shape k :
  exists rest, bypassDummy k = (quantity k, Txt "Bypassed") :: rest
               /\ map fst rest = valueFields k.
Proof.
  exists (map (fun f => (f, Txt "Bypassed")) (valueFields k)).
  split; [reflexivity|]. rewrite map_map. cbn [fst]. apply map_id.
Qed.

Section Tick.
Variable E : Env.
Variable cfg : Config.
Variable R : dict -> Prop.

Lemma processEvents_at site C O w :
  ctl w = C -> obs w = O -> alive C ->
  post (processEvents E site) w
    (fun _ w' => (ctl w' = C /\ obs w' = O) \/ Killed site w w')
    (fun _ => False).
Proof.
  intros HC HO Ha.
  eapply post_weaken; [apply processEvents_alive; now rewrite HC | | auto].
  cbn beta. intros _ w' [[H1 H2]|H]; [left; split; congruence | now right].
Qed.

Lemma waitLoop_at n C O w :
  ctl w = C -> obs w = O -> alive C ->
  post (waitLoop E n) w
    (fun ok w' => (ok = true /\ ctl w' = C /\ obs w' = O)
                  \/ (ok = false /\ Killed Wait w w'))
    (fun _ => False).
Proof.
  intros HC HO Ha.
  eapply post_weaken; [apply waitLoop_alive; now rewrite HC | | auto].
  cbn beta. intros ok w' [[-> [H1 H2]]|H]; [left; repeat split; congruence | now right].
Qed.

Lemma delay_at site n C O w :
  ctl w = C -> obs w = O -> alive C ->
  post (delay E site n) w
    (fun ok w' => (ok = true /\ ctl w' = C /\ obs w' = O)
                  \/ (ok = false /\ Killed site w w'))
    (fun _ => False).
Proof.
  intros HC HO Ha.
  eapply post_weaken; [apply delay_alive; now rewrite HC | | auto].
  cbn beta. intros ok w' [[-> [H1 H2]]|H]; [left; repeat split; congruence | now right].
Qed.

Lemma conc_dead w : c_cpc (ctl w) = false -> exists e, conc E w = Raise e w.
Proof.
  cbn. unfold conc, bind, getCpc. destruct (cpc w); [discriminate|]. eauto.
Qed.

Lemma conc_at C O w :
  ctl w = C -> obs w = O ->
  post (conc E) w
    (fun v w' => ctl w' = C /\ obs w' = VSample v :: O)
    (fun w' => ctl w' = C /\ obs w' = O).
Proof.
  intros HC HO. eapply post_weaken; [apply conc_spec | |]; cbn beta.
  - intros v w' [H1 H2]. split; [congruence|]. now rewrite H2, HO.
  - intros w' [H1 H2]. split; congruence.
Qed.

Lemma getC_at s C k w :
  ctl w = C -> c_slot s C = Some k -> exists c, slot s w = Some c /\ core c = k.
Proof.
  intros HC Hk. rewrite <- HC, c_slot_ctl in Hk.
  destruct (slot s w) as [c|]; [|discriminate].
  exists c. split; [reflexivity|]. cbn in Hk. congruence.
Qed.

Lemma getC_val s w c : slot s w = Some c -> getC s w = Val c w.
Proof. unfold getC. now intros ->. Qed.

Lemma getC_gone s w : c_slot s (ctl w) = None -> getC s w = Raise AttributeError w.
Proof.
  rewrite c_slot_ctl. unfold getC. destruct (slot s w); [discriminate | reflexivity].
Qed.

Lemma fdiv_inverts a t q :
  Tolerance.fdiv a (inject_Z t) = Some q -> t <> 0%Z /\ q = (a / inject_Z t)%Q.
Proof.
  unfold Tolerance.fdiv. rewrite Qeq_bool_inject.
  destruct (Z.eqb_spec t 0); [discriminate|]. intros H. inversion H. auto.
Qed.

(** The bypass branch of [plotIt] after the averaging. *)
Lemma bypass_branch w C O' fd (c2 : Classifier) cn k1 :
  ctl w = C -> obs w = O' -> fileData w = fd -> c_first C = Some k1 ->
  post (c1 <- getC First ;;
        modify (fun w => set_fileData
                           (dict_merge (fileData w) (bypassDummy (kind c1))) w) ;;;
        g <- gets G ;;
        match np_set g (point c2) cn with
        | None => raise IndexError
        | Some g' => modify (set_G g')
        end) w
    (fun _ w' =>
       ctl w' = C /\ obs w' = O'
       /\ fileData w' = dict_merge fd (bypassDummy (k_kind k1)))
    (fun w' => ctl w' = C /\ obs w' = O').
Proof.
  intros HC HO HF H1. destruct (getC_at First HC H1) as (c1 & Hs1 & Hc1).
  unfold post, bind. rewrite (getC_val First w Hs1).
  unfold modify, gets, raise. cbn [G set_fileData].
  destruct (np_set (G w) (point c2) cn) as [g'|].
  - split; [exact HC|]. split; [exact HO|]. cbn. rewrite HF, <- Hc1. reflexivity.
  - split; [exact HC | exact HO].
Qed.

(** The classified branch of [plotIt] after the averaging. *)
Lemma classified_branch w C O' fd (c2 : Classifier) cn k1 :
  ctl w = C -> obs w = O' -> fileData w = fd -> c_first C = Some k1 ->
  post (d1 <- getFileData First ;;
        modify (fun w => set_fileData (dict_merge (fileData w) d1) w) ;;;
        c1 <- getC First ;;
        z <- gets Zm ;;
        match np_set2 z (point c1) (point c2) cn with
        | None => raise IndexError
        | Some z' => modify (set_Zm z')
        end ;;;
        sp <- gets Scatterplot ;;
        when sp
          (modify (set_Scatterplot false) ;;;
           modify (set_G (zeros (Z.to_nat (points c2))))) ;;;
        g <- gets G ;;
        match np_set g (point c2) cn with
        | None => raise IndexError
        | Some g' => modify (set_G g')
        end) w
    (fun _ w' =>
       exists z' rest,
         np_set2 (c_Zm C) (k_point k1) (point c2) cn = Some z'
         /\ map fst rest = valueFields (k_kind k1)
         /\ ctl w' = set_c_Zm z' C /\ obs w' = O'
         /\ fileData w'
            = dict_merge fd ((quantity (k_kind k1), Num (k_x k1)) :: rest))
    (fun w' => (ctl w' = C \/ exists z', ctl w' = set_c_Zm z' C) /\ obs w' = O').
Proof.
  intros HC HO HF H1. destruct (getC_at First HC H1) as (c1 & Hs1 & Hc1).
  destruct (@post_inv _ _ _ _ _ (getFileData_shape First w))
    as [(d1 & w1 & Heq & -> & c & avs & Hs & Hk & Hd)|(e & w1 & Heq & ->)].
  2:{ unfold post, bind. rewrite Heq. split; [now left | exact HO]. }
  rewrite Hs1 in Hs. inversion Hs; subst c. clear Hs.
  unfold post, bind. rewrite Heq.
  unfold modify, gets, raise, getC, when, ret.
  cbn -[np_set2 np_set dict_merge zeros].
  cbn in Hs1. rewrite Hs1.
  assert (HZ : Zm w = c_Zm C) by (rewrite <- HC; reflexivity).
  change (Zm (set_fileData (dict_merge (fileData w) d1) w)) with (Zm w).
  rewrite HZ.
  assert (Hp : point c1 = k_point k1) by (rewrite <- Hc1; reflexivity).
  rewrite Hp.
  destruct (np_set2 (c_Zm C) (k_point k1) (point c2) cn) as [z'|] eqn:Hz.
  2:{ split; [now left | exact HO]. }
  assert (Hctl : forall w', ctl w' = ctl w -> ctl (set_Zm z' w') = set_c_Zm z' C).
  { intros w' Hw. rewrite ctl_set_Zm, Hw, HC. reflexivity. }
  cbn -[np_set2 np_set dict_merge zeros].
  destruct (Scatterplot w); cbn -[np_set2 np_set dict_merge zeros];
    match goal with |- context [np_set ?g ?i ?v] => destruct (np_set g i v) end;
    try (split; [right; exists z'; rewrite <- HC; reflexivity | exact HO]);
    (exists z', (map (fun fv => (fst fv, Num (snd fv))) avs);
     split; [reflexivity|];
     split; [rewrite map_map; cbn [fst]; rewrite <- Hc1; exact Hk|];
     split; [rewrite <- HC; reflexivity|];
     split; [exact HO|];
     cbn; rewrite HF, Hd, <- Hc1; reflexivity).
Qed.

(** The averaging loop: [n] more samples, a stop, or an exception. *)
Lemma averaging_spec n : forall acc w C O vs0,
  ctl w = C -> obs w = (Samples vs0 ++ O)%list -> live C ->
  post (averaging E n acc) w
    (fun r w' =>
       match r with
       | Some total =>
           exists vs, List.length vs = n /\ total = fold_left Qplus vs acc
             /\ ctl w' = C /\ obs w' = (Samples (vs0 ++ vs) ++ O)%list
       | None => Gone R O w'
       end)
    (Crash R O).
Proof.
  induction n as [|n IH]; intros acc w C O vs0 HC HO [Ha Ht]; cbn [averaging].
  - apply post_ret. exists []. rewrite app_nil_r. auto.
  - assert (Hcrash : forall w1, ctl w1 = C /\ obs w1 = (Samples vs0 ++ O)%list ->
                                Crash R O w1).
    { intros w1 [H1 H2]. eapply Crash_at; eauto; flat. }
    assert (Hgone : forall site w1 w2,
               ctl w1 = C /\ obs w1 = (Samples vs0 ++ O)%list ->
               Killed site w1 w2 -> Gone R O w2).
    { intros site w1 w2 [H1 H2] Hk.
      eapply Gone_killed; eauto; flat. }
    apply post_gets.
    change (isScanning w) with (c_isScanning (ctl w)).
    rewrite HC, (proj1 Ha). cbn [negb].
    apply post_gets.
    eapply post_call;
      [apply (quiet_at (quiet_when (negb (doBypass w)) (monitor_quiet E First)) HC HO)
      | | exact Hcrash].
    cbn beta. intros _ w1 [HC1 HO1].
    eapply post_call; [apply (processEvents_at AfterFirstMonitor HC1 HO1 Ha) | | cbn beta; intros ? []].
    cbn beta. intros _ w2 [[HC2 HO2]|Hk].
    2:{ apply post_gets. change (isScanning w2) with (c_isScanning (ctl w2)).
        rewrite (Killed_off Hk). cbn [negb]. apply post_ret.
        eapply Hgone; eauto. }
    apply post_gets. change (isScanning w2) with (c_isScanning (ctl w2)).
    rewrite HC2, (proj1 Ha). cbn [negb].
    eapply post_call; [apply (quiet_at (monitor_quiet E Second) HC2 HO2) | | exact Hcrash].
    cbn beta. intros _ w3 [HC3 HO3].
    eapply post_call; [apply (processEvents_at AfterSecondMonitor HC3 HO3 Ha) | | cbn beta; intros ? []].
    cbn beta. intros _ w4 [[HC4 HO4]|Hk].
    2:{ assert (Hg : Gone R O w4) by (eapply Hgone; eauto).
        destruct (@conc_dead w4) as [e He].
        { destruct Hk as (_ & -> & _). reflexivity. }
        eapply post_bind. eapply post_exn; [exact He|]. now apply Gone_Crash. }
    eapply post_call; [apply (conc_at HC4 HO4) | | exact Hcrash].
    cbn beta. intros v w5 [HC5 HO5].
    rewrite app_comm_cons, <- Samples_snoc in HO5.
    assert (Hgone' : forall site w1 w2,
               ctl w1 = C /\ obs w1 = (Samples (vs0 ++ [v]) ++ O)%list ->
               Killed site w1 w2 -> Gone R O w2).
    { intros site wa wb [H1 H2] Hk. eapply Gone_killed; eauto; flat. }
    apply post_gets.
    eapply post_call; [apply (waitLoop_at _ HC5 HO5 Ha) | | cbn beta; intros ? []].
    cbn beta. intros ok w6 [(-> & HC6 & HO6)|[-> Hk]].
    2:{ apply post_ret. eapply Hgone'; eauto. }
    eapply post_weaken; [apply (IH _ w6 C O (vs0 ++ [v])%list HC6 HO6 (conj Ha Ht)) | | auto].
    cbn beta. intros [total|] w7 H; [|exact H].
    destruct H as (vs & Hl & Htot & HC7 & HO7).
    exists (v :: vs). split; [cbn; now rewrite Hl|].
    split; [exact Htot|]. split; [exact HC7|].
    now rewrite <- app_assoc in HO7.
Qed.

Lemma moreToCome_at s C k w :
  ctl w = C -> c_slot s C = Some k -> moreToCome s w = Val (more k) w.
Proof.
  intros HC Hk. destruct (getC_at s HC Hk) as (c & Hs & Hc).
  unfold moreToCome, bind. rewrite (getC_val s w Hs). unfold ret, more.
  now rewrite <- Hc.
Qed.

Lemma next_at s C O k w :
  ctl w = C -> obs w = O -> c_slot s C = Some k ->
  post (next E s) w
    (fun _ w' =>
       exists v, np_get (k_X k) (k_point k + 1) = Some v
         /\ ctl w' = set_c_slot s (Some (bump k v)) C
         /\ obs w' = VSet s (cmdOf k) v :: O)
    (fun w' =>
       ctl w' = set_c_slot s (Some (set_k_point (k_point k + 1)%Z k)) C
       /\ obs w' = O).
Proof.
  intros HC HO Hk. destruct (getC_at s HC Hk) as (c & Hs & Hc).
  eapply post_weaken; [apply (next_spec E s w Hs) | |]; cbn beta.
  - intros _ w' (v & Hv & H1 & H2). exists v. rewrite <- Hc, <- HC, <- HO. auto.
  - intros w' (Hv & H1 & H2). rewrite <- Hc, <- HC, <- HO. auto.
Qed.

Lemma reset_at s C O k w :
  ctl w = C -> obs w = O -> c_slot s C = Some k ->
  exists w', reset s w = Val tt w'
    /\ ctl w' = set_c_slot s (Some (set_k_point (-1)%Z k)) C /\ obs w' = O.
Proof.
  intros HC HO Hk. destruct (getC_at s HC Hk) as (c & Hs & Hc).
  unfold reset, bind. rewrite (getC_val s w Hs). unfold putC, modify.
  eexists. split; [reflexivity|]. autorewrite with view.
  rewrite HC, HO, <- Hc. split; reflexivity.
Qed.

Lemma endScan_at C O w :
  ctl w = C -> obs w = O -> alive C ->
  post (endScan E) w
    (fun _ w' => ctl w' = kill C
                 /\ exists mc, statusClick mc /\ obs w' = (RELS ++ mc ++ O)%list)
    (fun _ => False).
Proof.
  intros HC HO Ha. rewrite <- HC, <- HO. apply endScan_alive. now rewrite HC.
Qed.

Lemma barf_at msg C O w :
  ctl w = C -> obs w = O -> alive C ->
  post (barf E msg) w
    (fun _ w' => ctl w' = kill C
                 /\ exists mc, statusClick mc /\ obs w' = (RELS ++ mc ++ O)%list)
    (fun _ => False).
Proof.
  intros HC HO Ha. unfold barf.
  eapply post_call; [apply (endScan_at HC HO Ha) | | cbn beta; intros ? []].
  cbn beta. intros _ w1 (H1 & mc & Hmc & H2).
  unfold post, log, modify. split; [exact H1|]. exists mc. split; [exact Hmc|].
  rewrite obs_log. exact H2.
Qed.

Lemma set_c_doBypass_id b C : c_doBypass C = b -> set_c_doBypass b C = C.
Proof. destruct C; cbn; intros ->; reflexivity. Qed.

Lemma Plain_nil : Plain R [].
Proof. repeat split. constructor. Qed.

Lemma Plain_set s n v l : Plain R l -> Plain R (VSet s n v :: l).
Proof. intros (A & B & D & F). repeat split; assumption. Qed.

Lemma Plain_row d vs : R d -> Plain R (VRow d :: Samples vs).
Proof.
  intros Hd. repeat split; flat.
Qed.

Lemma Plain_samples vs : Plain R (Samples vs).
Proof. repeat split; flat. Qed.

Lemma Crash_plain O l w C :
  ctl w = C -> c_timer C = false -> obs w = (l ++ O)%list -> Plain R l ->
  Crash R O w.
Proof. intros HC Ht HO (A & B & D & F). eapply Crash_at; eauto. Qed.

Lemma Gone_plain O l mc w C :
  ctl w = kill C -> statusClick mc -> obs w = (RELS ++ mc ++ l ++ O)%list ->
  Plain R l -> Gone R O w.
Proof. intros HC Hmc HO (A & B & D & F). eapply Gone_ended; eauto. Qed.

Lemma alive_set_slot s k C : alive C -> alive (set_c_slot s (Some k) C).
Proof.
  intros (A1 & A2 & A3 & A4).
  destruct s; repeat split; try assumption; discriminate.
Qed.

(** [next] on the second classifier and the complaint if it fails. *)
Lemma second_spec w C l1 O k2 :
  ctl w = C -> obs w = (l1 ++ O)%list -> Plain R l1 -> live C ->
  c_second C = Some k2 ->
  post (ok <- next E Second ;;
        when (negb ok) (barf E "Failed to set second classifier.")) w
    (fun _ w' =>
       (exists v2, np_get (k_X k2) (k_point k2 + 1) = Some v2
          /\ ctl w' = set_c_second (Some (bump k2 v2)) C
          /\ obs w' = (VSet Second (cmdOf k2) v2 :: l1 ++ O)%list)
       \/ Gone R O w')
    (Crash R O).
Proof.
  intros HC HO HP [Ha Ht] H2.
  eapply post_call; [apply (next_at Second HC HO H2) | |]; cbn beta.
  - intros ok w2 (v & Hv & HC2 & HO2). destruct ok; cbn [negb when].
    + apply post_ret. left. eauto.
    + eapply post_weaken;
        [apply (barf_at _ HC2 HO2); now apply alive_set_slot
        | | cbn beta; intros ? []].
      cbn beta. intros _ w3 (HC3 & mc & Hmc & HO3). right.
      eapply (@Gone_plain O (VSet Second (cmdOf k2) v :: l1) mc w3 _ HC3 Hmc HO3).
      now apply Plain_set.
  - intros w2 [HC2 HO2]. eapply Crash_plain; eauto.
Qed.

(** The start of a new inner sweep in [Ui.next]: the second classifier is
    reset, the first one stepped unless a bypass is on, the second one
    stepped to its first point. *)
Lemma restart_spec w C l1 O k1 k2 :
  ctl w = C -> obs w = (l1 ++ O)%list -> Plain R l1 -> live C ->
  c_first C = Some k1 -> c_second C = Some k2 ->
  post (bind (reset Second ;;;
              modify (set_fileData []) ;;;
              modify (set_startRow true) ;;;
              db <- gets doBypass ;;
              if negb db then
                ok <- next E First ;;
                if negb ok then
                  barf E "Failed to set first classifier." ;;;
                  ret false
                else ret true
              else ret true)
          (fun go =>
             if negb go then ret tt
             else
               ok <- next E Second ;;
               when (negb ok) (barf E "Failed to set second classifier."))) w
    (fun _ w' =>
       (if c_doBypass C then
          exists v2,
            np_get (k_X k2) 0 = Some v2
            /\ ctl w' = set_c_second (Some (bump (set_k_point (-1)%Z k2) v2))
                           (set_c_startRow true C)
            /\ obs w' = (VSet Second (cmdOf k2) v2 :: l1 ++ O)%list
        else
          exists v1 v2,
            np_get (k_X k1) (k_point k1 + 1) = Some v1
            /\ np_get (k_X k2) 0 = Some v2
            /\ ctl w' = set_c_second (Some (bump (set_k_point (-1)%Z k2) v2))
                           (set_c_first (Some (bump k1 v1)) (set_c_startRow true C))
            /\ obs w' = (VSet Second (cmdOf k2) v2
                           :: VSet First (cmdOf k1) v1 :: l1 ++ O)%list)
       \/ Gone R O w')
    (Crash R O).
Proof.
  intros HC HO HP [Ha Ht] H1 H2.
  apply post_assoc.
  destruct (reset_at Second HC HO H2) as (w1 & Hr & HC1 & HO1).
  eapply post_bind, post_val; [exact Hr|].
  apply post_assoc, post_modify, post_assoc, post_modify, post_assoc, post_gets.
  set (w2 := set_startRow true (set_fileData [] w1)).
  set (C2 := set_c_startRow true (set_c_second (Some (set_k_point (-1)%Z k2)) C)).
  assert (HC2 : ctl w2 = C2).
  { unfold w2, C2. rewrite ctl_set_startRow, ctl_set_fileData, HC1. reflexivity. }
  assert (HO2 : obs w2 = (l1 ++ O)%list) by exact HO1.
  assert (Hdb2 : doBypass w2 = c_doBypass C).
  { change (doBypass w2) with (c_doBypass (ctl w1)). rewrite HC1. reflexivity. }
  clearbody w2. rewrite Hdb2.
  assert (Ha2 : alive C2).
  { destruct Ha as (A1 & A2 & A3 & A4). repeat split; try assumption. discriminate. }
  assert (HL2 : live C2) by (split; [exact Ha2 | exact Ht]).
  destruct (c_doBypass C) eqn:Hdb; cbn [negb].
  - apply post_bind, post_ret. cbn [negb].
    eapply post_weaken;
      [apply (@second_spec w2 C2 l1 O (set_k_point (-1)%Z k2) HC2 HO2 HP HL2);
       reflexivity | | auto].
    cbn beta. intros _ w3 [(v2 & Hv & HC3 & HO3)|Hg]; [left | now right].
    exists v2. split; [exact Hv|]. split; [|exact HO3]. rewrite HC3. reflexivity.
  - apply post_assoc.
    eapply post_call; [apply (@next_at First C2 _ k1 w2 HC2 HO2); exact H1 | |];
      cbn beta.
    2:{ intros w3 [HC3 HO3]. eapply Crash_plain; eauto. }
    intros ok w3 (v1 & Hv1 & HC3 & HO3). destruct ok; cbn [negb].
    + apply post_bind, post_ret. cbn [negb].
      assert (Ha3 : alive (set_c_slot First (Some (bump k1 v1)) C2))
        by now apply alive_set_slot.
      eapply post_weaken;
        [apply (@second_spec w3 _ (VSet First (cmdOf k1) v1 :: l1) O
                  (set_k_point (-1)%Z k2) HC3 HO3);
         [now apply Plain_set | split; [exact Ha3 | exact Ht] | reflexivity]
        | | auto].
      cbn beta. intros _ w4 [(v2 & Hv & HC4 & HO4)|Hg]; [left | now right].
      exists v1, v2. split; [exact Hv1|]. split; [exact Hv|].
      split; [|exact HO4]. rewrite HC4. reflexivity.
    + apply post_assoc.
      eapply post_call;
        [apply (barf_at _ HC3 HO3); now apply alive_set_slot
        | | cbn beta; intros ? []].
      cbn beta. intros _ w4 (HC4 & mc & Hmc & HO4).
      apply post_bind, post_ret. cbn [negb]. apply post_ret. right.
      eapply (@Gone_plain O (VSet First (cmdOf k1) v1 :: l1) mc w4 _ HC4 Hmc HO4).
      now apply Plain_set.
Qed.

Lemma bypass_block_quiet b :
  quiet (when b (StopScan E Second ;;; enableBypass ;;; StartScan E Second ;;;
                 modify (set_firstBypass false))).
Proof.
  apply quiet_when.
  apply quiet_bind; [apply StopScan_quiet | intros _].
  apply quiet_bind; [apply enableBypass_quiet | intros _].
  apply quiet_bind; [apply StartScan_quiet | intros _].
  apply quiet_modify. intros w. split; reflexivity.
Qed.

(** [plotIt] from inside a running scan: a row is written and the scan is
    still on, or the scan was stopped, or an exception leaves the slot. *)
Lemma plotIt_spec w C O k1 k2 :
  ctl w = C -> obs w = O -> live C ->
  c_first C = Some k1 -> c_second C = Some k2 ->
  (forall vs d, RowFacts (average cfg) C k1 k2 vs d -> R d) ->
  post (plotIt E cfg) w
    (fun _ w' =>
       (exists d vs z',
          RowFacts (average cfg) C k1 k2 vs d
          /\ ZmAfter (average cfg) C k1 k2 vs z'
          /\ ctl w' = set_c_Zm z' C
          /\ obs w' = (VRow d :: Samples vs ++ O)%list)
       \/ Gone R O w')
    (Crash R O).
Proof.
  intros HC HO [Ha Ht] H1 H2 HR. unfold plotIt, updateStatus.
  eapply post_call;
    [apply (processEvents_at Status HC HO Ha) | | cbn beta; intros ? []].
  cbn beta. intros _ w1 [[HC1 HO1]|Hk].
  2:{ assert (Hg : Gone R O w1).
      { eapply (@Gone_killed R O [] Status w w1); eauto; flat. }
      eapply post_bind, post_exn; [|apply Gone_Crash, Hg].
      apply getC_gone. destruct Hk as (_ & -> & _). reflexivity. }
  assert (Hcrash0 : forall w', ctl w' = C /\ obs w' = O -> Crash R O w').
  { intros w' [A B]. eapply (@Crash_at R O [] w' C); eauto; flat. }
  destruct (getC_at First HC1 H1) as (c1 & Hs1 & Hc1).
  eapply post_bind, post_val; [apply (getC_val First w1 Hs1)|].
  destruct (Z.eqb_spec (points c1) 0) as [Hz|Hnz].
  { eapply post_bind, post_raise. apply Hcrash0. auto. }
  apply post_bind, post_ret.
  do 2 apply post_gets.
  eapply post_call; [apply (quiet_at (bypass_block_quiet _) HC1 HO1) | | exact Hcrash0].
  cbn beta. intros _ w2 [HC2 HO2].
  eapply post_call; [apply (quiet_at poll_quiet HC2 HO2) | | exact Hcrash0].
  cbn beta. intros _ w3 [HC3 HO3].
  eapply post_call;
    [apply (@averaging_spec (Z.to_nat (average cfg)) 0%Q w3 C O [] HC3 HO3 (conj Ha Ht))
    | | auto].
  cbn beta. intros [total|] w4 H4; [|apply post_ret; now right].
  destruct H4 as (vs & Hl & Htot & HC4 & HO4). cbn [app] in HO4.
  assert (Hcrash : forall w',
             (ctl w' = C \/ exists z', ctl w' = set_c_Zm z' C)
             /\ obs w' = (Samples vs ++ O)%list -> Crash R O w').
  { intros w' [[A|[z' A]] B];
      eapply (@Crash_at R O (Samples vs) w'); eauto; flat. }
  eapply post_call; [apply (quiet_at poll_quiet HC4 HO4) | | cbn beta; intros ? Hx; apply Hcrash; tauto].
  cbn beta. intros _ w5 [HC5 HO5].
  destruct (Tolerance.fdiv total (inject_Z (average cfg))) as [cn|] eqn:Hdiv.
  2:{ apply post_raise. apply Hcrash. auto. }
  apply fdiv_inverts in Hdiv. destruct Hdiv as [Have Hcn].
  assert (Hmean : cn = mean (average cfg) vs) by (rewrite Hcn, Htot; reflexivity).
  eapply post_call; [apply getFileData_shape | | intros ? ->; apply Hcrash; auto].
  cbn beta. intros secData w6 [-> (c2 & avs2 & Hs2 & Hk2 & Hsec)].
  destruct (getC_at Second HC5 H2) as (c2' & Hs2' & Hc2).
  rewrite Hs2 in Hs2'. inversion Hs2'; subst c2'. clear Hs2'.
  do 2 apply post_modify.
  set (w7 := set_fileData _ (set_fileData _ w5)).
  assert (HC7 : ctl w7 = C) by exact HC5.
  assert (HO7 : obs w7 = (Samples vs ++ O)%list) by exact HO5.
  assert (HF7 : fileData w7
                = dict_set "Conc " (Num cn) (addSecond secData (fileData w5)))
    by reflexivity.
  assert (Hs7 : slot Second w7 = Some c2) by exact Hs2.
  clearbody w7.
  apply post_gets.
  eapply post_bind, post_val; [apply (getC_val Second w7 Hs7)|].
  change (doBypass w7) with (c_doBypass (ctl w7)). rewrite HC7.
  assert (Hk1 : kind c2 = k_kind k2) by (rewrite <- Hc2; reflexivity).
  assert (Hx2 : x c2 = k_x k2) by (rewrite <- Hc2; reflexivity).
  assert (Hp2 : point c2 = k_point k2) by (rewrite <- Hc2; reflexivity).
  assert (Hpts : k_points k1 <> 0%Z) by (rewrite <- Hc1; exact Hnz).
  (* what is known once the branch is through *)
  assert (Hend : forall w8 d z',
             RowFacts (average cfg) C k1 k2 vs d ->
             ZmAfter (average cfg) C k1 k2 vs z' ->
             ctl w8 = set_c_Zm z' C -> obs w8 = (Samples vs ++ O)%list ->
             fileData w8 = d ->
             post (d <- gets fileData ;; log (Row d) ;;; processEvents E Status) w8
               (fun _ w' =>
                  (exists d vs z',
                     RowFacts (average cfg) C k1 k2 vs d
                     /\ ZmAfter (average cfg) C k1 k2 vs z'
                     /\ ctl w' = set_c_Zm z' C
                     /\ obs w' = (VRow d :: Samples vs ++ O)%list)
                  \/ Gone R O w')
               (Crash R O)).
  { intros w8 d z' Hrow Hzm HC8 HO8 HF8.
    apply post_gets. apply post_log. rewrite HF8.
    set (w9 := set_trace _ w8).
    assert (HC9 : ctl w9 = set_c_Zm z' C) by exact HC8.
    assert (HO9 : obs w9 = (VRow d :: Samples vs ++ O)%list).
    { unfold w9. rewrite obs_log, HO8. reflexivity. }
    clearbody w9.
    eapply post_weaken;
      [apply (processEvents_at Status HC9 HO9); exact Ha | | cbn beta; intros ? []].
    cbn beta. intros _ w10 [[HC10 HO10]|Hk].
    - left. exists d, vs, z'. auto.
    - right. eapply (@Gone_killed R O (VRow d :: Samples vs) Status w9 w10);
        eauto; flat.
      constructor; [eapply HR; eauto | constructor]. }
  destruct (c_doBypass C) eqn:Hdb.
  - eapply post_call;
      [apply (bypass_branch c2 cn HC7 HO7 HF7 H1) | | cbn beta; intros ? Hx; apply Hcrash; tauto].
    cbn beta. intros _ w8 (HC8 & HO8 & HF8).
    destruct (bypassDummy_shape (k_kind k1)) as (rest & Hb & Hrest).
    destruct (@row_cells (fileData w5) (k_kind k1) (kind c2) (x c2) avs2 cn
                (bypassDummy (k_kind k1)) (Txt "Bypassed") Hk2)
      as (G1 & G2 & G3); [eauto|]. cbv zeta in G1, G2, G3.
    rewrite <- Hsec in G1, G2, G3.
    eapply (Hend w8 _ (c_Zm C)); [ | | | exact HO8 | exact HF8].
    + unfold RowFacts. rewrite Hdb, <- Hk1, <- Hx2, <- Hmean.
      repeat split; assumption.
    + unfold ZmAfter. now rewrite Hdb.
    + rewrite HC8. now destruct C.
  - eapply post_call;
      [apply (classified_branch c2 cn HC7 HO7 HF7 H1) | | cbn beta; intros ? Hx; apply Hcrash; tauto].
    cbn beta. intros _ w8 (z' & rest & Hz & Hrest & HC8 & HO8 & HF8).
    destruct (@row_cells (fileData w5) (k_kind k1) (kind c2) (x c2) avs2 cn
                ((quantity (k_kind k1), Num (k_x k1)) :: rest) (Num (k_x k1)) Hk2)
      as (G1 & G2 & G3); [eauto|]. cbv zeta in G1, G2, G3.
    rewrite <- Hsec in G1, G2, G3.
    eapply (Hend w8 _ z'); [ | | exact HC8 | exact HO8 | exact HF8].
    + unfold RowFacts. rewrite Hdb, <- Hk1, <- Hx2, <- Hmean.
      repeat split; assumption.
    + unfold ZmAfter. rewrite Hdb, <- Hp2, <- Hmean. exact Hz.
Qed.

(** [Ui.next] from inside a running scan. *)
Lemma Ui_next_spec w C O k1 k2 :
  ctl w = C -> obs w = O -> live C ->
  c_first C = Some k1 -> c_second C = Some k2 ->
  (forall vs d, RowFacts (average cfg) C k1 k2 vs d -> R d) ->
  post (Ui_next E cfg) w
    (fun _ w' =>
       (exists d vs z',
          RowFacts (average cfg) C k1 k2 vs d
          /\ ZmAfter (average cfg) C k1 k2 vs z'
          /\ (Moved cfg (set_c_Zm z' C) k1 k2 (VRow d :: Samples vs ++ O)
                (ctl w') (obs w')
              \/ Finished cfg (set_c_Zm z' C) k1 k2 (VRow d :: Samples vs ++ O)
                   (ctl w') (obs w')))
       \/ Gone R O w')
    (Crash R O).
Proof.
  intros HC HO HL H1 H2 HR. pose proof HL as [Ha Ht]. unfold Ui_next.
  eapply post_call; [apply (plotIt_spec HC HO HL H1 H2 HR) | | auto].
  cbn beta. intros _ w1 [(d & vs & z' & Hrow & Hzm & HC1 & HO1)|Hg].
  2:{ apply post_gets. change (isScanning w1) with (c_isScanning (ctl w1)).
      rewrite (proj1 (proj1 Hg)). cbn [negb]. apply post_ret. now right. }
  pose proof (HR _ _ Hrow) as HRd.
  pose proof (Plain_row vs HRd) as HP.
  set (C1 := set_c_Zm z' C) in *.
  assert (Ha1 : alive C1) by exact Ha.
  assert (HL1 : live C1) by (split; [exact Ha | exact Ht]).
  assert (H11 : c_first C1 = Some k1) by exact H1.
  assert (H21 : c_second C1 = Some k2) by exact H2.
  change (VRow d :: Samples vs ++ O)%list
    with ((VRow d :: Samples vs) ++ O)%list in HO1.
  eapply post_weaken
    with (P := fun _ w' =>
                 (Moved cfg C1 k1 k2 ((VRow d :: Samples vs) ++ O)
                    (ctl w') (obs w')
                  \/ Finished cfg C1 k1 k2 ((VRow d :: Samples vs) ++ O)
                       (ctl w') (obs w'))
                 \/ Gone R O w')
         (PE := Crash R O);
    [ | intros _ w' [H|H]; [left; exists d, vs, z'; auto | now right] | auto ].
  set (l1 := (VRow d :: Samples vs)%list) in *.
  apply post_gets. change (isScanning w1) with (c_isScanning (ctl w1)).
  rewrite HC1, (proj1 Ha1). cbn [negb].
  eapply post_bind, post_val; [apply (moreToCome_at Second HC1 H21)|].
  destruct (more k2) eqn:Hm2; cbn [negb].
  - apply post_bind, post_ret. cbn [negb].
    eapply post_weaken;
      [apply (@second_spec w1 C1 l1 O k2 HC1 HO1 HP HL1 H21) | | auto].
    cbn beta. intros _ w2 [(v2 & Hv & HC2 & HO2)|Hg]; [left; left; left | now right].
    split; [exact Hm2|]. exists v2. auto.
  - apply post_assoc, post_modify, post_assoc, post_gets, post_assoc.
    set (C2 := set_c_doBypass false C1).
    assert (Ha2 : alive C2) by exact Ha.
    assert (HL2 : live C2) by (split; [exact Ha | exact Ht]).
    assert (H12 : c_first C2 = Some k1) by exact H1.
    assert (H22 : c_second C2 = Some k2) by exact H2.
    match goal with |- post (bind _ ?k) _ ?Q ?QE =>
      assert (Hcont : forall w2, ctl w2 = C2 -> obs w2 = (l1 ++ O)%list ->
                                 post (k tt) w2 Q QE)
    end.
    2:{ change (doBypass (set_Scatterplot true w1)) with (c_doBypass (ctl w1)).
        rewrite HC1. destruct (c_doBypass C1) eqn:Hdb; cbn [when].
        - apply post_modify. apply Hcont; [|exact HO1].
          rewrite ctl_set_doBypass, ctl_set_Scatterplot, HC1. reflexivity.
        - apply post_bind, post_ret. apply Hcont; [|exact HO1].
          rewrite ctl_set_Scatterplot, HC1. unfold C2. symmetry.
          now apply set_c_doBypass_id. }
    intros w2 HC2 HO2. cbn beta.
    apply post_assoc.
    eapply post_bind, post_val; [apply (moreToCome_at First HC2 H12)|].
    destruct (more k1) eqn:Hm1; cbn [negb].
    + apply post_assoc, post_bind, post_ret. lazy beta iota.
      eapply post_weaken;
        [apply (@restart_spec w2 C2 l1 O k1 k2 HC2 HO2 HP HL2 H12 H22) | | auto].
      cbn beta. intros _ w3 [H|Hg]; [|now right].
      change (c_doBypass C2) with false in H. lazy beta iota in H.
      destruct H as (v1 & v2 & Hv1 & Hv2 & HC3 & HO3).
      left. left. right. left.
      split; [exact Hm2|]. split; [exact Hm1|]. exists v1, v2. auto.
    + apply post_assoc, post_assoc, post_gets.
      change (finalBypass w2) with (c_finalBypass (ctl w2)). rewrite HC2.
      change (c_finalBypass C2) with (c_finalBypass C1).
      destruct (c_finalBypass C1 || negb (Bypass cfg)) eqn:Hfin.
      * apply post_assoc, post_log, post_assoc.
        set (w3 := set_trace _ w2).
        assert (HC3 : ctl w3 = C2) by exact HC2.
        assert (HO3 : obs w3 = (VFinal :: l1 ++ O)%list).
        { unfold w3. rewrite obs_log, HO2. reflexivity. }
        clearbody w3.
        eapply post_call;
          [apply (endScan_at HC3 HO3 Ha2) | | cbn beta; intros ? []].
        cbn beta. intros _ w4 (HC4 & mc & Hmc & HO4).
        apply post_bind, post_ret. lazy beta iota.
        apply post_bind, post_ret. cbn [negb]. apply post_ret.
        left. right. split; [exact Hm2|]. split; [exact Hm1|].
        split; [exact Hfin|]. split; [exact HC4|]. exists mc. auto.
      * apply post_assoc, post_modify, post_assoc, post_modify,
          post_assoc, post_modify, post_assoc.
        set (w3 := set_disBypass true _).
        set (C3 := set_c_finalBypass true (set_c_doBypass true C2)).
        assert (HC3 : ctl w3 = C3).
        { unfold w3, C3.
          rewrite ctl_set_disBypass, ctl_set_finalBypass, ctl_set_doBypass, HC2.
          reflexivity. }
        assert (HO3 : obs w3 = (l1 ++ O)%list) by exact HO2.
        clearbody w3.
        assert (Ha3 : alive C3) by exact Ha.
        assert (HL3 : live C3) by (split; [exact Ha | exact Ht]).
        assert (Hcrash : forall w', ctl w' = C3 /\ obs w' = (l1 ++ O)%list ->
                                    Crash R O w').
        { intros w' [A B]. eapply Crash_plain; eauto. }
        eapply post_call;
          [apply (quiet_at enableBypass_quiet HC3 HO3) | | exact Hcrash].
        cbn beta. intros _ w4 [HC4 HO4].
        apply post_assoc. unfold sleepOnly. apply post_bind, post_ret.
        apply post_assoc.
        eapply post_call;
          [apply (quiet_at (run_quiet E Second) HC4 HO4) | | exact Hcrash].
        cbn beta. intros _ w5 [HC5 HO5].
        apply post_bind, post_ret. lazy beta iota.
        eapply post_weaken;
          [apply (@restart_spec w5 C3 l1 O k1 k2 HC5 HO5 HP HL3 H1 H2) | | auto].
        cbn beta. intros _ w6 [H|Hg]; [|now right].
        change (c_doBypass C3) with true in H. lazy beta iota in H.
        destruct H as (v2 & Hv2 & HC6 & HO6).
        apply orb_false_elim in Hfin. destruct Hfin as [Hfb Hby].
        apply negb_false_iff in Hby.
        left. left. right. right.
        split; [exact Hm2|]. split; [exact Hm1|].
        split; [exact Hfb|]. split; [exact Hby|]. exists v2.
        split; [exact Hv2|]. split; [|exact HO6]. rewrite HC6. reflexivity.
Qed.

(** *** A scan that is over *)

Lemma clicks_facts l :
  forallb isClick l = true ->
  vrows l = [] /\ vrels l = [] /\ existsb isVFinal l = false.
Proof.
  induction l as [|v l IH]; [repeat split|]. cbn [forallb].
  intros H. apply andb_true_iff in H. destruct H as [Hv Hl].
  destruct v; try discriminate. cbn. now apply IH.
Qed.

Lemma Off_step rels O w w' l :
  Off rels O w -> ctl w' = ctl w -> obs w' = (l ++ obs w)%list ->
  forallb isClick l = true -> Off rels O w'.
Proof.
  intros (Hd & Ht & l0 & HO & A & B & D) HC HO' Hl.
  destruct (clicks_facts l Hl) as (F1 & F2 & F3).
  split; [now rewrite HC|]. split; [now rewrite HC|].
  exists (l ++ l0)%list. rewrite HO', HO, app_assoc.
  split; [reflexivity|]. flat. rewrite F1, F2, F3, A, B, D. auto.
Qed.

Lemma Off_killed site O w w' :
  Killed site w w' -> obs w = O -> Off RELSd O w'.
Proof.
  intros (_ & HC & mc & Hmc & HO') HO.
  destruct (statusClick_facts Hmc) as (M1 & M2 & M3 & M4).
  split; [rewrite HC; apply dead_kill|]. split; [now rewrite HC|].
  exists (RELS ++ mc ++ [VClick site])%list.
  split; [rewrite HO', HO, <- !app_assoc; reflexivity|].
  flat. rewrite M1, M2, M3. auto.
Qed.

Lemma Off_Gone O w : Off RELSd O w -> Gone R O w.
Proof.
  intros (Hd & Ht & l & HO & A & B & D).
  split; [exact Hd|]. split; [exact Ht|]. exists l.
  split; [exact HO|]. split; [exact B|]. rewrite A.
  split; [constructor | auto].
Qed.

Lemma Off_same rels O w w' : Off rels O w -> Same w w' -> Off rels O w'.
Proof.
  intros H [HC HO]. eapply (@Off_step rels O w w' []); eauto.
Qed.

Lemma processEvents_Off rels O site w :
  Off rels O w ->
  post (processEvents E site) w
    (fun _ w' => Off rels O w' /\ ctl w' = ctl w) (fun _ => False).
Proof.
  intros H. pose proof H as (Hd & _).
  eapply post_weaken;
    [apply (processEvents_off E site w (proj1 Hd)) | | auto].
  cbn beta. intros _ w' (l & [-> | ->] & [HC HO]);
    (split; [eapply Off_step; eauto | exact HC]).
Qed.

Lemma delay_Off rels O site n w :
  Off rels O w ->
  post (delay E site n) w
    (fun _ w' => Off rels O w' /\ ctl w' = ctl w) (fun _ => False).
Proof.
  intros H. pose proof H as (Hd & _).
  eapply post_weaken; [apply (delay_off E site n w (proj1 Hd)) | | auto].
  cbn beta. intros ok w' (_ & l & [-> | ->] & [HC HO]);
    (split; [eapply Off_step; eauto | exact HC]).
Qed.

Lemma isReady_gone s w :
  c_slot s (ctl w) = None -> isReady E s w = Raise AttributeError w.
Proof. intros H. unfold isReady, bind. now rewrite (getC_gone s w H). Qed.

Lemma Ui_next_Off rels O w :
  Off rels O w ->
  post (Ui_next E cfg) w (fun _ w' => False) (fun w' => Off rels O w').
Proof.
  intros H. unfold Ui_next, plotIt, updateStatus.
  apply post_assoc.
  eapply post_call; [apply (processEvents_Off Status H) | | cbn beta; intros ? []].
  cbn beta. intros _ w1 [H1 _]. pose proof H1 as ((_ & Hf & _) & _).
  apply post_assoc.
  eapply post_bind, post_exn; [apply (getC_gone First w1 Hf) | exact H1].
Qed.

Lemma Crash_TickBad O w : Crash R O w -> TickBad R O w.
Proof.
  intros (Ht & l & HO & Hf & HR & Hd). exists l.
  split; [exact HO|]. split; [exact Hf|]. split; [exact HR|].
  split; [now left|]. intros Hc. destruct (Hd Hc) as (A & B & D). auto.
Qed.

Lemma Off_TickBad O w : Off RELSd O w -> TickBad R O w.
Proof. intros H. now apply Crash_TickBad, Gone_Crash, Off_Gone. Qed.

(** Stopped while a status is shown, and the timer started all the same. *)
Lemma TickBad_restarted O w w1 w' :
  Killed Status w w1 -> obs w = O ->
  ctl w' = set_c_timer true (ctl w1) -> obs w' = obs w1 ->
  TickBad R O w'.
Proof.
  intros (_ & HC & mc & Hmc & HO') HO HC' HO2.
  destruct (statusClick_facts Hmc) as (M1 & M2 & M3 & M4).
  exists (RELS ++ mc ++ [VClick Status])%list.
  split; [rewrite HO2, HO', HO, <- !app_assoc; reflexivity|].
  split; [flat; now rewrite M3|].
  split; [flat; rewrite M1; constructor|].
  split; [right; rewrite HC', HC; repeat split|].
  flat. rewrite M4. discriminate.
Qed.

Lemma sameScan_refl C : sameScan C C.
Proof. repeat split. Qed.

(** The second half of [Ui.check] once the scan is over: the readiness of
    the second classifier cannot be asked. *)
Lemma block2_Off rels O w :
  Off rels O w -> c_startRow (ctl w) = false ->
  post (sr <- gets startRow ;;
        go <- (if negb sr then
                 rdy <- isReady E Second ;;
                 if rdy then
                   modify (set_timer false) ;;;
                   updateStatus E ;;;
                   ok <- delay E Delay2 (secondDelay cfg) ;;
                   if negb ok then ret false
                   else
                     Ui_next E cfg ;;;
                     gets isScanning
                 else
                   updateStatus E ;;;
                   ret true
               else ret true) ;;
        when go (modify (set_timer true))) w
    (fun _ _ => False) (fun w' => Off rels O w').
Proof.
  intros H Hsr. apply post_gets.
  change (startRow w) with (c_startRow (ctl w)). rewrite Hsr. cbn [negb].
  apply post_assoc. pose proof H as ((_ & _ & Hs & _) & _).
  eapply post_bind, post_exn; [apply (isReady_gone Second w Hs) | exact H].
Qed.

(** The second half of [Ui.check] in a running scan. *)
Lemma block2_live w C0 C O k1 k2 :
  ctl w = C -> obs w = O -> live C -> c_startRow C = false ->
  sameScan C0 C ->
  c_first C = Some k1 -> c_second C = Some k2 ->
  (forall Cn vs d, sameScan C0 Cn ->
                   RowFacts (average cfg) Cn k1 k2 vs d -> R d) ->
  post (sr <- gets startRow ;;
        go <- (if negb sr then
                 rdy <- isReady E Second ;;
                 if rdy then
                   modify (set_timer false) ;;;
                   updateStatus E ;;;
                   ok <- delay E Delay2 (secondDelay cfg) ;;
                   if negb ok then ret false
                   else
                     Ui_next E cfg ;;;
                     gets isScanning
                 else
                   updateStatus E ;;;
                   ret true
               else ret true) ;;
        when go (modify (set_timer true))) w
    (fun _ w' => Ticked cfg R C0 k1 k2 O w') (Crash R O).
Proof.
  intros HC HO HL Hsr HS H1 H2 HR. pose proof HL as [Ha Ht].
  assert (Hcrash : forall w', ctl w' = C /\ obs w' = O -> Crash R O w').
  { intros w' [A B]. eapply (@Crash_plain O [] w' C); eauto. apply Plain_nil. }
  apply post_gets.
  change (startRow w) with (c_startRow (ctl w)). rewrite HC, Hsr. cbn [negb].
  apply post_assoc.
  eapply post_call; [apply (quiet_at (isReady_quiet E Second) HC HO) | | exact Hcrash].
  cbn beta. intros rdy w1 [HC1 HO1]. destruct rdy.
  - apply post_assoc, post_modify, post_assoc.
    set (w2 := set_timer false w1).
    set (Ct := set_c_timer false C).
    assert (HC2 : ctl w2 = Ct) by (unfold w2, Ct; now rewrite ctl_set_timer, HC1).
    assert (HO2 : obs w2 = O) by exact HO1.
    clearbody w2.
    assert (Hat : alive Ct) by exact Ha.
    assert (HLt : live Ct) by (split; [exact Ha | reflexivity]).
    assert (HSt : sameScan C0 Ct) by exact HS.
    unfold updateStatus.
    eapply post_call;
      [apply (processEvents_at Status HC2 HO2 Hat) | | cbn beta; intros ? []].
    cbn beta. intros _ w3 [[HC3 HO3]|Hk].
    + apply post_assoc.
      eapply post_call;
        [apply (delay_at Delay2 (secondDelay cfg) HC3 HO3 Hat)
        | | cbn beta; intros ? []].
      cbn beta. intros ok w4 [(-> & HC4 & HO4)|[-> Hk]]; cbn [negb].
      * apply post_assoc.
        eapply post_call;
          [apply (@Ui_next_spec w4 Ct O k1 k2 HC4 HO4 HLt H1 H2);
           intros vs d; apply (HR Ct vs d HSt)
          | | auto].
        cbn beta. intros _ w5 [(d & vs & z' & Hrow & Hzm & Hmv)|Hg].
        -- apply post_gets. change (isScanning w5) with (c_isScanning (ctl w5)).
           destruct Hmv as [Hmv|Hfin].
           ++ assert (Hon : c_isScanning (ctl w5) = true).
              { destruct Hmv as [(_ & v2 & _ & -> & _)
                                |[(_ & _ & v1 & v2 & _ & _ & -> & _)
                                 |(_ & _ & _ & _ & v2 & _ & -> & _)]];
                  exact (proj1 Ha). }
              rewrite Hon. cbn [when]. unfold post, modify.
              right. left. exists d, vs, z', Ct.
              split; [exact HSt|]. split; [exact Hsr|].
              split; [exact Hrow|]. split; [exact Hzm|].
              left. exists (ctl w5). split; [exact Hmv | reflexivity].
           ++ assert (Hoff : c_isScanning (ctl w5) = false).
              { destruct Hfin as (_ & _ & _ & -> & _). reflexivity. }
              rewrite Hoff. cbn [when]. apply post_ret.
              right. left. exists d, vs, z', Ct.
              split; [exact HSt|]. split; [exact Hsr|].
              split; [exact Hrow|]. split; [exact Hzm|]. now right.
        -- apply post_gets. change (isScanning w5) with (c_isScanning (ctl w5)).
           rewrite (proj1 (proj1 Hg)). cbn [when]. apply post_ret.
           right. right. now apply Crash_TickBad, Gone_Crash.
      * apply post_bind, post_ret. cbn [when]. apply post_ret.
        right. right. apply Off_TickBad. eapply Off_killed; eauto.
    + assert (Hoff : Off RELSd O w3) by (eapply Off_killed; eauto).
      apply post_assoc.
      eapply post_call;
        [apply (delay_Off Delay2 (secondDelay cfg) Hoff) | | cbn beta; intros ? []].
      cbn beta. intros ok w4 [Hoff4 _]. destruct ok; cbn [negb].
      * apply post_assoc.
        eapply post_call; [apply (Ui_next_Off Hoff4) | cbn beta; intros ? ? [] |].
        cbn beta. intros w5 H5. now apply Gone_Crash, Off_Gone.
      * apply post_bind, post_ret. cbn [when]. apply post_ret.
        right. right. now apply Off_TickBad.
  - apply post_assoc. unfold updateStatus.
    eapply post_call;
      [apply (processEvents_at Status HC1 HO1 Ha) | | cbn beta; intros ? []].
    cbn beta. intros _ w3 [[HC3 HO3]|Hk].
    + apply post_bind, post_ret. cbn [when]. unfold post, modify.
      left. split; [exact HO3|]. split; [reflexivity|].
      rewrite ctl_set_timer, HC3. exact HS.
    + apply post_bind, post_ret. cbn [when]. unfold post, modify.
      right. right. eapply (@TickBad_restarted O w1 w3); eauto.
Qed.

Lemma first_ready_quiet (b : bool) :
  quiet (if b then ret true else isReady E First).
Proof. destruct b; [apply quiet_ret | apply isReady_quiet]. Qed.

(** [Ui.check], the slot of the timer, in a running scan. *)
Lemma check_spec w C0 O k1 k2 :
  ctl w = C0 -> obs w = O -> alive C0 ->
  c_first C0 = Some k1 -> c_second C0 = Some k2 ->
  (forall Cn vs d, sameScan C0 Cn ->
                   RowFacts (average cfg) Cn k1 k2 vs d -> R d) ->
  post (check E cfg) w
    (fun _ w' => Ticked cfg R C0 k1 k2 O w') (Crash R O).
Proof.
  intros HC0 HO0 Ha H1 H2 HR. unfold check.
  apply post_modify.
  set (w1 := set_timer false w).
  set (C := set_c_timer false C0).
  assert (HC : ctl w1 = C) by (unfold w1, C; now rewrite ctl_set_timer, HC0).
  assert (HO : obs w1 = O) by exact HO0.
  clearbody w1.
  assert (HaC : alive C) by exact Ha.
  assert (HL : live C) by (split; [exact Ha | reflexivity]).
  assert (HS : sameScan C0 C) by (repeat split).
  assert (Hcrash : forall w', ctl w' = C /\ obs w' = O -> Crash R O w').
  { intros w' [A B]. eapply (@Crash_plain O [] w' C); eauto. apply Plain_nil. }
  apply post_gets.
  change (startRow w1) with (c_startRow (ctl w1)). rewrite HC.
  change (c_startRow C) with (c_startRow C0).
  destruct (c_startRow C0) eqn:Hsr.
  2:{ apply post_bind, post_ret. cbn [negb].
      apply (@block2_live w1 C0 C O k1 k2 HC HO HL Hsr HS H1 H2 HR). }
  apply post_assoc, post_gets, post_assoc.
  eapply post_call;
    [apply (quiet_at (first_ready_quiet (doBypass w1)) HC HO) | | exact Hcrash].
  cbn beta. intros rdy w2 [HC2 HO2]. destruct rdy.
  - apply post_assoc, post_modify, post_assoc.
    set (w3 := set_startRow false w2).
    set (Cs := set_c_startRow false C).
    assert (HC3 : ctl w3 = Cs) by (unfold w3, Cs; now rewrite ctl_set_startRow, HC2).
    assert (HO3 : obs w3 = O) by exact HO2.
    clearbody w3.
    assert (Has : alive Cs) by exact Ha.
    assert (HLs : live Cs) by (split; [exact Ha | reflexivity]).
    assert (HSs : sameScan C0 Cs) by (repeat split).
    unfold updateStatus at 1.
    eapply post_call;
      [apply (processEvents_at Status HC3 HO3 Has) | | cbn beta; intros ? []].
    cbn beta. intros _ w4 [[HC4 HO4]|Hk].
    + eapply post_call;
        [apply (delay_at Delay1 (firstDelay cfg) HC4 HO4 Has)
        | | cbn beta; intros ? []].
      cbn beta. intros ok w5 [(-> & HC5 & HO5)|[-> Hk]]; cbn [negb].
      * apply (@block2_live w5 C0 Cs O k1 k2 HC5 HO5 HLs eq_refl HSs H1 H2 HR).
      * apply post_ret. right. right. apply Off_TickBad. eapply Off_killed; eauto.
    + assert (Hoff : Off RELSd O w4) by (eapply Off_killed; eauto).
      assert (Hsr4 : c_startRow (ctl w4) = false).
      { destruct Hk as (_ & -> & _).
        change (c_startRow (kill (ctl w3))) with (c_startRow (ctl w3)).
        now rewrite HC3. }
      eapply post_call;
        [apply (delay_Off Delay1 (firstDelay cfg) Hoff) | | cbn beta; intros ? []].
      cbn beta. intros ok w5 [Hoff5 HC5]. destruct ok; cbn [negb].
      * eapply post_weaken;
          [apply (block2_Off Hoff5); now rewrite HC5 | cbn beta; intros ? ? [] |].
        cbn beta. intros w6 H6. now apply Gone_Crash, Off_Gone.
      * apply post_ret. right. right. now apply Off_TickBad.
  - apply post_assoc. unfold updateStatus at 1.
    eapply post_call;
      [apply (processEvents_at Status HC2 HO2 HaC) | | cbn beta; intros ? []].
    cbn beta. intros _ w4 [[HC4 HO4]|Hk].
    + apply post_assoc, post_modify, post_bind, post_ret. cbn [negb].
      apply post_ret. left. split; [exact HO4|]. split; [reflexivity|].
      rewrite ctl_set_timer, HC4. repeat split.
    + apply post_assoc, post_modify, post_bind, post_ret. cbn [negb].
      apply post_ret. right. right.
      eapply (@TickBad_restarted O w2 w4); eauto.
Qed.

Lemma ctl_settle r : ctl (settle r) = ctl (state_of r).
Proof. now destruct r. Qed.

Lemma obs_settle r : obs (settle r) = obs (state_of r).
Proof. now destruct r. Qed.

Lemma TickBad_view O w w' :
  TickBad R O w -> ctl w' = ctl w -> obs w' = obs w -> TickBad R O w'.
Proof.
  intros (l & H) HC HO. exists l. now rewrite HC, HO.
Qed.

(** One timeout of the timer in a running scan. *)
Lemma tick_spec w C0 O k1 k2 :
  ctl w = C0 -> obs w = O -> alive C0 ->
  c_first C0 = Some k1 -> c_second C0 = Some k2 ->
  (forall Cn vs d, sameScan C0 Cn ->
                   RowFacts (average cfg) Cn k1 k2 vs d -> R d) ->
  Ticked cfg R C0 k1 k2 O (tick E cfg w).
Proof.
  intros HC0 HO0 Ha H1 H2 HR.
  pose proof (check_spec HC0 HO0 Ha H1 H2 HR) as H.
  unfold tick. unfold post in H. destruct (check E cfg w) as [[] w'|e w'].
  - exact H.
  - right. right. eapply TickBad_view; [apply Crash_TickBad, H | |]; reflexivity.
Qed.

(** One timeout of the timer once the scan is over: nothing but clicks. *)
Lemma tick_Off rels O w :
  dead (ctl w) -> Off rels O (set_timer false w) ->
  Off rels O (tick E cfg w).
Proof.
  intros Hd Hoff.
  assert (H : post (check E cfg) w (fun _ w' => Off rels O w')
                                   (fun w' => Off rels O w')).
  { unfold check. apply post_modify.
    set (w1 := set_timer false w) in *. clearbody w1.
    apply post_gets.
    destruct (startRow w1) eqn:Hsr.
    2:{ apply post_bind, post_ret. cbn [negb].
        eapply post_weaken;
          [apply (block2_Off Hoff); exact Hsr | cbn beta; intros ? ? [] | auto]. }
    apply post_assoc, post_gets, post_assoc.
    destruct (doBypass w1).
    2:{ pose proof Hoff as ((_ & Hf & _) & _).
        eapply post_bind, post_exn; [apply (isReady_gone First w1 Hf) | exact Hoff]. }
    apply post_bind, post_ret.
    apply post_assoc, post_modify, post_assoc.
    set (w2 := set_startRow false w1).
    assert (Hoff2 : Off rels O w2).
    { destruct Hoff as (A & B & D). split; [exact A|]. split; [exact B | exact D]. }
    assert (Hsr2 : c_startRow (ctl w2) = false) by reflexivity.
    clearbody w2. unfold updateStatus at 1.
    eapply post_call;
      [apply (processEvents_Off Status Hoff2) | | cbn beta; intros ? []].
    cbn beta. intros _ w3 [Hoff3 HC3].
    eapply post_call;
      [apply (delay_Off Delay1 (firstDelay cfg) Hoff3) | | cbn beta; intros ? []].
    cbn beta. intros ok w4 [Hoff4 HC4]. destruct ok; cbn [negb].
    - eapply post_weaken;
        [apply (block2_Off Hoff4); now rewrite HC4, HC3
        | cbn beta; intros ? ? [] | auto].
    - apply post_ret. exact Hoff4. }
  unfold tick. unfold post in H. destruct (check E cfg w) as [[] w'|e w'].
  - exact H.
  - cbn [settle]. eapply (@Off_step rels O w' _ []); eauto.
Qed.

End Tick.

Lemma dead_slots w :
  dead (ctl w) ->
  isScanning w = false /\ firstClass w = None /\ secondClass w = None
  /\ cpc w = None.
Proof.
  intros (A & B & D & F). cbn in A, B, D, F.
  split; [exact A|].
  destruct (firstClass w); [discriminate|].
  destruct (secondClass w); [discriminate|].
  destruct (cpc w); [discriminate|]. auto.
Qed.





End TickFacts.

Module ShapeFacts.
Import Py Classes Scan View Plan ScanLib DictFacts ClassifierFacts TickFacts.
Local Open Scope string_scope.

(** *** Lists *)

Lemma firstn_snoc {A} (l : list A) j d :
  (j < List.length l)%nat -> firstn (S j) l = (firstn j l ++ [nth j l d])%list.
Proof.
  revert j. induction l as [|a l IH]; intros j H; cbn in H; [lia|].
  destruct j as [|j]; [reflexivity|].
  cbn [firstn nth app]. f_equal. apply IH. lia.
Qed.

Lemma nth_snoc (cs : list Q) c k :
  nth k (cs ++ [c]) 0%Q = if (k =? List.length cs)%nat then c else nth k cs 0%Q.
Proof.
  destruct (Nat.eqb_spec k (List.length cs)) as [->|Hne].
  - rewrite app_nth2, Nat.sub_diag by lia. reflexivity.
  - destruct (Nat.lt_ge_cases k (List.length cs)).
    + now rewrite app_nth1.
    + rewrite !nth_overflow; [reflexivity | lia | rewrite length_app; cbn; lia].
Qed.

Lemma list_set_map_seq {A} (f : nat -> A) n : forall a i v,
  (i < n)%nat ->
  list_set (map f (seq a n)) i v
  = map (fun i' => if (i' =? a + i)%nat then v else f i') (seq a n).
Proof.
  induction n as [|n IH]; intros a i v Hi; [lia|].
  cbn [seq map]. destruct i as [|i]; cbn [list_set].
  - rewrite Nat.add_0_r, Nat.eqb_refl. f_equal.
    apply map_ext_in. intros k Hk. apply in_seq in Hk.
    destruct (Nat.eqb_spec k a); [lia | reflexivity].
  - destruct (Nat.eqb_spec a (a + S i)); [lia|]. f_equal.
    rewrite IH by lia. apply map_ext. intros k.
    now replace (S a + i)%nat with (a + S i)%nat by lia.
Qed.

Lemma np_index_nat n i : (i < n)%nat -> np_index n (Z.of_nat i) = Some i.
Proof.
  intros H. unfold np_index.
  destruct (Z.leb_spec 0 (Z.of_nat i)); [|lia].
  destruct (Z.ltb_spec (Z.of_nat i) (Z.of_nat n)); [|lia].
  cbn. now rewrite Nat2Z.id.
Qed.

Lemma np_get_nat (l : list Q) j v :
  np_get l (Z.of_nat j) = Some v -> (j < List.length l)%nat /\ v = nth j l 0%Q.
Proof.
  unfold np_get, np_index.
  destruct (Z.leb_spec 0 (Z.of_nat j)); [|lia].
  destruct (Z.ltb_spec (Z.of_nat j) (Z.of_nat (List.length l))) as [Hlt|Hge]; cbn.
  - rewrite Nat2Z.id. intros Hn. split; [lia|].
    symmetry. now apply nth_error_nth.
  - destruct (Z.leb_spec (- Z.of_nat (List.length l)) (Z.of_nat j));
      destruct (Z.ltb_spec (Z.of_nat j) 0); cbn; try discriminate; lia.
Qed.

(** *** The result matrix *)

Lemma matrix_rows n m cs : List.length (matrix n m cs) = n.
Proof. unfold matrix. now rewrite length_map, length_seq. Qed.

Lemma map_const_seq {A} (f : nat -> A) c a k :
  (forall j, f j = c) -> map f (seq a k) = repeat c k.
Proof.
  intros H. revert a. induction k as [|k IH]; intros a; [reflexivity|].
  cbn [seq map repeat]. now rewrite IH, H.
Qed.

Lemma zeros2_matrix n m : zeros2 n m = matrix n m [].
Proof.
  unfold zeros2, zeros, matrix. symmetry.
  apply map_const_seq. intros i.
  apply map_const_seq. intros j. now destruct (i * m + j)%nat.
Qed.

(** Writing the next entry of a matrix that is filled row by row. *)
Lemma matrix_next n m cs i j c :
  (i < n)%nat -> (j < m)%nat -> List.length cs = (i * m + j)%nat ->
  np_set2 (matrix n m cs) (Z.of_nat i) (Z.of_nat j) c
  = Some (matrix n m (cs ++ [c])).
Proof.
  intros Hi Hj Hlen. unfold np_set2.
  rewrite matrix_rows, (np_index_nat Hi).
  unfold matrix at 1.
  rewrite nth_error_map, nth_error_seq.
  destruct (Nat.ltb_spec i n) as [_|]; [|lia]. cbn [option_map Nat.add].
  unfold np_set. rewrite length_map, length_seq, (np_index_nat Hj).
  f_equal. unfold matrix.
  rewrite (list_set_map_seq _ 0 _ Hi), (list_set_map_seq _ 0 _ Hj).
  apply map_ext_in. intros i' Hi'. apply in_seq in Hi'. cbn [Nat.add].
  destruct (Nat.eqb_spec i' i) as [->|Hne].
  - apply map_ext_in. intros j' Hj'. apply in_seq in Hj'. cbn [Nat.add].
    rewrite nth_snoc, Hlen.
    destruct (Nat.eqb_spec j' j) as [->|Hnj].
    + now rewrite Nat.eqb_refl.
    + destruct (Nat.eqb_spec (i * m + j') (i * m + j)); [lia | reflexivity].
  - apply map_ext_in. intros j' Hj'. apply in_seq in Hj'.
    rewrite nth_snoc, Hlen.
    destruct (Nat.eqb_spec (i' * m + j') (i * m + j)); [nia | reflexivity].
Qed.

(** *** The planned rows *)

Section Planned.
Variable cfg : Config.
Local Notation n := (List.length (firstX cfg)).
Local Notation m := (List.length (secondX cfg)).

Lemma sweep_length t (X : list Q) : List.length (sweep t X) = List.length X.
Proof. unfold sweep. apply length_map. Qed.

Lemma firstn_sweep_snoc t (X : list Q) j :
  (j < List.length X)%nat ->
  firstn (S j) (sweep t X)
  = (firstn j (sweep t X) ++ [(Some t, Some (Num (nth j X 0%Q)))])%list.
Proof.
  intros H. rewrite (firstn_snoc _ (Some t, Some (Num 0%Q)))
    by (now rewrite sweep_length).
  f_equal. f_equal. unfold sweep.
  now rewrite (map_nth (fun x2 => (Some t, Some (Num x2))) X 0%Q j).
Qed.

Lemma firstn_sweep_all t (X : list Q) :
  firstn (List.length X) (sweep t X) = sweep t X.
Proof. rewrite <- (sweep_length t X). apply firstn_all. Qed.

Lemma classified_snoc l x (X : list Q) :
  classified (l ++ [x]) X = (classified l X ++ sweep (Num x) X)%list.
Proof. unfold classified. rewrite flat_map_app. cbn. now rewrite app_nil_r. Qed.

Lemma classified_length l (X : list Q) :
  List.length (classified l X) = (List.length l * List.length X)%nat.
Proof.
  induction l as [|a l IH]; [reflexivity|].
  cbn. rewrite length_app, sweep_length. unfold classified in IH. now rewrite IH.
Qed.

Lemma progress_inner ph j :
  (j < m)%nat ->
  progress cfg ph (S j) = (progress cfg ph j ++ [rowtag cfg ph j])%list.
Proof.
  intros Hj. unfold progress, rowtag, bypassSweep.
  destruct ph as [|i|]; rewrite firstn_sweep_snoc by exact Hj;
    now rewrite ?app_assoc.
Qed.

Lemma progress_length ph j :
  (j <= m)%nat ->
  match ph with During i => (i < n)%nat | _ => True end ->
  List.length (progress cfg ph j) = (rowsBefore cfg ph + j)%nat.
Proof.
  intros Hj Hi. unfold progress, rowsBefore, bypassSweep.
  destruct ph as [|i|];
    rewrite ?length_app, ?classified_length, ?length_firstn, ?sweep_length.
  - fold m. lia.
  - fold n m. destruct (Bypass cfg); cbn [List.length];
      rewrite ?sweep_length; fold m; lia.
  - fold n m. lia.
Qed.

Lemma progress_enter :
  Bypass cfg = true -> progress cfg Before m = progress cfg (During 0) 0.
Proof.
  intros HB. unfold progress, bypassSweep. rewrite HB.
  rewrite firstn_sweep_all. cbn. now rewrite app_nil_r.
Qed.

Lemma progress_outer i :
  (S i < n)%nat -> progress cfg (During i) m = progress cfg (During (S i)) 0.
Proof.
  intros Hi. unfold progress. rewrite firstn_sweep_all.
  rewrite (firstn_snoc (firstX cfg) 0%Q) by (fold n; lia).
  rewrite classified_snoc. cbn [firstn]. now rewrite app_nil_r.
Qed.

Lemma progress_exit i :
  S i = n -> Bypass cfg = true ->
  progress cfg (During i) m = progress cfg After 0.
Proof.
  intros Hi HB. unfold progress. rewrite HB. rewrite firstn_sweep_all.
  cbn [firstn]. rewrite app_nil_r. f_equal.
  rewrite <- classified_snoc, <- (firstn_snoc (firstX cfg) 0%Q) by (fold n; lia).
  rewrite Hi. now rewrite firstn_all.
Qed.

Lemma progress_done_bypass :
  Bypass cfg = true -> progress cfg After m = planned cfg.
Proof.
  intros HB. unfold progress, planned, bypassSweep. rewrite HB.
  now rewrite firstn_sweep_all.
Qed.

Lemma progress_done_plain i :
  S i = n -> Bypass cfg = false ->
  progress cfg (During i) m = planned cfg.
Proof.
  intros Hi HB. unfold progress, planned. rewrite HB.
  rewrite firstn_sweep_all. cbn [app].
  rewrite <- classified_snoc, <- (firstn_snoc (firstX cfg) 0%Q) by (fold n; lia).
  rewrite Hi. now rewrite firstn_all.
Qed.

End Planned.

(** *** Counting the visible events *)

Lemma nset_cons s name v O :
  nset s name (v :: O)
  = ((if isVSet s name v then 1 else 0) + nset s name O)%nat.
Proof. unfold nset. cbn [filter]. now destruct (isVSet s name v). Qed.

Lemma nsample_cons v O :
  nsample (v :: O) = ((if isVSample v then 1 else 0) + nsample O)%nat.
Proof. unfold nsample. cbn [filter]. now destruct (isVSample v). Qed.

Lemma nset_Samples s name vs O : nset s name (Samples vs ++ O) = nset s name O.
Proof.
  unfold Samples. induction (rev vs) as [|a l IH]; [reflexivity|].
  cbn [map app]. now rewrite nset_cons, IH.
Qed.

Lemma nsample_Samples vs O :
  nsample (Samples vs ++ O) = (List.length vs + nsample O)%nat.
Proof.
  unfold Samples. rewrite <- (length_rev vs).
  induction (rev vs) as [|a l IH]; [reflexivity|].
  cbn [map app List.length]. now rewrite nsample_cons, IH.
Qed.

Lemma leadSamples_Samples vs O :
  leadSamples (Samples vs ++ O) = (rev vs ++ leadSamples O)%list.
Proof.
  unfold Samples. induction (rev vs) as [|a l IH]; [reflexivity|].
  cbn [map app leadSamples]. now rewrite IH.
Qed.

Lemma ledger_Samples vs O : ledger (Samples vs ++ O) = ledger O.
Proof.
  unfold Samples. induction (rev vs) as [|a l IH]; [reflexivity|].
  cbn [map app ledger]. exact IH.
Qed.

(** *** The classified rows among those written *)

Section Rows.
Variable cfg : Config.

Lemma classifiedRows_early (rows : list dict) d :
  Bypass cfg = true ->
  (List.length rows < List.length (secondX cfg))%nat ->
  classifiedRows cfg (rows ++ [d]) = classifiedRows cfg rows.
Proof.
  intros HB H. unfold classifiedRows. rewrite HB.
  rewrite !skipn_all2; [reflexivity | lia | rewrite length_app; cbn; lia].
Qed.

Lemma classifiedRows_mid (rows : list dict) d k :
  List.length rows = ((if Bypass cfg then List.length (secondX cfg) else 0) + k)%nat ->
  (k < List.length (firstX cfg) * List.length (secondX cfg))%nat ->
  classifiedRows cfg (rows ++ [d]) = (classifiedRows cfg rows ++ [d])%list
  /\ List.length (classifiedRows cfg rows) = k.
Proof.
  intros Hlen Hk. unfold classifiedRows.
  set (off := if Bypass cfg then List.length (secondX cfg) else 0%nat) in *.
  assert (Hs : List.length (skipn off rows) = k) by (rewrite length_skipn; lia).
  rewrite skipn_app. replace (off - List.length rows)%nat with 0%nat by lia.
  cbn [skipn]. rewrite firstn_app, Hs.
  rewrite (@firstn_all2 _ _ (skipn off rows)) by lia.
  split; [|exact Hs]. f_equal.
  destruct (List.length (firstX cfg) * List.length (secondX cfg) - k)%nat eqn:E;
    [lia | cbn; now rewrite firstn_nil].
Qed.

Lemma classifiedRows_late (rows : list dict) d :
  ((if Bypass cfg then List.length (secondX cfg) else 0)
   + List.length (firstX cfg) * List.length (secondX cfg)
   <= List.length rows)%nat ->
  classifiedRows cfg (rows ++ [d]) = classifiedRows cfg rows.
Proof.
  intros Hlen. unfold classifiedRows.
  set (off := if Bypass cfg then List.length (secondX cfg) else 0%nat) in *.
  rewrite skipn_app. replace (off - List.length rows)%nat with 0%nat by lia.
  cbn [skipn]. rewrite firstn_app.
  replace (List.length (firstX cfg) * List.length (secondX cfg)
           - List.length (skipn off rows))%nat with 0%nat
    by (rewrite length_skipn; lia).
  cbn [firstn]. now rewrite app_nil_r.
Qed.

(** *** What is logged *)

(** An event that is neither a row nor a sample. *)
Lemma Logged_cons tg s1 s2 z O v :
  match v with VRow _ | VSample _ => False | _ => True end ->
  Logged cfg tg s1 s2 z O ->
  Logged cfg tg
    (s1 + if isVSet First (sizeCommand (firstKind cfg)) v then 1 else 0)
    (s2 + if isVSet Second (sizeCommand (secondKind cfg)) v then 1 else 0)
    z (v :: O).
Proof.
  intros Hv (L1 & L2 & L3 & L4 & L5 & L6 & L7).
  assert (Hrows : vrows (v :: O) = vrows O) by (destruct v; tauto).
  assert (Hled : ledger (v :: O) = ledger O) by (destruct v; tauto).
  assert (Hlead : leadSamples (v :: O) = leadSamples O) by (destruct v; tauto).
  assert (Hns : nsample (v :: O) = nsample O).
  { rewrite nsample_cons. destruct v; try tauto; reflexivity. }
  unfold Logged. rewrite Hrows, Hled, Hlead, Hns, !nset_cons, L2, L3.
  repeat split; try assumption; lia.
Qed.

(** A row with its samples. *)
Lemma Logged_row tg s1 s2 z O d vs :
  Logged cfg tg s1 s2 z O ->
  dict_get "Conc " d = Some (Num (mean (average cfg) vs)) ->
  List.length vs = Z.to_nat (average cfg) ->
  Logged cfg (tg ++ [tags cfg d]) s1 s2
    (matrix (List.length (firstX cfg)) (List.length (secondX cfg))
       (map concOf (classifiedRows cfg (rev (vrows O) ++ [d]))))
    (VRow d :: Samples vs ++ O).
Proof.
  intros (L1 & L2 & L3 & L4 & L5 & L6 & L7) Hc Hl.
  assert (Hrows : vrows (VRow d :: Samples vs ++ O) = d :: vrows O).
  { cbn [vrows]. now rewrite vrows_app, Samples_vrows. }
  unfold Logged. rewrite Hrows. cbn [rev].
  split; [now rewrite map_app, L1|].
  split; [now rewrite nset_cons, nset_Samples|].
  split; [now rewrite nset_cons, nset_Samples|].
  split.
  { cbn [ledger]. rewrite ledger_Samples, leadSamples_Samples, L5, app_nil_r.
    constructor; [|exact L4]. split; cbn [fst snd].
    - now rewrite rev_involutive.
    - now rewrite length_rev. }
  split; [reflexivity|].
  split; [|reflexivity].
  rewrite nsample_cons, nsample_Samples, L6, Hl. cbn [isVSample List.length]. lia.
Qed.

End Rows.

(** *** A scan going on *)

Section Advance.
Variable cfg : Config.

Lemma sameScan_Standing C Cn ph j k1 k2 :
  sameScan C Cn -> Standing cfg C ph j k1 k2 -> Standing cfg Cn ph j k1 k2.
Proof.
  intros (_ & S2 & S3 & _) H. unfold Standing in *.
  rewrite S2, S3. exact H.
Qed.

Lemma Standing_tags C ph j k1 k2 vs d :
  Standing cfg C ph j k1 k2 ->
  RowFacts (average cfg) C k1 k2 vs d ->
  tags cfg d = rowtag cfg ph j.
Proof.
  intros (A1 & A2 & A3 & A4 & A5 & A6 & A7 & A8 & A9 & Hph)
         (R1 & R2 & _).
  unfold tags, rowtag. rewrite <- A1, <- A4, R1, R2, A9. f_equal. f_equal.
  destruct ph as [|i|].
  - destruct Hph as (-> & _). reflexivity.
  - destruct Hph as (-> & _ & _ & _ & ->). reflexivity.
  - destruct Hph as (-> & _). reflexivity.
Qed.

Lemma Standing_phase C ph j k1 k2 :
  Standing cfg C ph j k1 k2 ->
  match ph with During i => (i < List.length (firstX cfg))%nat | _ => True end.
Proof.
  intros (_ & _ & _ & _ & _ & _ & _ & _ & _ & Hph).
  destruct ph; [exact I | tauto | exact I].
Qed.

(** The row of a point, once logged. *)
Lemma Standing_row C O ph j k1 k2 s2 d vs z' :
  Standing cfg C ph j k1 k2 ->
  Logged cfg (progress cfg ph j) (firstSteps cfg ph) s2 (c_Zm C) O ->
  RowFacts (average cfg) C k1 k2 vs d ->
  ZmAfter (average cfg) C k1 k2 vs z' ->
  Logged cfg (progress cfg ph (S j)) (firstSteps cfg ph) s2 z'
    (VRow d :: Samples vs ++ O).
Proof.
  intros HS HL HR HZ.
  pose proof (Standing_tags HS HR) as Htag.
  pose proof (Standing_phase HS) as Hphase.
  pose proof HS as (A1 & A2 & A3 & A4 & A5 & A6 & A7 & A8 & A9 & Hph).
  pose proof HR as (R1 & R2 & R3 & R4 & R5 & R6).
  pose proof HL as (L1 & _ & _ & _ & _ & _ & L7).
  assert (Hlen : List.length (rev (vrows O)) = (rowsBefore cfg ph + j)%nat).
  { rewrite <- (length_map (tags cfg)), L1.
    apply progress_length; [lia | exact Hphase]. }
  pose proof (@Logged_row cfg _ _ _ _ _ d vs HL R3 R4) as HL'.
  rewrite Htag, <- progress_inner in HL' by exact A8.
  assert (Hz : z' = matrix (List.length (firstX cfg)) (List.length (secondX cfg))
                      (map concOf (classifiedRows cfg (rev (vrows O) ++ [d])))).
  { unfold ZmAfter in HZ. destruct ph as [|i|].
    - destruct Hph as (Hdb & _ & _ & HB). rewrite Hdb in HZ. subst z'.
      rewrite L7. f_equal. f_equal. symmetry.
      apply classifiedRows_early; [exact HB|]. cbn in Hlen. lia.
    - destruct Hph as (Hdb & _ & Hp1 & Hi & _). rewrite Hdb in HZ.
      destruct (@classifiedRows_mid cfg (rev (vrows O)) d
                  (i * List.length (secondX cfg) + j)) as [Hcr Hcl].
      { cbn in Hlen. lia. }
      { nia. }
      rewrite L7, Hp1, A7, (@matrix_next _ _ _ i j) in HZ;
        [ | exact Hi | exact A8 | now rewrite length_map ].
      inversion HZ. rewrite Hcr, map_app. cbn [map]. f_equal. f_equal.
      unfold concOf. now rewrite R3.
    - destruct Hph as (Hdb & _ & _ & HB). rewrite Hdb in HZ. subst z'.
      rewrite L7. f_equal. f_equal. symmetry.
      apply classifiedRows_late. rewrite HB. cbn in Hlen. lia. }
  rewrite Hz. exact HL'.
Qed.

Lemma np_get_succ (l : list Q) j v :
  np_get l (Z.of_nat j + 1) = Some v ->
  (S j < List.length l)%nat /\ v = nth (S j) l 0%Q.
Proof.
  replace (Z.of_nat j + 1)%Z with (Z.of_nat (S j)) by lia.
  intros H. apply np_get_nat in H. tauto.
Qed.

Lemma Standing_inner Cn C' ph j k1 k2 v2 :
  Standing cfg Cn ph j k1 k2 ->
  np_get (k_X k2) (k_point k2 + 1) = Some v2 ->
  c_doBypass C' = c_doBypass Cn -> c_finalBypass C' = c_finalBypass Cn ->
  Standing cfg C' ph (S j) k1 (bump k2 v2).
Proof.
  intros (A1 & A2 & A3 & A4 & A5 & A6 & A7 & A8 & A9 & Hph) Hv Hd Hf.
  rewrite A5, A7 in Hv. apply np_get_succ in Hv. destruct Hv as [Hj ->].
  unfold Standing. rewrite Hd, Hf. cbn [bump k_kind k_X k_points k_point k_x
    set_k_x set_k_point].
  repeat split; try assumption. rewrite A7. lia.
Qed.

Lemma more_false (k : Core) j m :
  k_point k = Z.of_nat j -> k_points k = Z.of_nat m -> (j < m)%nat ->
  more k = false -> S j = m.
Proof.
  unfold more. intros -> -> Hj H. apply Z.ltb_ge in H. lia.
Qed.

Lemma Standing_outer Cn C' ph j k1 k2 v1 v2 :
  Standing cfg Cn ph j k1 k2 ->
  more k2 = false -> more k1 = true ->
  np_get (k_X k1) (k_point k1 + 1) = Some v1 ->
  np_get (k_X k2) 0 = Some v2 ->
  c_doBypass C' = false -> c_finalBypass C' = c_finalBypass Cn ->
  exists i',
    Standing cfg C' (During i') 0 (bump k1 v1) (bump (set_k_point (-1)%Z k2) v2)
    /\ S j = List.length (secondX cfg)
    /\ progress cfg ph (List.length (secondX cfg)) = progress cfg (During i') 0
    /\ firstSteps cfg (During i') = S (firstSteps cfg ph).
Proof.
  intros (A1 & A2 & A3 & A4 & A5 & A6 & A7 & A8 & A9 & Hph) Hm2 Hm1 Hv1 Hv2 Hd Hf.
  pose proof (@more_false k2 j _ A7 A6 A8 Hm2) as Hlast.
  rewrite A5 in Hv2. apply (@np_get_nat _ 0%nat) in Hv2. destruct Hv2 as [Hm ->].
  assert (Hcommon : forall i', (i' < List.length (firstX cfg))%nat ->
            (k_point k1 + 1 = Z.of_nat i')%Z -> v1 = nth i' (firstX cfg) 0%Q ->
            c_finalBypass Cn = false ->
            Standing cfg C' (During i') 0 (bump k1 v1)
              (bump (set_k_point (-1)%Z k2) (nth 0 (secondX cfg) 0%Q))).
  { intros i' Hi' Hp Hx Hfb. unfold Standing. rewrite Hd, Hf, Hfb.
    cbn [bump k_kind k_X k_points k_point k_x set_k_x set_k_point].
    repeat split; try assumption. }
  rewrite A2 in Hv1. unfold more in Hm1. apply Z.ltb_lt in Hm1. rewrite A3 in Hm1.
  destruct ph as [|i|].
  - destruct Hph as (_ & Hfb & Hp & HB). rewrite Hp in Hv1, Hm1.
    apply (@np_get_nat _ 0%nat) in Hv1. destruct Hv1 as [Hn Hx].
    exists 0%nat. split; [apply Hcommon; [exact Hn | now rewrite Hp | exact Hx | exact Hfb]|].
    split; [exact Hlast|]. split; [now apply progress_enter | reflexivity].
  - destruct Hph as (_ & Hfb & Hp & Hi & _). rewrite Hp in Hv1, Hm1.
    apply np_get_succ in Hv1. destruct Hv1 as [Hn Hx].
    exists (S i). split; [apply Hcommon; [exact Hn | rewrite Hp; lia | exact Hx | exact Hfb]|].
    split; [exact Hlast|]. split; [now apply progress_outer | reflexivity].
  - destruct Hph as (_ & _ & Hp & _). rewrite Hp in Hm1. lia.
Qed.

Lemma Standing_final Cn C' ph j k1 k2 v2 :
  Standing cfg Cn ph j k1 k2 ->
  more k2 = false -> more k1 = false ->
  c_finalBypass Cn = false -> Bypass cfg = true -> k_points k1 <> 0%Z ->
  np_get (k_X k2) 0 = Some v2 ->
  c_doBypass C' = true -> c_finalBypass C' = true ->
  Standing cfg C' After 0 k1 (bump (set_k_point (-1)%Z k2) v2)
  /\ S j = List.length (secondX cfg)
  /\ progress cfg ph (List.length (secondX cfg)) = progress cfg After 0
  /\ firstSteps cfg After = firstSteps cfg ph.
Proof.
  intros (A1 & A2 & A3 & A4 & A5 & A6 & A7 & A8 & A9 & Hph)
         Hm2 Hm1 Hfb HB Hnz Hv2 Hd Hf.
  pose proof (@more_false k2 j _ A7 A6 A8 Hm2) as Hlast.
  rewrite A5 in Hv2. apply (@np_get_nat _ 0%nat) in Hv2. destruct Hv2 as [Hm ->].
  unfold more in Hm1. apply Z.ltb_ge in Hm1. rewrite A3 in Hm1, Hnz.
  destruct ph as [|i|].
  - destruct Hph as (_ & _ & Hp & _). rewrite Hp in Hm1. lia.
  - destruct Hph as (_ & _ & Hp & Hi & _). rewrite Hp in Hm1.
    assert (Hin : S i = List.length (firstX cfg)) by lia.
    split.
    { unfold Standing. rewrite Hd, Hf.
      cbn [bump k_kind k_X k_points k_point k_x set_k_x set_k_point].
      repeat split; try assumption. rewrite Hp. lia. }
    split; [exact Hlast|]. split; [now apply progress_exit|].
    cbn [firstSteps]. now rewrite Hin.
  - destruct Hph as (_ & Hfb' & _). congruence.
Qed.

Lemma Standing_finish Cn ph j k1 k2 :
  Standing cfg Cn ph j k1 k2 ->
  more k2 = false -> more k1 = false ->
  (c_finalBypass Cn || negb (Bypass cfg)) = true -> k_points k1 <> 0%Z ->
  S j = List.length (secondX cfg)
  /\ progress cfg ph (List.length (secondX cfg)) = planned cfg
  /\ firstSteps cfg ph = List.length (firstX cfg).
Proof.
  intros (A1 & A2 & A3 & A4 & A5 & A6 & A7 & A8 & A9 & Hph) Hm2 Hm1 Hor Hnz.
  pose proof (@more_false k2 j _ A7 A6 A8 Hm2) as Hlast.
  unfold more in Hm1. apply Z.ltb_ge in Hm1. rewrite A3 in Hm1, Hnz.
  split; [exact Hlast|].
  destruct ph as [|i|].
  - destruct Hph as (_ & _ & Hp & _). rewrite Hp in Hm1. lia.
  - destruct Hph as (_ & Hfb & Hp & Hi & _). rewrite Hp in Hm1.
    rewrite Hfb in Hor. cbn in Hor. apply negb_true_iff in Hor.
    assert (Hin : S i = List.length (firstX cfg)) by lia.
    split; [now apply progress_done_plain | exact Hin].
  - destruct Hph as (_ & _ & _ & HB).
    split; [now apply progress_done_bypass | reflexivity].
Qed.

Lemma isVSet_same s k v : isVSet s (sizeCommand k) (VSet s (sizeCommand k) v) = true.
Proof. destruct s; cbn; apply String.eqb_refl. Qed.

(** The scan goes on after a row: it stands at the next point. *)
Lemma advance_shape C0 Cn O k1 k2 d vs z' C' O' :
  Shape cfg C0 O ->
  c_first C0 = Some k1 -> c_second C0 = Some k2 ->
  sameScan C0 Cn ->
  RowFacts (average cfg) Cn k1 k2 vs d ->
  ZmAfter (average cfg) Cn k1 k2 vs z' ->
  Moved cfg (set_c_Zm z' Cn) k1 k2 (VRow d :: Samples vs ++ O) C' O' ->
  Shape cfg (set_c_timer true C') O'.
Proof.
  intros (ph & j & kc1 & kc2 & Hc1 & Hc2 & HS & HF & HL) H1 H2 HSS HR HZ HM.
  rewrite H1 in Hc1. inversion Hc1; subst kc1. clear Hc1.
  rewrite H2 in Hc2. inversion Hc2; subst kc2. clear Hc2.
  pose proof (sameScan_Standing HSS HS) as HSn.
  pose proof HSS as (S1 & S2 & S3 & S4 & S5 & S6 & S7).
  rewrite <- S7 in HL.
  pose proof (@Standing_row Cn O ph j k1 k2 _ d vs z' HSn HL HR HZ) as HL1.
  assert (HF1 : existsb isVFinal (VRow d :: Samples vs ++ O) = false).
  { cbn [existsb isVFinal orb]. rewrite existsb_app, HF.
    rewrite Samples_existsb by reflexivity. reflexivity. }
  assert (Hrows : vrows (VRow d :: Samples vs ++ O) = d :: vrows O).
  { cbn [vrows]. now rewrite vrows_app, Samples_vrows. }
  pose proof HSn as (A1 & _ & _ & A4 & _).
  pose proof HR as (_ & _ & _ & _ & _ & Hnz).
  assert (E1 : cmdOf k1 = sizeCommand (firstKind cfg)) by (unfold cmdOf; now rewrite A1).
  assert (E2 : cmdOf k2 = sizeCommand (secondKind cfg)) by (unfold cmdOf; now rewrite A4).
  destruct HM as [(Hm2 & v2 & Hv2 & -> & ->)
                 |[(Hm2 & Hm1 & v1 & v2 & Hv1 & Hv2 & -> & ->)
                  |(Hm2 & Hm1 & Hfb & HB & v2 & Hv2 & -> & ->)]].
  - exists ph, (S j), k1, (bump k2 v2).
    split; [cbn; now rewrite S4|]. split; [reflexivity|].
    split; [eapply Standing_inner; eauto|].
    split; [exact HF1|].
    pose proof (@Logged_cons cfg _ _ _ _ _ (VSet Second (cmdOf k2) v2) I HL1) as HL2.
    rewrite E2, isVSet_same in HL2. cbn [isVSet andb] in HL2.
    rewrite Nat.add_0_r in HL2.
    cbn [vrows]. rewrite vrows_app, Samples_vrows. cbn [app]. cbn [List.length c_Zm set_c_timer set_c_second set_c_Zm].
    replace (S (List.length (vrows O)) + 1)%nat
      with (S (S (List.length (vrows O)))) in HL2 by lia.
    rewrite E2. exact HL2.
  - destruct (@Standing_outer Cn
                (set_c_timer true
                   (set_c_second (Some (bump (set_k_point (-1)%Z k2) v2))
                      (set_c_first (Some (bump k1 v1))
                         (set_c_startRow true (set_c_doBypass false (set_c_Zm z' Cn))))))
                ph j k1 k2 v1 v2 HSn Hm2 Hm1 Hv1 Hv2 eq_refl eq_refl)
      as (i' & HS' & Hlast & Hprog & Hsteps).
    exists (During i'), 0%nat, (bump k1 v1), (bump (set_k_point (-1)%Z k2) v2).
    split; [reflexivity|]. split; [reflexivity|].
    split; [exact HS'|].
    split; [exact HF1|].
    rewrite Hlast, Hprog in HL1.
    pose proof (@Logged_cons cfg _ _ _ _ _ (VSet First (cmdOf k1) v1) I HL1) as HL2.
    rewrite E1, isVSet_same in HL2. cbn [isVSet andb] in HL2.
    pose proof (@Logged_cons cfg _ _ _ _ _ (VSet Second (cmdOf k2) v2) I HL2) as HL3.
    rewrite E2, isVSet_same in HL3. cbn [isVSet andb] in HL3.
    rewrite !Nat.add_0_r in HL3.
    cbn [vrows]. rewrite vrows_app, Samples_vrows. cbn [app].
    cbn [List.length c_Zm set_c_timer set_c_second set_c_first set_c_startRow
         set_c_doBypass set_c_Zm].
    rewrite Hsteps.
    replace (S (List.length (vrows O)) + 1)%nat
      with (S (S (List.length (vrows O)))) in HL3 by lia.
    replace (firstSteps cfg ph + 1)%nat with (S (firstSteps cfg ph)) in HL3 by lia.
    rewrite E1, E2. exact HL3.
  - destruct (@Standing_final Cn
                (set_c_timer true
                   (set_c_second (Some (bump (set_k_point (-1)%Z k2) v2))
                      (set_c_startRow true
                         (set_c_finalBypass true
                            (set_c_doBypass true (set_c_Zm z' Cn))))))
                ph j k1 k2 v2 HSn Hm2 Hm1 Hfb HB Hnz Hv2 eq_refl eq_refl)
      as (HS' & Hlast & Hprog & Hsteps).
    exists After, 0%nat, k1, (bump (set_k_point (-1)%Z k2) v2).
    split; [cbn; now rewrite S4|]. split; [reflexivity|].
    split; [exact HS'|].
    split; [exact HF1|].
    rewrite Hlast, Hprog in HL1.
    pose proof (@Logged_cons cfg _ _ _ _ _ (VSet Second (cmdOf k2) v2) I HL1) as HL2.
    rewrite E2, isVSet_same in HL2. cbn [isVSet andb] in HL2.
    rewrite Nat.add_0_r in HL2.
    cbn [vrows]. rewrite vrows_app, Samples_vrows. cbn [app].
    cbn [List.length c_Zm set_c_timer set_c_second set_c_startRow
         set_c_finalBypass set_c_doBypass set_c_Zm].
    rewrite Hsteps.
    replace (S (List.length (vrows O)) + 1)%nat
      with (S (S (List.length (vrows O)))) in HL2 by lia.
    rewrite E2. exact HL2.
Qed.

(** The scan has run to its end after a row. *)
Lemma finish_shape C0 Cn O k1 k2 d vs z' C' O' :
  Shape cfg C0 O ->
  c_first C0 = Some k1 -> c_second C0 = Some k2 ->
  sameScan C0 Cn ->
  RowFacts (average cfg) Cn k1 k2 vs d ->
  ZmAfter (average cfg) Cn k1 k2 vs z' ->
  Finished cfg (set_c_Zm z' Cn) k1 k2 (VRow d :: Samples vs ++ O) C' O' ->
  Final cfg C' O'.
Proof.
  intros (ph & j & kc1 & kc2 & Hc1 & Hc2 & HS & HF & HL) H1 H2 HSS HR HZ HM.
  rewrite H1 in Hc1. inversion Hc1; subst kc1. clear Hc1.
  rewrite H2 in Hc2. inversion Hc2; subst kc2. clear Hc2.
  pose proof (sameScan_Standing HSS HS) as HSn.
  pose proof HSS as (S1 & S2 & S3 & S4 & S5 & S6 & S7).
  rewrite <- S7 in HL.
  pose proof (@Standing_row Cn O ph j k1 k2 _ d vs z' HSn HL HR HZ) as HL1.
  assert (Hrows : vrows (VRow d :: Samples vs ++ O) = d :: vrows O).
  { cbn [vrows]. now rewrite vrows_app, Samples_vrows. }
  pose proof HR as (_ & _ & _ & _ & _ & Hnz).
  destruct HM as (Hm2 & Hm1 & Hor & -> & mc & Hmc & ->).
  destruct (@Standing_finish Cn ph j k1 k2 HSn Hm2 Hm1 Hor Hnz)
    as (Hlast & Hprog & Hsteps).
  rewrite Hlast, Hprog, Hsteps in HL1.
  split; [apply dead_kill|].
  split.
  { rewrite !existsb_app. cbn [existsb isVFinal]. now rewrite !orb_true_r. }
  assert (HL2 : Logged cfg (planned cfg) (List.length (firstX cfg))
                  (S (List.length (vrows O))) z'
                  (VFinal :: VRow d :: Samples vs ++ O)).
  { pose proof (@Logged_cons cfg _ _ _ _ _ VFinal I HL1) as H.
    cbn [isVSet] in H. now rewrite !Nat.add_0_r in H. }
  assert (HL3 : Logged cfg (planned cfg) (List.length (firstX cfg))
                  (S (List.length (vrows O))) z'
                  (mc ++ VFinal :: VRow d :: Samples vs ++ O)).
  { destruct Hmc as [-> | ->]; [exact HL2|].
    pose proof (@Logged_cons cfg _ _ _ _ _ (VClick Status) I HL2) as H.
    cbn [isVSet] in H. now rewrite !Nat.add_0_r in H. }
  assert (HL4 : Logged cfg (planned cfg) (List.length (firstX cfg))
                  (S (List.length (vrows O))) z'
                  (RELS ++ mc ++ VFinal :: VRow d :: Samples vs ++ O)).
  { unfold RELS. cbn [app].
    pose proof (@Logged_cons cfg _ _ _ _ _ (VRel (Class First)) I HL3) as Ha.
    cbn [isVSet] in Ha. rewrite !Nat.add_0_r in Ha.
    pose proof (@Logged_cons cfg _ _ _ _ _ (VRel (Class Second)) I Ha) as Hb.
    cbn [isVSet] in Hb. rewrite !Nat.add_0_r in Hb.
    pose proof (@Logged_cons cfg _ _ _ _ _ (VRel Counter) I Hb) as Hc.
    cbn [isVSet] in Hc. now rewrite !Nat.add_0_r in Hc. }
  assert (Hr : vrows (RELS ++ mc ++ VFinal :: VRow d :: Samples vs ++ O)
               = d :: vrows O).
  { rewrite !vrows_app. destruct (statusClick_facts Hmc) as (M1 & _).
    rewrite M1. cbn [vrows RELS app]. now rewrite vrows_app, Samples_vrows. }
  rewrite Hr. cbn [List.length c_Zm kill set_c_cpc set_c_second set_c_first
                   set_c_timer set_c_isScanning set_c_doBypass set_c_Zm].
  exact HL4.
Qed.

End Advance.

(** *** The window between timer slots *)

Section Loop.
Variable E : Env.
Variable cfg : Config.

Lemma Shape_sameScan C C' O : sameScan C C' -> Shape cfg C O -> Shape cfg C' O.
Proof.
  intros HSS (ph & j & k1 & k2 & H1 & H2 & HS & HF & HL).
  pose proof HSS as (S1 & S2 & S3 & S4 & S5 & S6 & S7).
  exists ph, j, k1, k2. rewrite S4, S5, S7.
  split; [exact H1|]. split; [exact H2|].
  split; [eapply sameScan_Standing; eauto|]. split; [exact HF|exact HL].
Qed.

Lemma alive_sameScan C C' : sameScan C C' -> alive C -> alive C'.
Proof.
  intros (S1 & S2 & S3 & S4 & S5 & S6 & S7) (A1 & A2 & A3 & A4).
  unfold alive. now rewrite S1, S4, S5, S6.
Qed.

Lemma Moved_alive C1 k1 k2 O1 C' O' :
  alive C1 -> Moved cfg C1 k1 k2 O1 C' O' -> alive C'.
Proof.
  intros (A1 & A2 & A3 & A4)
    [(_ & v2 & _ & -> & _)
    |[(_ & _ & v1 & v2 & _ & _ & -> & _)
     |(_ & _ & _ & _ & v2 & _ & -> & _)]];
    repeat split; try assumption; discriminate.
Qed.

Lemma firstn_In_in A (x : A) : forall n l, In x (firstn n l) -> In x l.
Proof.
  induction n as [|n IH]; intros [|a l] H; cbn in *; try contradiction.
  destruct H as [H|H]; [now left | right; now apply IH].
Qed.

Lemma classified_numbers (l X : list Q) t :
  In t (classified l X) -> exists q, fst t = Some (Num q).
Proof.
  unfold classified, sweep. intros H. apply in_flat_map in H.
  destruct H as (x1 & _ & H). apply in_map_iff in H.
  destruct H as (x2 & <- & _). now exists x1.
Qed.

(** With the bypass option off, a running scan has written no bypass row. *)
Lemma Shape_unbypassed C O : Shape cfg C O -> Forall (Unbypassed cfg) (vrows O).
Proof.
  intros (ph & j & k1 & k2 & _ & _ & HS & _ & (L1 & _)).
  apply Forall_forall. intros d Hd HB.
  assert (Hin : In (tags cfg d) (progress cfg ph j)).
  { rewrite <- L1. apply in_map. now apply in_rev in Hd. }
  destruct HS as (_ & _ & _ & _ & _ & _ & _ & _ & _ & Hph).
  destruct ph as [|i|].
  - destruct Hph as (_ & _ & _ & HB'). congruence.
  - unfold progress in Hin. rewrite HB in Hin. cbn [app] in Hin.
    assert (Hq : exists q, fst (tags cfg d) = Some (Num q)).
    { apply in_app_or in Hin. destruct Hin as [Hin|Hin].
      - eapply classified_numbers; eauto.
      - apply firstn_In_in in Hin. unfold sweep in Hin. apply in_map_iff in Hin.
        destruct Hin as (x2 & <- & _). eexists. reflexivity. }
    destruct Hq as [q Hq]. unfold tags in Hq. cbn [fst] in Hq.
    unfold bypassed. now rewrite Hq.
  - destruct Hph as (_ & _ & _ & HB'). congruence.
Qed.

Lemma Standing_unbypassed C Cn ph j k1 k2 vs d :
  Standing cfg C ph j k1 k2 -> sameScan C Cn ->
  RowFacts (average cfg) Cn k1 k2 vs d -> Unbypassed cfg d.
Proof.
  intros HS HSS HR HB.
  pose proof (Standing_tags (sameScan_Standing HSS HS) HR) as Ht.
  destruct HS as (_ & _ & _ & _ & _ & _ & _ & _ & _ & Hph).
  unfold tags, rowtag in Ht. inversion Ht as [[H1 H2]].
  unfold bypassed. rewrite H1.
  destruct ph as [|i|]; [|reflexivity|].
  - destruct Hph as (_ & _ & _ & HB'). congruence.
  - destruct Hph as (_ & _ & _ & HB'). congruence.
Qed.

(** One timer slot of a running scan. *)
Lemma tick_Running w : Running cfg w -> Inv cfg (tick E cfg w).
Proof.
  intros (Ht & Ha & HSh).
  pose proof HSh as (ph & j & k1 & k2 & H1 & H2 & HS & HF & HL).
  destruct (@tick_spec E cfg (Unbypassed cfg) w (ctl w) (obs w) k1 k2
              eq_refl eq_refl Ha H1 H2)
    as [(HO & Htm & HSS)
       |[(d & vs & z' & Cn & HSS & Hsr & HR & HZ & [(C' & HM & HC)|HFin])
        |(l & HO & Hnf & HRl & Htd & _)]].
  { intros Cn vs d HSS HR. eapply Standing_unbypassed; eauto. }
  - left. unfold Running. rewrite HO.
    split; [exact Htm|]. split; [eapply alive_sameScan; eauto|].
    eapply Shape_sameScan; eauto.
  - left. unfold Running.
    change (timer (tick E cfg w)) with (c_timer (ctl (tick E cfg w))).
    rewrite HC. split; [reflexivity|]. split.
    + assert (Ha' : alive C').
      { eapply Moved_alive; [|exact HM].
        exact (alive_sameScan HSS Ha). }
      exact Ha'.
    + eapply advance_shape; eauto.
  - right. right. split.
    + destruct HFin as (_ & _ & _ & HC & _).
      change (timer (tick E cfg w)) with (c_timer (ctl (tick E cfg w))).
      now rewrite HC.
    + eapply finish_shape; eauto.
  - right. left. unfold GivenUp. rewrite HO.
    split; [now rewrite existsb_app, Hnf, HF|].
    split; [exact Htd|].
    rewrite vrows_app. apply Forall_app. split; [exact HRl|].
    eapply Shape_unbypassed; eauto.
Qed.

(** One timer slot after a scan was given up. *)
Lemma tick_GivenUp w :
  GivenUp cfg w -> timer w = true -> GivenUp cfg (tick E cfg w).
Proof.
  intros (HF & [Ht|Hd] & HU) Htm; [congruence|].
  assert (Hoff : Off [] (obs w) (set_timer false w)).
  { split; [exact Hd|]. split; [reflexivity|]. exists []. repeat split. }
  destruct (tick_Off E cfg Hd Hoff) as (Hd' & Ht' & l & HO & Hr & Hnf & _).
  unfold GivenUp. rewrite HO. split; [now rewrite existsb_app, Hnf, HF|].
  split; [now left|]. rewrite vrows_app, Hr. exact HU.
Qed.

Lemma loop_Inv fuel : forall w, Inv cfg w -> Inv cfg (loop E cfg fuel w).
Proof.
  induction fuel as [|fuel IH]; intros w H; [exact H|]. cbn [loop].
  destruct (timer w) eqn:Ht; [|exact H]. apply IH.
  destruct H as [H|[H|[H _]]].
  - now apply tick_Running.
  - right. left. now apply tick_GivenUp.
  - congruence.
Qed.

End Loop.

End ShapeFacts.


(* ===================================================================== *)
(** ** A whole scan                                                      *)
(* ===================================================================== *)

Module ScanFacts.
Import Py Classes Scan View Plan Demo Start ScanLib DictFacts ClassifierFacts
       TickFacts ShapeFacts.
Local Open Scope string_scope.
Local Open Scope py_scope.

(** *** Setting up *)

Lemma Prep_GivenUp cfg w : Prep w -> GivenUp cfg w.
Proof.
  intros (H1 & H2 & H3). split; [exact H3|]. split; [now left|].
  rewrite H2. constructor.
Qed.

Lemma Prep_step l w w' :
  Prep w -> (timer w' = timer w \/ timer w' = false) ->
  obs w' = (l ++ obs w)%list -> vrows l = [] -> existsb isVFinal l = false ->
  Prep w'.
Proof.
  intros (H1 & H2 & H3) Ht HO Hr Hf. unfold Prep. rewrite HO.
  rewrite vrows_app, existsb_app, Hr, Hf, H2, H3.
  split; [destruct Ht; congruence|]. split; reflexivity.
Qed.

Lemma Prep_at C O w w' :
  Prep w -> ctl w = C -> obs w = O ->
  c_timer (ctl w') = c_timer C -> obs w' = O -> Prep w'.
Proof.
  intros HP HC HO Ht HO'. apply (@Prep_step [] w w' HP); try reflexivity.
  - left. change (c_timer (ctl w') = c_timer (ctl w)). now rewrite HC.
  - cbn. congruence.
Qed.

Lemma Prep_Emit l w w' :
  Prep w -> Emit l w w' -> vrows l = [] -> existsb isVFinal l = false ->
  Prep w'.
Proof.
  intros HP [H1 H2] Hr Hf. apply (@Prep_step l w w' HP); try assumption.
  left. change (c_timer (ctl w') = c_timer (ctl w)). now rewrite H1.
Qed.

Lemma Prep_Same w w' : Prep w -> Same w w' -> Prep w'.
Proof.
  intros HP HS. apply (@Prep_Emit [] w w' HP); try reflexivity.
  now apply Emit_nil.
Qed.

Lemma harmless_ret A (a : A) : harmless (ret a).
Proof. intros w HP. exact HP. Qed.

Lemma harmless_raise A e : harmless (@raise World A e).
Proof. intros w HP. exact HP. Qed.

Lemma harmless_bind A B (m : W A) (k : A -> W B) :
  harmless m -> (forall a, harmless (k a)) -> harmless (bind m k).
Proof.
  intros Hm Hk w HP. eapply post_call; [apply (Hm w HP) | | auto].
  cbn beta. intros a w1 H1. now apply Hk.
Qed.

Lemma harmless_quiet A (m : W A) : quiet m -> harmless m.
Proof.
  intros Hq w HP. eapply post_weaken; [apply Hq | |]; cbn beta;
    intros; eapply Prep_Same; eauto.
Qed.

Lemma harmless_log e :
  vrows (vis e) = [] -> existsb isVFinal (vis e) = false -> harmless (log e).
Proof.
  intros Hr Hf w HP. unfold post, log, modify.
  apply (@Prep_step (vis e) w _ HP); auto.
Qed.

Lemma harmless_modify (f : World -> World) :
  (forall w, obs (f w) = obs w) ->
  (forall w, timer (f w) = timer w \/ timer (f w) = false) ->
  harmless (modify f).
Proof.
  intros HO Ht w HP. unfold post, modify.
  apply (@Prep_step [] w _ HP); auto.
Qed.

Section Setup.
Variable E : Env.
Variable cfg : Config.

Lemma harmless_pump site : harmless (pump E site).
Proof.
  intros w HP. unfold post, pump, bind, gets, modify, log, ret.
  apply (@Prep_step (vis (Pumped site (stop E (pumps w)))) w _ HP).
  - left. reflexivity.
  - reflexivity.
  - now destruct (stop E (pumps w)).
  - now destruct (stop E (pumps w)).
Qed.

Lemma harmless_release s : harmless (release E s).
Proof.
  unfold release. apply harmless_bind; [apply harmless_quiet, quiet_getC|].
  intros c. apply harmless_bind.
  { destruct (isCambustion (kind c));
      [apply harmless_quiet, stop_quiet | apply harmless_ret]. }
  intros _. apply harmless_bind; [now apply harmless_log|].
  intros _. apply harmless_modify; intros w.
  - apply obs_set_slot.
  - left. now destruct s.
Qed.

Lemma harmless_releaseCpc : harmless releaseCpc.
Proof.
  unfold releaseCpc. apply harmless_bind; [apply harmless_quiet, quiet_getCpc|].
  intros _. apply harmless_bind; [now apply harmless_log|].
  intros _. apply harmless_modify; intros w; [reflexivity | now left].
Qed.

Lemma harmless_endScan : harmless (endScan E).
Proof.
  unfold endScan. apply harmless_bind; [apply harmless_quiet, quiet_gets|].
  intros sc. destruct (negb sc); [apply harmless_ret|].
  apply harmless_bind; [now apply harmless_log|]. intros _.
  apply harmless_bind;
    [apply harmless_modify; intros w; [reflexivity | now left]|]. intros _.
  apply harmless_bind;
    [apply harmless_modify; intros w; [reflexivity | now right]|]. intros _.
  apply harmless_bind; [apply harmless_pump|]. intros _.
  apply harmless_bind; [apply harmless_release|]. intros _.
  apply harmless_bind; [apply harmless_release|]. intros _.
  apply harmless_releaseCpc.
Qed.

Lemma harmless_barf msg : harmless (barf E msg).
Proof.
  unfold barf. apply harmless_bind; [apply harmless_endScan|].
  intros _. now apply harmless_log.
Qed.

Ltac harmless_tac :=
  repeat first
    [ apply harmless_barf | apply harmless_release | apply harmless_releaseCpc
    | apply harmless_ret
    | apply harmless_bind; [|intros ?] ].

Lemma post_getC {B} s c (k : Classifier -> W B) w Q QE :
  slot s w = Some c -> post (k c) w Q QE -> post (bind (getC s) k) w Q QE.
Proof. intros Hs H. unfold post, bind. now rewrite (getC_val s w Hs). Qed.

(** A constructor puts a classifier before its first point into the slot
    and sends its settings. *)
Lemma construct_at s k st table fl rq pol w :
  Prep w ->
  post (construct E s k st table fl rq pol) w
    (fun _ w' => ctl w' = set_c_slot s (Some (fresh k table)) (ctl w)
                 /\ obs w' = (built s k st fl rq ++ obs w)%list
                 /\ Prep w')
    Prep.
Proof.
  intros HP. unfold construct. apply post_modify.
  set (w1 := set_slot s _ w).
  assert (C1 : ctl w1 = set_c_slot s (Some (fresh k table)) (ctl w)).
  { unfold w1. rewrite ctl_set_slot. reflexivity. }
  assert (O1 : obs w1 = obs w) by apply obs_set_slot.
  assert (P1 : Prep w1).
  { apply (@Prep_step [] w w1 HP); try reflexivity; [|exact O1].
    left. unfold w1. now destruct s. }
  clearbody w1. unfold sendFloat at 1.
  eapply post_call; [apply sendAndCheck_spec | |].
  2:{ cbn beta. intros w2 H2. eapply Prep_Emit; eauto. }
  cbn beta. intros _ w2 H2.
  assert (P2 : Prep w2) by (eapply Prep_Emit; eauto).
  destruct H2 as [C2 O2]. cbn [vis app] in O2.
  assert (K2 : c_slot s (ctl w2) = Some (fresh k table)).
  { rewrite C2, C1. apply c_slot_set_c_slot. }
  destruct (getC_at s eq_refl K2) as (c2 & S2 & E2).
  assert (cambustion :
    isCambustion k = true ->
    post (c <- getC s ;;
          putC s (set_sampleFlow (Some fl) c) ;;;
          sendFloat E s "SetSampleFlow" fl ;;;
          set E s st ;;;
          ret tt) w2
      (fun _ w' => ctl w' = set_c_slot s (Some (fresh k table)) (ctl w)
                   /\ obs w' = (built s k st fl rq ++ obs w)%list
                   /\ Prep w')
      Prep).
  { intros Hk. eapply post_getC; [exact S2|]. unfold putC at 1. apply post_modify.
    set (w3 := set_slot s _ w2).
    assert (S3 : Same w2 w3) by (apply (Same_putC s w2 S2); reflexivity).
    assert (P3 : Prep w3) by (eapply Prep_Same; eauto).
    clearbody w3. destruct S3 as [C3 O3]. unfold sendFloat at 1.
    eapply post_call; [apply sendAndCheck_spec | |].
    2:{ cbn beta. intros w4 H4. eapply Prep_Emit; eauto. }
    cbn beta. intros _ w4 H4.
    assert (P4 : Prep w4) by (eapply Prep_Emit; eauto).
    destruct H4 as [C4 O4]. cbn [vis app] in O4.
    assert (K4 : c_slot s (ctl w4) = Some (fresh k table)).
    { now rewrite C4, C3. }
    destruct (getC_at s eq_refl K4) as (c4 & S4 & E4).
    eapply post_call; [apply (set_spec E s st w4 S4) | | intros ? []].
    cbn beta. intros _ w5 H5.
    assert (P5 : Prep w5) by (eapply Prep_Emit; eauto).
    destruct H5 as [C5 O5]. apply post_ret. split; [|split; [|exact P5]].
    - now rewrite C5, C4, C3, C2, C1.
    - rewrite O5, O4, O3, O2, O1. unfold built. rewrite Hk.
      change (kind c4) with (k_kind (core c4)). rewrite E4. reflexivity. }
  destruct k; try (apply cambustion; reflexivity).
  - apply post_ret.
    split; [now rewrite C2, C1 | split; [now rewrite O2, O1 | exact P2]].
  - eapply post_getC; [exact S2|]. unfold putC at 1. apply post_modify.
    set (w3 := set_slot s _ w2).
    assert (S3 : Same w2 w3) by (apply (Same_putC s w2 S2); reflexivity).
    assert (P3 : Prep w3) by (eapply Prep_Same; eauto).
    clearbody w3. destruct S3 as [C3 O3].
    eapply post_call; [apply sendAndCheck_spec | |].
    2:{ cbn beta. intros w4 H4. eapply Prep_Emit; eauto. }
    cbn beta. intros _ w4 H4.
    assert (P4 : Prep w4) by (eapply Prep_Emit; eauto).
    destruct H4 as [C4 O4]. apply post_ret. split; [|split; [|exact P4]].
    + now rewrite C4, C3, C2, C1.
    + rewrite O4, O3, O2, O1. reflexivity.
Qed.

Lemma abandon {A} (m : W A) w :
  harmless m -> Prep w ->
  post m w (fun _ w' => Running cfg w' \/ Prep w') Prep.
Proof.
  intros Hm HP. eapply post_weaken; [apply (Hm w HP) | | auto].
  cbn beta. intros. now right.
Qed.

Lemma quiet_then {A B} (m : W A) (k : A -> W B) w Q :
  quiet m -> Prep w ->
  (forall a w1, Same w w1 -> Prep w1 -> post (k a) w1 Q Prep) ->
  post (bind m k) w Q Prep.
Proof.
  intros Hq HP Hk. eapply post_call; [apply Hq | |]; cbn beta.
  - intros a w1 H1. apply Hk; [exact H1 | eapply Prep_Same; eauto].
  - intros w1 H1. eapply Prep_Same; eauto.
Qed.

Lemma startRawLog_quiet : quiet (startRawLog E).
Proof.
  unfold startRawLog.
  apply quiet_bind; [apply getHeader_quiet|]. intros _.
  apply quiet_bind; [apply getHeader_quiet|]. intros _.
  apply quiet_modify. intros w. split; reflexivity.
Qed.

Lemma primed_facts v1 v2 :
  let O := primed cfg v1 v2 in
  vrows O = [] /\ existsb isVFinal O = false
  /\ nset First (sizeCommand (firstKind cfg)) O
     = (camb (firstKind cfg) + (if Bypass cfg then 0 else 1))%nat
  /\ nset Second (sizeCommand (secondKind cfg)) O
     = (camb (secondKind cfg) + 1)%nat
  /\ ledger O = [] /\ leadSamples O = [] /\ nsample O = 0%nat.
Proof.
  unfold primed, built, nset, nsample, camb.
  destruct (firstKind cfg), (secondKind cfg), (Bypass cfg);
    cbn; repeat split; reflexivity.
Qed.

(** The window when [runScan] has stepped the classifiers to their first
    points is that of a running scan before its first row. *)
Lemma primed_shape C kc1 v1 v2 :
  c_first C = Some kc1 ->
  c_second C
  = Some (bump (fresh (secondKind cfg) (secondX cfg)) v2) ->
  np_get (secondX cfg) 0 = Some v2 ->
  c_doBypass C = Bypass cfg -> c_finalBypass C = false ->
  c_Zm C = zeros2 (List.length (firstX cfg)) (List.length (secondX cfg)) ->
  (if Bypass cfg then kc1 = fresh (firstKind cfg) (firstX cfg)
   else np_get (firstX cfg) 0 = Some v1
        /\ kc1 = bump (fresh (firstKind cfg) (firstX cfg)) v1) ->
  Shape cfg C (primed cfg v1 v2).
Proof.
  intros H1 H2 Hv2 Hdb Hfb Hz Hk.
  destruct (primed_facts v1 v2) as (F1 & F2 & F3 & F4 & F5 & F6 & F7).
  destruct (@np_get_nat (secondX cfg) 0 v2 Hv2) as [Hm Hx2].
  exists (if Bypass cfg then Before else During 0), 0%nat, kc1,
         (bump (fresh (secondKind cfg) (secondX cfg)) v2).
  split; [exact H1|]. split; [exact H2|]. split; [|split; [exact F2|]].
  - unfold Standing. cbn [bump fresh set_k_x set_k_point k_kind k_X k_points
                             k_point k_x].
    destruct (Bypass cfg) eqn:HB.
    + subst kc1. cbn. repeat split; auto.
    + destruct Hk as [Hv1 ->].
      destruct (@np_get_nat (firstX cfg) 0 v1 Hv1) as [Hn Hx1].
      cbn. repeat split; auto.
  - unfold Logged. rewrite F1, F3, F4, F5, F6, F7, Hz. cbn [rev map List.length].
    split; [|split; [|split; [reflexivity|split; [constructor|split;
      [reflexivity|split]]]]].
    + destruct (Bypass cfg) eqn:HB; [reflexivity|].
      unfold progress. rewrite HB. reflexivity.
    + destruct (Bypass cfg); reflexivity.
    + now rewrite Nat.mul_0_r.
    + unfold classifiedRows. rewrite skipn_nil, firstn_nil. cbn [map].
      apply zeros2_matrix.
Qed.

Lemma runScan_rest w kc1 v1 (db : bool) :
  Prep w -> c_isScanning (ctl w) = true -> c_cpc (ctl w) = true ->
  c_first (ctl w) = Some kc1 ->
  c_second (ctl w) = Some (fresh (secondKind cfg) (secondX cfg)) ->
  c_doBypass (ctl w) = Bypass cfg ->
  c_Zm (ctl w)
  = zeros2 (List.length (firstX cfg)) (List.length (secondX cfg)) ->
  (if Bypass cfg then kc1 = fresh (firstKind cfg) (firstX cfg)
   else np_get (firstX cfg) 0 = Some v1
        /\ kc1 = bump (fresh (firstKind cfg) (firstX cfg)) v1) ->
  obs w
  = ((if Bypass cfg then [] else [VSet First (sizeCommand (firstKind cfg)) v1])
     ++ built Second (secondKind cfg) (secondStart cfg) (secondQa cfg)
          (secondRorQsh cfg)
     ++ built First (firstKind cfg) (firstStart cfg) (firstQa cfg)
          (firstRorQsh cfg))%list ->
  post (ok <- next E Second ;;
        if negb ok then barf E "Failed to set second classifier."
        else
          when db enableBypass ;;;
          startRawLog E ;;;
          modify (set_startRow true) ;;;
          modify (set_finalBypass false) ;;;
          modify (set_firstBypass true) ;;;
          modify (set_disBypass true) ;;;
          modify (set_timer true)) w
    (fun _ w' => Running cfg w' \/ Prep w') Prep.
Proof.
  intros HP Hsc Hcpc H1 H2 Hdb Hz Hk HO.
  eapply post_call;
    [apply (@next_at E Second (ctl w) (obs w) _ w eq_refl eq_refl H2) | |];
    cbn beta.
  2:{ intros w1 [HC1 HO1]. apply (@Prep_step [] w w1 HP); try reflexivity.
      - left. change (c_timer (ctl w1) = c_timer (ctl w)). now rewrite HC1.
      - exact HO1. }
  intros ok w1 (v2 & Hv2 & HC1 & HO1).
  assert (P1 : Prep w1).
  { apply (@Prep_step [VSet Second (cmdOf (fresh (secondKind cfg) (secondX cfg))) v2]
             w w1 HP); try reflexivity.
    - left. change (c_timer (ctl w1) = c_timer (ctl w)). now rewrite HC1.
    - exact HO1. }
  destruct ok; cbn [negb]; [|apply abandon; [apply harmless_barf | exact P1]].
  apply quiet_then; [apply quiet_when, enableBypass_quiet | exact P1 |].
  intros _ w2 S2 P2.
  apply quiet_then; [apply startRawLog_quiet | exact P2 |].
  intros _ w3 S3 P3.
  unfold post, bind, modify. left.
  destruct S2 as [C2 O2]. destruct S3 as [C3 O3].
  unfold Running. split; [reflexivity|].
  autorewrite with view. rewrite C3, C2, HC1, O3, O2, HO1, HO.
  split.
  - split; [exact Hsc|]. split; [|split; [discriminate | exact Hcpc]].
    change (c_first (ctl w) <> None). rewrite H1. discriminate.
  - change (Shape cfg
      (set_c_timer true (set_c_finalBypass false (set_c_startRow true
         (set_c_slot Second
            (Some (bump (fresh (secondKind cfg) (secondX cfg)) v2)) (ctl w)))))
      (primed cfg v1 v2)).
    eapply primed_shape; cbn; eauto.
Qed.

(** [runScan] from an idle window either starts the timer on a running
    scan that has written nothing yet, or gives up. *)
Lemma runScan_post :
  post (runScan E cfg) idle (fun _ w' => Running cfg w' \/ Prep w') Prep.
Proof.
  assert (P0 : Prep idle) by (repeat split).
  unfold runScan.
  eapply post_call; [apply (construct_at _ _ _ _ _ _ _ P0) | | auto].
  cbn beta. intros _ w1 (C1 & O1 & P1).
  destruct (@getC_at First (ctl w1) (fresh (firstKind cfg) (firstX cfg)) w1
              eq_refl) as (c1 & S1 & E1); [now rewrite C1|].
  eapply post_getC; [exact S1|].
  destruct (negb (connected c1));
    [apply abandon; [harmless_tac | exact P1]|].
  apply post_modify.
  set (w2 := set_doBypass (Bypass cfg) w1).
  assert (C2 : ctl w2 = set_c_doBypass (Bypass cfg) (ctl w1)) by reflexivity.
  assert (O2 : obs w2 = obs w1) by reflexivity.
  assert (P2 : Prep w2) by exact P1.
  clearbody w2.
  eapply post_call; [apply (construct_at _ _ _ _ _ _ _ P2) | | auto].
  cbn beta. intros _ w3 (C3 & O3 & P3).
  destruct (@getC_at Second (ctl w3) (fresh (secondKind cfg) (secondX cfg)) w3
              eq_refl) as (c2 & S3 & E3); [now rewrite C3|].
  eapply post_getC; [exact S3|].
  destruct (negb (connected c2));
    [apply abandon; [harmless_tac | exact P3]|].
  apply quiet_then;
    [apply quiet_when, quiet_modify; intros ?; split; reflexivity | exact P3 |].
  intros _ w4 [C4 O4] P4.
  apply post_modify.
  unfold post at 1, bind at 1, getCpc at 1. cbn [cpc set_cpc cconnected].
  set (w5 := set_cpc _ w4).
  assert (C5 : ctl w5 = set_c_cpc true (ctl w4)) by reflexivity.
  assert (O5 : obs w5 = obs w4) by reflexivity.
  assert (P5 : Prep w5) by exact P4.
  clearbody w5.
  match goal with |- context [negb ?b] => destruct (negb b) end;
    [apply abandon; [harmless_tac | exact P5]|].
  apply quiet_then; [apply run_quiet | exact P5 |].
  intros ok1 w6 [C6 O6] P6.
  destruct (negb ok1); [apply abandon; [harmless_tac | exact P6]|].
  apply quiet_then; [apply run_quiet | exact P6 |].
  intros ok2 w7 [C7 O7] P7.
  destruct (negb ok2); [apply abandon; [harmless_tac | exact P7]|].
  assert (A7 : ctl w7 = set_c_cpc true (set_c_second
                 (Some (fresh (secondKind cfg) (secondX cfg)))
                 (set_c_doBypass (Bypass cfg) (set_c_first
                    (Some (fresh (firstKind cfg) (firstX cfg))) (ctl idle))))).
  { now rewrite C7, C6, C5, C4, C3, C2, C1. }
  assert (B7 : obs w7
               = (built Second (secondKind cfg) (secondStart cfg)
                    (secondQa cfg) (secondRorQsh cfg)
                  ++ built First (firstKind cfg) (firstStart cfg)
                       (firstQa cfg) (firstRorQsh cfg))%list).
  { rewrite O7, O6, O5, O4, O3, O2, O1. cbn [obs idle trace flat_map].
    now rewrite app_nil_r. }
  clear C1 O1 P1 S1 C2 O2 P2 C3 O3 P3 S3 C4 O4 P4 C5 O5 P5 C6 O6 P6 C7 O7.
  clear c1 E1 c2 E3 w1 w2 w3 w4 w5 w6.
  destruct (@getC_at First (ctl w7) (fresh (firstKind cfg) (firstX cfg)) w7
              eq_refl) as (c1 & S1 & E1); [now rewrite A7|].
  destruct (@getC_at Second (ctl w7) (fresh (secondKind cfg) (secondX cfg)) w7
              eq_refl) as (c2 & S2 & E2); [now rewrite A7|].
  eapply post_getC; [exact S1|]. eapply post_getC; [exact S2|].
  change (points c1) with (k_points (core c1)).
  change (points c2) with (k_points (core c2)).
  rewrite E1, E2. cbn [fresh k_points]. rewrite !Nat2Z.id.
  apply post_modify. apply post_modify. apply post_modify.
  set (w8 := set_isScanning true _).
  assert (A8 : ctl w8 = set_c_isScanning true
                 (set_c_Zm (zeros2 (List.length (firstX cfg))
                                   (List.length (secondX cfg))) (ctl w7)))
    by reflexivity.
  assert (B8 : obs w8 = obs w7) by reflexivity.
  assert (P8 : Prep w8) by exact P7.
  clearbody w8. rewrite A7 in A8. rewrite B7 in B8. clear A7 B7 P7 S1 S2.
  apply post_gets.
  change (doBypass w8) with (c_doBypass (ctl w8)).
  replace (c_doBypass (ctl w8)) with (Bypass cfg) by now rewrite A8.
  destruct (Bypass cfg) eqn:HB; cbn [negb].
  - apply post_bind, post_ret. cbn [negb].
    apply (@runScan_rest w8 (fresh (firstKind cfg) (firstX cfg)) 0%Q true);
      rewrite ?HB, ?A8; try reflexivity; try assumption.
  - eapply post_call;
      [apply (@next_at E First (ctl w8) (obs w8)
                (fresh (firstKind cfg) (firstX cfg)) w8 eq_refl eq_refl);
       now rewrite A8 | |]; cbn beta.
    2:{ intros w9 [C9 O9]. apply (@Prep_step [] w8 w9 P8); try reflexivity.
        - left. change (c_timer (ctl w9) = c_timer (ctl w8)). now rewrite C9.
        - exact O9. }
    intros ok w9 (v1 & Hv1 & C9 & O9).
    assert (P9 : Prep w9).
    { apply (@Prep_step
               [VSet First (cmdOf (fresh (firstKind cfg) (firstX cfg))) v1]
               w8 w9 P8); try reflexivity.
      - left. change (c_timer (ctl w9) = c_timer (ctl w8)). now rewrite C9.
      - exact O9. }
    destruct ok; cbn [negb]; [|apply abandon; [apply harmless_barf | exact P9]].
    apply (@runScan_rest w9 (bump (fresh (firstKind cfg) (firstX cfg)) v1) v1
              false);
      rewrite ?HB, ?C9, ?O9, ?A8, ?B8; try reflexivity; try assumption.
    split; [exact Hv1 | reflexivity].
Qed.

Lemma runScan_Inv : Inv cfg (settle (runScan E cfg idle)).
Proof.
  pose proof runScan_post as H. unfold post in H.
  destruct (runScan E cfg idle) as [[] w|e w]; cbn [settle].
  - destruct H as [H|H]; [now left | right; left; now apply Prep_GivenUp].
  - right. left. apply Prep_GivenUp.
    apply (@Prep_step [] w _ H); try reflexivity. now left.
Qed.

(** Whatever the devices do and however long the timer runs, the window is
    in one of the three states. *)
Lemma scan_Inv fuel : Inv cfg (scan E cfg fuel).
Proof. unfold scan. apply loop_Inv, runScan_Inv. Qed.


End Setup.

(** *** The trace and the visible events *)

Lemma vis_final e : existsb isVFinal (vis e) = isFinalPlot e.
Proof.
  destruct e as [d c|v|st b|d| |d|m| |x]; try reflexivity.
  - destruct d as [sl| |]; destruct c; reflexivity.
  - destruct b; reflexivity.
Qed.

Lemma completed_obs w : completed w = existsb isVFinal (obs w).
Proof.
  unfold completed, obs. induction (trace w) as [|e t IH]; [reflexivity|].
  cbn [existsb flat_map]. now rewrite existsb_app, vis_final, IH.
Qed.

Lemma rowsOf_cons e t : rowsOf (e :: t) = (rowsOf [e] ++ rowsOf t)%list.
Proof. destruct e; reflexivity. Qed.

Lemma rowsOf_app t1 t2 : rowsOf (t1 ++ t2) = (rowsOf t1 ++ rowsOf t2)%list.
Proof.
  induction t1 as [|e t1 IH]; [reflexivity|].
  rewrite <- app_comm_cons, rowsOf_cons, IH, (rowsOf_cons e t1).
  now rewrite app_assoc.
Qed.

Lemma rowsOf_rev t : rowsOf (rev t) = rev (rowsOf t).
Proof.
  induction t as [|e t IH]; [reflexivity|].
  cbn [rev]. rewrite rowsOf_app, IH, (rowsOf_cons e t), rev_app_distr.
  f_equal. destruct e; reflexivity.
Qed.

Lemma vrows_vis e : vrows (vis e) = rowsOf [e].
Proof.
  destruct e as [d c|v|st b|d| |d|m| |x]; try reflexivity.
  - destruct d as [sl| |]; destruct c; reflexivity.
  - destruct b; reflexivity.
Qed.

Lemma vrows_flat t : vrows (flat_map vis t) = rowsOf t.
Proof.
  induction t as [|e t IH]; [reflexivity|].
  cbn [flat_map]. now rewrite vrows_app, vrows_vis, IH, (rowsOf_cons e t).
Qed.

(** The rows of a run are the visible rows, oldest first. *)
Lemma rows_obs w : rows w = rev (vrows (obs w)).
Proof. unfold rows, history, obs. now rewrite rowsOf_rev, vrows_flat. Qed.

Lemma nset_vis s k e :
  filter (isVSet s (sizeCommand k)) (vis e)
  = if isSetpoint s k e then vis e else [].
Proof.
  destruct e as [d c|v|st b|d| |d|m| |x]; try reflexivity.
  - destruct d as [sl| |]; destruct c as [t|name v]; reflexivity.
  - destruct b; reflexivity.
Qed.

Lemma nset_trace s k w :
  nset s (sizeCommand k) (obs w)
  = List.length (filter (isSetpoint s k) (trace w)).
Proof.
  unfold nset, obs. induction (trace w) as [|e t IH]; [reflexivity|].
  cbn [flat_map filter]. rewrite filter_app, length_app, IH, nset_vis.
  destruct (isSetpoint s k e) eqn:He; [|reflexivity].
  destruct e as [d c|v|st b|d| |d|m| |x]; try discriminate.
  destruct d as [sl| |]; destruct c as [t'|name v]; try discriminate.
  reflexivity.
Qed.

Lemma nsample_trace w :
  nsample (obs w) = List.length (filter isSample (trace w)).
Proof.
  unfold nsample, obs. induction (trace w) as [|e t IH]; [reflexivity|].
  cbn [flat_map filter]. rewrite filter_app, length_app, IH.
  destruct e as [d c|v|st b|d| |d|m| |x]; try reflexivity.
  - destruct d as [sl| |]; destruct c; reflexivity.
  - destruct b; reflexivity.
Qed.

Lemma ledger_rows O : map fst (ledger O) = vrows O.
Proof.
  induction O as [|v O IH]; [reflexivity|].
  destruct v; cbn [ledger vrows map fst]; congruence.
Qed.

(** *** Rows and bypass tags *)

Lemma bypassed_tags cfg d :
  bypassed (firstKind cfg) d
  = match fst (tags cfg d) with
    | Some (Txt t) => String.eqb t "Bypassed"
    | _ => false
    end.
Proof. reflexivity. Qed.

Lemma bypassed_sweep_bypass (X : list Q) :
  map (fun t : tag => match fst t with
                      | Some (Txt t) => String.eqb t "Bypassed"
                      | _ => false
                      end) (bypassSweep X)
  = repeat true (List.length X).
Proof. induction X as [|x X IH]; [reflexivity|]. cbn. f_equal. exact IH. Qed.

Lemma bypassed_sweep_num q (X : list Q) :
  map (fun t : tag => match fst t with
                      | Some (Txt t) => String.eqb t "Bypassed"
                      | _ => false
                      end) (sweep (Num q) X)
  = repeat false (List.length X).
Proof. induction X as [|x X IH]; [reflexivity|]. cbn. f_equal. exact IH. Qed.

Lemma bypassed_classified (X1 X2 : list Q) :
  map (fun t : tag => match fst t with
                      | Some (Txt t) => String.eqb t "Bypassed"
                      | _ => false
                      end) (classified X1 X2)
  = repeat false (List.length X1 * List.length X2).
Proof.
  induction X1 as [|x X1 IH]; [reflexivity|].
  change (classified (x :: X1) X2)
    with (sweep (Num x) X2 ++ classified X1 X2)%list.
  rewrite map_app, IH, bypassed_sweep_num. cbn [List.length Nat.mul].
  now rewrite repeat_app.
Qed.

Lemma Final_unbypassed cfg C O :
  Final cfg C O -> Forall (Unbypassed cfg) (vrows O).
Proof.
  intros (_ & _ & (L1 & _)). apply Forall_forall. intros d Hd HB.
  assert (Hin : In (tags cfg d) (planned cfg)).
  { rewrite <- L1. apply in_map. now apply in_rev in Hd. }
  unfold planned in Hin. rewrite HB in Hin.
  destruct (classified_numbers _ _ _ Hin) as [q Hq].
  rewrite bypassed_tags, Hq. reflexivity.
Qed.

Section Whole.
Variable E : Env.
Variable cfg : Config.

(** A run that drew its final plot has run to its end. *)
Lemma completed_Final fuel :
  completed (scan E cfg fuel) = true ->
  Final cfg (ctl (scan E cfg fuel)) (obs (scan E cfg fuel)).
Proof.
  intros Hc. rewrite completed_obs in Hc.
  destruct (scan_Inv E cfg fuel) as [(_ & _ & HS)|[(HF & _)|(_ & HF)]].
  - destruct HS as (ph & j & k1 & k2 & _ & _ & _ & HF & _). congruence.
  - congruence.
  - exact HF.
Qed.

Lemma scan_unbypassed fuel :
  Forall (Unbypassed cfg) (rows (scan E cfg fuel)).
Proof.
  rewrite rows_obs. apply Forall_rev.
  destruct (scan_Inv E cfg fuel) as [(_ & _ & HS)|[(_ & _ & HU)|(_ & HF)]].
  - eapply Shape_unbypassed; eauto.
  - exact HU.
  - eapply Final_unbypassed; eauto.
Qed.

End Whole.

(** C7.  A scan with the bypass option that runs to its end writes the rows
    of one bypass sweep, then of one classified inner sweep for each outer
    point in order, then of one more bypass sweep, and nothing else: the
    bypass-tagged rows are the first and the last sweep.  Without the bypass
    option no run, however far it gets, writes a bypass-tagged row. *)
Theorem bypass_sequencing_law (E : Env) (cfg : Config) (fuel : nat) :
  (Bypass cfg = true -> completed (scan E cfg fuel) = true ->
     map (tags cfg) (rows (scan E cfg fuel))
     = (bypassSweep (secondX cfg)
        ++ classified (firstX cfg) (secondX cfg)
        ++ bypassSweep (secondX cfg))%list
     /\ map (bypassed (firstKind cfg)) (rows (scan E cfg fuel))
        = (repeat true (List.length (secondX cfg))
           ++ repeat false
                (List.length (firstX cfg) * List.length (secondX cfg))
           ++ repeat true (List.length (secondX cfg)))%list)
  /\ (Bypass cfg = false ->
      forallb (fun d => negb (bypassed (firstKind cfg) d))
        (rows (scan E cfg fuel)) = true).
Proof.
  split.
  - intros HB Hc. destruct (completed_Final E cfg fuel Hc) as (_ & _ & (L1 & _)).
    rewrite <- rows_obs in L1. unfold planned in L1. rewrite HB in L1.
    split; [exact L1|].
    rewrite (map_ext _ _ (bypassed_tags cfg)).
    rewrite <- (map_map (tags cfg)
      (fun t : tag => match fst t with
                      | Some (Txt t) => String.eqb t "Bypassed"
                      | _ => false
                      end)), L1, !map_app.
    now rewrite !bypassed_sweep_bypass, bypassed_classified.
  - intros HB. apply forallb_forall. intros d Hd.
    pose proof (scan_unbypassed E cfg fuel) as HU.
    rewrite Forall_forall in HU. now rewrite (HU d Hd HB).
Qed.

Lemma bypass_sequencing_law_witness :
  map (bypassed CPMA) (rows (scan ideal threeBypassed 200))
  = [true; true; false; false; false; false; false; false; true; true].
Proof.
  exact (proj2 (proj1 (bypass_sequencing_law ideal threeBypassed 200)
                  eq_refl
                  ltac:(vm_compute; reflexivity))).
Defined.

(** C8, as the code has it.  Two outer points, three inner points, averaging
    count 1, no bypass, and the scan runs to its end: the set-setpoint
    command goes to the first classifier twice and to the second six times,
    and once more to each that is a Cambustion classifier, whose constructor
    sends its start setpoint; the counter is sampled six times; six rows are
    written, each with the mean of one sample as its concentration, the one
    sample taken since the row before; and the result matrix is two rows of
    three entries, the concentrations of the six rows in order. *)
Theorem two_by_three_law (E : Env) (cfg : Config) (fuel : nat) :
  List.length (firstX cfg) = 2%nat ->
  List.length (secondX cfg) = 3%nat ->
  average cfg = 1%Z ->
  Bypass cfg = false ->
  completed (scan E cfg fuel) = true ->
  List.length (filter (isSetpoint First (firstKind cfg))
                 (trace (scan E cfg fuel)))
  = (2 + camb (firstKind cfg))%nat
  /\ List.length (filter (isSetpoint Second (secondKind cfg))
                    (trace (scan E cfg fuel)))
     = (6 + camb (secondKind cfg))%nat
  /\ List.length (filter isSample (trace (scan E cfg fuel))) = 6%nat
  /\ Forall (fun d => exists v, dict_get "Conc " d = Some (Num (mean 1 [v])))
       (rows (scan E cfg fuel))
  /\ (exists c0 c1 c2 c3 c4 c5,
       map concOf (rows (scan E cfg fuel)) = [c0; c1; c2; c3; c4; c5]
       /\ Zm (scan E cfg fuel) = [[c0; c1; c2]; [c3; c4; c5]])
  /\ map fst (ledger (obs (scan E cfg fuel))) = rev (rows (scan E cfg fuel))
  /\ Forall (fun dv : dict * list Q =>
               exists v, snd dv = [v]
                         /\ dict_get "Conc " (fst dv) = Some (Num (mean 1 [v])))
       (ledger (obs (scan E cfg fuel)))
  /\ leadSamples (obs (scan E cfg fuel)) = [].
Proof.
  intros Hn Hm Have HB Hc.
  destruct (completed_Final E cfg fuel Hc)
    as (_ & _ & (L1 & L2 & L3 & L4 & L5 & L6 & L7)).
  set (w := scan E cfg fuel) in *.
  assert (Hlen : List.length (vrows (obs w)) = 6%nat).
  { rewrite <- length_rev, <- (length_map (tags cfg)), L1.
    unfold planned. rewrite HB, classified_length, Hn, Hm. reflexivity. }
  rewrite nset_trace in L2, L3. rewrite nsample_trace in L6.
  rewrite Hn in L2. rewrite Hlen in L3, L6. rewrite Have in L4, L6.
  split; [rewrite L2; lia|]. split; [rewrite L3; lia|].
  split; [exact L6|]. split.
  - rewrite rows_obs. apply Forall_rev. rewrite <- ledger_rows.
    apply Forall_map. eapply Forall_impl; [|exact L4].
    intros [d l] [A1 A2]. cbn [fst snd] in *.
    destruct l as [|v [|v' l]]; try discriminate.
    exists v. exact A1.
  - split; [|split; [|split]];
      [| now rewrite ledger_rows, rows_obs, rev_involutive
       | eapply Forall_impl; [|exact L4];
         intros [d l] [A1 A2]; cbn [fst snd] in *;
         destruct l as [|v [|v' l]]; try discriminate;
         exists v; split; [reflexivity | exact A1]
       | exact L5].
    change (Zm w) with (c_Zm (ctl w)). rewrite L7, Hn, Hm.
    unfold classifiedRows. rewrite HB, Hn, Hm, <- rows_obs.
    cbn [skipn Nat.mul Nat.add].
    assert (Hr : List.length (rows w) = 6%nat)
      by (rewrite rows_obs, length_rev; exact Hlen).
    destruct (rows w) as [|d0 [|d1 [|d2 [|d3 [|d4 [|d5 [|d6 r]]]]]]];
      try discriminate.
    exists (concOf d0), (concOf d1), (concOf d2),
           (concOf d3), (concOf d4), (concOf d5).
    split; reflexivity.
Qed.

Lemma two_by_three_law_witness :
  List.length (filter (isSetpoint First TSI3082)
                 (trace (scan ideal (twoByThree TSI3082 TSI3082) 200)))
  = 2%nat
  /\ List.length (filter (isSetpoint Second TSI3082)
                    (trace (scan ideal (twoByThree TSI3082 TSI3082) 200)))
     = 6%nat.
Proof.
  destruct (@two_by_three_law ideal (twoByThree TSI3082 TSI3082) 200
              eq_refl eq_refl eq_refl eq_refl
              ltac:(vm_compute; reflexivity)) as (H1 & H2 & _).
  split; [exact H1 | exact H2].
Defined.

(** C8, the counts the claim gets wrong: with a CPMA before an AAC, both
    Cambustion classifiers, the completed scan has sent three set-setpoint
    commands to the first and seven to the second. *)
Lemma constructor_setpoint_counterexample :
  completed (scan ideal (twoByThree CPMA AAC) 200) = true
  /\ List.length (filter (isSetpoint First CPMA)
                    (trace (scan ideal (twoByThree CPMA AAC) 200))) = 3%nat
  /\ List.length (filter (isSetpoint Second AAC)
                    (trace (scan ideal (twoByThree CPMA AAC) 200))) = 7%nat.
Proof. vm_compute. repeat split. Qed.

End ScanFacts.


(* ===================================================================== *)
(** ** More about whole scans                                            *)
(* ===================================================================== *)

Module RunFacts.
Import Py Classes Scan View Plan Demo Start ScanLib DictFacts ClassifierFacts
       TickFacts ShapeFacts ScanFacts.
Local Open Scope string_scope.
Local Open Scope py_scope.

Lemma planned_length cfg :
  List.length (planned cfg)
  = ((if Bypass cfg then 2 * List.length (secondX cfg) else 0)
     + List.length (firstX cfg) * List.length (secondX cfg))%nat.
Proof.
  unfold planned, bypassSweep. destruct (Bypass cfg).
  - rewrite !length_app, !sweep_length, classified_length. lia.
  - now rewrite classified_length.
Qed.

Lemma Final_rows cfg C O :
  Final cfg C O ->
  List.length (vrows O)
  = ((if Bypass cfg then 2 * List.length (secondX cfg) else 0)
     + List.length (firstX cfg) * List.length (secondX cfg))%nat.
Proof.
  intros (_ & _ & (L1 & _)).
  now rewrite <- length_rev, <- (length_map (tags cfg)), L1, planned_length.
Qed.

Lemma matrix_nth n m cs i j :
  (i < n)%nat -> (j < m)%nat ->
  nth j (nth i (matrix n m cs) []) 0%Q = nth (i * m + j) cs 0%Q.
Proof.
  intros Hi Hj. unfold matrix.
  rewrite (nth_indep _ []
             (map (fun j0 => nth (0 * m + j0) cs 0%Q) (seq 0 m)))
    by (now rewrite length_map, length_seq).
  rewrite (map_nth (fun i0 => map (fun j0 => nth (i0 * m + j0) cs 0%Q) (seq 0 m))).
  rewrite seq_nth by assumption. cbn [Nat.add].
  rewrite (nth_indep _ 0%Q (nth (i * m + 0) cs 0%Q))
    by (now rewrite length_map, length_seq).
  rewrite (map_nth (fun j0 => nth (i * m + j0) cs 0%Q)).
  now rewrite seq_nth by assumption.
Qed.

Lemma matrix_width n m cs : Forall (fun r => List.length r = m) (matrix n m cs).
Proof.
  unfold matrix. apply Forall_map, Forall_forall. intros i _.
  now rewrite length_map, length_seq.
Qed.

Lemma loop_off E cfg fuel w : timer w = false -> loop E cfg fuel w = w.
Proof. intros H. destruct fuel; cbn [loop]; [reflexivity | now rewrite H]. Qed.

(** X1.  A scan that ran to its end has left the window idle: it is no
    longer scanning, the timer is off, and both classifiers and the counter
    have been released. *)
Theorem completed_scan_released (E : Env) (cfg : Config) (fuel : nat) :
  completed (scan E cfg fuel) = true ->
  isScanning (scan E cfg fuel) = false
  /\ timer (scan E cfg fuel) = false
  /\ firstClass (scan E cfg fuel) = None
  /\ secondClass (scan E cfg fuel) = None
  /\ cpc (scan E cfg fuel) = None.
Proof.
  intros Hc. rewrite completed_obs in Hc.
  destruct (scan_Inv E cfg fuel) as [(_ & _ & HS)|[(HF & _)|(Ht & HF)]].
  - destruct HS as (ph & j & k1 & k2 & _ & _ & _ & HF & _). congruence.
  - congruence.
  - destruct HF as (Hd & _). destruct (dead_slots Hd) as (A & B & D & F).
    repeat split; assumption.
Qed.

Lemma completed_scan_released_witness :
  isScanning (scan ideal (twoByThree CPMA AAC) 200) = false
  /\ timer (scan ideal (twoByThree CPMA AAC) 200) = false
  /\ firstClass (scan ideal (twoByThree CPMA AAC) 200) = None
  /\ secondClass (scan ideal (twoByThree CPMA AAC) 200) = None
  /\ cpc (scan ideal (twoByThree CPMA AAC) 200) = None.
Proof.
  apply (@completed_scan_released ideal (twoByThree CPMA AAC) 200).
  vm_compute. reflexivity.
Defined.

(** X2.  What a scan that ran to its end has done, for any tables, averaging
    count and bypass setting: it wrote one row per inner point of every
    sweep (the classified sweeps, and two more with the bypass option); the
    first classifier got the set-setpoint command once per outer point, the
    second once per row, each once more if it is a Cambustion classifier;
    and the counter was sampled the averaging count times per row. *)
Theorem scan_counts_law (E : Env) (cfg : Config) (fuel : nat) :
  completed (scan E cfg fuel) = true ->
  List.length (rows (scan E cfg fuel))
  = ((if Bypass cfg then 2 * List.length (secondX cfg) else 0)
     + List.length (firstX cfg) * List.length (secondX cfg))%nat
  /\ List.length (filter (isSetpoint First (firstKind cfg))
                    (trace (scan E cfg fuel)))
     = (camb (firstKind cfg) + List.length (firstX cfg))%nat
  /\ List.length (filter (isSetpoint Second (secondKind cfg))
                    (trace (scan E cfg fuel)))
     = (camb (secondKind cfg) + List.length (rows (scan E cfg fuel)))%nat
  /\ List.length (filter isSample (trace (scan E cfg fuel)))
     = (Z.to_nat (average cfg) * List.length (rows (scan E cfg fuel)))%nat.
Proof.
  intros Hc. pose proof (completed_Final E cfg fuel Hc) as HF.
  pose proof (Final_rows HF) as Hn.
  destruct HF as (_ & _ & (_ & L2 & L3 & _ & _ & L6 & _)).
  rewrite nset_trace in L2, L3. rewrite nsample_trace in L6.
  rewrite rows_obs, length_rev. auto.
Qed.

Lemma scan_counts_law_witness :
  List.length (rows (scan ideal threeBypassed 200)) = 10%nat
  /\ List.length (filter (isSetpoint First CPMA)
                    (trace (scan ideal threeBypassed 200))) = 4%nat.
Proof.
  destruct (@scan_counts_law ideal threeBypassed 200
              ltac:(vm_compute; reflexivity)) as (H1 & H2 & _).
  split; [exact H1 | exact H2].
Defined.

(** X3.  In a scan that ran to its end every row holds, as its
    concentration, the mean of the samples taken since the row before, and
    these are as many as the averaging count; no sample was taken after the
    last row. *)
Theorem row_means_law (E : Env) (cfg : Config) (fuel : nat) :
  completed (scan E cfg fuel) = true ->
  map fst (ledger (obs (scan E cfg fuel))) = rev (rows (scan E cfg fuel))
  /\ Forall (fun dv : dict * list Q =>
               dict_get "Conc " (fst dv)
               = Some (Num (mean (average cfg) (rev (snd dv))))
               /\ List.length (snd dv) = Z.to_nat (average cfg))
       (ledger (obs (scan E cfg fuel)))
  /\ leadSamples (obs (scan E cfg fuel)) = [].
Proof.
  intros Hc.
  destruct (completed_Final E cfg fuel Hc) as (_ & _ & (_ & _ & _ & L4 & L5 & _)).
  split; [now rewrite ledger_rows, rows_obs, rev_involutive|].
  split; [exact L4 | exact L5].
Qed.

Lemma row_means_law_witness :
  List.length (ledger (obs (scan ideal (twoByThree CPMA AAC) 200))) = 6%nat.
Proof.
  rewrite <- (length_map fst).
  rewrite (proj1 (@row_means_law ideal (twoByThree CPMA AAC) 200
                    ltac:(vm_compute; reflexivity))).
  vm_compute. reflexivity.
Defined.

(** X4.  The result matrix of a scan that ran to its end has a row per
    outer point and a column per inner point, and its entry [(i, j)] is the
    concentration of the row written at inner point [j] of outer point [i];
    the rows of the bypass sweeps do not enter it. *)
Theorem result_matrix_law (E : Env) (cfg : Config) (fuel : nat) :
  completed (scan E cfg fuel) = true ->
  List.length (Zm (scan E cfg fuel)) = List.length (firstX cfg)
  /\ Forall (fun r => List.length r = List.length (secondX cfg))
       (Zm (scan E cfg fuel))
  /\ forall i j,
       (i < List.length (firstX cfg))%nat ->
       (j < List.length (secondX cfg))%nat ->
       nth j (nth i (Zm (scan E cfg fuel)) []) 0%Q
       = concOf (nth ((if Bypass cfg then List.length (secondX cfg) else 0)
                      + (i * List.length (secondX cfg) + j))
                   (rows (scan E cfg fuel)) []).
Proof.
  intros Hc.
  destruct (completed_Final E cfg fuel Hc)
    as (_ & _ & (_ & _ & _ & _ & _ & _ & L7)).
  change (Zm (scan E cfg fuel)) with (c_Zm (ctl (scan E cfg fuel))).
  rewrite L7, <- rows_obs.
  split; [apply matrix_rows|]. split; [apply matrix_width|].
  intros i j Hi Hj. rewrite (matrix_nth _ Hi Hj).
  change 0%Q with (concOf []). rewrite map_nth. f_equal.
  unfold classifiedRows. rewrite nth_firstn.
  destruct (Nat.ltb_spec (i * List.length (secondX cfg) + j)
              (List.length (firstX cfg) * List.length (secondX cfg)))
    as [_|Hge]; [|nia].
  now rewrite nth_skipn.
Qed.

Lemma result_matrix_law_witness :
  nth 1 (nth 2 (Zm (scan ideal threeBypassed 200)) []) 0%Q
  = concOf (nth 7 (rows (scan ideal threeBypassed 200)) []).
Proof.
  refine (proj2 (proj2 (@result_matrix_law ideal threeBypassed 200
                          ltac:(vm_compute; reflexivity))) 2%nat 1%nat _ _);
    vm_compute; lia.
Defined.

(** X5.  With an empty inner table, or an empty outer table and no bypass,
    [runScan] does not start the timer: the first [next] runs off the table.
    However long one waits, no row is written and the scan does not
    complete. *)
Theorem empty_table_law (E : Env) (cfg : Config) (fuel : nat) :
  secondX cfg = [] \/ (Bypass cfg = false /\ firstX cfg = []) ->
  timer (started E cfg) = false
  /\ scan E cfg fuel = started E cfg
  /\ rows (scan E cfg fuel) = []
  /\ completed (scan E cfg fuel) = false.
Proof.
  intros Hempty.
  assert (HP : Prep (started E cfg)).
  { unfold started. pose proof (runScan_post E cfg) as H. unfold post in H.
    destruct (runScan E cfg idle) as [[] w|e w]; cbn [settle].
    - destruct H as [(_ & _ & HS)|H]; [exfalso | exact H].
      destruct HS as (ph & j & k1 & k2 & _ & _ & HS & _).
      destruct HS as (_ & _ & _ & _ & _ & _ & _ & Hj & _ & Hph).
      destruct Hempty as [H2|[HB H1]].
      + rewrite H2 in Hj. cbn in Hj. lia.
      + destruct ph as [|i|].
        * destruct Hph as (_ & _ & _ & HB'). congruence.
        * destruct Hph as (_ & _ & _ & Hi & _). rewrite H1 in Hi. cbn in Hi. lia.
        * destruct Hph as (_ & _ & _ & HB'). congruence.
    - apply (@Prep_step [] w _ H); try reflexivity. now left. }
  destruct HP as (Ht & Hr & Hf).
  assert (Hs : scan E cfg fuel = started E cfg) by (apply loop_off; exact Ht).
  rewrite Hs. split; [exact Ht|]. split; [reflexivity|].
  split; [now rewrite rows_obs, Hr | now rewrite completed_obs].
Qed.

Lemma empty_table_law_witness :
  timer (started ideal (settings CPMA [1%Q; 2%Q] AAC [] false 1)) = false
  /\ scan ideal (settings CPMA [1%Q; 2%Q] AAC [] false 1) 50
     = started ideal (settings CPMA [1%Q; 2%Q] AAC [] false 1)
  /\ rows (scan ideal (settings CPMA [1%Q; 2%Q] AAC [] false 1) 50) = []
  /\ completed (scan ideal (settings CPMA [1%Q; 2%Q] AAC [] false 1) 50) = false.
Proof.
  apply (@empty_table_law ideal (settings CPMA [1%Q; 2%Q] AAC [] false 1) 50).
  left. reflexivity.
Defined.

End RunFacts.


(* ===================================================================== *)
(** ** More about the classifiers and the window                         *)
(* ===================================================================== *)

Module DeviceFacts.
Import Py Classes Scan View Plan Demo Start Constructed ScanLib DictFacts
       ClassifierFacts TickFacts ShapeFacts ScanFacts.
Local Open Scope string_scope.
Local Open Scope py_scope.

Lemma data_put_flow v c : data (set_sampleFlow v c) = data c.
Proof. reflexivity. Qed.

Lemma sendFloat_val E s name v w c :
  slot s w = Some c ->
  exists b w' c',
    sendFloat E s name v w = Val b w'
    /\ trace w' = Sent (Class s) (Float name v) :: trace w
    /\ slot s w' = Some c' /\ data c' = data c.
Proof.
  intros Hs. unfold sendFloat.
  destruct (sendAndCheck_val E s (Float name v) w Hs)
    as (b & w' & c' & H & Ht & _ & Hs' & Hd).
  exists b, w', c'. auto.
Qed.

(** A constructor returns, with the classifier in its slot before the
    first point and without accumulators. *)
Lemma construct_val E s k st table fl rq pol w :
  exists w' c,
    construct E s k st table fl rq pol w = Val tt w'
    /\ slot s w' = Some c
    /\ data c = (k, Z.of_nat (List.length table), (-1)%Z, table, 0%Q,
                 None, None)
    /\ trace w' = (written s k st fl rq pol ++ trace w)%list.
Proof.
  unfold construct. unfold bind at 1, modify at 1.
  set (c0 := {| kind := k; start := st; flow := fl; RorQsh := rq;
                sampleFlow := None;
                points := Z.of_nat (List.length table); point := (-1)%Z;
                X := table; x := 0%Q; values := None; tally := None;
                connected := connects E (Class s); lastResponse := "" |}).
  set (w0 := set_slot s (Some c0) w).
  assert (S0 : slot s w0 = Some c0) by apply slot_put.
  assert (T0 : trace w0 = trace w) by apply trace_put.
  clearbody w0.
  destruct (sendFloat_val E s (sheathCommand k) rq w0 S0)
    as (b1 & w1 & c1 & H1 & T1 & S1 & D1).
  unfold bind at 1. rewrite H1.
  assert (Hflow : forall w2, w2 = set_slot s (Some (set_sampleFlow (Some fl) c1)) w1 ->
            slot s w2 = Some (set_sampleFlow (Some fl) c1)
            /\ trace w2 = trace w1).
  { intros w2 ->. split; [apply slot_put | apply trace_put]. }
  destruct k.
  - unfold bind at 1, getC at 1. rewrite S1.
    unfold bind at 1, putC at 1, modify at 1.
    destruct (Hflow _ eq_refl) as [S2 T2].
    set (w2 := set_slot s _ w1) in *. clearbody w2.
    destruct (sendFloat_val E s "SetSampleFlow" fl w2 S2)
      as (b3 & w3 & c3 & H3 & T3 & S3 & D3).
    unfold bind at 1. rewrite H3.
    destruct (set_val E s st w3 S3) as (b4 & w4 & c4 & H4 & T4 & _ & S4 & D4).
    unfold bind at 1. rewrite H4. unfold ret.
    exists w4, c4. split; [reflexivity|]. split; [exact S4|]. split.
    + rewrite D4, D3, data_put_flow, D1. reflexivity.
    + rewrite T4, T3, T2, T1, T0.
      assert (Hk : kind c3 = CPMA).
      { assert (Hd : data c3 = data c0)
          by (rewrite D3, data_put_flow, D1; reflexivity).
        unfold data in Hd. now inversion Hd. }
      rewrite Hk. reflexivity.
  - unfold bind at 1, getC at 1. rewrite S1.
    unfold bind at 1, putC at 1, modify at 1.
    destruct (Hflow _ eq_refl) as [S2 T2].
    set (w2 := set_slot s _ w1) in *. clearbody w2.
    destruct (sendFloat_val E s "SetSampleFlow" fl w2 S2)
      as (b3 & w3 & c3 & H3 & T3 & S3 & D3).
    unfold bind at 1. rewrite H3.
    destruct (set_val E s st w3 S3) as (b4 & w4 & c4 & H4 & T4 & _ & S4 & D4).
    unfold bind at 1. rewrite H4. unfold ret.
    exists w4, c4. split; [reflexivity|]. split; [exact S4|]. split.
    + rewrite D4, D3, data_put_flow, D1. reflexivity.
    + rewrite T4, T3, T2, T1, T0.
      assert (Hk : kind c3 = AAC).
      { assert (Hd : data c3 = data c0)
          by (rewrite D3, data_put_flow, D1; reflexivity).
        unfold data in Hd. now inversion Hd. }
      rewrite Hk. reflexivity.
  - unfold ret. exists w1, c1. split; [reflexivity|]. split; [exact S1|].
    split; [rewrite D1; reflexivity|]. rewrite T1, T0. reflexivity.
  - unfold bind at 1, getC at 1. rewrite S1.
    unfold bind at 1, putC at 1, modify at 1.
    destruct (Hflow _ eq_refl) as [S2 T2].
    set (w2 := set_slot s _ w1) in *. clearbody w2.
    destruct (sendAndCheck_val E s
                (Text (if pol then "WSHVPOL 0" else "WSHVPOL 1")) w2 S2)
      as (b3 & w3 & c3 & H3 & T3 & _ & S3 & D3).
    unfold bind at 1. rewrite H3. unfold ret.
    exists w3, c3. split; [reflexivity|]. split; [exact S3|]. split.
    + rewrite D3, data_put_flow, D1. reflexivity.
    + rewrite T3, T2, T1, T0. reflexivity.
Qed.



(** The queries of [doMonitorCmd] go out in order. *)
Lemma sendQueries_sent E s cmds w c :
  slot s w = Some c ->
  exists w' c',
    sendQueries E s cmds w = Val tt w'
    /\ trace w'
       = (rev (map (fun q => Sent (Class s) (Text q)) cmds) ++ trace w)%list
    /\ slot s w' = Some c' /\ data c' = data c.
Proof.
  revert w c. induction cmds as [|t cmds IH]; intros w c Hs; cbn [sendQueries].
  - exists w, c. repeat split. assumption.
  - unfold bind at 1.
    destruct (sendQuery_val E s (Text t) w Hs)
      as (r & w1 & c1 & -> & Ht1 & _ & Hs1 & Hd).
    destruct (IH w1 c1 Hs1) as (w2 & c2 & -> & Ht2 & Hs2 & Hd2).
    exists w2, c2. split; [reflexivity|]. split.
    + rewrite Ht2, Ht1. cbn [map rev]. now rewrite <- app_assoc.
    + split; [exact Hs2 | congruence].
Qed.

(** X7.  A classifier that was constructed but not yet stepped cannot be
    monitored or read out.  [monitor] sends its queries and then raises: on
    a 3082 it is [AttributeError], for the accumulators that only [next]
    creates; [getFileData] raises [AttributeError] for them at once. *)
Theorem unstepped_law (E : Env) (s : Slot) (k : Kind) (st : Q)
    (table : list Q) (fl rq : Q) (pol : bool) (w w' : World) :
  construct E s k st table fl rq pol w = Val tt w' ->
  (exists e w2,
      monitor E s w' = Raise e w2
      /\ trace w2
         = (rev (map (fun q => Sent (Class s) (Text q)) (monitorCmds k))
            ++ trace w')%list
      /\ (k = TSI3082 -> e = AttributeError))
  /\ getFileData s w' = Raise AttributeError w'.
Proof.
  intros Hrun.
  destruct (construct_val E s k st table fl rq pol w)
    as (w1 & c & H & Hs & Hd & _).
  rewrite H in Hrun. injection Hrun as <-.
  assert (Hv : values c = None) by (unfold data in Hd; now inversion Hd).
  assert (Hk : kind c = k) by (unfold data in Hd; now inversion Hd).
  split.
  - unfold monitor, doMonitorCmd.
    unfold bind at 1. unfold bind at 1, getC at 1. rewrite Hs.
    unfold bind at 1, gets at 1.
    destruct (sendQueries_sent E s (monitorCmds (kind c)) w1 Hs)
      as (w2 & c2 & Hq & Ht2 & Hs2 & Hd2).
    unfold bind at 1. rewrite Hq. unfold ret at 1.
    unfold bind at 1, getC at 1. rewrite Hs2.
    assert (Hv2 : values c2 = None).
    { unfold data in Hd2. inversion Hd2. congruence. }
    rewrite Hv2. exists AttributeError, w2.
    split; [reflexivity|]. split; [|reflexivity].
    rewrite Ht2, Hk. reflexivity.
  - unfold getFileData, bind, getC. now rewrite Hs, Hv.
Qed.

Lemma unstepped_law_witness :
  let w' := settle (construct ideal First TSI3082 1 [1; 2] 3 4 true idle) in
  (exists e w2,
      monitor ideal First w' = Raise e w2
      /\ trace w2
         = (rev (map (fun q => Sent (Class First) (Text q))
                   (monitorCmds TSI3082))
            ++ trace w')%list
      /\ (TSI3082 = TSI3082 -> e = AttributeError))
  /\ getFileData First w' = Raise AttributeError w'.
Proof.
  intros w'.
  apply (@unstepped_law ideal First TSI3082 1 [1; 2]%Q 3 4 true idle w').
  vm_compute. reflexivity.
Defined.

(** What [release] leaves behind. *)
Lemma release_val (E : Env) (s : Slot) (w : World) (c : Classifier) :
  slot s w = Some c ->
  exists w',
    release E s w = Val tt w'
    /\ slot s w' = None
    /\ trace w'
       = (Released (Class s)
          :: (if isCambustion (kind c)
              then [Sent (Class s) (Text "stop")] else [])
          ++ trace w)%list.
Proof.
  intros Hs. unfold release at 1.
  unfold bind at 1, getC at 1. rewrite Hs.
  destruct (isCambustion (kind c)) eqn:Hk.
  - unfold stop_. unfold bind at 1. unfold bind at 1, getC at 1.
    rewrite Hs, Hk.
    destruct (sendAndCheck_val E s (Text "stop") w Hs)
      as (b & w1 & c1 & H1 & T1 & _ & S1 & _).
    rewrite H1. unfold bind, log, modify.
    eexists. split; [reflexivity|].
    split; [destruct s; reflexivity|].
    rewrite trace_put. cbn [trace set_trace]. now rewrite T1.
  - unfold bind, ret, log, modify.
    eexists. split; [reflexivity|].
    split; [destruct s; reflexivity|].
    rewrite trace_put. reflexivity.
Qed.



(** X9.  [reset] followed by [next] takes a classifier back to the first
    point of its table, wherever it stood: the index is 0, the setpoint is
    the first table entry, the accumulators are zero, and exactly the
    set-setpoint command for that entry has been sent. *)
Theorem reset_next_law (E : Env) (s : Slot) (w : World) (c : Classifier)
    (v : Q) (rest : list Q) :
  slot s w = Some c ->
  X c = v :: rest ->
  exists b w' c',
    (reset s ;;; next E s) w = Val b w'
    /\ slot s w' = Some c'
    /\ point c' = 0%Z /\ x c' = v
    /\ values c' = Some (zeroValues (kind c)) /\ tally c' = Some 0%Z
    /\ trace w' = Sent (Class s) (Float (sizeCommand (kind c)) v) :: trace w.
Proof.
  intros Hs HX. unfold bind at 1. unfold reset, bind at 1, getC at 1.
  rewrite Hs. unfold putC, modify.
  rewrite (next_unfold E s (set_slot s (Some (set_point (-1) c)) w)
             (slot_put s _ w)).
  cbv zeta. cbn [X point set_point set_tally set_values].
  rewrite HX. cbn [Z.add Z.opp Z.pos_sub].
  change (np_get (v :: rest) 0) with (Some v).
  edestruct (set_val E s v) as (b & w' & c' & Hr & Ht & _ & Hs' & Hd);
    [apply slot_put|].
  unfold data in Hd.
  cbn [kind points point X x values tally set_x set_point set_tally
       set_values] in Hd, Ht.
  injection Hd as K1 K2 K3 K4 K5 K6 K7.
  exists b, w', c'. split; [exact Hr|]. split; [exact Hs'|].
  split; [exact K3|]. split; [exact K5|]. split; [exact K6|].
  split; [exact K7|].
  rewrite Ht, !trace_put. reflexivity.
Qed.

Lemma reset_next_law_witness :
  exists b w' c',
    (reset First ;;; next ideal First) (holding atLastPoint) = Val b w'
    /\ slot First w' = Some c'
    /\ point c' = 0%Z /\ x c' = 1%Q
    /\ values c' = Some (zeroValues (kind atLastPoint))
    /\ tally c' = Some 0%Z
    /\ trace w'
       = Sent (Class First) (Float (sizeCommand (kind atLastPoint)) 1%Q)
           :: trace (holding atLastPoint).
Proof.
  apply (@reset_next_law ideal First (holding atLastPoint) atLastPoint
           1%Q [2%Q]); reflexivity.
Defined.

(** *** Releases in the trace *)

Lemma releasesOf_cons e t :
  releasesOf (e :: t) = (releasesOf [e] ++ releasesOf t)%list.
Proof. destruct e; reflexivity. Qed.

Lemma releasesOf_app t1 t2 :
  releasesOf (t1 ++ t2) = (releasesOf t1 ++ releasesOf t2)%list.
Proof.
  induction t1 as [|e t1 IH]; [reflexivity|].
  rewrite <- app_comm_cons, releasesOf_cons, IH, (releasesOf_cons e t1).
  now rewrite app_assoc.
Qed.

Lemma releasesOf_rev t : releasesOf (rev t) = rev (releasesOf t).
Proof.
  induction t as [|e t IH]; [reflexivity|].
  cbn [rev]. rewrite releasesOf_app, IH, (releasesOf_cons e t), rev_app_distr.
  f_equal. destruct e; reflexivity.
Qed.

Lemma vrels_vis e : vrels (vis e) = releasesOf [e].
Proof.
  destruct e as [d c|v|st b|d| |d|m| |x]; try reflexivity.
  - destruct d as [sl| |]; destruct c; reflexivity.
  - destruct b; reflexivity.
Qed.

Lemma vrels_flat t : vrels (flat_map vis t) = releasesOf t.
Proof.
  induction t as [|e t IH]; [reflexivity|].
  cbn [flat_map]. now rewrite vrels_app, vrels_vis, IH, (releasesOf_cons e t).
Qed.

Lemma releases_obs w : releasesOf (history w) = rev (vrels (obs w)).
Proof. unfold history, obs. now rewrite releasesOf_rev, vrels_flat. Qed.

(** X10.  [endScan] on a running scan with its three devices never raises.
    It switches scanning and the timer off and deletes the first
    classifier, the second classifier and the counter, in this order.
    Called again it returns at once and changes nothing. *)
Theorem endScan_law (E : Env) (w : World) (c1 c2 : Classifier) (k : Cpc) :
  isScanning w = true ->
  firstClass w = Some c1 -> secondClass w = Some c2 -> cpc w = Some k ->
  exists w',
    endScan E w = Val tt w'
    /\ isScanning w' = false /\ timer w' = false
    /\ firstClass w' = None /\ secondClass w' = None /\ cpc w' = None
    /\ releasesOf (history w')
       = (releasesOf (history w) ++ [Class First; Class Second; Counter])%list
    /\ rows w' = rows w
    /\ endScan E w' = Val tt w'.
Proof.
  intros Hsc H1 H2 H3.
  assert (Ha : alive (ctl w)).
  { unfold alive. cbn. rewrite Hsc, H1, H2, H3.
    repeat split; discriminate. }
  pose proof (endScan_alive E Ha) as H. unfold post in H.
  destruct (endScan E w) as [[] w'|e w'] eqn:He; [|contradiction].
  destruct H as (HC & mc & Hmc & HO).
  exists w'. split; [reflexivity|].
  assert (Hd : dead (ctl w')) by (rewrite HC; apply dead_kill).
  destruct (dead_slots Hd) as (A & B & D & F).
  destruct (statusClick_facts Hmc) as (M1 & M2 & _).
  split; [exact A|]. split.
  { change (timer w') with (c_timer (ctl w')). now rewrite HC. }
  split; [exact B|]. split; [exact D|]. split; [exact F|]. split.
  - rewrite !releases_obs, HO, !vrels_app, M2.
    cbn [RELS vrels app rev]. now rewrite <- !app_assoc.
  - split.
    + rewrite !rows_obs, HO, !vrows_app, M1. reflexivity.
    + apply endScan_off. rewrite HC. reflexivity.
Qed.

Lemma endScan_law_witness :
  exists w',
    endScan ideal (started ideal (twoByThree CPMA AAC)) = Val tt w'
    /\ isScanning w' = false /\ timer w' = false
    /\ firstClass w' = None /\ secondClass w' = None /\ cpc w' = None
    /\ releasesOf (history w')
       = (releasesOf (history (started ideal (twoByThree CPMA AAC)))
          ++ [Class First; Class Second; Counter])%list
    /\ rows w' = rows (started ideal (twoByThree CPMA AAC))
    /\ endScan ideal w' = Val tt w'.
Proof.
  eapply (@endScan_law ideal (started ideal (twoByThree CPMA AAC)));
    vm_compute; reflexivity.
Defined.

End DeviceFacts.


(* ===================================================================== *)
(** ** More about the sweep axis                                         *)
(* ===================================================================== *)

Module AxisFacts.
Import Sweep SweepFacts.
Local Open Scope R_scope.

Lemma ratio_pos perdec : 0 < ratio perdec.
Proof. unfold ratio, Rpower. apply exp_pos. Qed.

Lemma ratio_decade (p : nat) : (0 < p)%nat -> ratio (INR p) ^ p = 10.
Proof.
  intros Hp. rewrite <- Rpower_pow by apply ratio_pos.
  unfold ratio. rewrite Rpower_mult.
  assert (Hn : INR p <> 0) by (apply not_0_INR; lia).
  replace (1 / INR p * INR p) with 1 by (field; exact Hn).
  apply Rpower_1. lra.
Qed.

Lemma log10_decades start (k : nat) :
  0 < start -> log10 (start * 10 ^ k) - log10 start = INR k.
Proof.
  intros Hs. unfold log10.
  rewrite ln_mult by (try apply pow_lt; lra).
  rewrite ln_pow by lra.
  pose proof ln10_pos. field. lra.
Qed.

Lemma floor_epsilon (n : nat) : floor (INR n + epsilon) = Z.of_nat n.
Proof.
  unfold floor. apply Zfloor_eq. rewrite <- INR_IZR_INZ.
  unfold epsilon. lra.
Qed.

(** X11.  With a whole number [p] of points per decade, the setpoint [p]
    places further on is ten times the setpoint. *)
Theorem decade_law (start : R) (p i : nat) :
  (0 < p)%nat ->
  getPoint start (INR p) (i + p) = 10 * getPoint start (INR p) i.
Proof.
  intros Hp. unfold getPoint. rewrite pow_add, (ratio_decade Hp). ring.
Qed.

Lemma decade_law_witness :
  getPoint 1 (INR 2) (0 + 2) = 10 * getPoint 1 (INR 2) 0.
Proof. apply (@decade_law 1 2 0). lia. Defined.

(** X12.  A sweep over [k] whole decades, from [start] to [start * 10^k],
    with [p] points per decade has [k*p + 1] points, and the last of them is
    the end of the range. *)
Theorem whole_decades_law (start : R) (p k : nat) :
  0 < start -> (0 < p)%nat ->
  points start (start * 10 ^ k) (INR p) = (Z.of_nat (k * p) + 1)%Z
  /\ getPoint start (INR p) (k * p) = start * 10 ^ k.
Proof.
  intros Hs Hp. split.
  - unfold points. rewrite (log10_decades k Hs).
    rewrite <- mult_INR, (Nat.mul_comm p k). now rewrite floor_epsilon.
  - unfold getPoint. rewrite (Nat.mul_comm k p), pow_mult.
    now rewrite (ratio_decade Hp).
Qed.

Lemma whole_decades_law_witness :
  points 1 (1 * 10 ^ 2) (INR 5) = (Z.of_nat (2 * 5) + 1)%Z
  /\ getPoint 1 (INR 5) (2 * 5) = 1 * 10 ^ 2.
Proof. apply (@whole_decades_law 1 5 2); [lra | lia]. Defined.

(** X13.  The edges of the table computation.  A bound that is not
    positive makes [math.log10] raise [ValueError].  With positive bounds
    and [perdec = 0] the count is 1 and the first [getPoint] raises
    [ZeroDivisionError].  With [end = start] and [perdec] other than 0 the
    table has the one point [start].  When the end lies so far below the
    start that the count comes out as 0 the table is empty, and when it
    comes out negative [np.zeros] raises [ValueError]. *)
Theorem degenerate_axis_law (start end_ perdec : R) :
  (start <= 0 \/ end_ <= 0 -> table start end_ perdec = inl ValueError)
  /\ (0 < start -> 0 < end_ -> perdec = 0 ->
      points start end_ perdec = 1%Z
      /\ table start end_ perdec = inl ZeroDivisionError)
  /\ (0 < start -> perdec <> 0 ->
      points start start perdec = 1%Z
      /\ table start start perdec = inr [start])
  /\ (0 < start -> 0 < end_ ->
      -1 <= perdec * (log10 end_ - log10 start) + epsilon < 0 ->
      points start end_ perdec = 0%Z /\ table start end_ perdec = inr [])
  /\ (0 < start -> 0 < end_ ->
      perdec * (log10 end_ - log10 start) + epsilon < -1 ->
      (points start end_ perdec < 0)%Z
      /\ table start end_ perdec = inl ValueError).
Proof.
  split; [|split; [|split; [|split]]].
  - intros H. unfold table.
    destruct (Rle_dec end_ 0) as [_|He]; [reflexivity|].
    destruct (Rle_dec start 0) as [_|Hs]; [reflexivity | lra].
  - intros Hs He H0.
    assert (Hp : points start end_ perdec = 1%Z).
    { unfold points. rewrite H0.
      replace (0 * (log10 end_ - log10 start) + epsilon)
        with (INR 0 + epsilon) by (simpl; ring).
      now rewrite floor_epsilon. }
    split; [exact Hp|]. unfold table.
    destruct (Rle_dec end_ 0) as [He0|_]; [lra|].
    destruct (Rle_dec start 0) as [Hs0|_]; [lra|].
    cbv zeta. rewrite Hp.
    change (1 <? 0)%Z with false. change (1 =? 0)%Z with false.
    cbv iota. destruct (Req_dec_T perdec 0) as [_|Hn]; [reflexivity|].
    now elim Hn.
  - intros Hs Hn.
    assert (Hp : points start start perdec = 1%Z).
    { unfold points.
      replace (perdec * (log10 start - log10 start) + epsilon)
        with (INR 0 + epsilon) by (simpl; ring).
      now rewrite floor_epsilon. }
    split; [exact Hp|]. unfold table.
    destruct (Rle_dec start 0) as [Hs0|_]; [lra|].
    cbv zeta. rewrite Hp.
    change (1 <? 0)%Z with false. change (1 =? 0)%Z with false.
    cbv iota. destruct (Req_dec_T perdec 0) as [H0|_]; [now elim Hn|].
    change (Z.to_nat 1) with 1%nat.
    cbn [seq map]. unfold getPoint. now rewrite pow_O, Rmult_1_r.
  - intros Hs He [Hlo Hhi].
    assert (Hp : points start end_ perdec = 0%Z).
    { unfold points, floor.
      rewrite (Zfloor_eq (-1) (perdec * (log10 end_ - log10 start) + epsilon));
        [reflexivity | lra]. }
    split; [exact Hp|]. unfold table.
    destruct (Rle_dec end_ 0) as [He0|_]; [lra|].
    destruct (Rle_dec start 0) as [Hs0|_]; [lra|].
    cbv zeta. now rewrite Hp.
  - intros Hs He Hlt.
    assert (Hp : (points start end_ perdec < 0)%Z).
    { unfold points, floor.
      pose proof (Zfloor_bound (perdec * (log10 end_ - log10 start) + epsilon))
        as [Hb _].
      assert (Hz : IZR (Zfloor (perdec * (log10 end_ - log10 start) + epsilon))
                   < IZR (-1)) by lra.
      apply lt_IZR in Hz. lia. }
    split; [exact Hp|]. unfold table.
    destruct (Rle_dec end_ 0) as [He0|_]; [lra|].
    destruct (Rle_dec start 0) as [Hs0|_]; [lra|].
    cbv zeta.
    destruct (Z.ltb_spec (points start end_ perdec) 0); [reflexivity | lia].
Qed.

Lemma degenerate_axis_law_witness :
  table 0 (1 / 2) 1 = inl ValueError
  /\ (points 5 5 0 = 1%Z /\ table 5 5 0 = inl ZeroDivisionError)
  /\ (points 5 5 2 = 1%Z /\ table 5 5 2 = inr [5]).
Proof.
  split; [|split].
  - apply (proj1 (degenerate_axis_law 0 (1 / 2) 1)). left. lra.
  - apply (proj1 (proj2 (degenerate_axis_law 5 5 0))); lra.
  - apply (proj1 (proj2 (proj2 (degenerate_axis_law 5 5 2)))); lra.
Defined.

End AxisFacts.

(* ===================================================================== *)
(** ** More about the dynamic range                                      *)
(* ===================================================================== *)

Module DiameterFacts.
Import Range RangeFacts.
Local Open Scope R_scope.

Lemma pow_antitone d lo hi : 0 < d < 1 -> lo < hi -> pow d hi < pow d lo.
Proof.
  intros [Hd0 Hd1] Hlh. unfold pow, Rpower. apply exp_increasing.
  assert (Hln : ln d < 0) by (rewrite <- ln_1; now apply ln_increasing).
  nra.
Qed.

Lemma tenth_dmStar : dmStar 523.6 3 (523.6 / 10 ^ 12) = / 10.
Proof.
  unfold dmStar, pow.
  replace (523.6 / 10 ^ 12 * / 10 ^ 18 / 523.6) with ((/ 10 ^ 10) ^ 3)
    by (field; lra).
  rewrite cube_root_of_cube by (apply Rinv_0_lt_compat, pow_lt; lra).
  field.
Qed.

(** X14.  [dStar] is the diameter, in nm, of the particle whose mass is
    [mStar] fg under the mass-mobility relation [m = K * dm^Dm] (in kg and
    m): computing the mass of a particle of [d] nm and putting it into
    [dmStar] gives [d] back. *)
Theorem mass_diameter_law (K D d : R) :
  0 < K -> D <> 0 -> 0 < d ->
  dmStar K D (K * Rpower (d * / 10 ^ 9) D * 10 ^ 18) = d.
Proof.
  intros HK HD Hd. unfold dmStar, pow.
  replace (K * Rpower (d * / 10 ^ 9) D * 10 ^ 18 * / 10 ^ 18 / K)
    with (Rpower (d * / 10 ^ 9) D) by (field; lra).
  rewrite Rpower_mult.
  replace (D * (1 / D)) with 1 by (field; exact HD).
  rewrite Rpower_1; [field|].
  apply Rmult_lt_0_compat; [exact Hd|].
  apply Rinv_0_lt_compat, pow_lt. lra.
Qed.

Lemma mass_diameter_law_witness :
  dmStar 523.6 3 (523.6 * Rpower (1000 * / 10 ^ 9) 3 * 10 ^ 18) = 1000.
Proof. apply (@mass_diameter_law 523.6 3 1000); lra. Defined.

(** X15.  For a mass so small that [dStar] is below 1 nm the bounds come out
    in the wrong order: [start] is above [end]. *)
Theorem small_mass_law (law : Law) (m : R) :
  0 < dmStar (PreFactor law) (Exponent law) m < 1 ->
  f_lower law < f_upper law ->
  snd (VarDiameter law m) < fst (VarDiameter law m).
Proof.
  intros Hd Hf. unfold VarDiameter. cbn [fst snd].
  now apply pow_antitone.
Qed.

Lemma small_mass_law_witness :
  snd (VarDiameter {| PreFactor := 523.6; Exponent := 3;
                      f_lower := 0.85; f_upper := 1.1 |} (523.6 / 10 ^ 12))
  < fst (VarDiameter {| PreFactor := 523.6; Exponent := 3;
                        f_lower := 0.85; f_upper := 1.1 |} (523.6 / 10 ^ 12)).
Proof.
  apply (@small_mass_law {| PreFactor := 523.6; Exponent := 3;
                            f_lower := 0.85; f_upper := 1.1 |}
           (523.6 / 10 ^ 12)).
  - cbn [PreFactor Exponent]. rewrite tenth_dmStar. lra.
  - cbn [f_lower f_upper]. lra.
Defined.

End DiameterFacts.

(* ===================================================================== *)
(** ** More about the device link                                        *)
(* ===================================================================== *)

Module WireFacts.
Import Link LinkAux LinkFacts.
Local Open Scope string_scope.

Lemma remove_char_clean c s : free_of c (remove_char c s).
Proof.
  induction s as [|a s IH]; [exact I|]. cbn [remove_char].
  destruct (Ascii.eqb a c) eqn:Ea; [exact IH|].
  split; [|exact IH]. intros ->. now rewrite Ascii.eqb_refl in Ea.
Qed.

Lemma getRspLoop_clean i chunks turns :
  free_of gt (snd (getRspLoop i chunks turns)).
Proof.
  revert chunks. induction turns as [|t turns IH]; intros chunks; cbn [getRspLoop].
  - destruct (find chunks terminator <? 0)%Z; apply remove_char_clean.
  - destruct (find chunks terminator <? 0)%Z; [|apply remove_char_clean].
    destruct (in_time t); [|apply remove_char_clean].
    destruct (read t); [apply IH | exact I].
Qed.

Lemma length_begins s v : begins_with s v -> (String.length v <= String.length s)%nat.
Proof.
  intros [rest ->]. induction v as [|a v IH]; cbn; lia.
Qed.

(** X16.  [match(s, v)] holds exactly when [s] begins with [v].  So the
    empty [v] matches every response, a response shorter than [v] never
    matches, and the empty response matches nothing but the empty [v]. *)
Theorem match_law (s v : string) :
  (match_ s v = true <-> begins_with s v)
  /\ match_ s "" = true
  /\ ((String.length s < String.length v)%nat -> match_ s v = false)
  /\ (v <> "" -> match_ "" v = false).
Proof.
  split; [apply match_begins|]. split.
  - apply match_begins. now exists s.
  - split.
    + intros Hlen. destruct (match_ s v) eqn:Hm; [|reflexivity].
      apply match_begins, length_begins in Hm. lia.
    + apply match_empty.
Qed.

(** X17.  What [CambustionClass.getRsp] returns never contains the prompt
    character ['>'], whatever arrives and whenever the time runs out. *)
Theorem reply_has_no_prompt_law (i : Instrument) (turns : list Turn) :
  free_of gt (snd (getRsp i turns)).
Proof. unfold getRsp. apply getRspLoop_clean. Qed.

(** X18.  No operation on a link reconnects it: once [connected] is false
    it stays false through every write and every read, so a link that is
    connected after a command was connected before it. *)
Theorem link_never_reconnects_law (i : Instrument) (cmd : string)
    (ok : bool) (turns : list Turn) (r : Read) :
  connected i = false ->
  connected (sendCmd i cmd ok) = false
  /\ connected (fst (getRsp i turns)) = false
  /\ connected (fst (getRspBase i r)) = false
  /\ connected (fst (sendAndCheckCambustion i cmd ok turns)) = false
  /\ connected (fst (sendAndCheckTSI i cmd ok r)) = false.
Proof.
  intros Hc.
  assert (Hsend : connected (sendCmd i cmd ok) = false).
  { unfold sendCmd. destruct ok; [exact Hc | reflexivity]. }
  assert (Hloop : forall j, connected j = false ->
            connected (fst (getRsp j turns)) = false).
  { intros j Hj. unfold getRsp.
    destruct (getRspLoop_frame j "" turns) as [H|H]; rewrite H;
      [exact Hj | reflexivity]. }
  assert (Hbase : forall j, connected j = false ->
            connected (fst (getRspBase j r)) = false).
  { intros j Hj. destruct r; [exact Hj | reflexivity]. }
  split; [exact Hsend|]. split; [now apply Hloop|].
  split; [now apply Hbase|]. split.
  - rewrite sendAndCheckCambustion_eq. cbn [fst set_lastResponse connected].
    now apply Hloop.
  - rewrite sendAndCheckTSI_eq. cbn [fst set_lastResponse connected].
    now apply Hbase.
Qed.

Lemma link_never_reconnects_law_witness :
  connected (sendCmd {| connected := false; lastResponse := ""; sent := [] |}
               "start" true) = false
  /\ connected (fst (getRsp {| connected := false; lastResponse := ""; sent := [] |}
                       [arrives ("OK" ++ terminator)])) = false
  /\ connected (fst (getRspBase
                       {| connected := false; lastResponse := ""; sent := [] |}
                       (Chunk "OK"))) = false
  /\ connected (fst (sendAndCheckCambustion
                       {| connected := false; lastResponse := ""; sent := [] |}
                       "start" true [arrives ("OK" ++ terminator)])) = false
  /\ connected (fst (sendAndCheckTSI
                       {| connected := false; lastResponse := ""; sent := [] |}
                       "start" true (Chunk "OK"))) = false.
Proof.
  apply (@link_never_reconnects_law
           {| connected := false; lastResponse := ""; sent := [] |}
           "start" true [arrives ("OK" ++ terminator)] (Chunk "OK")).
  reflexivity.
Defined.

End WireFacts.

(* ===================================================================== *)
(** ** More about the tolerance check                                    *)
(* ===================================================================== *)

Module BandFacts.
Import Tolerance ToleranceFacts.
Local Open Scope Q_scope.

Lemma quotient_below a s t : 0 < s -> (a / s < t <-> a < t * s).
Proof.
  intros Hs. split; intros H.
  - apply (Qmult_lt_r _ _ s Hs) in H.
    rewrite Qmult_comm, Qmult_div_r in H; [exact H|].
    intros E. rewrite E in Hs. now apply Qlt_irrefl in Hs.
  - apply Qlt_shift_div_r; assumption.
Qed.

Lemma quotient_above a s t : 0 < s -> (t < a / s <-> t * s < a).
Proof.
  intros Hs. split; intros H.
  - apply (Qmult_lt_r _ _ s Hs) in H.
    rewrite (Qmult_comm (a / s)), Qmult_div_r in H; [exact H|].
    intros E. rewrite E in Hs. now apply Qlt_irrefl in Hs.
  - apply Qlt_shift_div_l; assumption.
Qed.

Lemma band_pos s m :
  0 < s ->
  (within s m = Some true
   <-> (1 - tolerance) * s < m /\ m < (1 + tolerance) * s).
Proof.
  intros Hs. rewrite within_true, Qabs_Qlt_condition.
  rewrite (quotient_below _ _ Hs), (quotient_above _ _ Hs).
  unfold tolerance. split.
  - intros (_ & H1 & H2). split; Lqa.lra.
  - intros [H1 H2]. split; [Lqa.lra|]. split; Lqa.lra.
Qed.

Lemma within_flip s m : ~ s == 0 -> within (- s) (- m) = within s m.
Proof.
  intros Hs. unfold within.
  assert (Hn : ~ - s == 0) by (intros E; apply Hs; Lqa.lra).
  rewrite (fdiv_some _ Hn), (fdiv_some _ Hs). f_equal.
  assert (Hq : (- s - - m) / - s == (s - m) / s) by (field; exact Hs).
  unfold Qltb. f_equal.
  destruct (Qle_bool tolerance (Qabs ((- s - - m) / - s))) eqn:E1;
  destruct (Qle_bool tolerance (Qabs ((s - m) / s))) eqn:E2; try reflexivity.
  - apply Qle_bool_iff in E1. rewrite Hq in E1. apply Qle_bool_iff in E1.
    congruence.
  - apply Qle_bool_iff in E2. rewrite <- Hq in E2. apply Qle_bool_iff in E2.
    congruence.
Qed.

(** X19.  The tolerance check of one channel is a band of five per cent
    around the setpoint: for a positive setpoint [s] the reading passes
    exactly when it lies strictly between [0.95 s] and [1.05 s], for a
    negative one exactly when it lies strictly between [1.05 s] and
    [0.95 s]. *)
Theorem tolerance_band_law (s m : Q) :
  (0 < s ->
     (within s m = Some true
      <-> (1 - tolerance) * s < m /\ m < (1 + tolerance) * s))
  /\ (s < 0 ->
      (within s m = Some true
       <-> (1 + tolerance) * s < m /\ m < (1 - tolerance) * s)).
Proof.
  split; [apply band_pos|]. intros Hs.
  assert (Hnz : ~ s == 0) by (intros E; rewrite E in Hs; now apply Qlt_irrefl in Hs).
  rewrite <- (within_flip m Hnz).
  assert (Hpos : 0 < - s) by Lqa.lra.
  rewrite (band_pos (- m) Hpos). unfold tolerance. split; intros [H1 H2]; split; Lqa.lra.
Qed.

Lemma tolerance_band_law_witness :
  within 100 96 = Some true
  <-> (1 - tolerance) * 100 < 96 /\ 96 < (1 + tolerance) * 100.
Proof. apply (proj1 (tolerance_band_law 100 96)). reflexivity. Defined.

(** X20.  [isReady] evaluates the voltage channel only when the sheath
    channel passed.  A scanning 3082 is ready without a reading; a zero
    sheath setpoint raises [ZeroDivisionError]; a sheath flow out of
    tolerance gives false even with a zero voltage setpoint; and with the
    sheath flow in tolerance a zero voltage setpoint raises. *)
Theorem isReady_order_law (ss sm vs vm : Q) :
  isReady true ss sm vs vm = Some true
  /\ (ss == 0 -> isReady false ss sm vs vm = None)
  /\ (within ss sm = Some false ->
      isReady false ss sm vs vm = Some false)
  /\ (within ss sm = Some true -> vs == 0 ->
      isReady false ss sm vs vm = None).
Proof.
  split; [reflexivity|]. split; [|split].
  - intros H. unfold isReady, within. now rewrite (fdiv_none _ H).
  - intros H. unfold isReady. now rewrite H.
  - intros H Hv. unfold isReady. rewrite H. unfold within.
    now rewrite (fdiv_none _ Hv).
Qed.

Lemma isReady_order_law_witness :
  isReady false 3 2 0 5 = Some false.
Proof. apply (proj1 (proj2 (proj2 (isReady_order_law 3 2 0 5)))). reflexivity. Defined.

End BandFacts.


(* ===================================================================== *)
(** ** Scans that do not start                                           *)
(* ===================================================================== *)

Module StartFacts.
Import Py Classes Scan View Plan Demo Start Constructed Frame Faults ScanLib
       DictFacts
       ClassifierFacts TickFacts ShapeFacts ScanFacts RunFacts DeviceFacts.
Local Open Scope string_scope.
Local Open Scope py_scope.

(** *** Keeping a property *)

Lemma keeps_ret A P (a : A) : keeps P (ret a).
Proof. intros w H. exact H. Qed.

Lemma keeps_raise A P e : keeps P (@raise World A e).
Proof. intros w H. exact H. Qed.

Lemma keeps_bind A B P (m : W A) (k : A -> W B) :
  keeps P m -> (forall a, keeps P (k a)) -> keeps P (bind m k).
Proof.
  intros Hm Hk w HP. eapply post_call; [apply (Hm w HP) | | auto].
  cbn beta. intros a w1 H1. now apply Hk.
Qed.

Lemma keeps_stops A B P (m : W A) (k : A -> W B) :
  stops P m -> keeps P (bind m k).
Proof.
  intros Hm w HP. eapply post_call; [apply (Hm w HP) | | auto].
  cbn beta. intros a w1 [].
Qed.

Lemma stops_first A B P (m : W A) (k : A -> W B) :
  stops P m -> stops P (bind m k).
Proof.
  intros Hm w HP. eapply post_call; [apply (Hm w HP) | | auto].
  cbn beta. intros a w1 [].
Qed.

Lemma stops_second A B P (m : W A) (k : A -> W B) :
  keeps P m -> (forall a, stops P (k a)) -> stops P (bind m k).
Proof.
  intros Hm Hk w HP. eapply post_call; [apply (Hm w HP) | | auto].
  cbn beta. intros a w1 H1. now apply Hk.
Qed.

Lemma keeps_both A (P1 P2 : World -> Prop) (m : W A) :
  keeps P1 m -> keeps P2 m -> keeps (fun w => P1 w /\ P2 w) m.
Proof.
  intros H1 H2 w [A1 A2]. specialize (H1 w A1). specialize (H2 w A2).
  unfold post in *. destruct (m w); split; assumption.
Qed.

Lemma keeps_modify P (f : World -> World) :
  (forall w, P w -> P (f w)) -> keeps P (modify f).
Proof. intros H w HP. now apply H. Qed.

Lemma keeps_gets A P (f : World -> A) : keeps P (gets f).
Proof. intros w H. exact H. Qed.

Lemma keeps_getC P s : keeps P (getC s).
Proof. intros w H. unfold post, getC. now destruct (slot s w). Qed.

Lemma keeps_getCpc P : keeps P getCpc.
Proof. intros w H. unfold post, getCpc. now destruct (cpc w). Qed.

Lemma keeps_when P b m : keeps P m -> keeps P (when b m).
Proof. intros H. destruct b; [exact H | apply keeps_ret]. Qed.

Lemma harmless_keeps A (m : W A) : harmless m -> keeps Prep m.
Proof. intros H. exact H. Qed.

(** *** The classifier in a slot *)

Section Marked.
Variable E : Env.
Variable Q : Classifier -> Prop.
Variable s : Slot.
Hypothesis Hconn : forall c, Q c -> Q (set_connected false c).
Hypothesis Hresp : forall r c, Q c -> Q (set_lastResponse r c).
Hypothesis Hstep :
  forall p t v c, Q c -> Q (set_point p (set_tally t (set_values v c))).
Hypothesis Hx : forall v c, Q c -> Q (set_x v c).

Lemma marked_frame (f : World -> World) w :
  slot s (f w) = slot s w -> marked Q s w -> marked Q s (f w).
Proof. unfold marked. now intros ->. Qed.

Lemma marked_update s' (f : Classifier -> Classifier) w c :
  slot s' w = Some c -> (Q c -> Q (f c)) ->
  marked Q s w -> marked Q s (set_slot s' (Some (f c)) w).
Proof.
  unfold marked. destruct s', s; cbn; intros Hs Hf HM;
    try exact HM; rewrite Hs in HM; auto.
Qed.

Lemma marked_put s' c' w :
  (s' = s -> Q c') -> marked Q s w -> marked Q s (set_slot s' (Some c') w).
Proof.
  unfold marked. destruct s', s; cbn; intros Hc HM;
    try exact HM; now apply Hc.
Qed.

Lemma marked_drop s' w : marked Q s w -> marked Q s (set_slot s' None w).
Proof. unfold marked. destruct s', s; cbn; auto. Qed.

Lemma marked_log e : keeps (marked Q s) (log e).
Proof.
  intros w H. unfold post, log, modify.
  apply (@marked_frame (fun w => set_trace (e :: trace w) w) w); [now destruct s | exact H].
Qed.

Lemma marked_sendQuery s' cmd : keeps (marked Q s) (sendQuery E s' cmd).
Proof.
  intros w HM. unfold post, sendQuery, step, log, bind, modify.
  set (w1 := set_trace _ _).
  assert (M1 : marked Q s w1).
  { unfold w1, marked. unfold marked in HM.
    replace (slot s (set_trace (Sent (Class s') cmd :: trace (set_clock (S (clock w)) w))
                      (set_clock (S (clock w)) w))) with (slot s w)
      by (now destruct s).
    exact HM. }
  clearbody w1.
  destruct (reply E (clock w) (Class s') cmd); [exact M1|].
  unfold getC, putC, modify, ret.
  destruct (slot s' w1) as [c|] eqn:Hs; [|exact M1].
  apply (@marked_update s' (set_connected false) w1 c Hs); [apply Hconn | exact M1].
Qed.

Lemma marked_sendAndCheck s' cmd : keeps (marked Q s) (sendAndCheck E s' cmd).
Proof.
  unfold sendAndCheck. apply keeps_bind; [apply marked_sendQuery|].
  intros r w HM. unfold post, bind, getC, putC, modify, ret.
  destruct (slot s' w) as [c|] eqn:Hs; [|exact HM].
  apply (@marked_update s' (set_lastResponse r) w c Hs); [apply Hresp | exact HM].
Qed.

Lemma marked_set s' v : keeps (marked Q s) (set E s' v).
Proof.
  unfold set, sendFloat. apply keeps_bind; [apply keeps_getC|].
  intros c. apply marked_sendAndCheck.
Qed.

Lemma marked_next s' : keeps (marked Q s) (next E s').
Proof.
  intros w HM. unfold next. unfold post at 1, bind at 1, getC at 1.
  destruct (slot s' w) as [c|] eqn:Hs; [|exact HM].
  unfold bind at 1, putC at 1, modify at 1.
  set (c1 := set_point _ _).
  assert (M1 : marked Q s (set_slot s' (Some c1) w)).
  { apply (@marked_update s'
             (fun c => set_point (point c + 1)
                         (set_tally (Some 0%Z)
                            (set_values (Some (zeroValues (kind c))) c))) w c Hs);
      [apply Hstep | exact HM]. }
  destruct (np_get (X c1) (point c1)) as [v|]; [|exact M1].
  unfold bind at 1, putC at 1, modify at 1.
  apply marked_set.
  apply (@marked_update s' (set_x v) _ c1); [apply slot_put | apply Hx | exact M1].
Qed.

Lemma marked_run s' : keeps (marked Q s) (run E s').
Proof.
  unfold run. apply keeps_bind; [apply keeps_getC|]. intros c.
  destruct (isCambustion (kind c)); [apply marked_sendAndCheck | apply keeps_ret].
Qed.

Lemma marked_stop s' : keeps (marked Q s) (stop_ E s').
Proof.
  unfold stop_. apply keeps_bind; [apply keeps_getC|]. intros c.
  destruct (isCambustion (kind c)); [apply marked_sendAndCheck | apply keeps_ret].
Qed.

Lemma marked_release s' : keeps (marked Q s) (release E s').
Proof.
  unfold release. apply keeps_bind; [apply keeps_getC|]. intros c.
  apply keeps_bind.
  { destruct (isCambustion (kind c)); [apply marked_stop | apply keeps_ret]. }
  intros _. apply keeps_bind; [apply marked_log|]. intros _.
  apply keeps_modify. intros w. apply marked_drop.
Qed.

Lemma marked_releaseCpc : keeps (marked Q s) releaseCpc.
Proof.
  unfold releaseCpc. apply keeps_bind; [apply keeps_getCpc|]. intros _.
  apply keeps_bind; [apply marked_log|]. intros _.
  apply keeps_modify. intros w. apply marked_frame. now destruct s.
Qed.

Lemma marked_window (f : World -> World) :
  (forall w, slot s (f w) = slot s w) -> keeps (marked Q s) (modify f).
Proof. intros H. apply keeps_modify. intros w. apply marked_frame, H. Qed.

Lemma marked_pump site : keeps (marked Q s) (pump E site).
Proof.
  unfold pump. apply keeps_bind; [apply keeps_gets|]. intros n.
  apply keeps_bind; [apply marked_window; intros w; now destruct s|]. intros _.
  apply keeps_bind; [apply marked_log|]. intros _. apply keeps_ret.
Qed.

Lemma marked_endScan : keeps (marked Q s) (endScan E).
Proof.
  unfold endScan. apply keeps_bind; [apply keeps_gets|]. intros sc.
  destruct (negb sc); [apply keeps_ret|].
  apply keeps_bind; [apply marked_log|]. intros _.
  apply keeps_bind; [apply marked_window; intros w; now destruct s|]. intros _.
  apply keeps_bind; [apply marked_window; intros w; now destruct s|]. intros _.
  apply keeps_bind; [apply marked_pump|]. intros _.
  apply keeps_bind; [apply marked_release|]. intros _.
  apply keeps_bind; [apply marked_release|]. intros _.
  apply marked_releaseCpc.
Qed.

Lemma marked_barf msg : keeps (marked Q s) (barf E msg).
Proof.
  unfold barf. apply keeps_bind; [apply marked_endScan|]. intros _.
  apply marked_log.
Qed.

Lemma marked_enableBypass : keeps (marked Q s) enableBypass.
Proof.
  unfold enableBypass. apply keeps_bind; [apply keeps_gets|]. intros a.
  destruct a as [[|]|]; [apply marked_log | apply keeps_ret | apply keeps_raise].
Qed.

Lemma marked_getHeader s' : keeps (marked Q s) (getHeader E s').
Proof.
  unfold getHeader. apply keeps_bind; [apply keeps_getC|]. intros c.
  destruct (kind c).
  - apply keeps_bind; [apply marked_sendQuery | intros _; apply keeps_ret].
  - apply keeps_bind; [apply marked_sendQuery | intros _; apply keeps_ret].
  - destruct (sampleFlow c); [apply keeps_ret | apply keeps_raise].
  - apply keeps_ret.
Qed.

(** A constructor for slot [s] must make a classifier that satisfies [Q];
    one for the other slot is free. *)
Lemma marked_construct s' k st table fl rq pol :
  (s' = s -> k <> TSI3080 -> forall c, Q c -> Q (set_sampleFlow (Some fl) c)) ->
  (s' = s -> Q {| kind := k; start := st; flow := fl; RorQsh := rq;
                  sampleFlow := None;
                  points := Z.of_nat (List.length table); point := (-1)%Z;
                  X := table; x := 0%Q; values := None; tally := None;
                  connected := connects E (Class s'); lastResponse := "" |}) ->
  keeps (marked Q s) (construct E s' k st table fl rq pol).
Proof.
  intros Hside H0. unfold construct.
  apply keeps_bind.
  { apply keeps_modify. intros w. now apply marked_put. }
  intros _. apply keeps_bind; [apply marked_sendAndCheck|]. intros _.
  assert (Hflow : k <> TSI3080 ->
            keeps (marked Q s)
              (c <- getC s' ;; putC s' (set_sampleFlow (Some fl) c))).
  { intros Hk w HM. unfold post, bind, getC, putC, modify.
    destruct (slot s' w) as [c|] eqn:Hs; [|exact HM].
    destruct s', s; unfold marked in *; cbn in *; try exact HM;
      rewrite Hs in HM; now apply (Hside eq_refl Hk). }
  assert (Hflow' : forall A (k' : W A), k <> TSI3080 -> keeps (marked Q s) k' ->
            keeps (marked Q s)
              (c <- getC s' ;; putC s' (set_sampleFlow (Some fl) c) ;;; k')).
  { intros A k' Hk Hk' w HM.
    pose proof (Hflow Hk w HM) as H. unfold post, bind, getC, putC, modify in *.
    destruct (slot s' w) as [c|]; [|exact HM]. now apply Hk'. }
  destruct k.
  - apply Hflow'; [discriminate|].
    apply keeps_bind; [apply marked_sendAndCheck|]. intros _.
    apply keeps_bind; [apply marked_set|]. intros _. apply keeps_ret.
  - apply Hflow'; [discriminate|].
    apply keeps_bind; [apply marked_sendAndCheck|]. intros _.
    apply keeps_bind; [apply marked_set|]. intros _. apply keeps_ret.
  - apply keeps_ret.
  - apply Hflow'; [discriminate|].
    apply keeps_bind; [apply marked_sendAndCheck|]. intros _. apply keeps_ret.
Qed.

End Marked.

(** *** Stability of the two marks *)

Lemma flowless_connected c : flowless c -> flowless (set_connected false c).
Proof. intros H. exact H. Qed.

Lemma flowless_response r c : flowless c -> flowless (set_lastResponse r c).
Proof. intros H. exact H. Qed.

Lemma flowless_step p t v c :
  flowless c -> flowless (set_point p (set_tally t (set_values v c))).
Proof. intros H. exact H. Qed.

Lemma flowless_x v c : flowless c -> flowless (set_x v c).
Proof. intros H. exact H. Qed.

Lemma unlinked_connected c : unlinked c -> unlinked (set_connected false c).
Proof. reflexivity. Qed.

Lemma unlinked_response r c : unlinked c -> unlinked (set_lastResponse r c).
Proof. intros H. exact H. Qed.

Lemma unlinked_step p t v c :
  unlinked c -> unlinked (set_point p (set_tally t (set_values v c))).
Proof. intros H. exact H. Qed.

Lemma unlinked_x v c : unlinked c -> unlinked (set_x v c).
Proof. intros H. exact H. Qed.

(** *** What setting up keeps *)

Lemma harmless_next E s : harmless (next E s).
Proof.
  intros w HP. destruct (slot s w) as [c|] eqn:Hs.
  - eapply post_weaken; [apply (next_spec E s w Hs) | |]; cbn beta.
    + intros _ w' (v & _ & HC & HO).
      apply (@Prep_step [VSet s (sizeCommand (kind c)) v] w w' HP);
        try reflexivity; [|exact HO].
      left. change (c_timer (ctl w') = c_timer (ctl w)). rewrite HC.
      now destruct s.
    + intros w' (_ & HC & HO).
      apply (@Prep_step [] w w' HP); try reflexivity; [|exact HO].
      left. change (c_timer (ctl w') = c_timer (ctl w)). rewrite HC.
      now destruct s.
  - unfold post, next, bind, getC. rewrite Hs. exact HP.
Qed.

Lemma harmless_construct E s k st table fl rq pol :
  harmless (construct E s k st table fl rq pol).
Proof.
  intros w HP.
  eapply post_weaken; [apply (construct_at E s k st table fl rq pol HP) | |];
    cbn beta; [intros _ w' (_ & _ & H); exact H | auto].
Qed.

Lemma harmless_window (f : World -> World) :
  (forall w, ctl (f w) = ctl w \/ c_timer (ctl (f w)) = c_timer (ctl w)) ->
  (forall w, obs (f w) = obs w) ->
  harmless (modify f).
Proof.
  intros Hc Ho. apply harmless_modify; [exact Ho|].
  intros w. left. change (c_timer (ctl (f w)) = c_timer (ctl w)).
  destruct (Hc w) as [H|H]; [now rewrite H | exact H].
Qed.

Section Never.
Variable E : Env.
Variable cfg : Config.
Variable s : Slot.
Hypothesis Hkind :
  match s with First => firstKind cfg | Second => secondKind cfg end = TSI3080.

Local Notation PM := (fun w => Prep w /\ marked flowless s w).

Lemma pm_getHeader_stops : stops PM (getHeader E s).
Proof.
  intros w [HP HM]. unfold post, getHeader, bind, getC.
  pose proof HM as HM'. unfold marked in HM'.
  destruct (slot s w) as [c|] eqn:Hs; [|now split].
  destruct HM' as [Hk Hf]. rewrite Hk, Hf. now split.
Qed.

Lemma pm_getHeader s' : keeps PM (getHeader E s').
Proof.
  apply keeps_both;
    [apply harmless_quiet, getHeader_quiet
    | apply (@marked_getHeader E flowless s flowless_connected)].
Qed.

Lemma pm_startRawLog_stops : stops PM (startRawLog E).
Proof.
  assert (Hs : s = First \/ s = Second) by (case s; auto).
  unfold startRawLog. destruct Hs as [Hs|Hs].
  - apply stops_first. rewrite <- Hs. apply pm_getHeader_stops.
  - apply stops_second; [apply pm_getHeader|]. intros _.
    apply stops_first. rewrite <- Hs. apply pm_getHeader_stops.
Qed.

Lemma pm_window (f : World -> World) :
  (forall w, obs (f w) = obs w) -> (forall w, timer (f w) = timer w) ->
  (forall w, slot s (f w) = slot s w) ->
  keeps PM (modify f).
Proof.
  intros Ho Ht Hs. apply keeps_both.
  - apply harmless_modify; [exact Ho | intros w; left; apply Ht].
  - apply marked_window, Hs.
Qed.

Lemma pm_construct s' k st table fl rq pol :
  (s' = s -> k = TSI3080) ->
  keeps PM (construct E s' k st table fl rq pol).
Proof.
  intros Hk. apply keeps_both; [apply harmless_construct|].
  eapply marked_construct;
    try first [ exact flowless_connected | exact flowless_response
              | exact flowless_step | exact flowless_x ].
  - intros Hs Hne. exfalso. apply Hne, Hk, Hs.
  - intros Hs. split; [apply Hk, Hs | reflexivity].
Qed.

Ltac fl :=
  try first [ exact flowless_connected | exact flowless_response
            | exact flowless_step | exact flowless_x ].

Ltac pm :=
  first
    [ apply keeps_ret | apply keeps_getC | apply keeps_getCpc
    | apply keeps_gets
    | apply keeps_both; [apply harmless_barf | eapply marked_barf; fl]
    | apply keeps_both; [apply harmless_release | eapply marked_release; fl]
    | apply keeps_both; [apply harmless_releaseCpc | eapply marked_releaseCpc; fl]
    | apply keeps_both; [apply harmless_quiet, run_quiet | eapply marked_run; fl]
    | apply keeps_both; [apply harmless_next | eapply marked_next; fl]
    | apply keeps_both;
        [apply harmless_quiet, enableBypass_quiet | eapply marked_enableBypass; fl]
    | apply pm_window; intros ?; first [reflexivity | now case s] ].

Ltac pms := repeat first [ pm | apply keeps_bind; [pm | intros ?] ].

(** With a 3080 in slot [s], [runScan] keeps the window as it is while a
    scan is set up: the timer is never started. *)
Lemma runScan_never : keeps PM (runScan E cfg).
Proof.
  unfold runScan.
  apply keeps_bind.
  { apply pm_construct. intros <-. exact Hkind. }
  intros _. apply keeps_bind; [pm|]. intros c1.
  destruct (negb (connected c1)); [pms|].
  apply keeps_bind; [pm|]. intros _.
  apply keeps_bind.
  { apply pm_construct. intros <-. exact Hkind. }
  intros _. apply keeps_bind; [pm|]. intros c2.
  destruct (negb (connected c2)); [pms|].
  apply keeps_bind; [apply keeps_when; pm|]. intros _.
  apply keeps_bind; [pm|]. intros _.
  apply keeps_bind; [pm|]. intros k.
  destruct (negb (cconnected k)); [pms|].
  apply keeps_bind; [pm|]. intros ok1.
  destruct (negb ok1); [pms|].
  apply keeps_bind; [pm|]. intros ok2.
  destruct (negb ok2); [pms|].
  apply keeps_bind; [pm|]. intros c1'.
  apply keeps_bind; [pm|]. intros c2'.
  apply keeps_bind; [pm|]. intros _.
  apply keeps_bind; [pm|]. intros _.
  apply keeps_bind; [pm|]. intros _.
  apply keeps_bind; [pm|]. intros db.
  apply keeps_bind; [destruct (negb db); pm|]. intros ok.
  destruct (negb ok); [pm|].
  apply keeps_bind; [pm|]. intros ok'.
  destruct (negb ok'); [pm|].
  apply keeps_bind; [apply keeps_when; pm|]. intros _.
  apply keeps_stops, pm_startRawLog_stops.
Qed.

End Never.

Lemma Prep_started E cfg fuel :
  Prep (started E cfg) ->
  timer (started E cfg) = false
  /\ scan E cfg fuel = started E cfg
  /\ rows (scan E cfg fuel) = []
  /\ completed (scan E cfg fuel) = false.
Proof.
  intros (Ht & Hr & Hf).
  assert (Hs : scan E cfg fuel = started E cfg) by (apply loop_off; exact Ht).
  rewrite Hs. split; [exact Ht|]. split; [reflexivity|].
  split; [now rewrite rows_obs, Hr | now rewrite completed_obs].
Qed.

Lemma Prep_idle : Prep idle.
Proof. repeat split. Qed.

(** X21.  A 3080 cannot be scanned with.  [startRawLog] asks each
    classifier for its header, and the 3080 reads a [sampleFlow] attribute
    that nothing has assigned: with a 3080 as first or second classifier
    [runScan] never starts the timer, whatever the devices do, so no row is
    ever written and the scan never completes. *)
Theorem unset_sample_flow_law (E : Env) (cfg : Config) (fuel : nat) :
  firstKind cfg = TSI3080 \/ secondKind cfg = TSI3080 ->
  timer (started E cfg) = false
  /\ scan E cfg fuel = started E cfg
  /\ rows (scan E cfg fuel) = []
  /\ completed (scan E cfg fuel) = false.
Proof.
  intros Hk. apply Prep_started. unfold started.
  assert (H : exists s, post (runScan E cfg) idle
                          (fun _ w' => Prep w' /\ marked flowless s w')
                          (fun w' => Prep w' /\ marked flowless s w')).
  { destruct Hk as [Hk|Hk]; [exists First | exists Second].
    - apply (@runScan_never E cfg First Hk idle). split; [apply Prep_idle | exact I].
    - apply (@runScan_never E cfg Second Hk idle). split; [apply Prep_idle | exact I]. }
  destruct H as [s H]. unfold post in H.
  destruct (runScan E cfg idle) as [[] w|e w]; cbn [settle].
  - exact (proj1 H).
  - apply (@Prep_step [] w _ (proj1 H)); try reflexivity. now left.
Qed.

Lemma unset_sample_flow_law_witness :
  timer (started ideal (twoByThree TSI3080 AAC)) = false
  /\ scan ideal (twoByThree TSI3080 AAC) 50 = started ideal (twoByThree TSI3080 AAC)
  /\ rows (scan ideal (twoByThree TSI3080 AAC) 50) = []
  /\ completed (scan ideal (twoByThree TSI3080 AAC) 50) = false.
Proof.
  apply (@unset_sample_flow_law ideal (twoByThree TSI3080 AAC) 50).
  left. reflexivity.
Defined.

Lemma built_plain s k st fl rq :
  vrows (built s k st fl rq) = [] /\ vrels (built s k st fl rq) = [].
Proof. unfold built. destruct (isCambustion k); split; reflexivity. Qed.

(** X22.  When the first classifier does not connect, [runScan] gives up
    right after constructing it: it warns, deletes the first classifier and
    returns.  The second classifier and the counter are never created, the
    timer is not started, and nothing is written. *)
Theorem first_link_down_law (E : Env) (cfg : Config) (fuel : nat) :
  connects E (Class First) = false ->
  timer (started E cfg) = false
  /\ isScanning (started E cfg) = false
  /\ firstClass (started E cfg) = None
  /\ secondClass (started E cfg) = None
  /\ cpc (started E cfg) = None
  /\ rows (started E cfg) = []
  /\ releasesOf (history (started E cfg)) = [Class First]
  /\ hd_error (trace (started E cfg)) = Some (Released (Class First))
  /\ In (Warned "Connection Error to First Classifier") (trace (started E cfg))
  /\ scan E cfg fuel = started E cfg.
Proof.
  intros Hdown.
  destruct (construct_val E First (firstKind cfg) (firstStart cfg) (firstX cfg)
              (firstQa cfg) (firstRorQsh cfg) (firstPolarity cfg) idle)
    as (w1 & c & H1 & S1 & D1 & T1).
  pose proof (construct_at E First (firstKind cfg) (firstStart cfg) (firstX cfg)
                (firstQa cfg) (firstRorQsh cfg) (firstPolarity cfg) Prep_idle)
    as HA.
  unfold post in HA. rewrite H1 in HA. destruct HA as (C1 & O1 & P1).
  assert (HK : keeps (marked unlinked First)
                 (construct E First (firstKind cfg) (firstStart cfg) (firstX cfg)
                    (firstQa cfg) (firstRorQsh cfg) (firstPolarity cfg))).
  { eapply marked_construct;
      try first [ exact unlinked_connected | exact unlinked_response
                | exact unlinked_step | exact unlinked_x ].
    - intros _ _ c0 Hc0. exact Hc0.
    - intros _. exact Hdown. }
  pose proof (HK idle I) as HM. unfold post in HM. rewrite H1 in HM.
  unfold marked in HM. rewrite S1 in HM.
  assert (Hoff : c_isScanning (ctl w1) = false) by (now rewrite C1).
  set (w2 := set_trace (Warned "Connection Error to First Classifier" :: trace w1) w1).
  assert (S2 : slot First w2 = Some c) by exact S1.
  pose proof (release_spec E First w2 S2) as HR. unfold post in HR.
  assert (Hrun : runScan E cfg idle = release E First w2).
  { unfold runScan. unfold bind at 1. rewrite H1.
    unfold bind at 1, getC at 1. rewrite S1, HM. cbn [negb].
    unfold bind at 1, barf, bind at 1. rewrite (endScan_off E w1 Hoff).
    reflexivity. }
  unfold started. rewrite Hrun.
  destruct (release E First w2) as [[] w3|e w3] eqn:Hrel; [|contradiction].
  destruct HR as [C3 O3]. cbn [settle].
  assert (C2 : ctl w2 = ctl w1) by reflexivity.
  assert (O2 : obs w2 = obs w1) by reflexivity.
  destruct (built_plain First (firstKind cfg) (firstStart cfg) (firstQa cfg)
              (firstRorQsh cfg)) as [B1 B2].
  assert (Hd : dead (ctl w3)).
  { rewrite C3, C2, C1. repeat split. }
  destruct (dead_slots Hd) as (A & B & D & F).
  assert (Ht : timer w3 = false).
  { change (c_timer (ctl w3) = false). now rewrite C3, C2, C1. }
  split; [exact Ht|]. split; [exact A|]. split; [exact B|].
  split; [exact D|]. split; [exact F|]. split.
  { rewrite rows_obs, O3, O2, O1. cbn [vrows]. rewrite vrows_app, B1. reflexivity. }
  split.
  { rewrite releases_obs, O3, O2, O1. cbn [vrels]. rewrite vrels_app, B2. reflexivity. }
  destruct (release_val E First w2 S2) as (w3' & Hrel' & _ & T3).
  rewrite Hrel in Hrel'. injection Hrel' as <-.
  split; [now rewrite T3|]. split.
  { rewrite T3. right. apply in_or_app. right. left. reflexivity. }
  unfold scan. rewrite Hrun. cbn [settle]. apply loop_off. exact Ht.
Qed.

Lemma first_link_down_law_witness :
  timer (started unplugged (twoByThree CPMA AAC)) = false
  /\ isScanning (started unplugged (twoByThree CPMA AAC)) = false
  /\ firstClass (started unplugged (twoByThree CPMA AAC)) = None
  /\ secondClass (started unplugged (twoByThree CPMA AAC)) = None
  /\ cpc (started unplugged (twoByThree CPMA AAC)) = None
  /\ rows (started unplugged (twoByThree CPMA AAC)) = []
  /\ releasesOf (history (started unplugged (twoByThree CPMA AAC)))
     = [Class First]
  /\ hd_error (trace (started unplugged (twoByThree CPMA AAC)))
     = Some (Released (Class First))
  /\ In (Warned "Connection Error to First Classifier")
       (trace (started unplugged (twoByThree CPMA AAC)))
  /\ scan unplugged (twoByThree CPMA AAC) 50
     = started unplugged (twoByThree CPMA AAC).
Proof.
  apply (@first_link_down_law unplugged (twoByThree CPMA AAC) 50).
  reflexivity.
Defined.

End StartFacts.
